(* ===== verification/_CoqProject ===== *)
-Q . S2P
Prelude.v
GoFloat.v
StableSort.v
GoStrings.v
GoTime.v
Values.v
Expression.v
FilterPrint.v
FilterEval.v
FilterSQL.v
Utf8.v
Transport.v
Model.v
Stats.v
Registry.v
Json.v
JsonParse.v
Store.v
Writer.v
WriterInv.v
Cleanup.v
Retention.v
Ingest.v
Workers.v
Pvqa.v
Alarm.v
Drops.v
Wav.v
Rows.v
Serialize.v
Csv.v
Queries.v
Api.v
Static.v
AlarmSource.v
Config.v
Translate.v
Dsn.v
Assembly.v
Url.v
Web.v
Views.v
Markdown.v
Pages.v
Schema.v
Subscriber.v
Notify.v
Mux.v
Server.v
Daemon.v
Bus.v
