(* ===== verification/Prelude.v ===== *)
(** * vq-db: a verification library

    vq-db (the Go program under [src/backend-go]) is the storage and query
    daemon of a voice-quality monitor.  vq-core sends it events over a message
    bus - detected streams, interval and final quality reports, audio, SIP
    calls, call health, its own statistics - and vq-db keeps an in-memory
    registry of the active streams, writes finished streams and calls to an SQL
    database, deletes what is too old or too much, evaluates alarms over what
    is stored, and serves lists, reports, audio and CSV over HTTP.  All the
    modelled code is under [src/backend-go]; below, paths are relative to it.

    ** Conventions

    A Go function that can fail becomes a function to [res E A] or [option A];
    a panic is a [None].  [int] and [int64] are [Z] with [wrap64] written where
    the code can overflow, the unsigned widths [wrapu64], [wrapu32], [wrapu16];
    [float64] is the Standard Library's [SpecFloat] at 53 bits of precision
    ([GoFloat]); a [string] is a string of bytes, as Go's is; a Go map that is
    only read is an association list, a map that is updated a stdpp [gmap];
    dynamic values ([any]) are the type [Values.any].  Names are those of the
    source; where two types have a field of the same name the model prefixes
    one.

    Code that is not in the repository is a parameter: the database behind a
    query of the API ([Queries.Engine]), the socket library, the protobuf and
    YAML parsers, the file system, the clock, Unicode tables, the local time
    zone.  What a theorem needs of them is a named hypothesis or a class with
    laws, and a witness instantiates it.  The parts of Go's standard library the
    code uses are modelled ([strconv], [strings], [sort.SliceStable], [encoding/json],
    [encoding/csv], [encoding/base64], [net/url], [path/filepath], the matching
    of [net/http.ServeMux]).

    An operation that holds its mutex for its whole body, or belongs to one
    goroutine, is one step, and histories of operations are lists of events the
    theorems quantify over.  Where goroutines share state in smaller steps their
    interleavings are modelled: [Subscriber] (reader, subscriber, callers),
    [Workers] (bus goroutine and sync worker), [Notify] (engine, two notifiers,
    main), [Retention] (cleanup worker and the writers of the database) as
    actions, each possible or not in a state.

    ** Files

    - Library: [Prelude] (results, machine integers, map literals, chunking,
      tactics), [GoFloat], [GoStrings], [Utf8], [GoTime] (float64, byte and
      UTF-8 strings, civil dates), [StableSort], [Values] (dynamic values and
      how [fmt] prints them), [Json] and [JsonParse] ([json.Marshal], and the
      decoder into the types the code decodes to), [Url] ([net/url]), [Mux]
      ([net/http.ServeMux]).
    - Filters ([internal/filter]): [Expression] tokenises and parses, against
      an inductive grammar with termination, soundness, completeness and
      unambiguity; [FilterPrint] prints what parses back; [FilterEval]
      evaluates, with a type system under which no filter errs; [FilterSQL]
      emits SQL whose literals only travel as bound parameters; [Transport] is
      the filter's transport string and its round trip.
    - Live state ([internal/model], [internal/state], [internal/stats],
      [internal/translate]): [Model] the events; [Translate] decoded messages
      to events, with addresses that identify; [Registry] the active streams,
      refining an insertion-ordered dictionary; [Stats] the active list.
    - Storage ([internal/db]): [Dsn] connection strings; [Store] the tables, a
      connection that may fail at any statement, busy retries; [Schema]
      bootstrap and migration from any earlier version, whatever fails;
      [Writer] and [WriterInv] every operation of the writer, those of
      [internal/db/cleanup.go] included, its invariant over all histories and
      faults, finals, audio, purges, the records limit;
      [Cleanup] retention, safe wherever a pass stops, and [Retention] the
      cleanup worker beside the other goroutines.
    - The bus ([internal/bus], [internal/ingest], [internal/worker]):
      [Subscriber] the subscriber's goroutines; [Ingest] dispatch, the ghost
      sweeper and the bus goroutine, refining an abstract machine that stores
      one row per stream; [Bus] both together, from the socket to the
      tables; [Workers] track lists: persistence, the control
      client, the sync worker and its retries.
    - Quality ([internal/pvqa], [internal/alarm]): [Pvqa] interval reports and
      detector counters; [Alarm] rules and the engine's state machine with its
      notification protocol; [AlarmSource] the measurements; [Drops] the
      capture-drop history; [Notify] queues, commands, webhooks, stored events
      and shutdown.
    - The API ([internal/api]): [Rows], [Serialize], [Csv], [Wav] what is sent;
      [Queries] every statement with its arguments and what is made of its
      rows; [Api] the handlers; [Static] the static frontend.
    - The dashboard ([internal/web]): [Web] formatting and rendering, [Views]
      list cards, links and their reading, [Markdown] the text copies, [Pages]
      every page.
    - The whole ([cmd/vq-db], [internal/config]): [Config] the configuration,
      [Assembly] which setting reaches which component, [Server] routes and
      dispatch, [Daemon] start-up, shutdown and exit codes.

    ** What the theorems show

    - State: the refinement of the registry and of the whole ingest pipeline
      holds over every history, with faults at any statement, and so does the
      invariant of the writer, but for the streams a cleanup pass deleted; retention and the records limit delete exactly what they
      should; opening a database loses nothing.
    - Languages and formats: the parser decides its grammar; filters, transport
      strings, CSV, audio files, track lists, verdicts, stream ids and the links
      of the dashboard read back as what was written.
    - Alarms: a rule is in alarm exactly when its last measurement was bad, its
      notifications follow the protocol, and each is stored, run and posted in
      order up to the queues' bound, through the shutdown.
    - Safety: the string literals, call ids, times and pages of a user are
      bound and never part of an SQL text, only numbers are pasted into a shell
      line, the path of a static file lies below the root, only the track routes
      write, and the daemon starts a part after what it uses and stops its parts
      in order.
    - Liveness and termination: no engine restart is lost, the sync recovers,
      the alarms' shutdown ends with everything delivered, browsing shows every
      stream.

    ** Fuel

    [Tokenize] has one unit per byte and consumes a byte per iteration;
    [parse] has one more than the tokens and each call consumes a token:
    [Parse_decides_grammar] proves that neither runs out.  [JsonParse] has two
    units per byte of the text; [soci_loop] one more than the bytes, and each
    round passes an equals sign; [chunks] one unit per element; [scale] the four
    larger units of a size.  The retry loop of the sync has 17 attempts, which
    [syncAfterKick_recovers] proves to be enough for its deadline; [browse]
    follows one link more than there are streams.  [digits_fuel] and the decimal
    conversions are bounded by the binary logarithm of the number, with lemmas
    where a theorem depends on it.

    ** Not modelled

    The generated protobuf code and the wire format; the socket library, the
    HTTP server and client and child processes (their results are chosen by the
    environment); the execution of SQL text by the database - statements whose
    meaning matters to a theorem are functions on the tables, and the queries of
    the API are their text, their arguments and what the code makes of the
    rows; how the driver converts NaN and large unsigned values; the HTML
    templates; symbolic links; log messages, the clock and signals. *)

From stdpp Require Export base tactics numbers list list_numbers option strings gmap fin_maps sets sorting.
From Stdlib Require Export ZArith Lia Ascii.

(** The notations of this library live in a scope of their own. *)
Declare Scope go_scope.
Delimit Scope go_scope with go.
#[global] Open Scope go_scope.
#[global] Open Scope Z_scope.

(** Concatenation computes on constructors. *)
#[global] Arguments String.append !_ _ / : simpl nomatch.

(** * Fallible results

    A Go function that returns [(T, error)] becomes a function to [res E T]. *)
Inductive res (E A : Type) : Type :=
| Ok (a : A)
| Err (e : E).
Arguments Ok {E A} a.
Arguments Err {E A} e.

Definition res_bind {E A B} (m : res E A) (k : A -> res E B) : res E B :=
  match m with Ok a => k a | Err e => Err e end.

Definition res_map {E A B} (f : A -> B) (m : res E A) : res E B :=
  match m with Ok a => Ok (f a) | Err e => Err e end.

Arguments res_bind {E A B} !m k /.
Arguments res_map {E A B} f !m /.

Definition is_ok {E A} (m : res E A) : bool :=
  match m with Ok _ => true | Err _ => false end.

Notation "'let?' x ':=' m 'in' k" := (res_bind m (fun x => k))
  (at level 10, x pattern, m at level 100, k at level 200,
   format "'[v' 'let?'  x  ':='  m  'in' '/' k ']'") : go_scope.

Lemma res_bind_Ok {E A B} (m : res E A) (k : A -> res E B) b :
  res_bind m k = Ok b <-> exists a, m = Ok a /\ k a = Ok b.
Proof. destruct m; simpl; naive_solver. Qed.

Lemma res_bind_Err {E A B} (m : res E A) (k : A -> res E B) e :
  res_bind m k = Err e <-> m = Err e \/ exists a, m = Ok a /\ k a = Err e.
Proof. destruct m; simpl; naive_solver. Qed.

(** * Machine integers *)

(** Two's complement wrap-around of a 64-bit signed integer ([int64], and
    [int] on a 64-bit target), and of the unsigned widths. *)
Definition wrap64 (z : Z) : Z :=
  (z + 2 ^ 63) `mod` 2 ^ 64 - 2 ^ 63.
Definition wrapu64 (z : Z) : Z := z `mod` 2 ^ 64.
Definition wrapu32 (z : Z) : Z := z `mod` 2 ^ 32.
Definition wrapu16 (z : Z) : Z := z `mod` 2 ^ 16.

Definition min_int64 : Z := - 2 ^ 63.
Definition max_int64 : Z := 2 ^ 63 - 1.
Definition in_int64 (z : Z) : Prop := min_int64 <= z <= max_int64.

#[export] Instance in_int64_dec z : Decision (in_int64 z).
Proof. unfold in_int64. apply _. Defined.

Lemma wrap64_id z : in_int64 z -> wrap64 z = z.
Proof.
  unfold in_int64, min_int64, max_int64, wrap64. intros H.
  rewrite Z.mod_small; lia.
Qed.

Lemma wrap64_range z : in_int64 (wrap64 z).
Proof.
  unfold in_int64, min_int64, max_int64, wrap64.
  pose proof (Z.mod_pos_bound (z + 2 ^ 63) (2 ^ 64)). lia.
Qed.

Lemma wrapu64_range z : 0 <= wrapu64 z < 2 ^ 64.
Proof. apply Z.mod_pos_bound. lia. Qed.

Lemma wrapu64_add_l a b : wrapu64 (wrapu64 a + b) = wrapu64 (a + b).
Proof. unfold wrapu64. apply Z.add_mod_idemp_l. lia. Qed.

Lemma wrap64_add_l a b : wrap64 (wrap64 a + b) = wrap64 (a + b).
Proof.
  unfold wrap64. f_equal.
  replace ((a + 2 ^ 63) `mod` 2 ^ 64 - 2 ^ 63 + b + 2 ^ 63)
    with ((a + 2 ^ 63) `mod` 2 ^ 64 + b) by lia.
  rewrite Z.add_mod_idemp_l by lia. f_equal. lia.
Qed.

(** [time.Time.Sub], which saturates: times and durations are nanoseconds. *)
Definition time_sub (a b : Z) : Z := Z.max min_int64 (Z.min max_int64 (a - b)).

(** * Go map literals

    A Go [map[string]V] that is built once and only read is the association
    list of its literal; the first entry of a key wins, and the literals have
    distinct keys. *)
Fixpoint mlookup {V} (k : string) (m : list (string * V)) : option V :=
  match m with
  | [] => None
  | (k', v) :: m => if String.eqb k k' then Some v else mlookup k m
  end.

Lemma mlookup_Some_elem {V} k (m : list (string * V)) v :
  mlookup k m = Some v -> (k, v) ∈ m.
Proof.
  induction m as [|[k' v'] m IH]; simpl; [done|].
  destruct (String.eqb_spec k k') as [->|]; intros; simplify_eq; set_solver.
Qed.

Lemma mlookup_elem_Some {V} k (m : list (string * V)) :
  k ∈ m.*1 -> exists v, mlookup k m = Some v.
Proof.
  induction m as [|[k' v'] m IH]; simpl; [set_solver|].
  destruct (String.eqb_spec k k') as [->|]; set_solver.
Qed.

Lemma mlookup_forall {V} (P : V -> Prop) k (m : list (string * V)) v :
  Forall P m.*2 -> mlookup k m = Some v -> P v.
Proof.
  intros HP Hk%mlookup_Some_elem. rewrite Forall_forall in HP.
  apply HP. apply list_elem_of_fmap. by exists (k, v).
Qed.

(** The Go map of a literal. *)
Lemma mlookup_cons {V} k k' (v : V) m :
  mlookup k ((k', v) :: m) = if String.eqb k k' then Some v else mlookup k m.
Proof. done. Qed.

Lemma mlookup_app {V} k (l l' : list (string * V)) :
  mlookup k (l ++ l') = match mlookup k l with Some v => Some v | None => mlookup k l' end.
Proof. induction l as [|[n x] l IH]; [done|]. cbn [app]. rewrite !mlookup_cons. by destruct (String.eqb k n). Qed.

Lemma mlookup_filter_key {V} k (l : list (string * V)) : mlookup k (List.filter (fun kv => String.eqb kv.1 k) l) = mlookup k l.
Proof.
  induction l as [|[k' v] l IH]; [done|]. rewrite mlookup_cons. cbn [List.filter fst].
  rewrite (String.eqb_sym k k'). destruct (String.eqb_spec k' k) as [->|Hn]; [|done].
  by rewrite mlookup_cons, String.eqb_refl.
Qed.

Lemma mlookup_snoc {V} k (v : V) m : mlookup k m = None -> mlookup k (m ++ [(k, v)]) = Some v.
Proof.
  induction m as [|[n x] m IH]; cbn [app]; rewrite mlookup_cons; [by rewrite String.eqb_refl|].
  rewrite mlookup_cons. by destruct (String.eqb k n).
Qed.

Lemma mlookup_update {V} k (v w : V) m : mlookup k m = Some w ->
  mlookup k ((fun '(n, x) => if String.eqb n k then (n, v) else (n, x)) <$> m) = Some v.
Proof.
  induction m as [|[n x] m IH]; [done|]. rewrite fmap_cons, mlookup_cons, String.eqb_sym.
  destruct (String.eqb_spec n k) as [->|Hn]; rewrite mlookup_cons; [by rewrite String.eqb_refl|].
  apply String.eqb_neq in Hn. by rewrite String.eqb_sym, Hn.
Qed.

Lemma list_to_map_mlookup {V} (m : list (string * V)) k :
  (list_to_map m : gmap string V) !! k = mlookup k m.
Proof.
  induction m as [|[k' v] m IH]; simpl; [by rewrite lookup_empty|].
  destruct (String.eqb_spec k k') as [->|]; [by rewrite lookup_insert_eq|].
  by rewrite lookup_insert_ne.
Qed.

(** Evaluate a lookup of a concrete key without touching the values. *)
Ltac mlookup_red :=
  cbv beta iota fix delta [mlookup String.eqb Ascii.eqb Bool.eqb].

Arguments mlookup : simpl never.

(** * Automation *)

(** Split every [match] and [if] of the goal and the hypotheses that the
    context has not decided yet. *)
Ltac case_all :=
  repeat (case_match; simplify_eq/=; try done).

(** Membership in a literal list. *)
Ltac in_list := solve [repeat (apply list_elem_of_here || apply list_elem_of_further)].

(** Turn the boolean comparisons of the code into propositions. *)
Ltac zbool :=
  repeat match goal with
  | H : Z.ltb _ _ = true |- _ => apply Z.ltb_lt in H
  | H : Z.ltb _ _ = false |- _ => apply Z.ltb_ge in H
  | H : Z.leb _ _ = true |- _ => apply Z.leb_le in H
  | H : Z.leb _ _ = false |- _ => apply Z.leb_gt in H
  | H : Z.eqb _ _ = true |- _ => apply Z.eqb_eq in H
  | H : Z.eqb _ _ = false |- _ => apply Z.eqb_neq in H
  | H : andb _ _ = true |- _ => apply andb_true_iff in H as [? ?]
  | H : negb _ = true |- _ => apply negb_true_iff in H
  | H : negb _ = false |- _ => apply negb_false_iff in H
  end.

Create HintDb vqdb discriminated.
#[export] Hint Resolve wrap64_range wrapu64_range : vqdb.

(** * Lists *)

Section lists.
Context {A : Type}.
Implicit Types l : list A.

Lemma NoDup_filter_bool (P : A -> bool) l : NoDup l -> NoDup (List.filter P l).
Proof.
  induction 1 as [|x l Hx _ IH]; simpl; [constructor|].
  destruct (P x); [constructor|]; auto.
  rewrite list_elem_of_In, filter_In, <- list_elem_of_In. tauto.
Qed.

Lemma elem_of_filter_bool (P : A -> bool) l x :
  x ∈ List.filter P l <-> x ∈ l /\ P x = true.
Proof. rewrite !list_elem_of_In. apply filter_In. Qed.

(** A filter that keeps every element is the identity. *)
Lemma filter_all (P : A -> bool) l :
  (forall x, x ∈ l -> P x = true) -> List.filter P l = l.
Proof.
  induction l as [|x l IH]; simpl; intros H; [done|].
  rewrite (H x) by set_solver. f_equal. apply IH. set_solver.
Qed.

Lemma filter_none (P : A -> bool) l :
  (forall x, x ∈ l -> P x = false) -> List.filter P l = [].
Proof.
  induction l as [|x l IH]; simpl; intros H; [done|].
  rewrite (H x) by set_solver. apply IH. set_solver.
Qed.

Lemma filter_filter (P Q : A -> bool) l :
  List.filter P (List.filter Q l) = List.filter (fun x => Q x && P x) l.
Proof.
  induction l as [|x l IH]; simpl; [done|].
  destruct (Q x) eqn:?; simpl; [destruct (P x)|]; simpl; congruence.
Qed.
End lists.

Lemma filter_fmap_comm {A B} (f : A -> B) (p : B -> bool) (q : A -> bool) l :
  (forall x, p (f x) = q x) -> List.filter p (f <$> l) = f <$> List.filter q l.
Proof.
  intros Hpq. induction l as [|x l IH]; [done|]. cbn [fmap list_fmap List.filter].
  rewrite Hpq. destruct (q x); rewrite IH; done.
Qed.

Lemma omap_unfold {A B} (f : A -> option B) x l :
  omap f (x :: l) = option_list (f x) ++ omap f l.
Proof. cbn. by destruct (f x). Qed.

Lemma NoDup_fst_filter {A B} (p : A * B -> bool) (l : list (A * B)) : NoDup l.*1 -> NoDup (List.filter p l).*1.
Proof.
  induction l as [|x l IH]; [done|]. rewrite fmap_cons, NoDup_cons. intros [Hx Hl]. cbn [List.filter].
  destruct (p x); [|by apply IH]. rewrite fmap_cons. apply NoDup_cons. split; [|by apply IH].
  intros (y & E & Hy)%list_elem_of_fmap. apply Hx, list_elem_of_fmap. exists y. split; [done|].
  apply list_elem_of_In, List.filter_In in Hy as [Hy _]. by apply list_elem_of_In.
Qed.

(** A decidable fact about the integers of a range, by computation. *)
Lemma range_decide (P : Z -> Prop) `{!forall z, Decision (P z)} lo n :
  forallb (fun z => bool_decide (P z)) (seqZ lo n) = true -> forall z, lo <= z < lo + n -> P z.
Proof.
  intros Hall z Hz. rewrite forallb_forall in Hall.
  apply (bool_decide_unpack (P z)), Is_true_true, Hall, list_elem_of_In, elem_of_seqZ. lia.
Qed.

Lemma default_head_in {A} (d : A) (l : list A) :
  (0 <? length l)%nat = true -> default d (head l) ∈ l.
Proof. destruct l; simpl; [done|]. intros _. apply elem_of_cons. by left. Qed.

(** * Chunks

    The loops [for start := 0; start < len(l); start += n] over slices of at
    most [n] elements; each round takes at least one, so the length is enough
    fuel. *)
Fixpoint chunks_fuel {A} (fuel n : nat) (l : list A) : list (list A) :=
  match fuel, l with
  | S fuel, _ :: _ => take n l :: chunks_fuel fuel n (drop n l)
  | _, _ => []
  end.
Definition chunks {A} (n : nat) (l : list A) : list (list A) := chunks_fuel (length l) n l.

Lemma chunks_concat {A} n (l : list A) : (0 < n)%nat -> concat (chunks n l) = l.
Proof.
  intros Hn. unfold chunks.
  enough (forall fuel (l : list A), (length l <= fuel)%nat -> concat (chunks_fuel fuel n l) = l) by auto.
  clear l. induction fuel as [|fuel IH]; intros [|x l] Hl; simpl in *; try done; [lia|].
  destruct n as [|n]; [lia|]. simpl. f_equal. rewrite IH by (rewrite length_drop; lia).
  apply take_drop.
Qed.

Lemma chunks_bound {A} n (l : list A) : Forall (fun c => (length c <= n)%nat) (chunks n l).
Proof.
  unfold chunks. generalize (length l). intros fuel. revert l.
  induction fuel as [|fuel IH]; intros [|x l]; simpl; try done; constructor; auto.
  rewrite length_take. lia.
Qed.

(** * Sums *)

Lemma sum_snoc (l : list Z) z : foldr Z.add 0 (l ++ [z]) = foldr Z.add 0 l + z.
Proof. induction l as [|x l IH]; simpl; lia. Qed.
