(* ===== verification/GoFloat.v ===== *)
(** Go's [float64]: IEEE 754 binary64 as the Standard Library's executable
    specification floats ([SpecFloat] at precision 53 and maximal exponent
    1024, without NaN payloads), the operators the code applies to them, and
    the order facts the sorting and filtering components use. *)

From S2P Require Import Prelude.
From Stdlib Require Export SpecFloat.

(** [spec_float] values are the binary64 data; every operation rounds to
    nearest, ties to even, as Go's do. *)
Abbreviation float64 := spec_float.

Definition f64_of_Z (z : Z) : float64 := binary_normalize 53 1024 z 0 false.

Definition fadd (x y : float64) : float64 := SFadd 53 1024 x y.
Definition fsub (x y : float64) : float64 := SFsub 53 1024 x y.
Definition fmul (x y : float64) : float64 := SFmul 53 1024 x y.
Definition fdiv (x y : float64) : float64 := SFdiv 53 1024 x y.

Definition feq (x y : float64) : bool := SFeqb x y.
Definition flt (x y : float64) : bool := SFltb x y.
Definition fle (x y : float64) : bool := SFleb x y.
Definition fgt (x y : float64) : bool := flt y x.
Definition fge (x y : float64) : bool := fle y x.

Definition fzero : float64 := S754_zero false.
Definition fis_nan (x : float64) : bool :=
  match x with S754_nan => true | _ => false end.

(** [f_ratio n d] is the float64 nearest to the rational [n / d] ([d > 0]):
    the value of a decimal or hexadecimal literal. *)
Definition f_ratio (neg : bool) (n d : positive) : float64 :=
  let '(mz, ez, lz) := SFdiv_core_binary 53 1024 (Zpos n) 0 (Zpos d) 0 in
  binary_round_aux 53 1024 neg mz ez lz.

(** The float64 nearest to [n * 10^e]. *)
Definition f_decimal (neg : bool) (n e : Z) : float64 :=
  match n with
  | Zpos p =>
      match e with
      | Zneg q => f_ratio neg p (Z.to_pos (10 ^ Zpos q))
      | _ => binary_round 53 1024 neg (Z.to_pos (Zpos p * 10 ^ e)) 0
      end
  | _ => S754_zero neg
  end.

(** The float64 nearest to [n * 2^e]. *)
Definition f_binary (neg : bool) (n e : Z) : float64 :=
  match n with
  | Zpos p => binary_round 53 1024 neg p e
  | _ => S754_zero neg
  end.

(** [int64(f)]: truncation toward zero. A value that does not fit has an
    implementation-defined result; on amd64 it is the smallest int64. *)
Definition f_trunc (x : float64) : Z :=
  match x with
  | S754_finite s m e =>
      let a := match e with
               | Zneg p => Z.shiftr (Zpos m) (Zpos p)
               | _ => Z.shiftl (Zpos m) e
               end in
      if s then - a else a
  | S754_zero _ => 0
  | _ => min_int64
  end.
Definition int64_of_f64 (x : float64) : Z :=
  let z := f_trunc x in
  if bool_decide (in_int64 z) then z else min_int64.

(** * Order *)

(** The comparison of two floats as a lexicographic key: it turns the
    operators into an integer order. *)
Definition fkey (x : float64) : Z * Z * Z :=
  match x with
  | S754_nan => (0, 0, 0)
  | S754_infinity true => (-2, 0, 0)
  | S754_infinity false => (2, 0, 0)
  | S754_zero _ => (0, 0, 0)
  | S754_finite true m e => (-1, - e, - Zpos m)
  | S754_finite false m e => (1, e, Zpos m)
  end.

Definition key_cmp (a b : Z * Z * Z) : comparison :=
  let '(a1, a2, a3) := a in let '(b1, b2, b3) := b in
  match a1 ?= b1 with
  | Eq => match a2 ?= b2 with Eq => a3 ?= b3 | c => c end
  | c => c
  end.

Lemma SFcompare_key x y :
  fis_nan x = false -> fis_nan y = false ->
  SFcompare x y = Some (key_cmp (fkey x) (fkey y)).
Proof.
  destruct x as [[]|[]| |[] m e], y as [[]|[]| |[] m' e']; simpl; try done;
    intros _ _; f_equal.
  rewrite Z.compare_opp, (Z.compare_antisym e e'). by destruct (e ?= e').
Qed.

Lemma SFcompare_nan x y :
  fis_nan x || fis_nan y = true -> SFcompare x y = None.
Proof. destruct x as [[]|[]| |[] m e], y as [[]|[]| |[] m' e']; done. Qed.

Lemma key_cmp_lt a b :
  key_cmp a b = Lt <->
  let '(a1, a2, a3) := a in let '(b1, b2, b3) := b in
  a1 < b1 \/ a1 = b1 /\ (a2 < b2 \/ a2 = b2 /\ a3 < b3).
Proof.
  destruct a as [[a1 a2] a3], b as [[b1 b2] b3]; simpl.
  destruct (Z.compare_spec a1 b1), (Z.compare_spec a2 b2), (Z.compare_spec a3 b3);
    split; intros; try done; lia.
Qed.

Lemma key_cmp_eq a b : key_cmp a b = Eq <-> a = b.
Proof.
  destruct a as [[a1 a2] a3], b as [[b1 b2] b3]; simpl.
  destruct (Z.compare_spec a1 b1), (Z.compare_spec a2 b2), (Z.compare_spec a3 b3);
    split; intros; simplify_eq; try done; lia.
Qed.

Lemma flt_key x y :
  flt x y = true <->
  fis_nan x = false /\ fis_nan y = false /\ key_cmp (fkey x) (fkey y) = Lt.
Proof.
  unfold flt, SFltb.
  destruct (fis_nan x) eqn:Hx; [rewrite SFcompare_nan by (by rewrite Hx); naive_solver|].
  destruct (fis_nan y) eqn:Hy; [rewrite SFcompare_nan by (by rewrite Hy, orb_true_r); naive_solver|].
  rewrite SFcompare_key by done. destruct (key_cmp _ _); naive_solver.
Qed.

Lemma feq_key x y :
  feq x y = true <->
  fis_nan x = false /\ fis_nan y = false /\ fkey x = fkey y.
Proof.
  unfold feq, SFeqb.
  destruct (fis_nan x) eqn:Hx; [rewrite SFcompare_nan by (by rewrite Hx); naive_solver|].
  destruct (fis_nan y) eqn:Hy; [rewrite SFcompare_nan by (by rewrite Hy, orb_true_r); naive_solver|].
  rewrite SFcompare_key, <- key_cmp_eq by done. destruct (key_cmp _ _); naive_solver.
Qed.

Lemma flt_irrefl x : flt x x = false.
Proof.
  apply not_true_iff_false. rewrite flt_key. intros (_ & _ & H).
  by rewrite (proj2 (key_cmp_eq _ _) eq_refl) in H.
Qed.

Lemma flt_trans x y z : flt x y = true -> flt y z = true -> flt x z = true.
Proof.
  rewrite !flt_key, !key_cmp_lt. intros (? & ? & H1) (? & ? & H2).
  split_and!; [done..|].
  destruct (fkey x) as [[??]?], (fkey y) as [[??]?], (fkey z) as [[??]?]. lia.
Qed.

Lemma flt_asym x y : flt x y = true -> flt y x = false.
Proof.
  intros H1. apply not_true_iff_false. intros H2.
  pose proof (flt_trans _ _ _ H1 H2) as H. by rewrite flt_irrefl in H.
Qed.

(** On numbers that are not NaN, [<] is a strict weak order. *)
Lemma flt_negtrans x y z :
  fis_nan y = false -> flt x z = true -> flt x y = true \/ flt y z = true.
Proof.
  rewrite !flt_key, !key_cmp_lt. intros ? (? & ? & H).
  destruct (fkey x) as [[a1 a2] a3], (fkey y) as [[b1 b2] b3], (fkey z) as [[c1 c2] c3].
  destruct (decide (a1 < b1 \/ a1 = b1 /\ (a2 < b2 \/ a2 = b2 /\ a3 < b3))); [left|right];
    split_and!; try done; lia.
Qed.

Lemma feq_sym x y : feq x y = feq y x.
Proof. apply eq_true_iff_eq. rewrite !feq_key. naive_solver. Qed.

Lemma fle_flt_feq x y : fle x y = flt x y || feq x y.
Proof. unfold fle, SFleb, flt, SFltb, feq, SFeqb. by destruct (SFcompare x y) as [[]|]. Qed.

(** Exactly one of the three orders holds between two numbers. *)
Lemma f_trichotomy x y :
  fis_nan x = false -> fis_nan y = false ->
  (flt x y, feq x y, flt y x) = (true, false, false) \/
  (flt x y, feq x y, flt y x) = (false, true, false) \/
  (flt x y, feq x y, flt y x) = (false, false, true).
Proof.
  intros Hx Hy. unfold flt, SFltb, feq, SFeqb. rewrite !SFcompare_key by done.
  destruct (fkey x) as [[a1 a2] a3], (fkey y) as [[b1 b2] b3]; simpl.
  destruct (Z.compare_spec a1 b1), (Z.compare_spec b1 a1),
    (Z.compare_spec a2 b2), (Z.compare_spec b2 a2),
    (Z.compare_spec a3 b3), (Z.compare_spec b3 a3); try lia; naive_solver.
Qed.

Lemma fle_flt x y : fis_nan x = false -> fis_nan y = false -> fle x y = negb (flt y x).
Proof.
  intros Hx Hy. rewrite fle_flt_feq. destruct (f_trichotomy x y Hx Hy) as [E|[E|E]]; by injection E as -> -> ->.
Qed.

Lemma fle_nan x y : fle x y = true -> fis_nan x = false /\ fis_nan y = false.
Proof. rewrite fle_flt_feq, orb_true_iff, flt_key, feq_key. intros [(? & ? & _)|(? & ? & _)]; auto. Qed.

Lemma fle_trans x y z : fle x y = true -> fle y z = true -> fle x z = true.
Proof.
  intros Hxy Hyz. destruct (fle_nan _ _ Hxy) as [Hx Hy], (fle_nan _ _ Hyz) as [_ Hz].
  rewrite fle_flt, negb_true_iff in * by done. apply not_true_iff_false. intros Hzx.
  destruct (flt_negtrans z y x Hy Hzx); congruence.
Qed.

Lemma flt_fle x y : flt x y = true -> fle x y = true.
Proof. intros H. by rewrite fle_flt_feq, H. Qed.

Lemma fle_refl x : fis_nan x = false -> fle x x = true.
Proof. intros Hx. rewrite fle_flt by done. by rewrite flt_irrefl. Qed.

(** * Integers below 2^53 convert exactly *)

Lemma digits2_pos_bound p :
  2 ^ (Zpos (digits2_pos p) - 1) <= Zpos p < 2 ^ Zpos (digits2_pos p).
Proof.
  assert (forall q, 2 ^ Zpos (Pos.succ q) = 2 * 2 ^ Zpos q) as Hs.
  { intros q. by rewrite Pos2Z.inj_succ, Z.pow_succ_r by lia. }
  assert (forall q, 2 ^ Zpos q = 2 * 2 ^ (Zpos q - 1)) as Hp.
  { intros q. rewrite <- Z.pow_succ_r by lia. f_equal. lia. }
  induction p as [p IH|p IH|]; simpl digits2_pos; [| |simpl; lia];
    rewrite Hs;
    replace (Zpos (Pos.succ (digits2_pos p)) - 1) with (Zpos (digits2_pos p)) by lia;
    specialize (Hp (digits2_pos p)); lia.
Qed.

Lemma iter_xO_digits p k :
  digits2_pos (Pos.iter xO p k) = (digits2_pos p + k)%positive.
Proof.
  induction k as [|k IH] using Pos.peano_ind; simpl; [lia|].
  rewrite Pos.iter_succ. simpl. rewrite IH. lia.
Qed.

Lemma iter_xO_value p k : Zpos (Pos.iter xO p k) = Zpos p * 2 ^ Zpos k.
Proof.
  induction k as [|k IH] using Pos.peano_ind; [simpl; lia|].
  rewrite Pos.iter_succ, Pos2Z.inj_xO, IH, Pos2Z.inj_succ, Z.pow_succ_r by lia. lia.
Qed.

Lemma shr_fexp_canonical m e :
  Zpos (digits2_pos m) = 53 -> -1074 <= e ->
  shr_fexp 53 1024 (Zpos m) e loc_Exact = (Build_shr_record (Zpos m) false false, e).
Proof.
  intros Hd He. unfold shr_fexp, fexp, emin. simpl Zdigits2. rewrite Hd.
  replace (Z.max (53 + e - 53) (3 - 1024 - 53) - e) with 0 by lia. done.
Qed.

(** The conversion of an integer of at most 53 bits is exact: its mantissa is
    the integer shifted to 53 bits. *)
Lemma f64_of_Z_exact s p :
  Zpos p < 2 ^ 53 ->
  exists m e, binary_round 53 1024 s p 0 = S754_finite s m e /\
    Zpos (digits2_pos m) = 53 /\ -52 <= e <= 0 /\ Zpos p * 2 ^ (- e) = Zpos m.
Proof.
  intros Hp. pose proof (digits2_pos_bound p) as [Hlo Hhi].
  assert (Zpos (digits2_pos p) <= 53) as Hd.
  { destruct (decide (Zpos (digits2_pos p) <= 53)); [done|exfalso].
    pose proof (Z.pow_le_mono_r 2 53 (Zpos (digits2_pos p) - 1)). lia. }
  unfold binary_round, fexp, emin, shl_align.
  replace (Z.max (Zpos (digits2_pos p) + 0 - 53) (3 - 1024 - 53) - 0)
    with (Zpos (digits2_pos p) - 53) by lia.
  replace (Z.max (Zpos (digits2_pos p) + 0 - 53) (3 - 1024 - 53))
    with (Zpos (digits2_pos p) - 53) by lia.
  destruct (Zpos (digits2_pos p) - 53) as [|q|k] eqn:Hk; [|lia|].
  - exists p, 0. unfold binary_round_aux. rewrite shr_fexp_canonical by lia. simpl shr_m.
    simpl round_nearest_even. rewrite shr_fexp_canonical by lia. simpl.
    split_and!; [done|lia..].
  - pose proof (iter_xO_digits p k) as Hdig.
    exists (Pos.iter xO p k), (Zneg k). unfold binary_round_aux.
    rewrite shr_fexp_canonical by lia. simpl shr_m.
    simpl round_nearest_even. rewrite shr_fexp_canonical by lia. simpl shr_m.
    split_and!; [|lia..|by rewrite iter_xO_value].
    destruct (Z.leb_spec (Zneg k) (1024 - 53)); [done|lia].
Qed.

Definition small53 (z : Z) : Prop := - 2 ^ 53 < z < 2 ^ 53.

Lemma f64_of_Z_not_nan z : small53 z -> fis_nan (f64_of_Z z) = false.
Proof.
  unfold small53. intros Hz. destruct z as [|p|p]; [done| |]; unfold f64_of_Z; simpl.
  - destruct (f64_of_Z_exact false p) as (m & e & -> & _); [lia|done].
  - destruct (f64_of_Z_exact true p) as (m & e & -> & _); [lia|done].
Qed.

Lemma mantissa_gap a b s t :
  0 < s -> 0 < t -> a < 2 ^ 53 -> 2 ^ (53 - 1) <= b -> a * t < b * (s * 2 * t).
Proof.
  intros Hs Ht Ha Hb. rewrite Z.mul_assoc. apply Z.mul_lt_mono_pos_r; [done|].
  change (2 ^ 53) with (2 * 2 ^ (53 - 1)) in Ha. nia.
Qed.

Lemma mantissa_compare m e m' e' :
  Zpos (digits2_pos m) = 53 -> Zpos (digits2_pos m') = 53 -> -52 <= e <= 0 -> -52 <= e' <= 0 ->
  (Zpos m * 2 ^ (e + 52) ?= Zpos m' * 2 ^ (e' + 52)) =
    match e ?= e' with Eq => (m ?= m')%positive | c => c end.
Proof.
  intros Hd Hd' He He'.
  pose proof (digits2_pos_bound m) as Hm. pose proof (digits2_pos_bound m') as Hm'.
  rewrite Hd in Hm. rewrite Hd' in Hm'.
  assert (0 < 2 ^ (e + 52)) by (apply Z.pow_pos_nonneg; lia).
  assert (0 < 2 ^ (e' + 52)) by (apply Z.pow_pos_nonneg; lia).
  destruct (Z.compare_spec e e') as [->|Hlt|Hlt].
  - rewrite <- Zmult_compare_compat_r by lia. done.
  - apply Z.compare_lt_iff.
    assert (2 ^ (e' + 52) = 2 ^ (e' - e - 1) * 2 * 2 ^ (e + 52)) as ->.
    { rewrite <- (Z.mul_assoc _ 2), <- Z.pow_succ_r, <- Z.pow_add_r; [f_equal|..]; lia. }
    apply mantissa_gap; [apply Z.pow_pos_nonneg; lia|lia..].
  - apply Z.compare_gt_iff.
    assert (2 ^ (e + 52) = 2 ^ (e - e' - 1) * 2 * 2 ^ (e' + 52)) as ->.
    { rewrite <- (Z.mul_assoc _ 2), <- Z.pow_succ_r, <- Z.pow_add_r; [f_equal|..]; lia. }
    apply mantissa_gap; [apply Z.pow_pos_nonneg; lia|lia..].
Qed.

Lemma pos_compare_scaled p m e p' m' e' :
  -52 <= e <= 0 -> -52 <= e' <= 0 ->
  Zpos p * 2 ^ (- e) = Zpos m -> Zpos p' * 2 ^ (- e') = Zpos m' ->
  (p ?= p')%positive = (Zpos m * 2 ^ (e + 52) ?= Zpos m' * 2 ^ (e' + 52)).
Proof.
  intros He He' <- <-.
  replace (Zpos p * 2 ^ (- e) * 2 ^ (e + 52)) with (Zpos p * 2 ^ 52)
    by (rewrite <- Z.mul_assoc, <- Z.pow_add_r by lia; do 2 f_equal; lia).
  replace (Zpos p' * 2 ^ (- e') * 2 ^ (e' + 52)) with (Zpos p' * 2 ^ 52)
    by (rewrite <- Z.mul_assoc, <- Z.pow_add_r by lia; do 2 f_equal; lia).
  rewrite <- Zmult_compare_compat_r by lia. done.
Qed.

(** Integers of at most 53 bits keep their order as floats. *)
Lemma f64_of_Z_compare a b :
  small53 a -> small53 b -> SFcompare (f64_of_Z a) (f64_of_Z b) = Some (a ?= b).
Proof.
  unfold small53, f64_of_Z. intros Ha Hb.
  destruct a as [|p|p], b as [|q|q]; simpl; try done;
    try (destruct (f64_of_Z_exact false p) as (m & e & -> & Hd & He & Hm); [lia|]);
    try (destruct (f64_of_Z_exact true p) as (m & e & -> & Hd & He & Hm); [lia|]);
    try (destruct (f64_of_Z_exact false q) as (m' & e' & -> & Hd' & He' & Hm'); [lia|]);
    try (destruct (f64_of_Z_exact true q) as (m' & e' & -> & Hd' & He' & Hm'); [lia|]);
    try done; simpl; f_equal.
  - rewrite (pos_compare_scaled p m e q m' e'), mantissa_compare by done. by destruct (e ?= e').
  - rewrite (pos_compare_scaled p m e q m' e'), mantissa_compare by done. by destruct (e ?= e').
Qed.
