(* ===== verification/StableSort.v ===== *)
(** [sort.SliceStable] of Go's library as an executable insertion sort, and
    the three facts that determine its result for a strict weak order: it
    permutes, it orders, and it keeps the order of equivalent elements. *)

From S2P Require Import Prelude.

Section stable_sort.
Context {A : Type} (less : A -> A -> bool).

(** The elements sorted so far are kept last first: a new element moves left
    past those it is less than, as the library's insertion sort swaps it. *)
Fixpoint insert_last (x : A) (acc : list A) : list A :=
  match acc with
  | y :: acc' => if less x y then y :: insert_last x acc' else x :: acc
  | [] => [x]
  end.

Definition insert_all (l : list A) : list A := fold_left (fun acc x => insert_last x acc) l [].

Definition stable_sort (l : list A) : list A := rev (insert_all l).

Lemma insert_last_Permutation x acc : insert_last x acc ≡ₚ x :: acc.
Proof.
  induction acc as [|y acc IH]; simpl; [done|]. case_match; [|done].
  rewrite IH. apply Permutation_swap.
Qed.

Lemma insert_all_snoc l x : insert_all (l ++ [x]) = insert_last x (insert_all l).
Proof. unfold insert_all. by rewrite fold_left_app. Qed.

Lemma insert_all_Permutation l : insert_all l ≡ₚ l.
Proof.
  induction l as [|x l IH] using rev_ind; [done|].
  rewrite insert_all_snoc, insert_last_Permutation, IH. apply Permutation_cons_append.
Qed.

Lemma stable_sort_Permutation l : stable_sort l ≡ₚ l.
Proof. unfold stable_sort. rewrite <- Permutation_rev. apply insert_all_Permutation. Qed.

Lemma stable_sort_length l : length (stable_sort l) = length l.
Proof. apply Permutation_length, stable_sort_Permutation. Qed.

Lemma insert_last_in x acc y : y ∈ insert_last x acc <-> y = x \/ y ∈ acc.
Proof. rewrite insert_last_Permutation. apply elem_of_cons. Qed.

Lemma insert_all_in l y : y ∈ insert_all l <-> y ∈ l.
Proof. by rewrite insert_all_Permutation. Qed.

(** The laws of a strict weak order, for the elements that [P] holds of. *)
Class StrictWeak (P : A -> Prop) : Prop := {
  sw_irrefl x : P x -> less x x = false;
  sw_asym x y : P x -> P y -> less x y = true -> less y x = false;
  sw_negtrans x y z : P x -> P y -> P z ->
    less x y = false -> less y z = false -> less x z = false
}.

(** Neither is less. *)
Definition eqv (x y : A) : bool := negb (less x y) && negb (less y x).

(** No element is less than an earlier one ([descending]: than a later one). *)
Definition ordered (l : list A) : Prop := StronglySorted (fun x y => less y x = false) l.
Definition descending (l : list A) : Prop := StronglySorted (fun x y => less x y = false) l.

Context (P : A -> Prop) `{!StrictWeak P}.

Lemma insert_last_descending x acc :
  P x -> Forall P acc -> descending acc -> descending (insert_last x acc).
Proof using Type*.
  unfold descending. induction acc as [|y acc IH]; simpl; intros Hx Hacc Hd; [by repeat constructor|].
  apply Forall_cons_1 in Hacc as [Hy Hacc]. apply StronglySorted_inv in Hd as [Hd Hall].
  destruct (less x y) eqn:Hxy.
  - constructor; [by apply IH|]. apply Forall_forall. intros z. rewrite insert_last_in.
    intros [->|Hz]; [by apply sw_asym|]. rewrite Forall_forall in Hall. by apply Hall.
  - constructor; [by constructor|]. constructor; [done|].
    rewrite Forall_forall in Hall, Hacc |- *. intros z Hz.
    apply (sw_negtrans x y z); auto.
Qed.

Lemma insert_all_descending l : Forall P l -> descending (insert_all l).
Proof using Type*.
  induction l as [|x l IH] using rev_ind; intros HP; [constructor|].
  rewrite Forall_app in HP. destruct HP as [Hl Hx]. apply Forall_cons_1 in Hx as [Hx _].
  rewrite insert_all_snoc. apply insert_last_descending; [done| |auto].
  rewrite Forall_forall in Hl |- *. intros y. rewrite insert_all_in. auto.
Qed.

Lemma StronglySorted_snoc (R : A -> A -> Prop) l x :
  StronglySorted R l -> Forall (fun y => R y x) l -> StronglySorted R (l ++ [x]).
Proof using Type.
  induction l as [|y l IH]; simpl; intros Hl Hx; [repeat constructor|].
  apply StronglySorted_inv in Hl as [Hl Hy]. apply Forall_cons_1 in Hx as [Hyx Hx].
  constructor; [by apply IH|]. apply Forall_app. by split; [|constructor].
Qed.

Lemma rev_descending l : descending l -> ordered (rev l).
Proof using Type.
  unfold descending, ordered. induction l as [|x l IH]; simpl; intros Hd; [constructor|].
  apply StronglySorted_inv in Hd as [Hd Hx]. apply StronglySorted_snoc; [by apply IH|].
  by rewrite <- Permutation_rev.
Qed.

Lemma stable_sort_ordered l : Forall P l -> ordered (stable_sort l).
Proof using Type*. intros HP. apply rev_descending. by apply insert_all_descending. Qed.

(** A filter and the insertion commute: an element that is dropped never
    changed the place of another. *)
Lemma insert_last_filter (p : A -> bool) x acc :
  P x -> Forall P acc -> descending acc ->
  List.filter p (insert_last x acc) =
  if p x then insert_last x (List.filter p acc) else List.filter p acc.
Proof using Type*.
  intros Hx. induction acc as [|y acc IH]; simpl; intros Hacc Hd.
  { by destruct (p x). }
  apply Forall_cons_1 in Hacc as [Hy Hacc]. apply StronglySorted_inv in Hd as [Hd Hall].
  destruct (less x y) eqn:Hxy; simpl; [rewrite IH by done|].
  - destruct (p y), (p x); simpl; rewrite ?Hxy; done.
  - destruct (p y), (p x); simpl; rewrite ?Hxy; try done.
    (* [y] is dropped: [x] is not less than what follows [y] either *)
    destruct (List.filter p acc) as [|z acc'] eqn:E; [done|]. simpl.
    assert (z ∈ List.filter p acc) as Hz by (rewrite E; set_solver).
    apply elem_of_filter_bool in Hz as [Hz _].
    rewrite Forall_forall in Hall, Hacc. by rewrite (sw_negtrans x y z) by auto.
Qed.

Lemma insert_all_filter (p : A -> bool) l :
  Forall P l -> List.filter p (insert_all l) = insert_all (List.filter p l).
Proof using Type*.
  induction l as [|x l IH] using rev_ind; intros HP; [done|].
  rewrite Forall_app in HP. destruct HP as [Hl Hx]. apply Forall_cons_1 in Hx as [Hx _].
  assert (Forall P (insert_all l)) as Hall.
  { rewrite Forall_forall in Hl |- *. intros y. rewrite insert_all_in. auto. }
  rewrite insert_all_snoc, insert_last_filter, List.filter_app, IH
    by (done || by apply insert_all_descending).
  simpl. destruct (p x); [by rewrite insert_all_snoc|by rewrite app_nil_r].
Qed.

Lemma filter_rev (p : A -> bool) (l : list A) : List.filter p (rev l) = rev (List.filter p l).
Proof using Type.
  induction l as [|x l IH]; simpl; [done|]. rewrite List.filter_app, IH. simpl.
  destruct (p x); simpl; [done|]. by rewrite app_nil_r.
Qed.

Lemma stable_sort_filter (p : A -> bool) l :
  Forall P l -> List.filter p (stable_sort l) = stable_sort (List.filter p l).
Proof using Type*. intros HP. unfold stable_sort. by rewrite filter_rev, insert_all_filter. Qed.

(** Elements none of which is less than another stay as they are. *)
Lemma stable_sort_equivalent l :
  (forall x y, x ∈ l -> y ∈ l -> less x y = false) -> stable_sort l = l.
Proof using Type.
  intros Hl. unfold stable_sort. enough (insert_all l = rev l) as -> by apply rev_involutive.
  induction l as [|x l IH] using rev_ind; [done|].
  rewrite insert_all_snoc, IH, rev_app_distr by (intros; apply Hl; apply elem_of_app; by left). simpl.
  destruct (rev l) as [|y l'] eqn:E; [done|]. simpl. rewrite Hl; [done|apply elem_of_app; right; apply list_elem_of_singleton; done|].
  apply elem_of_app. left. rewrite (Permutation_rev l), E. apply elem_of_cons. by left.
Qed.

Lemma eqv_less x y z :
  P x -> P y -> P z -> eqv x y = true -> eqv x z = true -> less y z = false.
Proof using Type*.
  unfold eqv. intros Hx Hy Hz. rewrite !andb_true_iff, !negb_true_iff. intros [? ?] [? ?].
  by apply (sw_negtrans y x z).
Qed.

(** Stability: the elements equivalent to any given one keep their order. *)
Lemma stable_sort_stable x l :
  P x -> Forall P l -> List.filter (eqv x) (stable_sort l) = List.filter (eqv x) l.
Proof using Type*.
  intros Hx HP. rewrite stable_sort_filter by done. apply stable_sort_equivalent.
  intros y z [Hy Hxy]%elem_of_filter_bool [Hz Hxz]%elem_of_filter_bool.
  rewrite Forall_forall in HP. apply (eqv_less x); auto.
Qed.
End stable_sort.
