(* ===== verification/GoStrings.v ===== *)
(** The parts of Go's standard library on strings that the program uses:
    [strings], [strconv], [unicode/utf8] and [encoding/base64].  A Go string
    is a byte string, as Rocq's [string] of [ascii] is. *)

From S2P Require Import Prelude GoFloat.

(** * Bytes *)

Definition code (c : ascii) : Z := Z.of_N (N_of_ascii c).
Definition chr (z : Z) : ascii := ascii_of_N (Z.to_N z).
Definition bytes (l : list Z) : string := String.string_of_list_ascii (chr <$> l).
Definition dquote : ascii := chr 34.

Definition in_range (lo hi : Z) (c : ascii) : bool :=
  (lo <=? code c) && (code c <=? hi).

Lemma code_range c : 0 <= code c < 256.
Proof. unfold code. pose proof (N_ascii_bounded c). lia. Qed.

Lemma chr_code c : chr (code c) = c.
Proof. unfold chr, code. by rewrite N2Z.id, ascii_N_embedding. Qed.

Lemma code_chr z : 0 <= z < 256 -> code (chr z) = z.
Proof. intros H. unfold chr, code. rewrite N_ascii_embedding by lia. lia. Qed.

(** * strings *)

Fixpoint str_drop (n : nat) (s : string) : string :=
  match n, s with
  | O, _ => s
  | S n, String _ s => str_drop n s
  | _, EmptyString => EmptyString
  end.

Fixpoint str_take (n : nat) (s : string) : string :=
  match n, s with
  | S n, String c s => String c (str_take n s)
  | _, _ => EmptyString
  end.

Fixpoint has_prefix (p s : string) : bool :=
  match p, s with
  | EmptyString, _ => true
  | String a p, String b s => Ascii.eqb a b && has_prefix p s
  | _, _ => false
  end.

Definition has_suffix (p s : string) : bool :=
  (String.length p <=? String.length s)%nat &&
  String.eqb (str_drop (String.length s - String.length p) s) p.

Fixpoint contains (s sub : string) : bool :=
  has_prefix sub s ||
  match s with EmptyString => false | String _ s => contains s sub end.

Fixpoint contains_byte (c : ascii) (s : string) : bool :=
  match s with
  | EmptyString => false
  | String a s => Ascii.eqb a c || contains_byte c s
  end.

Definition trim_prefix (p s : string) : string :=
  if has_prefix p s then str_drop (String.length p) s else s.

(** The longest prefix of bytes satisfying [p], and the rest. *)
Fixpoint span (p : ascii -> bool) (s : string) : string * string :=
  match s with
  | EmptyString => ("", "")
  | String c s' => if p c then let '(x, y) := span p s' in (String c x, y) else ("", s)
  end.

(** [strings.Cut] at a byte. *)
Fixpoint cut_byte (c : ascii) (s : string) : option (string * string) :=
  match s with
  | EmptyString => None
  | String a s =>
      if Ascii.eqb a c then Some ("", s)
      else match cut_byte c s with
           | Some (x, y) => Some (String a x, y)
           | None => None
           end
  end.

(** [strings.Split] at a byte: always at least one part. *)
Fixpoint split_byte (c : ascii) (s : string) : list string :=
  match s with
  | EmptyString => [""]
  | String a s =>
      if Ascii.eqb a c then "" :: split_byte c s
      else match split_byte c s with
           | [] => [String a ""]
           | p :: ps => String a p :: ps
           end
  end.

(** [strings.SplitN(s, c, n)] for [n >= 1]: at most [n] parts, the last one
    unsplit. *)
Fixpoint splitn_byte (c : ascii) (n : nat) (s : string) : list string :=
  match n with
  | O => []
  | S O => [s]
  | S n =>
      match cut_byte c s with
      | Some (x, y) => x :: splitn_byte c n y
      | None => [s]
      end
  end.

(** [strings.ReplaceAll] of a nonempty [old]: matches are found left to
    right and do not overlap; [skip] counts the bytes of a match still to
    drop. *)
Fixpoint replace_from (old new : string) (skip : nat) (s : string) : string :=
  match s with
  | EmptyString => EmptyString
  | String c s' =>
      match skip with
      | S k => replace_from old new k s'
      | O =>
          if has_prefix old s then new +:+ replace_from old new (String.length old - 1) s'
          else String c (replace_from old new 0 s')
      end
  end.
Definition replace_all (s old new : string) : string := replace_from old new 0 s.

Fixpoint join (sep : string) (l : list string) : string :=
  match l with
  | [] => ""
  | [x] => x
  | x :: l => x +:+ sep +:+ join sep l
  end.

Fixpoint repeat_str (s : string) (n : nat) : string :=
  match n with O => "" | S n => s +:+ repeat_str s n end.

(** * unicode/utf8 *)

Definition rune_error : Z := 65533.
Definition cont (c : ascii) : bool := in_range 128 191 c.
Definition low6 (c : ascii) : Z := Z.land (code c) 63.

(** [utf8.DecodeRuneInString]: the first rune and its width; an invalid
    encoding is [(rune_error, 1)]. *)
Definition decode_rune (s : string) : Z * nat :=
  match s with
  | EmptyString => (rune_error, 0%nat)
  | String a s =>
      let x := code a in
      if x <? 128 then (x, 1%nat)
      else match s with
      | String b s2 =>
          if (194 <=? x) && (x <=? 223) then
            if cont b then (Z.lor (Z.shiftl (Z.land x 31) 6) (low6 b), 2%nat) else (rune_error, 1%nat)
          else if (224 <=? x) && (x <=? 239) then
            let lo := if x =? 224 then 160 else 128 in
            let hi := if x =? 237 then 159 else 191 in
            match s2 with
            | String c _ =>
                if in_range lo hi b && cont c
                then (Z.lor (Z.shiftl (Z.land x 15) 12) (Z.lor (Z.shiftl (low6 b) 6) (low6 c)), 3%nat)
                else (rune_error, 1%nat)
            | _ => (rune_error, 1%nat)
            end
          else if (240 <=? x) && (x <=? 244) then
            let lo := if x =? 240 then 144 else 128 in
            let hi := if x =? 244 then 143 else 191 in
            match s2 with
            | String c (String d _) =>
                if in_range lo hi b && cont c && cont d
                then (Z.lor (Z.shiftl (Z.land x 7) 18)
                       (Z.lor (Z.shiftl (low6 b) 12) (Z.lor (Z.shiftl (low6 c) 6) (low6 d))), 4%nat)
                else (rune_error, 1%nat)
            | _ => (rune_error, 1%nat)
            end
          else (rune_error, 1%nat)
      | EmptyString => (rune_error, 1%nat)
      end
  end.

Definition encode_rune (r : Z) : string :=
  if (0 <=? r) && (r <? 128) then bytes [r]
  else if (0 <=? r) && (r <? 2048) then
    bytes [Z.lor 192 (Z.shiftr r 6); Z.lor 128 (Z.land r 63)]
  else if (r <? 0) || (1114111 <? r) || ((55296 <=? r) && (r <=? 57343)) then bytes [239; 191; 189]
  else if r <? 65536 then
    bytes [Z.lor 224 (Z.shiftr r 12); Z.lor 128 (Z.land (Z.shiftr r 6) 63); Z.lor 128 (Z.land r 63)]
  else
    bytes [Z.lor 240 (Z.shiftr r 18); Z.lor 128 (Z.land (Z.shiftr r 12) 63);
           Z.lor 128 (Z.land (Z.shiftr r 6) 63); Z.lor 128 (Z.land r 63)].

(** The runes of a string with their widths, as [range s] yields them; the
    length of the string is enough fuel, a rune being at least one byte. *)
Fixpoint runes_fuel (fuel : nat) (s : string) : list (Z * nat) :=
  match fuel, s with
  | S fuel, String _ _ =>
      let '(r, w) := decode_rune s in (r, w) :: runes_fuel fuel (str_drop w s)
  | _, _ => []
  end.
Definition runes (s : string) : list (Z * nat) := runes_fuel (String.length s) s.

(** [utf8.Valid]: no rune is an encoding error. *)
Definition utf8_valid (s : string) : bool :=
  forallb (fun '(r, w) => negb ((r =? rune_error) && (w =? 1)%nat)) (runes s).

Definition is_ascii (s : string) : bool :=
  forallb (fun c => code c <? 128) (String.list_ascii_of_string s).

(** * Case

    The lower case of a rune outside ASCII is a table of the [unicode]
    package; it is a parameter. *)
Class UnicodeTables := { rune_lower : Z -> Z }.

Definition ascii_lower (c : ascii) : ascii :=
  if in_range 65 90 c then chr (code c + 32) else c.

Fixpoint str_map (f : ascii -> ascii) (s : string) : string :=
  match s with
  | EmptyString => EmptyString
  | String c s => String (f c) (str_map f s)
  end.

Section case.
Context `{UnicodeTables}.

Definition lower_rune (r : Z) : Z :=
  if (0 <=? r) && (r <? 128) then code (ascii_lower (chr r)) else rune_lower r.

(** [strings.ToLower]. *)
Definition to_lower (s : string) : string :=
  if is_ascii s then str_map ascii_lower s
  else join "" ((fun '(r, _) => encode_rune (lower_rune r)) <$> runes s).
End case.

(** A concrete table, for evaluation: the identity outside ASCII. *)
Definition ascii_tables : UnicodeTables := {| rune_lower := fun r => r |}.

(** * strings.TrimSpace

    The UTF-8 encodings of the white space characters of Unicode. *)
Definition space_encodings : list string :=
  ((fun b => bytes [b]) <$> [9; 10; 11; 12; 13; 32]) ++
  [bytes [194; 133]; bytes [194; 160]; bytes [225; 154; 128];
   bytes [226; 128; 168]; bytes [226; 128; 169]; bytes [226; 128; 175];
   bytes [226; 129; 159]; bytes [227; 128; 128]] ++
  ((fun k => bytes [226; 128; 128 + k]) <$> [0; 1; 2; 3; 4; 5; 6; 7; 8; 9; 10]).

Fixpoint strip_any (ps : list string) (s : string) : option string :=
  match ps with
  | [] => None
  | p :: ps => if has_prefix p s then Some (str_drop (String.length p) s) else strip_any ps s
  end.

Fixpoint trim_fuel (fuel : nat) (ps : list string) (s : string) : string :=
  match fuel with
  | O => s
  | S fuel => match strip_any ps s with Some s' => trim_fuel fuel ps s' | None => s end
  end.

Definition str_rev (s : string) : string :=
  String.string_of_list_ascii (rev (String.list_ascii_of_string s)).

Definition trim_left (s : string) : string := trim_fuel (String.length s) space_encodings s.
Definition trim_right (s : string) : string :=
  str_rev (trim_fuel (String.length s) (str_rev <$> space_encodings) (str_rev s)).
Definition trim_space (s : string) : string := trim_right (trim_left s).

(** * strconv: integers *)

Definition digit_char (d : Z) : ascii := chr (if d <? 10 then 48 + d else 87 + d).

(** The digits of [n] in [base], most significant first, in front of [acc];
    [fuel] bounds their number. *)
Fixpoint digits_fuel (base : Z) (fuel : nat) (n : Z) (acc : string) : string :=
  match fuel with
  | O => acc
  | S fuel =>
      let acc := String (digit_char (n `mod` base)) acc in
      if n <? base then acc else digits_fuel base fuel (n / base) acc
  end.

(** A number has no more digits than bits, whatever the base. *)
Definition format_uint (base : Z) (n : Z) : string :=
  digits_fuel base (S (Z.to_nat (Z.log2 n))) n "".

(** [strconv.FormatInt], and [strconv.Itoa] and [%d] at base 10. *)
Definition format_int (base : Z) (z : Z) : string :=
  if z <? 0 then "-" +:+ format_uint base (- z) else format_uint base z.
Definition itoa (z : Z) : string := format_int 10 z.

Definition digit_val (c : ascii) : option Z :=
  if in_range 48 57 c then Some (code c - 48)
  else if in_range 97 122 c then Some (code c - 87)
  else if in_range 65 90 c then Some (code c - 55)
  else None.

Fixpoint parse_digits (base : Z) (acc : Z) (s : string) : option Z :=
  match s with
  | EmptyString => Some acc
  | String c s =>
      match digit_val c with
      | Some d => if d <? base then parse_digits base (acc * base + d) s else None
      | None => None
      end
  end.

Definition parse_unsigned (base : Z) (s : string) : option Z :=
  match s with EmptyString => None | _ => parse_digits base 0 s end.

(** [strconv.ParseInt(s, base, 64)] for an explicit base, and
    [strconv.Atoi] at base 10 on a 64-bit target: [None] is any error, syntax
    or range. *)
Definition parse_int (base : Z) (s : string) : option Z :=
  let r := match s with
           | String c s' =>
               if Ascii.eqb c "-" then Z.opp <$> parse_unsigned base s'
               else if Ascii.eqb c "+" then parse_unsigned base s'
               else parse_unsigned base s
           | EmptyString => None
           end in
  match r with
  | Some z => if bool_decide (in_int64 z) then Some z else None
  | None => None
  end.
Definition atoi (s : string) : option Z := parse_int 10 s.

(** * strconv: floats *)

Definition eq_fold_ascii (s t : string) : bool := String.eqb (str_map ascii_lower s) t.

(** The mantissa of a float literal: the digits as an integer, how many of
    them follow the point, whether a point, a digit and an underscore were
    seen, and the rest. *)
Record mantissa := Mantissa {
  mt_value : Z; mt_frac : Z; mt_dot : bool; mt_digits : bool; mt_under : bool;
  mt_rest : string
}.

Fixpoint scan_mantissa (base : Z) (v frac : Z) (dot dig und : bool) (s : string) : mantissa :=
  match s with
  | EmptyString => Mantissa v frac dot dig und s
  | String c s' =>
      if Ascii.eqb c "_" then scan_mantissa base v frac dot dig true s'
      else if Ascii.eqb c "." then
        if dot then Mantissa v frac dot dig und s else scan_mantissa base v frac true dig und s'
      else match digit_val c with
           | Some d =>
               if d <? base
               then scan_mantissa base (v * base + d) (if dot then frac + 1 else frac) dot true und s'
               else Mantissa v frac dot dig und s
           | None => Mantissa v frac dot dig und s
           end
  end.

(** The digits of an exponent; like the library, the value stops growing once
    it has passed 10000. *)
Fixpoint scan_exponent (e : Z) (und : bool) (s : string) : Z * bool * string :=
  match s with
  | EmptyString => (e, und, s)
  | String c s' =>
      if Ascii.eqb c "_" then scan_exponent e true s'
      else if in_range 48 57 c
      then scan_exponent (if e <? 10000 then e * 10 + (code c - 48) else e) und s'
      else (e, und, s)
  end.

(** [underscoreOK]: underscores only between digits (a base prefix counts as
    a digit).  [prev] is 0 for a digit, 1 for an underscore, 2 otherwise. *)
Fixpoint underscore_scan (hex : bool) (prev : Z) (s : string) : bool :=
  match s with
  | EmptyString => negb (prev =? 1)
  | String c s =>
      if in_range 48 57 c || (hex && in_range 97 102 (ascii_lower c)) then underscore_scan hex 0 s
      else if Ascii.eqb c "_" then (prev =? 0) && underscore_scan hex 1 s
      else negb (prev =? 1) && underscore_scan hex 2 s
  end.

Definition strip_sign (s : string) : bool * bool * string :=
  match s with
  | String c s' =>
      if Ascii.eqb c "-" then (true, true, s')
      else if Ascii.eqb c "+" then (true, false, s') else (false, false, s)
  | _ => (false, false, s)
  end.

Definition underscore_ok (s : string) : bool :=
  let '(_, _, s) := strip_sign s in
  match s with
  | String a (String b s') =>
      let b := ascii_lower b in
      if Ascii.eqb a "0" && (Ascii.eqb b "b" || Ascii.eqb b "o" || Ascii.eqb b "x")
      then underscore_scan (Ascii.eqb b "x") 0 s'
      else underscore_scan false 2 s
  | _ => underscore_scan false 2 s
  end.

(** [strconv.ParseFloat(s, 64)]: [None] is a syntax error; the flag is the range
    error of a value too large for a float64, whose result is an infinity.  One
    too small rounds to zero. *)
Definition ParseFloat (s : string) : option (float64 * bool) :=
  let '(signed, neg, body) := strip_sign s in
  if eq_fold_ascii body "inf" || eq_fold_ascii body "infinity" then Some (S754_infinity neg, false)
  else if negb signed && eq_fold_ascii body "nan" then Some (S754_nan, false)
  else
    let '(hex, body) := match body with
      | String a (String b r) =>
          if Ascii.eqb a "0" && Ascii.eqb (ascii_lower b) "x" && negb (String.eqb r "") then (true, r) else (false, body)
      | _ => (false, body)
      end in
    let m := scan_mantissa (if hex then 16 else 10) 0 0 false false false body in
    if negb (mt_digits m) then None
    else
      let exp := match mt_rest m with
        | EmptyString => if hex then None else Some (0, false, "")
        | String c r =>
            if Ascii.eqb (ascii_lower c) (if hex then "p" else "e") then
              let '(_, eneg, r) := strip_sign r in
              match r with
              | String d _ =>
                  if in_range 48 57 d
                  then let '(e, u, r) := scan_exponent 0 false r in Some (if (eneg : bool) then - e else e, u, r)
                  else None
              | EmptyString => None
              end
            else None
        end in
      match exp with
      | Some (e, und, "") =>
          if (mt_under m || und) && negb (underscore_ok s) then None
          else
            let f := if hex then f_binary neg (mt_value m) (e - 4 * mt_frac m)
                     else f_decimal neg (mt_value m) (e - mt_frac m) in
            Some (f, match f with S754_infinity _ => true | _ => false end)
      | _ => None
      end.

(** Its result when there is no error, and when the error is ignored. *)
Definition parse_float (s : string) : option float64 :=
  match ParseFloat s with Some (f, false) => Some f | _ => None end.
Definition parse_float_value (s : string) : float64 := default fzero (fst <$> ParseFloat s).

(** ** Formatting *)

(** A positive finite float as a fraction. *)
Definition f_num (m : positive) (e : Z) : Z := Zpos m * 2 ^ Z.max e 0.
Definition f_den (e : Z) : Z := 2 ^ Z.max (- e) 0.

(** [num / den >= 10^k]. *)
Definition ge_pow10 (num den k : Z) : bool :=
  if 0 <=? k then 10 ^ k * den <=? num else den <=? num * 10 ^ (- k).

(** The decimal exponent: the [k] with [10^k <= num / den < 10^(k+1)]; the
    starting point is at most four below. *)
Fixpoint log10_fuel (fuel : nat) (num den k : Z) : Z :=
  match fuel with
  | O => k
  | S fuel => if ge_pow10 num den (k + 1) then log10_fuel fuel num den (k + 1) else k
  end.
Definition floor_log10 (num den : Z) : Z :=
  log10_fuel 5 num den ((Z.log2 num - Z.log2 den) * 30103 / 100000 - 2).

(** The shortest decimal that reads back as the float: the least number of
    digits [n] for which one of the two [n]-digit neighbours does, the nearer
    one if both do.  17 digits always suffice. *)
Fixpoint shortest_from (fuel : nat) (f : float64) (num den k n : Z) : Z * Z :=
  let p := n - 1 - k in
  let num' := if 0 <=? p then num * 10 ^ p else num in
  let den' := if 0 <=? p then den else den * 10 ^ (- p) in
  let q := num' / den' in
  let r := num' `mod` den' in
  let lo := feq (f_decimal false q (- p)) f in
  let hi := feq (f_decimal false (q + 1) (- p)) f in
  match fuel with
  | O => (q, - p)
  | S fuel =>
      if lo && hi then ((if 2 * r <=? den' then q else q + 1), - p)
      else if lo then (q, - p)
      else if hi then (q + 1, - p)
      else shortest_from fuel f num den k (n + 1)
  end.

(** The digits and the decimal exponent of the last digit. *)
Definition shortest (m : positive) (e : Z) : Z * Z :=
  let num := f_num m e in
  let den := f_den e in
  shortest_from 17 (S754_finite false m e) num den (floor_log10 num den) 1.

Fixpoint trim_zeros_fuel (fuel : nat) (d e : Z) : Z * Z :=
  match fuel with
  | O => (d, e)
  | S fuel => if (0 <? d) && (d `mod` 10 =? 0) then trim_zeros_fuel fuel (d / 10) (e + 1) else (d, e)
  end.

Definition pad_left (n : nat) (s : string) : string :=
  repeat_str "0" (n - String.length s) +:+ s.

(** [%e] with shortest digits: FormatFloat(f, 'e', -1, 64). *)
Definition exp_suffix (x : Z) : string :=
  "e" +:+ (if x <? 0 then "-" else "+") +:+ pad_left 2 (itoa (Z.abs x)).

Definition format_float_e (f : float64) : string :=
  match f with
  | S754_nan => "NaN"
  | S754_infinity s => if s then "-Inf" else "+Inf"
  | S754_zero s => (if s then "-" else "") +:+ "0e+00"
  | S754_finite s m e =>
      let '(d, x) := shortest m e in
      let '(d, x) := trim_zeros_fuel 20 d x in
      let ds := itoa d in
      (if s then "-" else "") +:+ str_take 1 ds
        +:+ (if (1 <? String.length ds)%nat then "." +:+ str_drop 1 ds else "")
        +:+ exp_suffix (x + Z.of_nat (String.length ds) - 1)
  end.

(** A number [d * 10^x] in positional notation. *)
Definition positional (d x : Z) : string :=
  if 0 <=? x then itoa (d * 10 ^ x)
  else itoa (d / 10 ^ (- x)) +:+ "." +:+ pad_left (Z.to_nat (- x)) (itoa (d `mod` 10 ^ (- x))).

(** FormatFloat(f, 'f', -1, 64). *)
Definition format_float_f (f : float64) : string :=
  match f with
  | S754_nan => "NaN"
  | S754_infinity s => if s then "-Inf" else "+Inf"
  | S754_zero s => (if s then "-" else "") +:+ "0"
  | S754_finite s m e =>
      let '(d, x) := shortest m e in
      let '(d, x) := trim_zeros_fuel 20 d x in
      (if s then "-" else "") +:+ positional d x
  end.

(** FormatFloat(f, 'f', prec, 64): the exact value rounded to [prec]
    decimals, ties to even. *)
Definition round_div_even (n d : Z) : Z :=
  let q := n / d in
  let r := n `mod` d in
  if 2 * r <? d then q else if d <? 2 * r then q + 1 else if Z.even q then q else q + 1.

Definition format_fixed (prec : Z) (f : float64) : string :=
  match f with
  | S754_nan => "NaN"
  | S754_infinity s => if s then "-Inf" else "+Inf"
  | S754_zero s => (if s then "-" else "") +:+ positional 0 (- prec)
  | S754_finite s m e =>
      (if s then "-" else "") +:+
      positional (round_div_even (f_num m e * 10 ^ prec) (f_den e)) (- prec)
  end.

(** * Facts *)

Lemma str_app_assoc (s t u : string) : (s +:+ t) +:+ u = s +:+ (t +:+ u).
Proof. induction s as [|c s IH]; simpl; [done|]. by rewrite IH. Qed.

Lemma str_app_nil_r (s : string) : s +:+ "" = s.
Proof. induction s as [|c s IH]; simpl; [done|]. by rewrite IH. Qed.

Lemma str_app_length (s t : string) :
  String.length (s +:+ t) = (String.length s + String.length t)%nat.
Proof. induction s as [|c s IH]; simpl; [done|]. by rewrite IH. Qed.

Lemma join_empty_cons x l : join "" (x :: l) = x +:+ join "" l.
Proof. destruct l; simpl; [by rewrite str_app_nil_r|done]. Qed.

Lemma str_drop_app s t : str_drop (String.length s) (s +:+ t) = t.
Proof. induction s as [|c s IH]; cbn; [by destruct t|done]. Qed.

Lemma str_take_app s t : str_take (String.length s) (s +:+ t) = s.
Proof. induction s as [|c s IH]; cbn; [by destruct t|]. by rewrite IH. Qed.

(** Every byte of a string satisfies [p]. *)
Fixpoint str_forall (p : ascii -> bool) (s : string) : bool :=
  match s with EmptyString => true | String c s => p c && str_forall p s end.

Lemma str_forall_app p s t : str_forall p (s +:+ t) = str_forall p s && str_forall p t.
Proof. induction s as [|c s IH]; simpl; [done|]. by rewrite IH, andb_assoc. Qed.

Lemma str_forall_impl (p q : ascii -> bool) s :
  (forall c, p c = true -> q c = true) -> str_forall p s = true -> str_forall q s = true.
Proof.
  intros Hpq. induction s as [|c s IH]; simpl; [done|].
  rewrite !andb_true_iff. intros [? ?]; split; auto.
Qed.

Lemma span_length p s x y : span p s = (x, y) -> (String.length y <= String.length s)%nat.
Proof.
  revert x y. induction s as [|c s IH]; simpl; intros x y H; simplify_eq; [done|].
  case_match; [|simplify_eq; done]. destruct (span p s) as [x' y'] eqn:E. simplify_eq.
  specialize (IH _ _ eq_refl). lia.
Qed.

Lemma span_split p s x y : span p s = (x, y) -> s = x +:+ y.
Proof.
  revert x y. induction s as [|c s IH]; simpl; intros x y H; simplify_eq; [done|].
  case_match; [|simplify_eq; done]. destruct (span p s) as [x' y'] eqn:E. simplify_eq.
  simpl. by rewrite (IH _ _ eq_refl).
Qed.

Lemma span_forall p s x y : span p s = (x, y) -> str_forall p x = true.
Proof.
  revert x y. induction s as [|c s IH]; simpl; intros x y H; simplify_eq; [done|].
  destruct (p c) eqn:Hc; [|by simplify_eq]. destruct (span p s) as [x' y'] eqn:E. simplify_eq.
  cbn. by rewrite Hc, (IH _ _ eq_refl).
Qed.

Lemma span_all p s rest :
  str_forall p s = true -> match rest with String c _ => p c = false | _ => True end ->
  span p (s +:+ rest) = (s, rest).
Proof.
  intros Hs Hr. induction s as [|c s IH]; simpl in *.
  - destruct rest; [done|]. simpl. by rewrite Hr.
  - apply andb_true_iff in Hs as [-> Hs]. by rewrite IH.
Qed.

(** Splitting and joining at a byte. *)
Lemma split_app c s t : split_byte c (s +:+ String c t) = split_byte c s ++ split_byte c t.
Proof.
  induction s as [|a s IH]; cbn [String.append split_byte]; [by rewrite Ascii.eqb_refl|]. rewrite IH.
  destruct (Ascii.eqb a c); [done|].
  destruct (split_byte c s) eqn:E; [exfalso; destruct s; cbn in E; repeat case_match; done|done].
Qed.

Lemma contains_forall c p s : str_forall p s = true -> p c = false -> contains_byte c s = false.
Proof.
  induction s as [|a s IH]; [done|]. cbn. rewrite andb_true_iff. intros [Ha Hs] Hc. rewrite (IH Hs Hc), orb_false_r.
  destruct (Ascii.eqb_spec a c) as [->|]; congruence.
Qed.

Lemma contains_byte_app c s t : contains_byte c (s +:+ t) = contains_byte c s || contains_byte c t.
Proof. induction s as [|a s IH]; [done|]. cbn. by rewrite IH, orb_assoc. Qed.

Lemma cut_byte_app c s rest :
  contains_byte c s = false -> cut_byte c (s +:+ String c rest) = Some (s, rest).
Proof.
  induction s as [|a s IH]; simpl.
  - by rewrite Ascii.eqb_refl.
  - rewrite orb_false_iff. intros [-> Hs]. by rewrite IH.
Qed.

Lemma split_none c e : contains_byte c e = false -> split_byte c e = [e].
Proof.
  induction e as [|a e IH]; [done|]. cbn. rewrite orb_false_iff. intros [-> He]. by rewrite IH.
Qed.

Lemma split_parts c s : Forall (fun e => contains_byte c e = false) (split_byte c s).
Proof.
  induction s as [|a s IH]; [by repeat constructor|]. cbn. destruct (Ascii.eqb a c) eqn:E; [by constructor|].
  destruct (split_byte c s) as [|p ps]; [constructor; [cbn; by rewrite E|done]|].
  apply Forall_cons in IH as [Hp Hps]. constructor; [|done]. cbn. by rewrite E.
Qed.

Lemma split_join c l : l <> [] -> Forall (fun e => contains_byte c e = false) l ->
  split_byte c (join (String c "") l) = l.
Proof.
  induction l as [|e l IH]; [done|]. intros _ [He Hl]%Forall_cons.
  destruct l as [|f l]; [by apply split_none|].
  change (join (String c "") (e :: f :: l)) with (e +:+ String c (join (String c "") (f :: l))).
  by rewrite split_app, IH, split_none.
Qed.

Lemma digit_val_char d : 0 <= d < 16 -> digit_val (digit_char d) = Some d.
Proof.
  revert d. apply (range_decide (fun d => digit_val (digit_char d) = Some d) 0 16). vm_compute. reflexivity.
Qed.

(** The digits read back, in any base up to 16. *)
Lemma parse_digits_fuel base fuel n acc :
  2 <= base <= 16 -> 0 <= n < base ^ Z.of_nat fuel ->
  exists k, forall a, parse_digits base a (digits_fuel base fuel n acc) =
    parse_digits base (a * base ^ k + n) acc.
Proof.
  intros Hb. revert n acc. induction fuel as [|fuel IH]; intros n acc Hn.
  { exists 0. intros a. simpl. change (Z.of_nat 0) with 0 in Hn. f_equal. lia. }
  pose proof (Z.mod_pos_bound n base ltac:(lia)) as Hmod.
  pose proof (Z.div_mod n base ltac:(lia)) as Hdm.
  assert (forall a, parse_digits base a (String (digit_char (n `mod` base)) acc) =
    parse_digits base (a * base + n `mod` base) acc) as Hstep.
  { intros a. simpl. rewrite digit_val_char by lia. by destruct (Z.ltb_spec (n `mod` base) base); [|lia]. }
  cbn [digits_fuel]. destruct (Z.ltb_spec n base).
  - exists 1. intros a. rewrite Hstep, Z.mod_small by lia. f_equal. lia.
  - destruct (IH (n / base) (String (digit_char (n `mod` base)) acc)) as [k Hk].
    { split; [apply Z.div_pos; lia|]. apply Z.div_lt_upper_bound; [lia|].
      rewrite Nat2Z.inj_succ, Z.pow_succ_r in Hn by lia. lia. }
    destruct (decide (0 <= k)).
    + exists (k + 1). intros a. rewrite Hk, Hstep, Z.pow_add_r by lia. f_equal. lia.
    + exists (-1). intros a. rewrite Hk, Hstep. rewrite !Z.pow_neg_r by lia. f_equal. lia.
Qed.

Lemma format_uint_fuel base n :
  2 <= base -> 0 <= n -> n < base ^ Z.of_nat (S (Z.to_nat (Z.log2 n))).
Proof.
  intros Hb Hn. rewrite Nat2Z.inj_succ, Z2Nat.id by apply Z.log2_nonneg.
  destruct (decide (n = 0)) as [->|]; [simpl; lia|].
  pose proof (Z.log2_spec n ltac:(lia)) as [_ Hlt].
  pose proof (Z.log2_nonneg n).
  pose proof (Z.pow_le_mono_l 2 base (Z.succ (Z.log2 n))). lia.
Qed.

Lemma digits_fuel_cons base fuel n acc :
  exists c s, digits_fuel base (S fuel) n acc = String c s.
Proof.
  revert n acc. induction fuel as [|fuel IH]; intros n acc.
  { cbn [digits_fuel]. case_match; eauto. }
  change (digits_fuel base (S (S fuel)) n acc) with
    (if n <? base then String (digit_char (n `mod` base)) acc
     else digits_fuel base (S fuel) (n / base) (String (digit_char (n `mod` base)) acc)).
  case_match; eauto.
Qed.

Lemma parse_unsigned_format base n :
  2 <= base <= 16 -> 0 <= n -> parse_unsigned base (format_uint base n) = Some n.
Proof.
  intros Hb Hn. unfold format_uint, parse_unsigned.
  destruct (digits_fuel_cons base (Z.to_nat (Z.log2 n)) n "") as (c & s & Heq).
  rewrite Heq, <- Heq.
  destruct (parse_digits_fuel base (S (Z.to_nat (Z.log2 n))) n "" Hb) as [k Hk].
  { split; [done|]. apply format_uint_fuel; lia. }
  rewrite Hk. simpl. done.
Qed.

Lemma digits_fuel_forall p base fuel n acc :
  2 <= base -> 0 <= n -> (forall d, 0 <= d < base -> p (digit_char d) = true) ->
  str_forall p acc = true -> str_forall p (digits_fuel base fuel n acc) = true.
Proof.
  intros Hb Hn Hp. revert n acc Hn. induction fuel as [|fuel IH]; intros n acc Hn Hacc; [done|].
  cbn [digits_fuel].
  assert (str_forall p (String (digit_char (n `mod` base)) acc) = true).
  { simpl. rewrite Hp, Hacc; [done|]. apply Z.mod_pos_bound. lia. }
  case_match; [done|]. apply IH; [|done]. apply Z.div_pos; lia.
Qed.

Definition decimal_digit (c : ascii) : bool := in_range 48 57 c.

Lemma digit_char_decimal d : 0 <= d < 10 -> decimal_digit (digit_char d) = true.
Proof.
  revert d. apply (range_decide (fun d => decimal_digit (digit_char d) = true) 0 10). vm_compute. reflexivity.
Qed.

Lemma format_uint_digits n : 0 <= n -> str_forall decimal_digit (format_uint 10 n) = true.
Proof.
  intros Hn. apply digits_fuel_forall; [lia|done| |done]. intros d ?. by apply digit_char_decimal.
Qed.

Lemma format_uint_cons base n : exists c s, format_uint base n = String c s.
Proof. apply digits_fuel_cons. Qed.

(** [ParseInt] inverts [FormatInt]. *)
Lemma atoi_itoa z : in_int64 z -> atoi (itoa z) = Some z.
Proof.
  intros Hz. unfold atoi, itoa, format_int, parse_int. destruct (Z.ltb_spec z 0).
  - simpl. rewrite parse_unsigned_format by lia. simpl.
    rewrite Z.opp_involutive. by rewrite bool_decide_true.
  - destruct (format_uint_cons 10 z) as (c & s & Heq).
    pose proof (format_uint_digits z ltac:(lia)) as Hd. rewrite Heq in Hd. simpl in Hd.
    apply andb_true_iff in Hd as [Hc _].
    rewrite Heq. destruct (Ascii.eqb_spec c "-") as [->|]; [done|].
    destruct (Ascii.eqb_spec c "+") as [->|]; [done|].
    rewrite <- Heq, parse_unsigned_format by lia. by rewrite bool_decide_true.
Qed.

Lemma in_range_spec lo hi c : in_range lo hi c = true <-> lo <= code c <= hi.
Proof. unfold in_range. rewrite andb_true_iff, !Z.leb_le. tauto. Qed.

(** * The order of strings *)

Definition str_lt (s t : string) : bool :=
  match String.compare s t with Lt => true | _ => false end.

Lemma str_compare_refl s : String.compare s s = Eq.
Proof. pose proof (String.compare_antisym s s) as H. by destruct (String.compare s s). Qed.

Lemma str_compare_flip s t : String.compare s t = CompOpp (String.compare t s).
Proof. apply String.compare_antisym. Qed.

Lemma ascii_compare_trans a b c x :
  Ascii.compare a b = x -> Ascii.compare b c = x -> Ascii.compare a c = x.
Proof.
  unfold Ascii.compare. intros H1 H2. destruct x.
  - apply N.compare_eq in H1, H2. by rewrite H1, H2, N.compare_refl.
  - rewrite N.compare_lt_iff in *. lia.
  - rewrite N.compare_gt_iff in *. lia.
Qed.

Lemma str_compare_trans s t u :
  String.compare s t = Lt -> String.compare t u = Lt -> String.compare s u = Lt.
Proof.
  revert t u. induction s as [|a s IH]; intros [|b t] [|c u]; simpl; try done.
  destruct (Ascii.compare a b) eqn:E1; try done; destruct (Ascii.compare b c) eqn:E2; try done; intros H1 H2.
  - rewrite (ascii_compare_trans _ _ _ _ E1 E2). by eapply IH.
  - apply Ascii.compare_eq_iff in E1 as ->. by rewrite E2.
  - apply Ascii.compare_eq_iff in E2 as <-. by rewrite E1.
  - by rewrite (ascii_compare_trans _ _ _ _ E1 E2).
Qed.

Lemma str_lt_irrefl s : str_lt s s = false.
Proof. unfold str_lt. by rewrite str_compare_refl. Qed.

Lemma str_lt_asym s t : str_lt s t = true -> str_lt t s = false.
Proof. unfold str_lt. rewrite (str_compare_flip t s). by destruct (String.compare s t). Qed.

Lemma str_lt_negtrans s t u : str_lt s t = false -> str_lt t u = false -> str_lt s u = false.
Proof.
  unfold str_lt. intros H1 H2. destruct (String.compare s u) eqn:E; try done. exfalso.
  destruct (String.compare s t) eqn:E1; try done.
  - apply String.compare_eq_iff in E1 as ->. by rewrite E in H2.
  - assert (String.compare t s = Lt) as E1' by (by rewrite str_compare_flip, E1).
    by rewrite (str_compare_trans _ _ _ E1' E) in H2.
Qed.

Lemma str_lt_total s t : str_lt s t = false -> str_lt t s = false -> s = t.
Proof.
  unfold str_lt. rewrite (str_compare_flip t s). destruct (String.compare s t) eqn:E; try done.
  intros _ _. by apply String.compare_eq_iff.
Qed.
