(* ===== verification/GoTime.v ===== *)
(** Go's [time]: instants as nanoseconds since the Unix epoch, and the two
    layouts the program prints them in. *)

From S2P Require Import Prelude GoStrings.

Definition nanosecond_per_second : Z := 1000000000.

(** The zero time, the year 1. *)
Definition zero_time : Z := -62135596800 * nanosecond_per_second.

(** The civil date - year, month, day - of a day number since 1970-01-01. *)
Definition civil (days : Z) : Z * Z * Z :=
  let z := days + 719468 in
  let era := z / 146097 in
  let doe := z - era * 146097 in
  let yoe := (doe - doe / 1460 + doe / 36524 - doe / 146096) / 365 in
  let doy := doe - (365 * yoe + yoe / 4 - yoe / 100) in
  let mp := (5 * doy + 2) / 153 in
  let d := doy - (153 * mp + 2) / 5 + 1 in
  let m := if mp <? 10 then mp + 3 else mp - 9 in
  (yoe + era * 400 + (if m <=? 2 then 1 else 0), m, d).

Definition p2 (z : Z) : string := pad_left 2 (itoa z).

(** The date and the time of day of a second, for the years 0 to 9999. *)
Definition date_text (secs : Z) : string :=
  let '(y, m, d) := civil (secs / 86400) in
  pad_left 4 (itoa y) +:+ "-" +:+ p2 m +:+ "-" +:+ p2 d.
Definition clock_text (secs : Z) : string :=
  let t := secs - (secs / 86400) * 86400 in
  p2 (t / 3600) +:+ ":" +:+ p2 ((t - (t / 3600) * 3600) / 60) +:+ ":" +:+ p2 (t - (t / 60) * 60).

(** [t.UTC().Format(time.RFC3339)]. *)
Definition rfc3339 (at_ns : Z) : string :=
  let secs := at_ns / nanosecond_per_second in
  date_text secs +:+ "T" +:+ clock_text secs +:+ "Z".

(** [time.UnixMilli(ms).UTC().Format("2006-01-02 15:04:05.000")]. *)
Definition format_ms (ms : Z) : string :=
  let secs := ms / 1000 in
  date_text secs +:+ " " +:+ clock_text secs +:+ "." +:+ pad_left 3 (itoa (ms - secs * 1000)).
