(* ===== verification/Values.v ===== *)
(** Dynamic values: the types that flow through the program's [any], the value
    maps of the active streams and of the database rows, and how [fmt] prints
    them. *)

From S2P Require Import Prelude GoFloat GoStrings.

Inductive any :=
| ANil
| ABool (b : bool)
| AInt64 (z : Z)
| AInt (z : Z)
| AInt32 (z : Z)
| AUint32 (z : Z)
| AUint64 (z : Z)
| AFloat (f : float64)
| AString (s : string)
| AStrings (l : list string).

#[export] Instance float64_eq_dec : EqDecision float64.
Proof. solve_decision. Defined.
#[export] Instance any_eq_dec : EqDecision any.
Proof. solve_decision. Defined.

(** [m[key]] of a Go map of [any]: an absent key reads as nil. *)
Abbreviation vmap := (gmap string any).
Definition vget (m : vmap) (k : string) : any := default ANil (m !! k).

(** FormatFloat(f, 'g', -1, 64), which [fmt]'s [%v] uses: exponent notation
    when the decimal exponent is below -4 or at least 6. *)
Definition format_float_g (f : float64) : string :=
  match f with
  | S754_finite _ m e =>
      let '(d, x) := shortest m e in
      let '(d, x) := trim_zeros_fuel 20 d x in
      let p := x + Z.of_nat (String.length (itoa d)) - 1 in
      if (p <? -4) || (6 <=? p) then format_float_e f else format_float_f f
  | _ => format_float_f f
  end.

(** [fmt.Sprintf("%v", v)] and [fmt.Sprint(v)]. *)
Definition fmt_v (v : any) : string :=
  match v with
  | ANil => "<nil>"
  | ABool b => if b then "true" else "false"
  | AInt64 z | AInt z | AInt32 z | AUint32 z | AUint64 z => itoa z
  | AFloat f => format_float_g f
  | AString s => s
  | AStrings l => "[" +:+ join " " l +:+ "]"
  end.
