(* ===== verification/Expression.v ===== *)
(** The filter mini-language, front end ([internal/filter/expression.go]):
    the tokenizer and the Pratt parser, the grammar they implement, and the
    theorems that the parser is total, sound, complete and the inverse of a
    printer. *)

From S2P Require Import Prelude GoFloat GoStrings Values.

(** * Errors

    [ExpressionError]: one constructor per message of the source.
    [OutOfFuel] is the model's own; no entry point returns it
    ([Parse_decides_grammar]). *)
Inductive expression_error :=
| UnterminatedString
| UnexpectedCharacter (c : ascii) (pos : nat)
| MalformedHex
| UnknownField (name : string)
| NotProvided (name : string)
| TrailingToken
| UnexpectedEnd
| ExpectedParen
| UnexpectedToken
| EmptyExpression
| NotBoolean
| NonNumeric
| DivisionByZero
| UnknownOperator (op : string)
| NotFloat
| UnknownDialect (d : string)
| OutOfFuel.

Abbreviation fres := (res expression_error).

(** * Tokenizer *)

(** The numeric value of a literal: an [int64] or a [float64]. *)
Inductive num := NInt (z : Z) | NFloat (f : float64).

Definition any_of_num (n : num) : any :=
  match n with NInt z => AInt64 z | NFloat f => AFloat f end.

Inductive token :=
| TNumber (n : num)
| TString (s : string)
| TIdent (s : string)
| TOp (op : string)
| TLparen
| TRparen.

#[export] Instance num_eq_dec : EqDecision num.
Proof. solve_decision. Defined.
#[export] Instance token_eq_dec : EqDecision token.
Proof. solve_decision. Defined.

Definition twoCharOps : list string := ["<="; ">="; "=="; "!="; "&&"; "||"].
Definition oneCharOps : list ascii := ["+"; "-"; "*"; "/"; "<"; ">"; "~"]%char.

Definition isIdentStart (c : ascii) : bool := in_range 97 122 c || in_range 65 90 c.
Definition isDigit (c : ascii) : bool := in_range 48 57 c.
Definition isIdentBody (c : ascii) : bool :=
  isIdentStart c || isDigit c || Ascii.eqb c "." || Ascii.eqb c "_".
Definition isHexDigit (c : ascii) : bool := isDigit c || in_range 97 102 c || in_range 65 70 c.
Definition isSpaceByte (c : ascii) : bool :=
  (code c =? 32) || (code c =? 9) || (code c =? 10) || (code c =? 13) || (code c =? 11) || (code c =? 12).

(** An all-digit string as [int64], saturating on overflow. *)
Definition parseLeadingInt (s : string) : Z :=
  match parse_int 10 s with
  | Some v => v
  | None => if has_prefix "-" s then min_int64 else max_int64
  end.

Definition ipv4_part (p : string) : bool :=
  negb (String.length p =? 0)%nat && (String.length p <=? 3)%nat &&
  forallb isDigit (String.list_ascii_of_string p) &&
  negb ((1 <? String.length p)%nat && has_prefix "0" p) &&
  match atoi p with Some v => v <=? 255 | None => true end.

Definition isPyIPv4 (s : string) : bool :=
  let parts := split_byte "." s in
  (length parts =? 4)%nat && forallb ipv4_part parts.

Definition pyFloatParse (s : string) : option float64 := parse_float (trim_space s).

(** [scanNumber]: a literal that starts with a digit; returns its token and
    the rest of the text. *)
Definition scanNumber (s : string) : fres (token * string) :=
  let decimal :=
    let '(raw, rest) := span (fun c => isDigit c || Ascii.eqb c ".") s in
    if contains_byte "." raw then
      match pyFloatParse raw with
      | Some f => Ok (TNumber (NFloat f), rest)
      | None =>
          if isPyIPv4 raw then Ok (TString raw, rest)
          else
            let lead := match cut_byte "." raw with Some (l, _) => l | None => raw end in
            if String.eqb lead "" then Ok (TNumber (NInt 0), rest)
            else Ok (TNumber (NInt (parseLeadingInt lead)), rest)
      end
    else Ok (TNumber (NInt (parseLeadingInt raw)), rest) in
  match s with
  | String a (String b s') =>
      if Ascii.eqb a "0" && (Ascii.eqb b "x" || Ascii.eqb b "X") then
        let '(hex, rest) := span isHexDigit s' in
        if String.eqb hex "" then Err MalformedHex
        else match parse_int 16 hex with
             | Some v => Ok (TNumber (NInt v), rest)
             | None => Err MalformedHex
             end
      else decimal
  | _ => decimal
  end.

(** [i+2 <= n && twoCharOps[text[i:i+2]]]. *)
Definition two_char_op (s : string) : option (string * string) :=
  match s with
  | String a (String b s') =>
      let op := String a (String b "") in
      if existsb (String.eqb op) twoCharOps then Some (op, s') else None
  | _ => None
  end.

(** One iteration of the loop of [Tokenize] at a nonempty suffix: the token
    it appends, if any, and the rest of the text. *)
Definition next_token (pos : nat) (c : ascii) (s' : string) : fres (option token * string) :=
  let s := String c s' in
  if isSpaceByte c then Ok (None, s')
  else if Ascii.eqb c "(" then Ok (Some TLparen, s')
  else if Ascii.eqb c ")" then Ok (Some TRparen, s')
  else if Ascii.eqb c dquote then
    match cut_byte dquote s' with
    | Some (lit, rest) => Ok (Some (TString lit), rest)
    | None => Err UnterminatedString
    end
  else if isDigit c then
    let? (tok, rest) := scanNumber s in Ok (Some tok, rest)
  else if isIdentStart c then
    let '(body, rest) := span isIdentBody s' in Ok (Some (TIdent (String c body)), rest)
  else match two_char_op s with
  | Some (op, rest) => Ok (Some (TOp op), rest)
  | None =>
      if existsb (Ascii.eqb c) oneCharOps then Ok (Some (TOp (String c "")), s')
      else Err (UnexpectedCharacter c pos)
  end.

(** The loop of [Tokenize]; [n] is the length of the whole text. *)
Fixpoint tokenize_fuel (n fuel : nat) (s : string) : fres (list token) :=
  match s with
  | EmptyString => Ok []
  | String c s' =>
      match fuel with
      | O => Err OutOfFuel
      | S fuel =>
          let? (tok, rest) := next_token (n - String.length s) c s' in
          let? toks := tokenize_fuel n fuel rest in
          Ok (option_list tok ++ toks)
      end
  end.

Arguments scanNumber : simpl never.
Arguments next_token : simpl never.
Arguments two_char_op : simpl never.

Definition Tokenize (text : string) : fres (list token) :=
  tokenize_fuel (String.length text) (String.length text) text.

(** * Parser *)

Inductive node :=
| Number (v : num)
| Str (s : string)
| Var (name : string)
| BinOp (op : string) (l r : node).

Definition bindingPower : list (string * Z) :=
  [("||", 1); ("&&", 2); ("==", 3); ("!=", 3); ("~", 3);
   ("<", 4); ("<=", 4); (">", 4); (">=", 4);
   ("+", 5); ("-", 5); ("*", 6); ("/", 6)].

(** The parser's state is the suffix of the token slice from [p.pos] on:
    [peek] is its head and [next] its tail. *)
Definition pres := fres (node * list token).

Definition parseAtom (rec : Z -> list token -> pres) (ts : list token) : pres :=
  match ts with
  | [] => Err UnexpectedEnd
  | TNumber v :: ts => Ok (Number v, ts)
  | TString s :: ts => Ok (Str s, ts)
  | TIdent x :: ts => Ok (Var x, ts)
  | TLparen :: ts =>
      let? (inner, ts) := rec 0 ts in
      match ts with
      | TRparen :: ts => Ok (inner, ts)
      | _ => Err ExpectedParen
      end
  | _ => Err UnexpectedToken
  end.

(** The [for] loop of [parseExpression]. *)
Fixpoint parseLoop (rec : Z -> list token -> pres) (fuel : nat) (minBP : Z)
    (lhs : node) (ts : list token) : pres :=
  match ts with
  | TOp op :: ts' =>
      match mlookup op bindingPower with
      | Some bp =>
          if bp <=? minBP then Ok (lhs, ts)
          else match fuel with
               | O => Err OutOfFuel
               | S fuel =>
                   let? (rhs, ts'') := rec bp ts' in
                   parseLoop rec fuel minBP (BinOp op lhs rhs) ts''
               end
      | None => Ok (lhs, ts)
      end
  | _ => Ok (lhs, ts)
  end.

Fixpoint parseExpression (fuel : nat) (minBP : Z) (ts : list token) : pres :=
  match fuel with
  | O => Err OutOfFuel
  | S fuel =>
      let? (lhs, ts) := parseAtom (parseExpression fuel) ts in
      parseLoop (parseExpression fuel) fuel minBP lhs ts
  end.

(** [parser.parse]: every call consumes a token, so one more than their
    number is enough fuel. *)
Definition parse (ts : list token) : fres node :=
  let? (n, rest) := parseExpression (S (length ts)) 0 ts in
  match rest with
  | [] => Ok n
  | _ => Err TrailingToken
  end.

Definition Parse (text : string) : fres node :=
  let? tokens := Tokenize text in
  match tokens with
  | [] => Err EmptyExpression
  | _ => parse tokens
  end.

(** * Totality of the tokenizer *)

Lemma cut_byte_length c s x y : cut_byte c s = Some (x, y) -> (String.length y < String.length s)%nat.
Proof.
  revert x y. induction s as [|a s IH]; simpl; intros x y H; simplify_eq.
  case_match; simplify_eq; [lia|]. destruct (cut_byte c s) as [[x' y']|]; simplify_eq.
  specialize (IH _ _ eq_refl). lia.
Qed.

Lemma scanNumber_length c s' tok rest :
  isDigit c = true -> scanNumber (String c s') = Ok (tok, rest) ->
  (String.length rest <= String.length s')%nat.
Proof.
  intros Hc. unfold scanNumber.
  set (dec := let '(raw, rest) := span _ _ in _).
  assert (dec = Ok (tok, rest) -> (String.length rest <= String.length s')%nat) as Hdec.
  { unfold dec. cbn [span]. rewrite Hc. simpl.
    destruct (span _ s') as [x y] eqn:E. apply span_length in E.
    intros Heq. repeat (case_match; simplify_eq/=; try lia). }
  destruct s' as [|b s'']; [done|].
  case_match; [|done]. destruct (span isHexDigit s'') as [x y] eqn:E. apply span_length in E.
  simpl. intros Heq. repeat (case_match; simplify_eq/=; try lia).
Qed.

Lemma two_char_op_spec c s' op rest :
  two_char_op (String c s') = Some (op, rest) ->
  exists b, s' = String b rest /\ op = String c (String b "").
Proof.
  unfold two_char_op. destruct s' as [|b s'']; [done|].
  destruct (existsb _ _); intros H; simplify_eq. by eexists.
Qed.

(** Every iteration consumes a byte. *)
Lemma next_token_length pos c s' tok rest :
  next_token pos c s' = Ok (tok, rest) -> (String.length rest <= String.length s')%nat.
Proof.
  unfold next_token. intros Heq.
  repeat (case_match; simplify_eq/=; try lia).
  - match goal with E : cut_byte _ _ = _ |- _ => apply cut_byte_length in E end. lia.
  - apply res_bind_Ok in Heq as ([tok' rest'] & Hs & Heq). simplify_eq.
    by eapply scanNumber_length.
  - match goal with E : span _ _ = _ |- _ => apply span_length in E end. lia.
  - match goal with E : two_char_op _ = _ |- _ => apply two_char_op_spec in E as (b & Hs & _) end.
    simplify_eq. simpl. lia.
Qed.

Lemma scanNumber_no_fuel s : scanNumber s <> Err OutOfFuel.
Proof. unfold scanNumber. repeat case_match; done. Qed.

Lemma next_token_no_fuel pos c s' : next_token pos c s' <> Err OutOfFuel.
Proof.
  unfold next_token. repeat (case_match; try done).
  intros [Hs|(? & ? & Hs)]%res_bind_Err; [by apply scanNumber_no_fuel in Hs|by case_match].
Qed.

Lemma tokenize_fuel_enough n fuel s :
  (String.length s <= fuel)%nat -> tokenize_fuel n fuel s <> Err OutOfFuel.
Proof.
  revert s. induction fuel as [|fuel IH]; intros [|c s]; simpl; intros Hlen; try done; [lia|].
  intros [H|([tok rest] & Ht & H)]%res_bind_Err; [by apply next_token_no_fuel in H|].
  apply next_token_length in Ht.
  apply res_bind_Err in H as [H|(? & ? & H)]; [|done]. revert H. apply IH. lia.
Qed.

(** * Totality of the parser *)

Section consumption.
Variable rec : Z -> list token -> pres.
Variable bound : nat.
Hypothesis rec_consumes : forall m ts n rest,
  (length ts < bound)%nat -> rec m ts = Ok (n, rest) -> (length rest < length ts)%nat.

Lemma parseAtom_consumes ts n rest :
  (length ts <= bound)%nat -> parseAtom rec ts = Ok (n, rest) -> (length rest < length ts)%nat.
Proof using rec_consumes.
  destruct ts as [|[] ts]; simpl; intros Hb H; simplify_eq; try lia.
  apply res_bind_Ok in H as ([inner ts'] & Hr & H). apply rec_consumes in Hr; [|lia].
  case_match; [done|]. case_match; simplify_eq/=. lia.
Qed.

Lemma parseLoop_consumes fuel m l ts n rest :
  (length ts <= bound)%nat -> parseLoop rec fuel m l ts = Ok (n, rest) -> (length rest <= length ts)%nat.
Proof using rec_consumes.
  revert l ts. induction fuel as [|fuel IH]; intros l ts Hb;
    destruct ts as [|[] ts]; simpl; intros H; simplify_eq; try done;
    repeat (case_match; simplify_eq/=; try lia).
  apply res_bind_Ok in H as ([r ts'] & Hr & H). apply rec_consumes in Hr; [|lia].
  apply IH in H; lia.
Qed.
End consumption.

Lemma parseExpression_consumes fuel m ts n rest :
  parseExpression fuel m ts = Ok (n, rest) -> (length rest < length ts)%nat.
Proof.
  revert m ts n rest. induction fuel as [|fuel IH]; simpl; intros m ts n rest H; [done|].
  apply res_bind_Ok in H as ([l ts'] & Ha & Hl).
  eapply (parseAtom_consumes _ (length ts)) in Ha; [|eauto|done].
  eapply (parseLoop_consumes _ (length ts')) in Hl; [|eauto|done]. lia.
Qed.

(** With more fuel than tokens the result does not depend on the fuel. *)
Lemma parseLoop_irrel rec rec' f f' m l ts :
  (forall k ts', (length ts' < length ts)%nat -> rec k ts' = rec' k ts') ->
  (forall k ts' n rest, rec k ts' = Ok (n, rest) -> (length rest < length ts')%nat) ->
  (length ts <= f)%nat -> (length ts <= f')%nat ->
  parseLoop rec f m l ts = parseLoop rec' f' m l ts.
Proof.
  revert f' l ts. induction f as [|f IH]; intros f' l ts Hrec Hcons Hf Hf';
    destruct ts as [|[] ts]; simpl in *; try lia;
    (destruct f' as [|f']; simpl in *; try lia); try done;
    repeat (case_match; try done).
  rewrite Hrec by lia. destruct (rec' z ts) as [[r ts']|e] eqn:E; [|done]. simpl.
  assert (length ts' < length ts)%nat by (rewrite <- Hrec in E by lia; eauto).
  apply IH; try lia; [|done]. intros. apply Hrec. lia.
Qed.

Lemma parseExpression_irrel f f' m ts :
  (length ts < f)%nat -> (length ts < f')%nat -> parseExpression f m ts = parseExpression f' m ts.
Proof.
  revert f' m ts. induction f as [|f IH]; intros f' m ts Hf Hf'; [lia|].
  destruct f' as [|f']; [lia|]. simpl.
  assert (parseAtom (parseExpression f) ts = parseAtom (parseExpression f') ts) as ->.
  { destruct ts as [|[] ts]; simpl in *; try done. by rewrite (IH f') by lia. }
  destruct (parseAtom _ ts) as [[l ts']|e] eqn:Ha; [|done]. simpl.
  assert (length ts' < length ts)%nat.
  { eapply (parseAtom_consumes _ (length ts)); [|done|done]. eauto using parseExpression_consumes. }
  apply parseLoop_irrel; try lia.
  - intros k ts'' Hlt. apply IH; lia.
  - eauto using parseExpression_consumes.
Qed.

Lemma parseLoop_no_fuel rec f m l ts :
  (forall k ts', (length ts' < length ts)%nat -> rec k ts' <> Err OutOfFuel) ->
  (forall k ts' n rest, rec k ts' = Ok (n, rest) -> (length rest < length ts')%nat) ->
  (length ts <= f)%nat -> parseLoop rec f m l ts <> Err OutOfFuel.
Proof.
  revert l ts. induction f as [|f IH]; intros l ts Hrec Hcons Hf;
    destruct ts as [|[] ts]; simpl in *; try lia; try done; repeat (case_match; try done).
  intros [H'|([r ts'] & Hr & H')]%res_bind_Err; [apply Hrec in H'; [done|lia]|].
  apply Hcons in Hr. eapply IH in H'; [done| |done|lia]. intros. apply Hrec. lia.
Qed.

Lemma parseExpression_no_fuel f m ts :
  (length ts < f)%nat -> parseExpression f m ts <> Err OutOfFuel.
Proof.
  revert m ts. induction f as [|f IH]; intros m ts Hf; [lia|]. simpl.
  intros [H|([l ts'] & Ha & H)]%res_bind_Err.
  - destruct ts as [|[] ts]; simpl in *; try done.
    apply res_bind_Err in H as [H|([? ?] & ? & H)]; [apply IH in H; [done|lia]|].
    by repeat case_match.
  - assert (length ts' < length ts)%nat.
    { eapply (parseAtom_consumes _ (length ts)); [|done|done]. eauto using parseExpression_consumes. }
    eapply parseLoop_no_fuel in H; [done| |eauto using parseExpression_consumes|lia].
    intros. apply IH. lia.
Qed.

(** * The grammar

    The language the documentation describes: binary operators in six
    precedence levels, all left associative, over atoms and parentheses.
    [derives k ts n]: the tokens [ts] are an expression of level [k] or
    tighter, and [n] is its syntax tree. *)
Inductive derives : Z -> list token -> node -> Prop :=
| derives_number k v : derives k [TNumber v] (Number v)
| derives_string k s : derives k [TString s] (Str s)
| derives_ident k x : derives k [TIdent x] (Var x)
| derives_paren k ts n :
    derives 1 ts n -> derives k (TLparen :: ts ++ [TRparen]) n
| derives_tighter k ts n :
    derives (k + 1) ts n -> derives k ts n
| derives_binop k op ts1 ts2 l r :
    mlookup op bindingPower = Some k ->
    derives k ts1 l -> derives (k + 1) ts2 r ->
    derives k (ts1 ++ TOp op :: ts2) (BinOp op l r).

(** The binding power of the operator at the head of the tokens, if any. *)
Definition head_bp (ts : list token) : option Z :=
  match ts with TOp op :: _ => mlookup op bindingPower | _ => None end.

(** No operator that binds tighter than [k] follows. *)
Definition stops (k : Z) (ts : list token) : Prop :=
  forall bp, head_bp ts = Some bp -> bp <= k.

Lemma bindingPower_range op bp : mlookup op bindingPower = Some bp -> 1 <= bp <= 6.
Proof.
  apply (mlookup_forall (fun bp => 1 <= bp <= 6)). simpl.
  repeat (apply Forall_cons_2; [lia|]). apply Forall_nil_2.
Qed.

Lemma derives_le k j ts n : derives k ts n -> j <= k -> derives j ts n.
Proof.
  intros H Hle. replace j with (k - Z.of_nat (Z.to_nat (k - j))) by lia.
  induction (Z.to_nat (k - j)) as [|d IH]; [by replace (k - Z.of_nat 0) with k by lia|].
  apply derives_tighter. by replace (k - Z.of_nat (S d) + 1) with (k - Z.of_nat d) by lia.
Qed.

Lemma derives_nonempty k ts n : derives k ts n -> ts <> [].
Proof. induction 1; try done. by destruct ts1. Qed.

(** ** Soundness *)

(** What a successful call of [parseExpression] with [minBP = m] has read. *)
Definition reads (m : Z) (ts : list token) (n : node) (rest : list token) : Prop :=
  exists pre, ts = pre ++ rest /\ derives (m + 1) pre n /\ stops m rest.

Lemma parseAtom_sound rec ts n rest :
  (forall m ts n rest, rec m ts = Ok (n, rest) -> reads m ts n rest) ->
  parseAtom rec ts = Ok (n, rest) ->
  exists pre, ts = pre ++ rest /\ forall k, derives k pre n.
Proof.
  intros Hrec H. destruct ts as [|[] ts]; simpl in H; simplify_eq.
  - eexists [_]. split; [done|constructor].
  - eexists [_]. split; [done|constructor].
  - eexists [_]. split; [done|constructor].
  - apply res_bind_Ok in H as ([inner ts'] & Hr & H). case_all.
    apply Hrec in Hr as (pre & -> & Hd & _).
    exists (TLparen :: pre ++ [TRparen]). split; [simpl; by rewrite <- app_assoc|].
    intros k. by apply derives_paren.
Qed.

(** The loop invariant: the left operand is an expression of every level that
    the next operator may ask for. *)
Lemma parseLoop_sound rec fuel m pre l ts n rest :
  (forall m ts n rest, rec m ts = Ok (n, rest) -> reads m ts n rest) ->
  derives (m + 1) pre l ->
  (forall bp, head_bp ts = Some bp -> m < bp -> derives bp pre l) ->
  parseLoop rec fuel m l ts = Ok (n, rest) ->
  exists mid, ts = mid ++ rest /\ derives (m + 1) (pre ++ mid) n /\ stops m rest.
Proof.
  intros Hrec. revert pre l ts.
  induction fuel as [|fuel IH]; intros pre l ts Hd Hnext H;
    (assert (stops m ts -> (l, ts) = (n, rest) ->
      exists mid, ts = mid ++ rest /\ derives (m + 1) (pre ++ mid) n /\ stops m rest) as Hdone
      by (intros Hstop Heq; simplify_eq; exists []; by rewrite app_nil_r));
    destruct ts as [|[v|s|x|op| |] ts]; simpl in H; try (apply Hdone; [done|congruence]);
    destruct (mlookup op bindingPower) as [bp|] eqn:Hop;
    try (apply Hdone; [unfold stops; simpl; naive_solver|congruence]);
    destruct (Z.leb_spec bp m);
    try (apply Hdone; [unfold stops; simpl; naive_solver|congruence]); try discriminate H.
  apply res_bind_Ok in H as ([r ts'] & Hr & H).
  apply Hrec in Hr as (pre' & -> & Hr & Hstop).
  specialize (Hnext bp). simpl in Hnext. specialize (Hnext Hop ltac:(lia)).
  assert (derives bp (pre ++ TOp op :: pre') (BinOp op l r)) as Hb by (by constructor).
  apply (IH (pre ++ TOp op :: pre')) in H as (mid & -> & Hn & Hs).
  - exists (TOp op :: pre' ++ mid). rewrite <- app_assoc in Hn.
    split_and!; [simpl; by rewrite <- app_assoc|done|done].
  - eapply derives_le; [done|lia].
  - intros bp' Hbp' _. eapply derives_le; [done|]. by apply Hstop.
Qed.

Lemma parseExpression_sound fuel m ts n rest :
  parseExpression fuel m ts = Ok (n, rest) -> reads m ts n rest.
Proof.
  revert m ts n rest. induction fuel as [|fuel IH]; simpl; intros m ts n rest H; [done|].
  apply res_bind_Ok in H as ([l ts'] & Ha & Hl).
  apply parseAtom_sound in Ha as (pre & -> & Hd); [|done].
  eapply (parseLoop_sound _ _ _ pre) in Hl as (mid & -> & Hn & Hs); eauto.
  exists (pre ++ mid). split_and!; [by rewrite <- app_assoc|done|done].
Qed.

(** ** Completeness *)

Arguments parseExpression : simpl never.

(** Enough fuel for [parseExpression] and for the loop. *)
Definition enough (f : nat) (ts : list token) : Prop := (length ts < f)%nat.

Lemma parseExpression_S f m ts :
  parseExpression (S f) m ts =
  let? (lhs, ts) := parseAtom (parseExpression f) ts in
  parseLoop (parseExpression f) f m lhs ts.
Proof. done. Qed.

Lemma parseLoop_S rec f m l op bp ts :
  mlookup op bindingPower = Some bp -> m < bp ->
  parseLoop rec (S f) m l (TOp op :: ts) =
  let? (rhs, ts) := rec bp ts in parseLoop rec f m (BinOp op l rhs) ts.
Proof. intros Hop Hlt. simpl. rewrite Hop. by destruct (Z.leb_spec bp m); [lia|]. Qed.

Lemma parseLoop_stops rec f m l ts : stops m ts -> parseLoop rec f m l ts = Ok (l, ts).
Proof.
  intros Hstop. destruct f, ts as [|[] ts]; simpl; try done;
    (destruct (mlookup op bindingPower) as [bp|] eqn:Hop; [|done]);
    specialize (Hstop bp Hop); (destruct (Z.leb_spec bp m); [done|lia]).
Qed.

(** An expression in front of [rest] is read as the left operand with which
    the loop then continues. *)
Lemma derives_complete k ts n :
  derives k ts n -> forall m rest f,
  0 <= m < k -> stops k rest -> enough f (ts ++ rest) ->
  parseExpression f m (ts ++ rest) =
  parseLoop (parseExpression f) f m n rest.
Proof.
  assert (forall f m t ts n, (forall rec, parseAtom rec (t :: ts) = Ok (n, ts)) -> enough f (t :: ts) ->
    parseExpression f m (t :: ts) = parseLoop (parseExpression f) f m n ts) as Hatom.
  { intros f m t ts' n' Ha Hf. destruct f as [|f]; [unfold enough in Hf; simpl in Hf; lia|].
    unfold enough in Hf. simpl in Hf.
    rewrite parseExpression_S, Ha. simpl res_bind. apply parseLoop_irrel; try lia.
    - intros k' ts'' Hlt. apply parseExpression_irrel; lia.
    - eauto using parseExpression_consumes. }
  induction 1 as [k v|k s|k x|k ts n _ IH|k ts n _ IH|k op ts1 ts2 l r Hop _ IHl Hr IHr];
    intros m rest f Hm Hstop Hf.
  - by apply Hatom.
  - by apply Hatom.
  - by apply Hatom.
  - unfold enough in Hf. simpl in *. rewrite <- !app_assoc in *. simpl in *.
    rewrite length_app in Hf. simpl in Hf.
    destruct f as [|f]; [lia|]. rewrite parseExpression_S. cbn [parseAtom].
    rewrite IH; [|lia|unfold stops; naive_solver|unfold enough; rewrite length_app; simpl; lia].
    rewrite parseLoop_stops by (unfold stops; naive_solver). simpl res_bind.
    apply parseLoop_irrel; try lia.
    + intros k' ts'' Hlt. apply parseExpression_irrel; lia.
    + eauto using parseExpression_consumes.
  - apply IH; [lia| |done]. intros bp Hbp. specialize (Hstop bp Hbp). lia.
  - unfold enough in Hf. rewrite <- app_assoc in *. simpl in *.
    rewrite IHl; [|lia|unfold stops; simpl; intros bp ?; simplify_eq; lia|done].
    rewrite length_app in Hf. simpl in Hf. rewrite length_app in Hf.
    destruct f as [|f]; [lia|]. rewrite (parseLoop_S _ f m l op k) by (done || lia).
    rewrite IHr; [| |intros bp Hbp; specialize (Hstop bp Hbp); lia
                  |unfold enough; rewrite length_app; lia].
    2: { apply bindingPower_range in Hop. lia. }
    rewrite (parseLoop_stops _ _ k r) by done. simpl res_bind.
    apply parseLoop_irrel; try lia; [done|].
    intros k' ts' n' rest'. apply (parseExpression_consumes (S f)).
Qed.

Lemma parse_ok_iff ts n : parse ts = Ok n <-> derives 1 ts n.
Proof.
  unfold parse. split.
  - intros ([n' rest] & Hp & H)%res_bind_Ok. case_all.
    apply parseExpression_sound in Hp as (pre & Heq & Hd & _).
    rewrite app_nil_r in Heq. by subst.
  - intros Hd. pose proof (derives_complete 1 ts n Hd 0 [] (S (length ts))) as Hc.
    rewrite app_nil_r in Hc. rewrite Hc; [done|lia|done|unfold enough; lia].
Qed.

(** ** Parsed trees only have the operators of the table *)

Fixpoint known_ops (n : node) : bool :=
  match n with
  | BinOp op l r => bool_decide (is_Some (mlookup op bindingPower)) && known_ops l && known_ops r
  | _ => true
  end.

Lemma derives_known_ops k ts n : derives k ts n -> known_ops n = true.
Proof.
  induction 1 as [| | | | |k op ts1 ts2 l r Hop _ IHl _ IHr]; simpl; try done.
  by rewrite IHl, IHr, bool_decide_true by (by exists k).
Qed.

Lemma Parse_known_ops text n : Parse text = Ok n -> known_ops n = true.
Proof.
  unfold Parse. intros (ts & _ & H)%res_bind_Ok.
  destruct ts; [done|]. apply parse_ok_iff in H. by eapply derives_known_ops.
Qed.

(** ** Totality *)

Lemma Parse_no_fuel text : Parse text <> Err OutOfFuel.
Proof.
  unfold Parse. intros [H|(ts & _ & H)]%res_bind_Err.
  - by apply tokenize_fuel_enough in H.
  - destruct ts as [|t ts]; [done|].
    apply res_bind_Err in H as [H|([? ?] & _ & H)]; [|by case_match].
    by apply parseExpression_no_fuel in H; [|lia].
Qed.

(** C5. [Parse] terminates on every text, with a tree or one of its own
    errors, and it decides the documented grammar: the result is the tree [n]
    exactly when the text's tokens derive [n] from the start symbol - six left
    associative precedence levels, parentheses, numbers, strings and names -
    and no text derives two trees. *)
Theorem Parse_decides_grammar text :
  Parse text <> Err OutOfFuel /\
  (forall n, Parse text = Ok n <-> exists ts, Tokenize text = Ok ts /\ derives 1 ts n) /\
  (forall ts n n', Tokenize text = Ok ts -> derives 1 ts n -> derives 1 ts n' -> n = n').
Proof.
  split; [apply Parse_no_fuel|]. split.
  - intros n. unfold Parse. rewrite res_bind_Ok. split; intros (ts & Ht & H); exists ts; (split; [done|]).
    + destruct ts; [done|]. by apply parse_ok_iff.
    + destruct ts; [by apply derives_nonempty in H|]. by apply parse_ok_iff.
  - intros ts n n' _ H H'. apply parse_ok_iff in H, H'. congruence.
Qed.
