(* ===== verification/FilterPrint.v ===== *)
(** A printer for filter expressions and the round trip through the tokenizer
    and the parser: every syntax tree with known operators and writable
    literals is the parse of its printed text, with no more parentheses than
    precedence asks for. *)

From S2P Require Import Prelude GoFloat GoStrings Values Expression.

(** * Trees to tokens *)

Definition parens (b : bool) (ts : list token) : list token :=
  if b then TLparen :: ts ++ [TRparen] else ts.

(** The tokens of a tree at level [k]: a subtree that binds less tightly than
    its place asks for is put in parentheses. *)
Fixpoint show (k : Z) (n : node) : list token :=
  match n with
  | Number v => [TNumber v]
  | Str s => [TString s]
  | Var x => [TIdent x]
  | BinOp op l r =>
      let j := default 0 (mlookup op bindingPower) in
      parens (j <? k) (show j l ++ TOp op :: show (j + 1) r)
  end.

Lemma show_derives n k : known_ops n = true -> derives k (show k n) n.
Proof.
  revert k. induction n as [v|s|x|op l IHl r IHr]; intros k; simpl; try by constructor.
  rewrite !andb_true_iff, bool_decide_eq_true. intros [[[j Hj] Hl] Hr]. rewrite Hj. simpl.
  assert (derives j (show j l ++ TOp op :: show (j + 1) r) (BinOp op l r)) by (constructor; auto).
  unfold parens. destruct (Z.ltb_spec j k).
  - apply derives_paren. apply bindingPower_range in Hj. eapply derives_le; [done|lia].
  - by eapply derives_le.
Qed.

(** * Tokens to text *)

(** A float literal: digits, a point, digits. *)
Definition float_text (f : float64) : string :=
  let s := format_float_f f in if contains_byte "." s then s else s +:+ ".0".

Definition token_text (t : token) : string :=
  match t with
  | TNumber (NInt z) => itoa z
  | TNumber (NFloat f) => float_text f
  | TString s => String dquote (s +:+ String dquote "")
  | TIdent s => s
  | TOp op => op
  | TLparen => "("
  | TRparen => ")"
  end.

(** Literals and names that the language can write: a nonnegative int64, a
    float whose text reads back, a string without a double quote, an
    identifier, an operator of the table. *)
Definition printable_token (t : token) : Prop :=
  match t with
  | TNumber (NInt z) => 0 <= z <= max_int64
  | TNumber (NFloat f) => exists a s,
      float_text f = String a s /\ isDigit a = true /\
      str_forall (fun c => isDigit c || Ascii.eqb c ".") s = true /\
      contains_byte "." (float_text f) = true /\ pyFloatParse (float_text f) = Some f
  | TString s => contains_byte dquote s = false
  | TIdent s => exists c s', s = String c s' /\ isIdentStart c = true /\ str_forall isIdentBody s' = true
  | TOp op => is_Some (mlookup op bindingPower)
  | _ => True
  end.

(** Tokens separated by single spaces. *)
Definition render (ts : list token) : string := join "" ((fun t => token_text t +:+ " ") <$> ts).

Fixpoint printable (n : node) : Prop :=
  match n with
  | Number v => printable_token (TNumber v)
  | Str s => printable_token (TString s)
  | Var x => printable_token (TIdent x)
  | BinOp op l r => is_Some (mlookup op bindingPower) /\ printable l /\ printable r
  end.

Definition print_expression (n : node) : string := render (show 1 n).

(** * The tokenizer reads back what is printed *)

Lemma contains_byte_forall c s :
  str_forall (fun a => negb (Ascii.eqb a c)) s = true -> contains_byte c s = false.
Proof.
  induction s as [|a s IH]; simpl; [done|]. rewrite andb_true_iff, negb_true_iff.
  intros [-> ?]. auto.
Qed.

Lemma decimal_isDigit c : decimal_digit c = true -> isDigit c = true.
Proof. done. Qed.

Lemma digit_not_special c :
  isDigit c = true ->
  isSpaceByte c = false /\ Ascii.eqb c "(" = false /\ Ascii.eqb c ")" = false /\
  Ascii.eqb c dquote = false /\ Ascii.eqb c "." = false /\ isIdentStart c = false.
Proof. destruct c as [[] [] [] [] [] [] [] []]; vm_compute; intros; by split_and?. Qed.

Lemma identStart_not_special c :
  isIdentStart c = true ->
  isSpaceByte c = false /\ Ascii.eqb c "(" = false /\ Ascii.eqb c ")" = false /\
  Ascii.eqb c dquote = false /\ isDigit c = false.
Proof. destruct c as [[] [] [] [] [] [] [] []]; vm_compute; intros; by split_and?. Qed.

(** A nonempty run of digits (and points) that is not a hexadecimal prefix is
    read by the decimal branch. *)
Definition decimal_token (raw rest : string) : fres (token * string) :=
  if contains_byte "." raw then
    match pyFloatParse raw with
    | Some f => Ok (TNumber (NFloat f), rest)
    | None =>
        if isPyIPv4 raw then Ok (TString raw, rest)
        else
          let lead := match cut_byte "." raw with Some (l, _) => l | None => raw end in
          if String.eqb lead "" then Ok (TNumber (NInt 0), rest)
          else Ok (TNumber (NInt (parseLeadingInt lead)), rest)
    end
  else Ok (TNumber (NInt (parseLeadingInt raw)), rest).

Definition digit_or_dot (c : ascii) : bool := isDigit c || Ascii.eqb c ".".

Lemma digit_or_dot_not_x c : digit_or_dot c = true -> Ascii.eqb c "x" || Ascii.eqb c "X" = false.
Proof. by destruct c as [[] [] [] [] [] [] [] []]. Qed.

Lemma scanNumber_decimal a s rest :
  isDigit a = true -> str_forall digit_or_dot s = true ->
  scanNumber (String a (s +:+ String " " rest)) = decimal_token (String a s) (String " " rest).
Proof.
  intros Ha Hs. unfold scanNumber.
  assert (span digit_or_dot (String a (s +:+ String " " rest)) = (String a s, String " " rest)) as Hspan.
  { apply (span_all digit_or_dot (String a s)); [|done]. simpl. unfold digit_or_dot at 1. by rewrite Ha. }
  unfold digit_or_dot in Hspan. rewrite Hspan.
  destruct s as [|b s]; simpl; [by rewrite andb_false_r|].
  simpl in Hs. apply andb_true_iff in Hs as [Hb _].
  rewrite digit_or_dot_not_x, andb_false_r by done. done.
Qed.

Lemma next_token_digit pos a s rest :
  isDigit a = true -> str_forall digit_or_dot s = true ->
  next_token pos a (s +:+ String " " rest) =
  let? (tok, rest) := decimal_token (String a s) (String " " rest) in Ok (Some tok, rest).
Proof.
  intros Ha Hs. unfold next_token.
  destruct (digit_not_special a Ha) as (-> & -> & -> & -> & _ & _). rewrite Ha.
  by rewrite scanNumber_decimal.
Qed.

Lemma operator_elem op bp : mlookup op bindingPower = Some bp -> op ∈ bindingPower.*1.
Proof. intros H%mlookup_Some_elem. apply list_elem_of_fmap. by exists (op, bp). Qed.

Lemma next_token_dquote pos s :
  next_token pos dquote s =
  match cut_byte dquote s with
  | Some (lit, rest) => Ok (Some (TString lit), rest)
  | None => Err UnterminatedString
  end.
Proof. done. Qed.

(** Each printed token, followed by a space, is read back first. *)
Lemma next_token_text t rest :
  printable_token t ->
  exists c s, token_text t = String c s /\
    forall n, next_token n c (s +:+ String " " rest) = Ok (Some t, String " " rest).
Proof.
  destruct t as [[z|f]|s|s|op| |]; simpl; intros Hp.
  - assert (itoa z = format_uint 10 z) as Hi.
    { unfold itoa, format_int. destruct (Z.ltb_spec z 0); [lia|done]. }
    destruct (format_uint_cons 10 z) as (c & s & Heq).
    pose proof (format_uint_digits z ltac:(lia)) as Hd. rewrite Heq in Hd. simpl in Hd.
    apply andb_true_iff in Hd as [Hc Hs].
    exists c, s. split; [congruence|]. intros n. rewrite next_token_digit.
    + unfold decimal_token. rewrite contains_byte_forall.
      * simpl. do 3 f_equal. unfold parseLeadingInt. rewrite <- Heq, <- Hi.
        pose proof (atoi_itoa z) as Ha. unfold atoi in Ha. rewrite Ha; [done|].
        unfold in_int64, min_int64. lia.
      * simpl. destruct (digit_not_special c Hc) as (_ & _ & _ & _ & -> & _). simpl.
        eapply str_forall_impl; [|exact Hs]. intros a Ha.
        by destruct (digit_not_special a Ha) as (_ & _ & _ & _ & -> & _).
    + done.
    + eapply str_forall_impl; [|exact Hs]. intros a Ha. unfold digit_or_dot.
      apply orb_true_iff. by left.
  - destruct Hp as (c & s & Heq & Hc & Hs & Hdot & Hparse).
    exists c, s. split; [done|]. intros n. rewrite next_token_digit by done.
    unfold decimal_token. rewrite <- Heq, Hdot, Hparse. done.
  - exists dquote, (s +:+ String dquote ""). split; [done|].
    intros n. rewrite next_token_dquote, str_app_assoc. simpl.
    by rewrite cut_byte_app.
  - destruct Hp as (c & s' & -> & Hc & Hs). exists c, s'. split; [done|].
    intros n. unfold next_token. destruct (identStart_not_special c Hc) as (-> & -> & -> & -> & ->).
    rewrite Hc, span_all; done.
  - destruct Hp as [bp Hbp]. apply operator_elem in Hbp. simpl in Hbp.
    repeat (apply elem_of_cons in Hbp as [->|Hbp]; [eexists _, _; split; [reflexivity|]; reflexivity|]).
    by apply not_elem_of_nil in Hbp.
  - by eexists _, _.
  - by eexists _, _.
Qed.

Lemma tokenize_render n fuel ts :
  Forall printable_token ts -> (String.length (render ts) <= fuel)%nat ->
  tokenize_fuel n fuel (render ts) = Ok ts.
Proof.
  assert (forall t ts, render (t :: ts) = token_text t +:+ String " " (render ts)) as Hcons.
  { intros t ts'. unfold render. rewrite fmap_cons, join_empty_cons, str_app_assoc. done. }
  intros Hts. revert fuel. induction Hts as [|t ts Ht _ IH]; intros fuel Hf; [by destruct fuel|].
  rewrite Hcons in *.
  destruct (next_token_text t (render ts) Ht) as (c & s & Heq & Hn).
  rewrite str_app_length in Hf. simpl in Hf. rewrite Heq in *. simpl in *.
  destruct fuel as [|fuel]; [lia|]. cbn [tokenize_fuel].
  rewrite Hn. simpl res_bind.
  destruct fuel as [|fuel]; [lia|]. cbn [tokenize_fuel].
  change (next_token _ " " (render ts)) with (Ok (E:=expression_error) (@None token, render ts)).
  simpl res_bind. rewrite IH by lia. done.
Qed.

Lemma show_printable n k : printable n -> Forall printable_token (show k n).
Proof.
  revert k. induction n as [v|s|x|op l IHl r IHr]; intros k; simpl; try by repeat constructor.
  intros (Hop & Hl & Hr). unfold parens.
  assert (Forall printable_token (show (default 0 (mlookup op bindingPower)) l ++
            TOp op :: show (default 0 (mlookup op bindingPower) + 1) r)).
  { apply Forall_app. split; [auto|]. constructor; [done|auto]. }
  destruct (_ <? k); [|done]. constructor; [done|]. apply Forall_app. split; [done|]. by repeat constructor.
Qed.

Lemma printable_known_ops n : printable n -> known_ops n = true.
Proof.
  induction n; simpl; try done. intros (Hop & ? & ?).
  rewrite bool_decide_true by done. simpl. rewrite IHn1, IHn2; done.
Qed.

(** C6. Printing a syntax tree with minimal parentheses and parsing the text
    gives the tree back: [Parse (print_expression n) = n] for every tree whose
    operators are known and whose literals are writable. *)
Theorem parse_print (n : node) : printable n -> Parse (print_expression n) = Ok n.
Proof.
  intros Hn. unfold Parse, print_expression, Tokenize.
  rewrite tokenize_render by (done || by apply show_printable). simpl.
  pose proof (show_derives n 1 (printable_known_ops n Hn)) as Hd.
  destruct (show 1 n) eqn:E; [by apply derives_nonempty in Hd|]. by apply parse_ok_iff.
Qed.

(** [a * (b - 1.5) > 2 && name ~ "x y"]: the parentheses are kept where they
    matter. *)
Definition sample_tree : node :=
  BinOp "&&"
    (BinOp ">" (BinOp "*" (Var "a") (BinOp "-" (Var "b") (Number (NFloat (f_decimal false 15 (-1))))))
       (Number (NInt 2)))
    (BinOp "~" (Var "name") (Str "x y")).

Lemma parse_print_witness :
  printable sample_tree /\ Parse (print_expression sample_tree) = Ok sample_tree.
Proof.
  assert (H : printable sample_tree).
  { cbn [printable sample_tree]. split_and!; cbn [printable_token]; try (by eexists);
      try (by eexists _, _; vm_compute); try (unfold max_int64; lia); try reflexivity. }
  split; [exact H|]. apply (parse_print sample_tree). exact H.
Defined.
