(* ===== verification/FilterEval.v ===== *)
(** The filter mini-language, the in-memory predicate
    ([internal/filter/expression.go], [Evaluate] and its helpers;
    [internal/filter/namemap.go], [EvaluateStream]): evaluation of a syntax
    tree over a value map, its coercions, and the theorems on short circuits,
    exclusion on errors, type soundness and integer comparison. *)

From S2P Require Import Prelude GoFloat GoStrings Values Expression.

Section eval.
Context `{UnicodeTables}.

(** * Coercions *)

Definition isNumeric (v : any) : bool :=
  match v with AInt64 _ | AFloat _ | ABool _ => true | _ => false end.

Definition isFloatVal (v : any) : bool :=
  match v with AFloat _ => true | _ => false end.

Definition asBool (v : any) : fres bool :=
  match v with
  | ABool b => Ok b
  | AInt64 z => Ok (negb (z =? 0))
  | AFloat f => Ok (negb (feq f fzero))
  | AString s => Ok (negb (String.length s =? 0)%nat)
  | _ => Err NotBoolean
  end.

Definition numToInt (v : any) : Z :=
  match v with
  | AInt64 z => z
  | AFloat f => int64_of_f64 f
  | ABool b => if b then 1 else 0
  | _ => 0
  end.

Definition numToFloat (v : any) : float64 :=
  match v with
  | AInt64 z => f64_of_Z z
  | AFloat f => f
  | ABool b => if b then f64_of_Z 1 else fzero
  | _ => fzero
  end.

Definition isNumericZero (v : any) : bool :=
  match v with
  | AInt64 z => z =? 0
  | AFloat f => feq f fzero
  | ABool b => negb b
  | _ => false
  end.

Definition arith (op : string) (l r : any) : fres any :=
  if negb (isNumeric l) || negb (isNumeric r) then Err NonNumeric
  else
    let bothInt := negb (isFloatVal l) && negb (isFloatVal r) in
    let num (fi : Z -> Z -> Z) (ff : float64 -> float64 -> float64) : fres any :=
      if bothInt then Ok (AInt64 (wrap64 (fi (numToInt l) (numToInt r))))
      else Ok (AFloat (ff (numToFloat l) (numToFloat r))) in
    if String.eqb op "+" then num Z.add fadd
    else if String.eqb op "-" then num Z.sub fsub
    else if String.eqb op "*" then num Z.mul fmul
    else if String.eqb op "/" then
      if isNumericZero r then Err DivisionByZero else num Z.quot fdiv
    else Err (UnknownOperator op).

(** [pyReprFloat]: Python's repr of a float, from the shortest digits [%e]
    yields. *)
Definition fmtExp (e : Z) : string :=
  let sign := if e <? 0 then "-" else "+" in
  let es := itoa (Z.abs e) in
  let es := if (String.length es <? 2)%nat then "0" +:+ es else es in
  "e" +:+ sign +:+ es.

(** The mantissa digits without the point, and the exponent, of a [%e]
    text. *)
Definition split_e (s : string) : string * Z :=
  match cut_byte "e" s with
  | Some (mant, exp) => (replace_all mant "." "", default 0 (atoi exp))
  | None => (s, 0)
  end.

Definition pyReprFloat (f : float64) : string :=
  match f with
  | S754_infinity false => "inf"
  | S754_infinity true => "-inf"
  | S754_nan => "nan"
  | _ =>
      let s := format_float_e f in
      let neg := has_prefix "-" s in
      let s := if neg then str_drop 1 s else s in
      let '(digits, exp) := split_e s in
      let decpt := exp + 1 in
      let len := Z.of_nat (String.length digits) in
      let body :=
        if (decpt <=? -4) || (16 <? decpt) then
          let m := str_take 1 digits in
          let m := if 1 <? len then m +:+ "." +:+ str_drop 1 digits else m in
          m +:+ fmtExp (decpt - 1)
        else if decpt <=? 0 then "0." +:+ repeat_str "0" (Z.to_nat (- decpt)) +:+ digits
        else if len <=? decpt then digits +:+ repeat_str "0" (Z.to_nat (decpt - len)) +:+ ".0"
        else str_take (Z.to_nat decpt) digits +:+ "." +:+ str_drop (Z.to_nat decpt) digits in
      if neg then "-" +:+ body else body
  end.

Definition pyStr (v : any) : string :=
  match v with
  | AString s => s
  | AInt64 z => itoa z
  | AFloat f => pyReprFloat f
  | ABool b => if b then "True" else "False"
  | _ => fmt_v v
  end.

Definition toFloatAny (v : any) : fres float64 :=
  match v with
  | AInt64 z => Ok (f64_of_Z z)
  | AFloat f => Ok f
  | ABool b => Ok (if b then f64_of_Z 1 else fzero)
  | AString s => match pyFloatParse s with Some f => Ok f | None => Err NotFloat end
  | _ => Err NotFloat
  end.

(** [coercePair]: the pair to compare, as floats or as strings. *)
Definition coercePair (l r : any) : (float64 * float64) + (string * string) :=
  if isNumeric l && isNumeric r then inl (numToFloat l, numToFloat r)
  else match l, r with
  | AString ls, AString rs => inr (ls, rs)
  | _, _ =>
      match toFloatAny l, toFloatAny r with
      | Ok lf, Ok rf => inl (lf, rf)
      | _, _ => inr (pyStr l, pyStr r)
      end
  end.

Definition str_cmp (s t : string) : comparison := String.compare s t.

Definition compare (op : string) (l r : any) : fres bool :=
  match coercePair l r with
  | inl (lf, rf) =>
      if String.eqb op "==" then Ok (feq lf rf)
      else if String.eqb op "!=" then Ok (negb (feq lf rf))
      else if String.eqb op "<" then Ok (flt lf rf)
      else if String.eqb op "<=" then Ok (fle lf rf)
      else if String.eqb op ">" then Ok (fgt lf rf)
      else if String.eqb op ">=" then Ok (fge lf rf)
      else Err (UnknownOperator op)
  | inr (ls, rs) =>
      if String.eqb op "==" then Ok (String.eqb ls rs)
      else if String.eqb op "!=" then Ok (negb (String.eqb ls rs))
      else if String.eqb op "<" then Ok (match str_cmp ls rs with Lt => true | _ => false end)
      else if String.eqb op "<=" then Ok (match str_cmp ls rs with Gt => false | _ => true end)
      else if String.eqb op ">" then Ok (match str_cmp ls rs with Gt => true | _ => false end)
      else if String.eqb op ">=" then Ok (match str_cmp ls rs with Lt => false | _ => true end)
      else Err (UnknownOperator op)
  end.

(** [containsFold]: the operator [~]. *)
Definition containsFold (l r : any) : bool :=
  match l, r with
  | ANil, _ | _, ANil => false
  | _, _ => contains (to_lower (pyStr l)) (to_lower (pyStr r))
  end.

(** * Evaluation *)

Fixpoint Evaluate (n : node) (values : vmap) : fres any :=
  match n with
  | Number v => Ok (any_of_num v)
  | Str s => Ok (AString s)
  | Var x => match values !! x with Some v => Ok v | None => Err (NotProvided x) end
  | BinOp op l r =>
      if String.eqb op "&&" then
        let? lv := Evaluate l values in
        let? lb := asBool lv in
        if (lb : bool) then let? rv := Evaluate r values in res_map ABool (asBool rv)
        else Ok (ABool false)
      else if String.eqb op "||" then
        let? lv := Evaluate l values in
        let? lb := asBool lv in
        if (lb : bool) then Ok (ABool true)
        else let? rv := Evaluate r values in res_map ABool (asBool rv)
      else
        let? lv := Evaluate l values in
        let? rv := Evaluate r values in
        if existsb (String.eqb op) ["+"; "-"; "*"; "/"] then arith op lv rv
        else if String.eqb op "~" then Ok (ABool (containsFold lv rv))
        else res_map ABool (compare op lv rv)
  end.

(** [EvaluateStreamNode] and [EvaluateStream]: any error excludes. *)
Definition EvaluateStreamNode (n : node) (values : vmap) : bool :=
  match Evaluate n values with
  | Ok v => match asBool v with Ok b => b | Err _ => false end
  | Err _ => false
  end.

Definition EvaluateStream (expression : string) (values : vmap) : bool :=
  match Parse expression with
  | Ok n => EvaluateStreamNode n values
  | Err _ => false
  end.
End eval.

(** * Conjunction and disjunction of predicates *)

Section predicates.
Context `{UnicodeTables}.

(** The truth value of an expression, when it has one. *)
Definition truth (n : node) (values : vmap) : fres bool :=
  let? v := Evaluate n values in asBool v.

Lemma EvaluateStreamNode_truth n values :
  EvaluateStreamNode n values = match truth n values with Ok b => b | Err _ => false end.
Proof. unfold EvaluateStreamNode, truth. by destruct (Evaluate n values). Qed.

Lemma truth_and l r values :
  truth (BinOp "&&" l r) values =
  let? lb := truth l values in if (lb : bool) then truth r values else Ok false.
Proof.
  unfold truth. simpl. destruct (Evaluate l values) as [lv|]; [|done]. simpl.
  destruct (asBool lv) as [[]|]; simpl; try done.
  destruct (Evaluate r values) as [rv|]; [|done]. simpl. by destruct (asBool rv).
Qed.

Lemma truth_or l r values :
  truth (BinOp "||" l r) values =
  let? lb := truth l values in if (lb : bool) then Ok true else truth r values.
Proof.
  unfold truth. simpl. destruct (Evaluate l values) as [lv|]; [|done]. simpl.
  destruct (asBool lv) as [[]|]; simpl; try done.
  destruct (Evaluate r values) as [rv|]; [|done]. simpl. by destruct (asBool rv).
Qed.

(** * Typing

    The types of the values a filter works on.  [TAny] is any value but nil
    and the non-filter types. *)
Inductive ety := TNum | TText.

Definition val_ok (v : any) (t : ety) : Prop :=
  match v, t with
  | (AInt64 _ | AFloat _ | ABool _), TNum => True
  | AString _, TText => True
  | _, _ => False
  end.

(** The type of an expression whose variables have the types of [G]; [None]
    when it is ill typed.  Division is left out: it can fail on its value. *)
Fixpoint type_of (G : string -> option ety) (n : node) : option ety :=
  match n with
  | Number _ => Some TNum
  | Str _ => Some TText
  | Var x => G x
  | BinOp op l r =>
      match type_of G l, type_of G r with
      | Some tl, Some tr =>
          if existsb (String.eqb op) ["+"; "-"; "*"] then
            match tl, tr with TNum, TNum => Some TNum | _, _ => None end
          else if existsb (String.eqb op) ["&&"; "||"; "=="; "!="; "<"; "<="; ">"; ">="; "~"]
          then Some TNum
          else None
      | _, _ => None
      end
  end.

(** A value map provides the variables of [G] at their types. *)
Definition provides (values : vmap) (G : string -> option ety) : Prop :=
  forall x t, G x = Some t -> exists v, values !! x = Some v /\ val_ok v t.

Lemma asBool_ok v t : val_ok v t -> exists b, asBool v = Ok b.
Proof. destruct v, t; simpl; intros; try done; eauto. Qed.

Lemma arith_ok op lv rv :
  existsb (String.eqb op) ["+"; "-"; "*"] = true ->
  val_ok lv TNum -> val_ok rv TNum -> exists v, arith op lv rv = Ok v /\ val_ok v TNum.
Proof.
  intros Hop Hl Hr.
  assert (isNumeric lv = true /\ isNumeric rv = true) as [Hnl Hnr].
  { by destruct lv, rv. }
  unfold arith. rewrite Hnl, Hnr. simpl negb. simpl orb. cbv iota.
  simpl in Hop.
  destruct (String.eqb op "+"); [|destruct (String.eqb op "-"); [|destruct (String.eqb op "*"); [|done]]];
    destruct (negb (isFloatVal lv) && negb (isFloatVal rv)); eexists; done.
Qed.

Lemma compare_ok op lv rv :
  existsb (String.eqb op) ["=="; "!="; "<"; "<="; ">"; ">="] = true ->
  exists b, compare op lv rv = Ok b.
Proof.
  unfold compare. simpl. intros Hop.
  destruct (coercePair lv rv) as [[? ?]|[? ?]];
  (destruct (String.eqb op "=="); [by eexists|]);
  (destruct (String.eqb op "!="); [by eexists|]);
  (destruct (String.eqb op "<"); [by eexists|]);
  (destruct (String.eqb op "<="); [by eexists|]);
  (destruct (String.eqb op ">"); [by eexists|]);
  (destruct (String.eqb op ">="); [by eexists|]); done.
Qed.

Lemma type_sound G values n t :
  provides values G -> type_of G n = Some t ->
  exists v, Evaluate n values = Ok v /\ val_ok v t.
Proof.
  intros HG. revert t. induction n as [v|s|x|op l IHl r IHr]; intros t Ht; simpl in Ht.
  - simplify_eq. exists (any_of_num v). split; [done|by destruct v].
  - simplify_eq. by eexists.
  - destruct (HG _ _ Ht) as (v & Hv & Hok). exists v. simpl. by rewrite Hv.
  - destruct (type_of G l) as [tl|]; [|done]. destruct (type_of G r) as [tr|]; [|done].
    destruct (IHl _ eq_refl) as (lv & Hl & Hlok). destruct (IHr _ eq_refl) as (rv & Hr & Hrok).
    destruct (asBool_ok _ _ Hlok) as [lb Hlb]. destruct (asBool_ok _ _ Hrok) as [rb Hrb].
    cbn [Evaluate]. rewrite Hl, Hr. cbn [res_bind]. rewrite Hlb, Hrb. cbn [res_bind].
    simpl existsb in Ht. simpl existsb.
    destruct (String.eqb_spec op "+") as [->|]; [|destruct (String.eqb_spec op "-") as [->|];
      [|destruct (String.eqb_spec op "*") as [->|]]];
      try (simpl in Ht |- *; destruct tl, tr; simplify_eq; by apply arith_ok).
    destruct (String.eqb_spec op "&&") as [->|].
    { simpl in Ht |- *. simplify_eq. destruct lb; by eexists. }
    destruct (String.eqb_spec op "||") as [->|].
    { simpl in Ht |- *. simplify_eq. destruct lb; by eexists. }
    destruct (String.eqb_spec op "~") as [->|].
    { simpl in Ht |- *. simplify_eq. by eexists. }
    simpl in Ht.
    assert (existsb (String.eqb op) ["=="; "!="; "<"; "<="; ">"; ">="] = true /\ t = TNum) as [Hop ->].
    { simpl. repeat (case_match; simplify_eq/=; try done). }
    destruct (String.eqb_spec op "/") as [->|]; [done|].
    destruct (compare_ok op lv rv Hop) as [b ->]. simpl. by eexists.
Qed.
End predicates.

(** * Integers *)

(** The six comparisons on the integers themselves. *)
Definition int_compare (op : string) (a b : Z) : option bool :=
  mlookup op [("==", a =? b); ("!=", negb (a =? b)); ("<", a <? b); ("<=", a <=? b);
              (">", b <? a); (">=", b <=? a)].

Lemma f64_flt_Z a b : small53 a -> small53 b -> flt (f64_of_Z a) (f64_of_Z b) = (a <? b).
Proof.
  intros Ha Hb. unfold flt, SFltb. rewrite f64_of_Z_compare by done.
  by destruct (Z.compare_spec a b), (Z.ltb_spec a b); try lia.
Qed.

Lemma f64_feq_Z a b : small53 a -> small53 b -> feq (f64_of_Z a) (f64_of_Z b) = (a =? b).
Proof.
  intros Ha Hb. unfold feq, SFeqb. rewrite f64_of_Z_compare by done.
  by destruct (Z.compare_spec a b), (Z.eqb_spec a b); try lia.
Qed.

Lemma f64_fle_Z a b : small53 a -> small53 b -> fle (f64_of_Z a) (f64_of_Z b) = (a <=? b).
Proof.
  intros Ha Hb. rewrite fle_flt_feq, f64_flt_Z, f64_feq_Z by done.
  destruct (Z.ltb_spec a b), (Z.eqb_spec a b), (Z.leb_spec a b); simpl; lia || done.
Qed.

Section properties.
Context `{UnicodeTables}.

(** * Errors of parsed expressions *)

Fixpoint vars (n : node) : list string :=
  match n with
  | Number _ | Str _ => []
  | Var x => [x]
  | BinOp _ l r => vars l ++ vars r
  end.

Definition runtime_error (values : vmap) (xs : list string) (e : expression_error) : Prop :=
  match e with
  | NotProvided x => x ∈ xs /\ values !! x = None
  | NonNumeric | DivisionByZero | NotBoolean => True
  | _ => False
  end.

Lemma runtime_error_mono values xs ys e :
  xs ⊆ ys -> runtime_error values xs e -> runtime_error values ys e.
Proof. destruct e; simpl; set_solver. Qed.

Lemma asBool_error values xs v e : asBool v = Err e -> runtime_error values xs e.
Proof. destruct v; simpl; intros; by simplify_eq. Qed.

Lemma arith_error values xs op lv rv e :
  existsb (String.eqb op) ["+"; "-"; "*"; "/"] = true -> arith op lv rv = Err e ->
  runtime_error values xs e.
Proof.
  unfold arith. simpl. intros Hop He. repeat (case_match; simplify_eq/=; try done).
Qed.

Lemma Evaluate_error values n e :
  known_ops n = true -> Evaluate n values = Err e -> runtime_error values (vars n) e.
Proof.
  revert e. induction n as [v|s|x|op l IHl r IHr]; intros e Hk He; try done.
  { simpl in He |- *. case_match; simplify_eq. simpl. split; [set_solver|done]. }
  cbn [known_ops] in Hk. apply andb_true_iff in Hk as [[Hop Hkl]%andb_true_iff Hkr].
  assert (forall e, Evaluate l values = Err e -> runtime_error values (vars (BinOp op l r)) e) as HL.
  { intros e' He'. eapply runtime_error_mono; [|by apply IHl]. set_solver. }
  assert (forall e, Evaluate r values = Err e -> runtime_error values (vars (BinOp op l r)) e) as HR.
  { intros e' He'. eapply runtime_error_mono; [|by apply IHr]. set_solver. }
  clear IHl IHr. cbn [Evaluate] in He.
  destruct (String.eqb op "&&") eqn:Ha.
  { destruct (Evaluate l values); simplify_eq/=; [|by apply HL].
    destruct (asBool a) as [[]|] eqn:?; simplify_eq/=; [|by eapply asBool_error].
    destruct (Evaluate r values); simplify_eq/=; [|by apply HR].
    destruct (asBool a0) eqn:?; simplify_eq/=. by eapply asBool_error. }
  destruct (String.eqb op "||") eqn:Ho.
  { destruct (Evaluate l values); simplify_eq/=; [|by apply HL].
    destruct (asBool a) as [[]|] eqn:?; simplify_eq/=; [|by eapply asBool_error].
    destruct (Evaluate r values); simplify_eq/=; [|by apply HR].
    destruct (asBool a0) eqn:?; simplify_eq/=. by eapply asBool_error. }
  destruct (Evaluate l values) as [lv|]; simplify_eq/=; [|by apply HL].
  destruct (Evaluate r values) as [rv|]; simplify_eq/=; [|by apply HR].
  destruct (existsb (String.eqb op) ["+"; "-"; "*"; "/"]) eqn:Har.
  { eapply arith_error; [exact Har|]. simpl in Har. by rewrite Har in He. }
  simpl in Har. rewrite Har in He.
  destruct (String.eqb op "~") eqn:Ht; [done|].
  destruct (compare_ok op lv rv) as [b Hb].
  { apply bool_decide_eq_true in Hop as [bp Hbp]. apply mlookup_Some_elem in Hbp.
    unfold bindingPower in Hbp. rewrite !elem_of_cons, elem_of_nil in Hbp.
    destruct_or? Hbp; by simplify_eq/=. }
  rewrite Hb in He. done.
Qed.

(** * Properties *)

(** A conjunction holds of a stream exactly when both its sides hold,
    whatever errors they raise; a disjunction holds exactly when one side
    does, except that an error of the left side excludes the stream even if
    the right side holds. *)
Theorem EvaluateStreamNode_connectives l r values :
  EvaluateStreamNode (BinOp "&&" l r) values =
    EvaluateStreamNode l values && EvaluateStreamNode r values /\
  EvaluateStreamNode (BinOp "||" l r) values =
    is_ok (truth l values) && (EvaluateStreamNode l values || EvaluateStreamNode r values).
Proof.
  rewrite !EvaluateStreamNode_truth, truth_and, truth_or.
  by destruct (truth l values) as [[]|], (truth r values) as [[]|].
Qed.

(** Evaluating an expression that parsed fails only for the run-time
    reasons of its documentation: an absent variable of the expression, a
    non-numeric operand, a division by zero or a value without a truth
    value; never for an operator the evaluator does not know. *)
Theorem parsed_evaluation_errors text n values e :
  Parse text = Ok n -> Evaluate n values = Err e -> runtime_error values (vars n) e.
Proof. intros HP%Parse_known_ops. by apply Evaluate_error. Qed.

(** C12. A filter that is well typed for the fields a stream provides is
    never excluded by an error: it evaluates, to a value of its type, and the
    stream matches exactly when that value is true. *)
Theorem well_typed_filter_decides text n values G t :
  Parse text = Ok n -> provides values G -> type_of G n = Some t ->
  exists v b, Evaluate n values = Ok v /\ val_ok v t /\ asBool v = Ok b /\
    EvaluateStream text values = b.
Proof.
  intros HP HG Ht. destruct (type_sound G values n t HG Ht) as (v & Hv & Hok).
  destruct (asBool_ok _ _ Hok) as [b Hb]. exists v, b. repeat split; try done.
  unfold EvaluateStream, EvaluateStreamNode. by rewrite HP, Hv, Hb.
Qed.

(** Two integer fields of fewer than 54 bits compare as integers, for
    each of the six comparison operators, although the code compares their
    conversions to float64. *)
Theorem compare_integers op a b c :
  small53 a -> small53 b -> int_compare op a b = Some c ->
  compare op (AInt64 a) (AInt64 b) = Ok c.
Proof.
  intros Ha Hb. unfold int_compare, compare. simpl. unfold fgt, fge.
  rewrite f64_flt_Z, f64_flt_Z, f64_feq_Z, f64_fle_Z, f64_fle_Z by done.
  unfold mlookup. intros Hc. repeat (case_match; simplify_eq; try done).
Qed.
End properties.

(** * The properties at concrete inputs *)

#[local] Existing Instance ascii_tables.

Lemma parsed_evaluation_errors_witness :
  runtime_error ∅ ["jitter"] (NotProvided "jitter").
Proof.
  apply (parsed_evaluation_errors "jitter > 10" (BinOp ">" (Var "jitter") (Number (NInt 10)))
           ∅ (NotProvided "jitter")); vm_compute; reflexivity.
Defined.

Lemma well_typed_filter_decides_witness :
  exists v b,
    Evaluate (BinOp ">" (Var "jitter") (Number (NInt 10))) {["jitter" := AInt64 12]} = Ok v /\
    val_ok v TNum /\ asBool v = Ok b /\ EvaluateStream "jitter > 10" {["jitter" := AInt64 12]} = b.
Proof.
  apply (well_typed_filter_decides _ _ _
    (fun x => if String.eqb x "jitter" then Some TNum else None)).
  - vm_compute. reflexivity.
  - intros x t. destruct (String.eqb_spec x "jitter") as [->|]; intros; simplify_eq.
    exists (AInt64 12). split; [reflexivity|exact I].
  - reflexivity.
Defined.

Lemma compare_integers_witness : compare "<" (AInt64 (-3)) (AInt64 (2 ^ 53 - 1)) = Ok true.
Proof.
  apply (compare_integers "<" (-3) (2 ^ 53 - 1) true); [split; lia|split; lia|].
  vm_compute. reflexivity.
Defined.
