(* ===== verification/FilterSQL.v ===== *)
(** The filter mini-language, the SQL emitter
    ([internal/filter/expression.go], [ToSQL]; [internal/filter/namemap.go];
    [internal/filter/sipcalls.go]): the parameterized WHERE fragment, the
    column whitelists, and the theorems that no literal text reaches the SQL
    and that markers and parameters agree. *)

From S2P Require Import Prelude GoFloat GoStrings Values Expression FilterEval.

Record SQLFragment := Fragment { Text : string; Params : list any }.

Definition sqlOp : list (string * string) :=
  [("==", "="); ("!=", "<>"); ("&&", "AND"); ("||", "OR");
   ("<", "<"); ("<=", "<="); (">", ">"); (">=", ">=");
   ("+", "+"); ("-", "-"); ("*", "*"); ("/", "/")].

Definition marker (dialect : string) : fres string :=
  if String.eqb dialect "qmark" then Ok "?"
  else if String.eqb dialect "format" then Ok "%s"
  else if String.eqb dialect "numeric" then Ok ":1"
  else Err (UnknownDialect dialect).

(** [renumber]: each ":1" of the text becomes ":k" for its position [k] among
    them; [skip] drops the second byte of a match. *)
Fixpoint renumber_from (idx : Z) (skip : bool) (text : string) : string :=
  match text with
  | EmptyString => EmptyString
  | String c rest =>
      if skip then renumber_from idx false rest
      else if has_prefix ":1" text
      then ":" +:+ itoa (idx + 1) +:+ renumber_from (idx + 1) true rest
      else String c (renumber_from idx false rest)
  end.
Definition renumber (text : string) : string := renumber_from 0 false text.

Definition pyReprNumber (v : num) : string :=
  match v with NInt z => itoa z | NFloat f => pyReprFloat f end.

Fixpoint ToSQL (n : node) (nameMap : list (string * string)) (dialect : string) : fres SQLFragment :=
  match n with
  | Number v => Ok (Fragment (pyReprNumber v) [])
  | Str s => let? m := marker dialect in Ok (Fragment m [AString s])
  | Var x =>
      match mlookup x nameMap with
      | Some column => Ok (Fragment column [])
      | None => Err (UnknownField x)
      end
  | BinOp op l r =>
      let? lf := ToSQL l nameMap dialect in
      let? rf := ToSQL r nameMap dialect in
      let params := Params lf ++ Params rf in
      let text := "(" +:+ Text lf +:+ " " +:+ default "" (mlookup op sqlOp) +:+ " " +:+ Text rf +:+ ")" in
      let text :=
        if String.eqb op "~"
        then "(instr(lower(CAST(" +:+ Text lf +:+ " AS TEXT)), lower(" +:+ Text rf +:+ ")) > 0)"
        else text in
      let text := if String.eqb dialect "numeric" then renumber text else text in
      Ok (Fragment text params)
  end.

(** * Name maps *)

Definition silenceRatioSQL : string :=
  "(CAST(COALESCE(rtpmon_statistics.dtx_sid, 0)" +:+
  " + COALESCE(rtpmon_statistics.dtx_count, 0) AS REAL)" +:+
  " / NULLIF(rtpmon_statistics.dtx_total, 0))".

Definition SQLNameMap : list (string * string) :=
  [("start_time", "(rtpmon_statistics.start_timestamp / 1000)");
   ("sevana_mos", "rtpmon_statistics.sevana_mos");
   ("sevana_rfactor", "rtpmon_statistics.sevana_rfactor");
   ("network_mos", "rtpmon_statistics.network_mos");
   ("jitter", "rtpmon_statistics.jitter");
   ("rtt_delay", "rtpmon_statistics.rtt_delay");
   ("silence_ratio", silenceRatioSQL);
   ("duration", "(rtpmon_statistics.end_timestamp - rtpmon_statistics.start_timestamp)");
   ("duration_audio", "rtpmon_statistics.duration_audio");
   ("src_ip", "rtpmon_streams.src_ip");
   ("src_port", "rtpmon_streams.src_port");
   ("dst_ip", "rtpmon_streams.dst_ip");
   ("dst_port", "rtpmon_streams.dst_port");
   ("sip_source", "rtpmon_streams.sip_source");
   ("sip_src", "rtpmon_streams.sip_source");
   ("sip_destination", "rtpmon_streams.sip_destination");
   ("sip_dst", "rtpmon_streams.sip_destination");
   ("sip_callid", "rtpmon_streams.sip_callid");
   ("ssrc", "rtpmon_streams.ssrc");
   ("instance_id", "rtpmon_instances.agent_id");
   ("instance_name", "rtpmon_instances.agent_name")].

Definition SortColumns : list (string * string) :=
  [("", "rtpmon_statistics.stream_id");
   ("duration", "(rtpmon_statistics.end_timestamp - rtpmon_statistics.start_timestamp)");
   ("jitter", "rtpmon_statistics.jitter");
   ("silence_ratio", silenceRatioSQL);
   ("sevana_mos", "rtpmon_statistics.sevana_mos");
   ("network_mos", "rtpmon_statistics.network_mos");
   ("start_time", "rtpmon_statistics.start_timestamp");
   ("end_time", "rtpmon_statistics.end_timestamp");
   ("src_ip", "rtpmon_streams.src_ip");
   ("dst_ip", "rtpmon_streams.dst_ip");
   ("sip_src", "rtpmon_streams.sip_source");
   ("sip_dst", "rtpmon_streams.sip_destination");
   ("sevana_rfactor", "rtpmon_statistics.sevana_rfactor")].

Definition callStreamsSQL : string :=
  " from rtpmon_streams s join rtpmon_statistics t on t.stream_id = s.stream_id" +:+
  " where s.sip_callid = c.call_id)".

Definition SipCallNameMap : list (string * string) :=
  [("caller", "c.caller");
   ("callee", "c.callee");
   ("call_id", "c.call_id");
   ("start_time", "(c.start_timestamp / 1000)");
   ("duration", "c.duration");
   ("code", "COALESCE(c.response_code, c.setup_code)");
   ("status", "(CASE WHEN c.failed = 1 THEN 'failed' WHEN c.established = 1 THEN 'established' ELSE 'unknown' END)");
   ("reinvites", "c.reinvite_count");
   ("sevana_mos", "COALESCE((select min(nullif(t.sevana_mos, 0))" +:+ callStreamsSQL +:+ ", 0)");
   ("network_mos", "(select min(t.network_mos)" +:+ callStreamsSQL)].

Definition BuildWhere (expression dialect : string) : fres SQLFragment :=
  let? n := Parse expression in ToSQL n SQLNameMap dialect.

Definition BuildWhereNode (n : node) (dialect : string) : fres SQLFragment :=
  ToSQL n SQLNameMap dialect.

Definition BuildSipCallWhere (expression dialect : string) : fres SQLFragment :=
  let? n := Parse expression in ToSQL n SipCallNameMap dialect.

Definition BuildOrderBy (sortField : string) (descending : bool) : string :=
  let column := match mlookup sortField SortColumns with
                | Some c => c
                | None => default "" (mlookup "" SortColumns)
                end in
  let direction := if descending then "desc" else "asc" in
  column +:+ " " +:+ direction.

(** * Literals *)

Fixpoint literals (n : node) : list string :=
  match n with
  | Number _ | Var _ => []
  | Str s => [s]
  | BinOp _ l r => literals l ++ literals r
  end.

(** The tree with every string literal emptied. *)
Fixpoint erase (n : node) : node :=
  match n with
  | Str _ => Str ""
  | BinOp op l r => BinOp op (erase l) (erase r)
  | _ => n
  end.

Lemma ToSQL_erase n nameMap dialect :
  ToSQL n nameMap dialect =
  let? f := ToSQL (erase n) nameMap dialect in
  Ok (Fragment (Text f) (AString <$> literals n)).
Proof.
  induction n as [v|s|x|op l IHl r IHr]; simpl; try done.
  - by destruct (marker dialect).
  - by destruct (mlookup x nameMap).
  - rewrite IHl, IHr. destruct (ToSQL (erase l) nameMap dialect); [|done]. simpl.
    destruct (ToSQL (erase r) nameMap dialect); [|done]. simpl. by rewrite fmap_app.
Qed.

Lemma ToSQL_ok n nameMap dialect :
  is_ok (ToSQL n nameMap dialect) =
  forallb (fun x => bool_decide (is_Some (mlookup x nameMap))) (vars n) &&
  (bool_decide (literals n = []) || is_ok (marker dialect)).
Proof.
  induction n as [v|s|x|op l IHl r IHr]; simpl; try done.
  - by destruct (marker dialect).
  - by destruct (mlookup x nameMap).
  - rewrite forallb_app.
    destruct (ToSQL l nameMap dialect) as [fl|el]; simpl in *;
    destruct (ToSQL r nameMap dialect) as [fr|er]; simpl in *;
    destruct (forallb _ (vars l)), (forallb _ (vars r)); simpl in *; try done;
    destruct (is_ok (marker dialect)); rewrite ?orb_true_r, ?orb_false_r in *; try done;
    destruct (literals l), (literals r); done.
Qed.

(** * Counting the markers *)

Fixpoint count_byte (c : ascii) (s : string) : nat :=
  match s with
  | EmptyString => 0
  | String a s => ((if Ascii.eqb a c then 1 else 0) + count_byte c s)%nat
  end.

Lemma count_byte_app c s t : count_byte c (s +:+ t) = (count_byte c s + count_byte c t)%nat.
Proof. induction s as [|a s IH]; simpl; [done|]. rewrite IH. lia. Qed.

Lemma count_byte_none c s :
  str_forall (fun a => negb (Ascii.eqb a c)) s = true -> count_byte c s = 0%nat.
Proof.
  induction s as [|a s IH]; simpl; [done|]. intros [Ha Hs]%andb_true_iff.
  rewrite IH by done. by destruct (Ascii.eqb a c).
Qed.

(** The bytes of a printed number, "inf" and "nan" included: no quote, no space,
    no marker. *)
Definition number_byte (c : ascii) : bool :=
  isDigit c || existsb (Ascii.eqb c) ["+"; "-"; "."; "e"; "i"; "n"; "f"; "a"]%char.
Definition numeric (s : string) : bool := str_forall number_byte s.

Lemma numeric_app s t : numeric (s +:+ t) = numeric s && numeric t.
Proof. apply str_forall_app. Qed.

Lemma numeric_drop k s : numeric s = true -> numeric (str_drop k s) = true.
Proof.
  unfold numeric. revert s. induction k as [|k IH]; intros [|c s]; simpl; try done.
  intros [_ Hs]%andb_true_iff. by apply IH.
Qed.

Lemma numeric_take k s : numeric s = true -> numeric (str_take k s) = true.
Proof.
  unfold numeric. revert s. induction k as [|k IH]; intros [|c s]; simpl; try done.
  intros [Hc Hs]%andb_true_iff. by rewrite Hc, IH.
Qed.

Lemma numeric_repeat s k : numeric s = true -> numeric (repeat_str s k) = true.
Proof. intros Hs. induction k as [|k IH]; simpl; [done|]. by rewrite numeric_app, Hs, IH. Qed.

Lemma numeric_cut c s x y : cut_byte c s = Some (x, y) -> numeric s = true -> numeric x = true.
Proof.
  unfold numeric. revert x y. induction s as [|a s IH]; simpl; intros x y H; simplify_eq.
  intros [Ha Hs]%andb_true_iff.
  case_match; simplify_eq; [done|]. destruct (cut_byte c s) as [[x' y']|]; simplify_eq.
  simpl. rewrite Ha. by eapply IH.
Qed.

Lemma numeric_replace s old new :
  numeric new = true -> numeric s = true -> numeric (replace_all s old new) = true.
Proof.
  intros Hn. unfold replace_all. generalize 0%nat as k.
  induction s as [|c s IH]; simpl; intros k Hs; [done|].
  unfold numeric in Hs. simpl in Hs. apply andb_true_iff in Hs as [Hc Hs].
  destruct k; [|by apply IH]. case_match; [by rewrite numeric_app, Hn, IH|].
  unfold numeric. simpl. rewrite Hc. by apply IH.
Qed.

Lemma numeric_itoa z : numeric (itoa z) = true.
Proof.
  unfold itoa, format_int.
  assert (forall n, 0 <= n -> numeric (format_uint 10 n) = true) as Hu.
  { intros n Hn. eapply str_forall_impl; [|by apply format_uint_digits].
    intros c Hc. unfold number_byte. by rewrite (Hc : isDigit c = true). }
  destruct (Z.ltb_spec z 0); [|by apply Hu]. unfold numeric. simpl. apply Hu. lia.
Qed.

(** Splits a text into its pieces, each of number bytes. *)
Ltac numerals :=
  repeat first
    [ done | assumption | rewrite numeric_app; apply andb_true_iff; split
    | apply numeric_itoa | apply numeric_take | apply numeric_drop
    | apply numeric_repeat | apply numeric_replace | case_match ].

Lemma numeric_format_float_e f : (match f with S754_infinity _ | S754_nan => false | _ => true end) = true ->
  numeric (format_float_e f) = true.
Proof.
  destruct f as [[]|[]| |s m e]; try done. intros _. cbn [format_float_e].
  destruct (shortest m e) as [d x]. destruct (trim_zeros_fuel 20 d x) as [d' x'].
  unfold exp_suffix, pad_left. numerals.
Qed.

Lemma numeric_split_e s : numeric s = true -> numeric (split_e s).1 = true.
Proof.
  intros Hs. unfold split_e. destruct (cut_byte "e" s) as [[x y]|] eqn:E; simpl; [|done].
  apply numeric_replace; [done|]. by eapply numeric_cut.
Qed.

Lemma numeric_pyReprFloat f : numeric (pyReprFloat f) = true.
Proof.
  assert (forall e, numeric (fmtExp e) = true) as He by (intros e; unfold fmtExp; numerals).
  unfold pyReprFloat. assert (match f with S754_infinity _ | S754_nan => true | _ => numeric (format_float_e f) end = true) as Hf
    by (destruct f; [by apply numeric_format_float_e|done|done|by apply numeric_format_float_e]).
  revert Hf. generalize (format_float_e f) as s0. intros s0 Hf.
  destruct f as [z|[]| |z m e]; try done;
    assert (numeric (if has_prefix "-" s0 then str_drop 1 s0 else s0) = true) as Hs by numerals;
    apply numeric_split_e in Hs; destruct (split_e _) as [ds x]; simpl in Hs; numerals; apply He.
Qed.

(** A text without a question mark. *)
Definition unmarked (s : string) : bool := str_forall (fun a => negb (Ascii.eqb a "?")) s.

Lemma unmarked_count s : unmarked s = true -> count_byte "?" s = 0%nat.
Proof. apply count_byte_none. Qed.

Lemma unmarked_sqlOp op : unmarked (default "" (mlookup op sqlOp)) = true.
Proof.
  destruct (mlookup op sqlOp) as [o|] eqn:E; [|done]. simpl. revert E.
  apply (mlookup_forall (fun o => unmarked o = true)). repeat constructor.
Qed.

Lemma numeric_pyReprNumber v : numeric (pyReprNumber v) = true.
Proof. destruct v; [apply numeric_itoa|apply numeric_pyReprFloat]. Qed.

Lemma unmarked_pyReprNumber v : unmarked (pyReprNumber v) = true.
Proof.
  eapply str_forall_impl; [|apply numeric_pyReprNumber]. intros c. by destruct (Ascii.eqb_spec c "?") as [->|].
Qed.

Lemma ToSQL_qmark_count n nameMap f :
  Forall (fun c => unmarked c = true) nameMap.*2 ->
  ToSQL n nameMap "qmark" = Ok f -> count_byte "?" (Text f) = length (Params f).
Proof.
  intros Hnm. revert f. induction n as [v|s|x|op l IHl r IHr]; intros f Hf; cbn [ToSQL] in Hf.
  - simplify_eq. simpl. apply unmarked_count, unmarked_pyReprNumber.
  - change (marker "qmark") with (Ok "?" : fres string) in Hf. by simplify_eq/=.
  - destruct (mlookup x nameMap) as [c|] eqn:E; simplify_eq/=.
    apply unmarked_count. revert E. by apply (mlookup_forall (fun c => unmarked c = true)).
  - apply res_bind_Ok in Hf as (fl & Hl & Hf). apply res_bind_Ok in Hf as (fr & Hr & Hf).
    apply IHl in Hl. apply IHr in Hr. pose proof (unmarked_count _ (unmarked_sqlOp op)) as Hop.
    injection Hf as <-. cbn [Text Params]. rewrite length_app, <- Hl, <- Hr.
    change (String.eqb "qmark" "numeric") with false. cbv iota.
    destruct (String.eqb op "~");
      repeat (progress (simpl; rewrite ?count_byte_app, ?Hop)); lia.
Qed.

(** ** The texts a filter can have

    Markers, numbers, columns of the name map and the operators of [sqlOp] (none
    for a name that is not an operator), parenthesised. *)
Inductive filter_text (nameMap : list (string * string)) : string -> Prop :=
| text_marker : filter_text nameMap "?"
| text_number s : numeric s = true -> filter_text nameMap s
| text_column c : c ∈ nameMap.*2 -> filter_text nameMap c
| text_operator a op b : op ∈ "" :: sqlOp.*2 -> filter_text nameMap a -> filter_text nameMap b ->
    filter_text nameMap ("(" +:+ a +:+ " " +:+ op +:+ " " +:+ b +:+ ")")
| text_contains a b : filter_text nameMap a -> filter_text nameMap b ->
    filter_text nameMap ("(instr(lower(CAST(" +:+ a +:+ " AS TEXT)), lower(" +:+ b +:+ ")) > 0)").

Lemma mlookup_elem {A} k (m : list (string * A)) v : mlookup k m = Some v -> v ∈ m.*2.
Proof. apply (mlookup_forall (fun v => v ∈ m.*2)). by apply Forall_forall. Qed.

Lemma ToSQL_text n nameMap f : ToSQL n nameMap "qmark" = Ok f -> filter_text nameMap (Text f).
Proof.
  revert f. induction n as [v|s|x|op l IHl r IHr]; intros f Hf; cbn [ToSQL] in Hf.
  - simplify_eq. apply text_number, numeric_pyReprNumber.
  - change (marker "qmark") with (Ok "?" : fres string) in Hf. simplify_eq/=. apply text_marker.
  - destruct (mlookup x nameMap) as [c|] eqn:E; simplify_eq/=. by eapply text_column, mlookup_elem.
  - apply res_bind_Ok in Hf as (fl & Hl & Hf). apply res_bind_Ok in Hf as (fr & Hr & Hf).
    apply IHl in Hl. apply IHr in Hr. injection Hf as <-. cbn [Text].
    change (String.eqb "qmark" "numeric") with false. cbv iota.
    destruct (String.eqb op "~"); [by apply text_contains|]. apply text_operator; [|done|done].
    destruct (mlookup op sqlOp) as [o|] eqn:E; [right; by eapply mlookup_elem|by left].
Qed.

Definition nameMaps : list (list (string * string)) := [SQLNameMap; SipCallNameMap].

Lemma nameMaps_unmarked nameMap :
  nameMap ∈ nameMaps -> Forall (fun c => unmarked c = true) nameMap.*2.
Proof.
  unfold nameMaps. rewrite !elem_of_cons, elem_of_nil. intros [->|[->|[]]]; repeat constructor.
Qed.

(** * Properties *)

(** The SQL of a filter is a function of the filter with its string
    literals emptied: whatever text the user puts in quotes reaches the
    database only as a bound parameter.  The parameters are the literals of
    the expression, in their order. *)
Theorem ToSQL_literals_are_parameters n nameMap dialect :
  ToSQL n nameMap dialect =
  let? f := ToSQL (erase n) nameMap dialect in
  Ok (Fragment (Text f) (AString <$> literals n)).
Proof. apply ToSQL_erase. Qed.

(** A filter compiles exactly when each of its variables has a column in
    the name map and, if it has a string literal, the dialect is one of the
    three supported ones. *)
Theorem ToSQL_compiles_iff n nameMap dialect :
  is_ok (ToSQL n nameMap dialect) =
  forallb (fun x => bool_decide (is_Some (mlookup x nameMap))) (vars n) &&
  (bool_decide (literals n = []) ||
   existsb (String.eqb dialect) ["qmark"; "format"; "numeric"]).
Proof.
  rewrite ToSQL_ok. do 2 f_equal. unfold marker. simpl. by repeat case_match.
Qed.

(** In the dialect of the SQLite driver a compiled filter, over the
    streams or over the SIP calls, has exactly as many markers as it has
    parameters to bind, whatever numbers and columns it contains. *)
Theorem qmark_markers_match_parameters text n nameMap f :
  Parse text = Ok n -> nameMap ∈ nameMaps -> ToSQL n nameMap "qmark" = Ok f ->
  count_byte "?" (Text f) = length (Params f) /\ Params f = AString <$> literals n.
Proof.
  intros _ Hnm Hf. split.
  - eapply ToSQL_qmark_count; [|exact Hf]. by apply nameMaps_unmarked.
  - rewrite ToSQL_erase in Hf. apply res_bind_Ok in Hf as (? & _ & Hf). by simplify_eq.
Qed.

Lemma qmark_markers_match_parameters_witness :
  count_byte "?" "(rtpmon_streams.src_ip = ?)" = length [AString "10.0.0.1"] /\
  [AString "10.0.0.1"] = AString <$> literals (BinOp "==" (Var "src_ip") (Str "10.0.0.1")).
Proof.
  apply (qmark_markers_match_parameters "src_ip == 10.0.0.1"
           (BinOp "==" (Var "src_ip") (Str "10.0.0.1")) SQLNameMap
           (Fragment "(rtpmon_streams.src_ip = ?)" [AString "10.0.0.1"])).
  - vm_compute. reflexivity.
  - apply elem_of_cons. left. reflexivity.
  - vm_compute. reflexivity.
Defined.

(** The numeric dialect numbers its markers at every level of the
    expression: with three literals the text has the marker :2 twice and no
    marker :3, although it has three parameters. *)
Theorem numeric_markers_collide :
  BuildWhere "src_ip == 1.1.1.1 && dst_ip == 2.2.2.2 && instance_id == 3.3.3.3" "numeric" =
  Ok (Fragment ("(((rtpmon_streams.src_ip = :1) AND (rtpmon_streams.dst_ip = :2))" +:+
                " AND (rtpmon_instances.agent_id = :2))")
        [AString "1.1.1.1"; AString "2.2.2.2"; AString "3.3.3.3"]).
Proof. vm_compute. reflexivity. Qed.

(** Whatever sort field a request names, the ORDER BY term is one of the
    whitelisted columns followed by a direction. *)
Theorem BuildOrderBy_whitelisted sortField descending :
  exists column direction,
    BuildOrderBy sortField descending = column +:+ " " +:+ direction /\
    column ∈ SortColumns.*2 /\ direction ∈ ["asc"; "desc"].
Proof.
  unfold BuildOrderBy.
  destruct (mlookup sortField SortColumns) as [c|] eqn:E.
  - exists c, (if descending then "desc" else "asc"). split; [done|]. split.
    + apply mlookup_Some_elem in E. apply list_elem_of_fmap. by exists (sortField, c).
    + destruct descending; set_solver.
  - exists "rtpmon_statistics.stream_id", (if descending then "desc" else "asc").
    split; [done|]. split; [set_solver|destruct descending; set_solver].
Qed.
