(* ===== verification/Utf8.v ===== *)
(** UTF-8: encoding and decoding of runes invert each other, so that code
    which walks a string rune by rune and writes the runes back changes only
    invalid bytes. *)

From S2P Require Import Prelude GoStrings.

(** * Bits as arithmetic *)

Lemma lor_add a b k : 0 <= k -> 0 <= b < 2 ^ k -> Z.lor (Z.shiftl a k) b = a * 2 ^ k + b.
Proof.
  intros Hk Hb. rewrite <- Z.shiftl_mul_pow2 by done. symmetry. apply Z.add_nocarry_lor.
  apply Z.bits_inj'. intros n Hn. rewrite Z.land_spec, Z.bits_0.
  destruct (Z.lt_ge_cases n k); [by rewrite Z.shiftl_spec_low|].
  destruct (decide (b = 0)) as [->|]; [by rewrite Z.bits_0, andb_false_r|].
  rewrite (Z.bits_above_log2 b), andb_false_r; [done|lia|].
  apply Z.lt_le_trans with k; [apply Z.log2_lt_pow2|]; lia.
Qed.

(** The tag and the payload of a byte. *)
Lemma tag_byte a k b c : 0 <= k -> c = a * 2 ^ k -> 0 <= b < 2 ^ k -> Z.lor c b = c + b.
Proof.
  intros Hk -> Hb. rewrite <- (lor_add a b k) by done. by rewrite Z.shiftl_mul_pow2.
Qed.

Lemma low_bits z k m : 0 <= k -> m = Z.ones k -> Z.land z m = z `mod` 2 ^ k.
Proof. intros Hk ->. by apply Z.land_ones. Qed.

Lemma low6_code c : low6 c = code c `mod` 64.
Proof. unfold low6. by apply (low_bits _ 6). Qed.

Lemma code_inj a b : code a = code b -> a = b.
Proof. intros H. by rewrite <- (chr_code a), <- (chr_code b), H. Qed.

(** * Encoding *)

(** A Unicode scalar value. *)
Definition scalar (r : Z) : bool :=
  ((0 <=? r) && (r <=? 55295)) || ((57344 <=? r) && (r <=? 1114111)).

(** [encode_rune] with arithmetic on the bytes. *)
Definition utf8_bytes (r : Z) : list Z :=
  if r <? 128 then [r]
  else if r <? 2048 then [192 + r / 64; 128 + r `mod` 64]
  else if r <? 65536 then [224 + r / 4096; 128 + (r / 64) `mod` 64; 128 + r `mod` 64]
  else [240 + r / 262144; 128 + (r / 4096) `mod` 64; 128 + (r / 64) `mod` 64; 128 + r `mod` 64].

Lemma encode_rune_bytes r : scalar r = true -> encode_rune r = bytes (utf8_bytes r).
Proof.
  unfold scalar. intros Hr. assert (0 <= r <= 1114111) as Hr' by lia.
  unfold encode_rune, utf8_bytes.
  destruct (Z.ltb_spec r 128); [by replace (0 <=? r) with true by lia|].
  replace (0 <=? r) with true by lia. cbn [andb].
  assert (forall z, Z.land z 63 = z `mod` 64) as Hl by (intros; by apply (low_bits _ 6)).
  rewrite !Hl, !Z.shiftr_div_pow2 by lia.
  change (2 ^ 6) with 64. change (2 ^ 12) with 4096. change (2 ^ 18) with 262144.
  assert (forall z, Z.lor 128 (z `mod` 64) = 128 + z `mod` 64) as Ht
    by (intros z; apply (tag_byte 2 6); [done|done|]; apply Z.mod_pos_bound; lia).
  rewrite !Ht.
  destruct (Z.ltb_spec r 2048).
  { rewrite (tag_byte 6 5) by (lia || done || (split; [apply Z.div_pos|apply Z.div_lt_upper_bound]; lia)). done. }
  replace ((r <? 0) || (1114111 <? r) || _) with false by lia.
  destruct (Z.ltb_spec r 65536).
  { rewrite (tag_byte 14 4) by (lia || done || (split; [apply Z.div_pos|apply Z.div_lt_upper_bound]; lia)). done. }
  rewrite (tag_byte 30 3) by (lia || done || (split; [apply Z.div_pos|apply Z.div_lt_upper_bound]; lia)). done.
Qed.

Ltac zdiv := Z.to_euclidean_division_equations; lia.

(** * Decoding *)

Lemma pack2 a b : Z.lor (Z.shiftl a 6) (low6 b) = a * 64 + code b `mod` 64.
Proof. rewrite low6_code. apply (lor_add _ _ 6); [done|]. apply Z.mod_pos_bound. lia. Qed.

Lemma pack3 a b c :
  Z.lor (Z.shiftl a 12) (Z.lor (Z.shiftl (low6 b) 6) (low6 c)) =
  a * 4096 + (code b `mod` 64 * 64 + code c `mod` 64).
Proof. rewrite pack2, low6_code. apply (lor_add _ _ 12); [done|]. zdiv. Qed.

Lemma pack4 a b c d :
  Z.lor (Z.shiftl a 18) (Z.lor (Z.shiftl (low6 b) 12) (Z.lor (Z.shiftl (low6 c) 6) (low6 d))) =
  a * 262144 + (code b `mod` 64 * 4096 + (code c `mod` 64 * 64 + code d `mod` 64)).
Proof. rewrite pack3, low6_code. apply (lor_add _ _ 18); [done|]. zdiv. Qed.

(** [decode_rune] with its bits as arithmetic. *)
Definition decode_arith (s : string) : Z * nat :=
  match s with
  | EmptyString => (rune_error, 0%nat)
  | String a s =>
      let x := code a in
      if x <? 128 then (x, 1%nat)
      else match s with
      | String b s2 =>
          if (194 <=? x) && (x <=? 223) then
            if cont b then ((x - 192) * 64 + (code b - 128), 2%nat) else (rune_error, 1%nat)
          else if (224 <=? x) && (x <=? 239) then
            match s2 with
            | String c _ =>
                if in_range (if x =? 224 then 160 else 128) (if x =? 237 then 159 else 191) b && cont c
                then ((x - 224) * 4096 + ((code b - 128) * 64 + (code c - 128)), 3%nat)
                else (rune_error, 1%nat)
            | _ => (rune_error, 1%nat)
            end
          else if (240 <=? x) && (x <=? 244) then
            match s2 with
            | String c (String d _) =>
                if in_range (if x =? 240 then 144 else 128) (if x =? 244 then 143 else 191) b && cont c && cont d
                then ((x - 240) * 262144 + ((code b - 128) * 4096 + ((code c - 128) * 64 + (code d - 128))), 4%nat)
                else (rune_error, 1%nat)
            | _ => (rune_error, 1%nat)
            end
          else (rune_error, 1%nat)
      | EmptyString => (rune_error, 1%nat)
      end
  end.

Lemma cont_spec c : cont c = true -> 128 <= code c <= 191.
Proof. apply in_range_spec. Qed.

Lemma in_range_weaken lo hi lo' hi' c (p q : bool) : lo' <= lo -> hi <= hi' ->
  in_range (if p then lo else lo') (if q then hi else hi') c = true -> lo' <= code c <= hi'.
Proof. intros ? ? H%in_range_spec. destruct p, q; lia. Qed.

Lemma mod64 x : 128 <= x <= 191 -> x `mod` 64 = x - 128.
Proof. intros. zdiv. Qed.

Lemma decode_rune_arith s : decode_rune s = decode_arith s.
Proof.
  destruct s as [|a s]; [done|]. cbn [decode_rune decode_arith]. cbn zeta.
  destruct (Z.ltb_spec (code a) 128); [done|]. destruct s as [|b s]; [done|].
  destruct ((194 <=? code a) && (code a <=? 223)) eqn:E2.
  { destruct (cont b) eqn:Eb; [|done]. apply cont_spec in Eb.
    rewrite pack2, mod64, (low_bits _ 5) by done. f_equal. change (2 ^ 5) with 32. zdiv. }
  destruct ((224 <=? code a) && (code a <=? 239)) eqn:E3.
  { destruct s as [|c s]; [done|]. destruct (in_range _ _ b && cont c) eqn:Eb; [|done].
    apply andb_true_iff in Eb as [Eb Ec]. apply cont_spec in Ec. apply in_range_weaken in Eb; [|lia..].
    rewrite pack3, !mod64, (low_bits _ 4) by done. f_equal. change (2 ^ 4) with 16. zdiv. }
  destruct ((240 <=? code a) && (code a <=? 244)) eqn:E4; [|done].
  destruct s as [|c [|d s]]; [done..|]. destruct (in_range _ _ b && cont c && cont d) eqn:Eb; [|done].
  apply andb_true_iff in Eb as [Eb Ed]. apply andb_true_iff in Eb as [Eb Ec].
  apply cont_spec in Ec, Ed. apply in_range_weaken in Eb; [|lia..].
  rewrite pack4, !mod64, (low_bits _ 3) by done. f_equal. change (2 ^ 3) with 8. zdiv.
Qed.

(** Decoding inverts encoding, whatever follows. *)
Lemma decode_encode r t : scalar r = true ->
  decode_rune (encode_rune r +:+ t) = (r, String.length (encode_rune r)).
Proof.
  intros Hr. rewrite decode_rune_arith, encode_rune_bytes by done. unfold scalar in Hr.
  assert (0 <= r <= 1114111) as Hr' by lia. unfold utf8_bytes.
  destruct (Z.ltb_spec r 128).
  { cbn. rewrite code_chr by lia. by replace (r <? 128) with true by lia. }
  destruct (Z.ltb_spec r 2048); [|destruct (Z.ltb_spec r 65536)]; cbn; unfold cont, in_range; rewrite !code_chr by zdiv.
  - replace (_ <? 128) with false by zdiv. replace (_ && _) with true by zdiv.
    replace (_ && _) with true by zdiv. f_equal. zdiv.
  - replace (224 + r / 4096 <? 128) with false by zdiv.
    replace ((194 <=? _) && _) with false by zdiv. replace ((224 <=? _) && _) with true by zdiv.
    replace ((128 <=? 128 + r `mod` 64) && (128 + r `mod` 64 <=? 191)) with true by zdiv.
    destruct (Z.eqb_spec (224 + r / 4096) 224), (Z.eqb_spec (224 + r / 4096) 237); try lia.
    all: replace (_ && _ && true) with true by zdiv; f_equal; zdiv.
  - replace (240 + r / 262144 <? 128) with false by zdiv.
    replace ((194 <=? _) && _) with false by zdiv. replace ((224 <=? _) && _) with false by zdiv.
    replace ((240 <=? 240 + r / 262144) && _) with true by zdiv.
    replace ((128 <=? 128 + r `mod` 64) && (128 + r `mod` 64 <=? 191)) with true by zdiv.
    replace ((128 <=? 128 + (r / 64) `mod` 64) && (128 + (r / 64) `mod` 64 <=? 191)) with true by zdiv.
    destruct (Z.eqb_spec (240 + r / 262144) 240), (Z.eqb_spec (240 + r / 262144) 244); try lia.
    all: replace (_ && _ && true && true) with true by zdiv; f_equal; zdiv.
Qed.

Lemma chr_eq z c : z = code c -> chr z = c.
Proof. intros ->. apply chr_code. Qed.

(** Encoding inverts decoding, except where the bytes are invalid. *)
Lemma encode_decode a s : let '(r, w) := decode_rune (String a s) in
  (r = rune_error /\ w = 1%nat) \/
  (scalar r = true /\ (1 <= w)%nat /\ String a s = encode_rune r +:+ str_drop w (String a s)).
Proof.
  rewrite decode_rune_arith. cbn [decode_arith]. cbn zeta. pose proof (code_range a).
  assert (forall r w t, scalar r = true -> (1 <= w)%nat -> String a s = bytes (utf8_bytes r) +:+ t -> t = str_drop w (String a s) ->
    scalar r = true /\ (1 <= w)%nat /\ String a s = encode_rune r +:+ str_drop w (String a s)) as Hok.
  { intros r w t Hr Hw E <-. by rewrite encode_rune_bytes. }
  destruct (Z.ltb_spec (code a) 128).
  { right. apply (Hok _ _ s); [unfold scalar; lia|lia| |done].
    unfold utf8_bytes. replace (code a <? 128) with true by lia. cbn. by rewrite chr_code. }
  destruct s as [|b s]; [by left|].
  destruct ((194 <=? code a) && (code a <=? 223)) eqn:E2.
  { destruct (cont b) eqn:Eb; [|by left]. apply cont_spec in Eb. right.
    apply (Hok _ _ s); [unfold scalar; lia|lia| |done]. unfold utf8_bytes.
    replace (_ <? 128) with false by lia. replace (_ <? 2048) with true by lia.
    cbn. repeat f_equal; symmetry; apply chr_eq; zdiv. }
  destruct ((224 <=? code a) && (code a <=? 239)) eqn:E3.
  { destruct s as [|c s]; [by left|]. destruct (in_range _ _ b && cont c) eqn:Eb; [|by left].
    apply andb_true_iff in Eb as [Eb Ec]. apply cont_spec in Ec. apply in_range_spec in Eb. right.
    destruct (Z.eqb_spec (code a) 224), (Z.eqb_spec (code a) 237); try lia;
    (apply (Hok _ _ s); [unfold scalar; lia|lia| |done]; unfold utf8_bytes;
      replace (_ <? 128) with false by lia; replace (_ <? 2048) with false by lia;
      replace (_ <? 65536) with true by lia; cbn; repeat f_equal; symmetry; apply chr_eq; zdiv). }
  destruct ((240 <=? code a) && (code a <=? 244)) eqn:E4; [|by left].
  destruct s as [|c [|d s]]; [by left..|]. destruct (in_range _ _ b && cont c && cont d) eqn:Eb; [|by left].
  apply andb_true_iff in Eb as [Eb Ed]. apply andb_true_iff in Eb as [Eb Ec].
  apply cont_spec in Ec, Ed. apply in_range_spec in Eb. right.
  destruct (Z.eqb_spec (code a) 240), (Z.eqb_spec (code a) 244); try lia;
  (apply (Hok _ _ s); [unfold scalar; lia|lia| |done]; unfold utf8_bytes;
    replace (_ <? 128) with false by lia; replace (_ <? 2048) with false by lia;
    replace (_ <? 65536) with false by lia; cbn; repeat f_equal; symmetry; apply chr_eq; zdiv).
Qed.

(** * Strings of runes *)

Lemma str_drop_length n s : String.length (str_drop n s) = (String.length s - n)%nat.
Proof. revert s. induction n as [|n IH]; intros [|c s]; cbn; try lia. apply IH. Qed.

(** A rune is at least one byte. *)
Lemma decode_rune_drop a s : let '(_, w) := decode_rune (String a s) in
  (String.length (str_drop w (String a s)) <= String.length s)%nat.
Proof.
  pose proof (encode_decode a s) as Hd. destruct (decode_rune (String a s)) as [r w].
  rewrite str_drop_length. cbn [String.length]. destruct Hd as [[_ ->]|(_ & Hw & _)]; lia.
Qed.

Lemma runes_fuel_enough n m s : (String.length s <= n)%nat -> (String.length s <= m)%nat ->
  runes_fuel n s = runes_fuel m s.
Proof.
  revert m s. induction n as [|n IH]; intros m [|a s] Hn Hm; try (by destruct m); [cbn in *; lia|].
  destruct m as [|m]; [cbn in *; lia|]. cbn [runes_fuel].
  pose proof (decode_rune_drop a s) as Hd. destruct (decode_rune (String a s)) as [r w].
  f_equal. apply IH; cbn [String.length] in *; lia.
Qed.

Lemma runes_cons a s r w : decode_rune (String a s) = (r, w) ->
  runes (String a s) = (r, w) :: runes (str_drop w (String a s)).
Proof.
  intros E. unfold runes. cbn [String.length runes_fuel]. rewrite E. f_equal.
  pose proof (decode_rune_drop a s) as Hd. rewrite E in Hd. by apply runes_fuel_enough.
Qed.

(** The text with each invalid byte replaced by U+FFFD. *)
Definition sanitize (s : string) : string := join "" (encode_rune <$> (runes s).*1).

(** Induction along the runes of a text. *)
Lemma runes_ind (P : string -> Prop) (H0 : P "")
  (Hs : forall a s r w, decode_rune (String a s) = (r, w) -> P (str_drop w (String a s)) -> P (String a s)) s : P s.
Proof.
  assert (forall n s, (String.length s <= n)%nat -> P s) as H; [|by apply (H (String.length s))].
  clear s. induction n as [|n IH]; intros [|a s] Hl; [done|cbn in *; lia|done|].
  pose proof (decode_rune_drop a s) as Hd. destruct (decode_rune (String a s)) as [r w] eqn:E.
  apply (Hs _ _ _ _ E), IH. cbn [String.length] in Hl. lia.
Qed.

(** Valid text is unchanged. *)
Lemma sanitize_valid s : utf8_valid s = true -> sanitize s = s.
Proof.
  unfold utf8_valid, sanitize. induction s as [|a s r w E IH] using runes_ind; [done|].
  rewrite (runes_cons _ _ _ _ E). cbn [forallb]. rewrite !fmap_cons. cbn [fst].
  rewrite andb_true_iff, join_empty_cons. intros [Hv Hvs].
  pose proof (encode_decode a s) as Hd. rewrite E in Hd.
  destruct Hd as [[-> ->]|(_ & _ & Es)]; [done|]. etrans; [|symmetry; exact Es]. f_equal. by apply IH.
Qed.
