(* ===== verification/Transport.v ===== *)
(** The transport of a search filter ([internal/filter/transport.go]): the
    "field/dir/offset/count/base64" string of the front end, with the base64
    codec of Go's library, and the theorems that parsing inverts
    serialization whatever base64 variant the sender used. *)

From S2P Require Import Prelude GoFloat GoStrings.

(** * encoding/base64

    The codec of Go's standard library: an alphabet of 64 digits, padding
    with '=', and a decoder that skips line ends and demands the padding. *)
Inductive alphabet := StdEncoding | URLEncoding.

Definition b64_digits (enc : alphabet) : string :=
  "ABCDEFGHIJKLMNOPQRSTUVWXYZabcdefghijklmnopqrstuvwxyz0123456789" +:+
  match enc with StdEncoding => "+/" | URLEncoding => "-_" end.

Definition b64_char (enc : alphabet) (v : Z) : ascii :=
  default "A"%char (String.get (Z.to_nat v) (b64_digits enc)).

Definition b64_value (enc : alphabet) (c : ascii) : option Z :=
  if in_range 65 90 c then Some (code c - 65)
  else if in_range 97 122 c then Some (code c - 71)
  else if in_range 48 57 c then Some (code c + 4)
  else match enc with
       | StdEncoding => if Ascii.eqb c "+" then Some 62 else if Ascii.eqb c "/" then Some 63 else None
       | URLEncoding => if Ascii.eqb c "-" then Some 62 else if Ascii.eqb c "_" then Some 63 else None
       end.

(** [EncodeToString]: three bytes become four digits. *)
Fixpoint b64_encode (enc : alphabet) (s : string) : string :=
  let d v := b64_char enc v in
  match s with
  | EmptyString => ""
  | String a EmptyString =>
      let v := code a * 65536 in
      String (d (v / 262144)) (String (d ((v / 4096) `mod` 64)) "==")
  | String a (String b EmptyString) =>
      let v := code a * 65536 + code b * 256 in
      String (d (v / 262144)) (String (d ((v / 4096) `mod` 64)) (String (d ((v / 64) `mod` 64)) "="))
  | String a (String b (String c s)) =>
      let v := code a * 65536 + code b * 256 + code c in
      String (d (v / 262144)) (String (d ((v / 4096) `mod` 64)) (String (d ((v / 64) `mod` 64))
        (String (d (v `mod` 64)) (b64_encode enc s))))
  end.

Fixpoint strip_newlines (s : string) : string :=
  match s with
  | EmptyString => ""
  | String c s =>
      if (code c =? 10) || (code c =? 13) then strip_newlines s else String c (strip_newlines s)
  end.

(** [DecodeString] without the line ends.  The bits a padded quantum does not
    use are ignored, and nothing may follow the padding. *)
Fixpoint b64_quanta (enc : alphabet) (s : string) : option string :=
  match s with
  | EmptyString => Some ""
  | String c1 (String c2 (String c3 (String c4 rest))) =>
      v1 ← b64_value enc c1; v2 ← b64_value enc c2;
      match b64_value enc c3, b64_value enc c4 with
      | Some v3, Some v4 =>
          let v := v1 * 262144 + v2 * 4096 + v3 * 64 + v4 in
          t ← b64_quanta enc rest;
          Some (String (chr (v / 65536)) (String (chr ((v / 256) `mod` 256)) (String (chr (v `mod` 256)) t)))
      | Some v3, None =>
          if Ascii.eqb c4 "=" && String.eqb rest "" then
            let v := v1 * 262144 + v2 * 4096 + v3 * 64 in
            Some (String (chr (v / 65536)) (String (chr ((v / 256) `mod` 256)) ""))
          else None
      | None, _ =>
          if Ascii.eqb c3 "=" && Ascii.eqb c4 "=" && String.eqb rest "" then
            let v := v1 * 262144 + v2 * 4096 in
            Some (String (chr (v / 65536)) "")
          else None
      end
  | _ => None
  end.
Definition b64_decode (enc : alphabet) (s : string) : option string :=
  b64_quanta enc (strip_newlines s).

(** * The transport *)

Record DateInterval := MkDateInterval { StartSeconds : Z; EndSeconds : Z }.

Record SearchFilter := MkSearchFilter {
  PageOffset : Z;
  MaxCount : Z;
  SortField : string;
  Descending : bool;
  Expression : string;
  FilterInterval : option DateInterval;
  SIPCallID : string
}.

Definition NewSearchFilter : SearchFilter := MkSearchFilter 0 50 "start_time" true "" None "".

Definition safeInt (text : string) (def : Z) : Z := default def (atoi text).

Definition b64DecodeText (token : string) : string :=
  let len := Z.of_nat (String.length token) in
  let padding := Z.to_nat ((4 - len `mod` 4) `mod` 4) in
  let padded := token +:+ repeat_str "=" padding in
  let try enc := match b64_decode enc padded with
                 | Some b => if utf8_valid b then Some b else None
                 | None => None
                 end in
  match try StdEncoding with
  | Some b => b
  | None => default "" (try URLEncoding)
  end.

(** [SearchFilter.Parse] on a filter [f]. *)
Definition parse_into (f : SearchFilter) (image : string) : SearchFilter :=
  let decoded := replace_all image "%2F" "/" in
  match splitn_byte "/" 5 decoded with
  | field :: dir :: offset :: count :: more =>
      let expr := match more with
                  | b64 :: _ => if String.eqb b64 "" then Expression f else trim_space (b64DecodeText b64)
                  | [] => Expression f
                  end in
      MkSearchFilter (safeInt offset (PageOffset f)) (safeInt count (MaxCount f))
        field (negb (String.eqb dir "asc")) expr (FilterInterval f) (SIPCallID f)
  | _ => f
  end.

Definition ParseSearchFilter (image : string) : SearchFilter := parse_into NewSearchFilter image.

(** [SearchFilter.String]. *)
Definition filter_String (f : SearchFilter) : string :=
  let direction := if Descending f then "desc" else "asc" in
  let parts := [SortField f; direction; itoa (PageOffset f); itoa (MaxCount f)] in
  let parts := if String.eqb (Expression f) "" then parts
               else parts ++ [b64_encode StdEncoding (Expression f)] in
  join "/" parts.

Definition DeriveWithSort (f : SearchFilter) (field : string) (descending : bool) : SearchFilter :=
  MkSearchFilter (PageOffset f) (MaxCount f) field descending (Expression f)
    (FilterInterval f) (SIPCallID f).

(** * The codec *)

Lemma b64_char_value enc v : 0 <= v < 64 -> b64_value enc (b64_char enc v) = Some v.
Proof.
  revert v. apply (range_decide (fun v => b64_value enc (b64_char enc v) = Some v) 0 64).
  destruct enc; vm_compute; reflexivity.
Qed.

(** The characters of an encoding: none is a line end, a separator of the
    filter transport outside the digits, or a percent sign. *)
Definition b64_plain (c : ascii) : bool :=
  negb ((code c =? 10) || (code c =? 13)) && negb (Ascii.eqb c "%").

Lemma b64_char_plain enc v : 0 <= v < 64 -> b64_plain (b64_char enc v) = true.
Proof.
  revert v. apply (range_decide (fun v => b64_plain (b64_char enc v) = true) 0 64).
  destruct enc; vm_compute; reflexivity.
Qed.

Lemma string_ind3 (P : string -> Prop) :
  P "" -> (forall a, P (String a "")) -> (forall a b, P (String a (String b ""))) ->
  (forall a b c s, P s -> P (String a (String b (String c s)))) -> forall s, P s.
Proof.
  intros H0 H1 H2 H3.
  fix IH 1. intros [|a [|b [|c s]]]; [exact H0|apply H1|apply H2|]. apply H3, IH.
Qed.

(** The sextets of a quantum of 24 bits, and its bytes. *)
Lemma quantum_sextets v :
  0 <= v < 16777216 ->
  0 <= v / 262144 < 64 /\ 0 <= (v / 4096) `mod` 64 < 64 /\
  0 <= (v / 64) `mod` 64 < 64 /\ 0 <= v `mod` 64 < 64 /\
  v / 262144 * 262144 + (v / 4096) `mod` 64 * 4096 + (v / 64) `mod` 64 * 64 + v `mod` 64 = v.
Proof.
  intros H.
  assert (v / 4096 = v / 64 / 64) as -> by (by rewrite Z.div_div by lia).
  assert (v / 262144 = v / 64 / 64 / 64) as -> by (by rewrite !Z.div_div by lia).
  pose proof (Z.div_mod v 64 ltac:(lia)). pose proof (Z.mod_pos_bound v 64 ltac:(lia)).
  set (a := v / 64) in *.
  pose proof (Z.div_mod a 64 ltac:(lia)). pose proof (Z.mod_pos_bound a 64 ltac:(lia)).
  set (b := a / 64) in *.
  pose proof (Z.div_mod b 64 ltac:(lia)). pose proof (Z.mod_pos_bound b 64 ltac:(lia)).
  lia.
Qed.

Lemma quantum_bytes a b c :
  0 <= a < 256 -> 0 <= b < 256 -> 0 <= c < 256 ->
  let v := a * 65536 + b * 256 + c in
  0 <= v < 16777216 /\ v / 65536 = a /\ (v / 256) `mod` 256 = b /\ v `mod` 256 = c.
Proof.
  intros Ha Hb Hc v. subst v. repeat split; try lia.
  - symmetry. apply Z.div_unique with (b * 256 + c); lia.
  - replace (_ / 256) with (a * 256 + b) by (apply Z.div_unique with c; lia).
    symmetry. apply Z.mod_unique with a; lia.
  - symmetry. apply Z.mod_unique with (a * 256 + b); lia.
Qed.

Lemma mod_unshifted v k : v = k * 64 -> v `mod` 64 = 0.
Proof. intros ->. apply Z.mod_mul. lia. Qed.

Lemma mod_shifted v k : v = k * 4096 -> (v / 64) `mod` 64 = 0.
Proof.
  intros ->. replace (k * 4096) with (k * 64 * 64) by lia.
  rewrite Z.div_mul by lia. apply Z.mod_mul. lia.
Qed.

Lemma b64_encode_plain enc s : str_forall b64_plain (b64_encode enc s) = true.
Proof.
  induction s as [|a|a b|a b c s IH] using string_ind3; [done|..].
  all: pose proof (code_range a).
  all: try pose proof (code_range b). all: try pose proof (code_range c).
  - pose proof (quantum_sextets (code a * 65536) ltac:(lia)) as (? & ? & ? & ? & _).
    cbn [b64_encode str_forall]. by rewrite !b64_char_plain by done.
  - pose proof (quantum_sextets (code a * 65536 + code b * 256) ltac:(lia)) as (? & ? & ? & ? & _).
    cbn [b64_encode str_forall]. by rewrite !b64_char_plain by done.
  - pose proof (quantum_sextets (code a * 65536 + code b * 256 + code c) ltac:(lia)) as (? & ? & ? & ? & _).
    cbn [b64_encode str_forall]. by rewrite !b64_char_plain, IH by done.
Qed.

Lemma strip_newlines_plain s : str_forall b64_plain s = true -> strip_newlines s = s.
Proof.
  induction s as [|c s IH]; simpl; [done|]. intros [Hc Hs]%andb_true_iff.
  unfold b64_plain in Hc. apply andb_true_iff in Hc as [Hc _]. apply negb_true_iff in Hc.
  by rewrite Hc, IH.
Qed.

Lemma b64_pad_value enc : b64_value enc "=" = None.
Proof. by destruct enc. Qed.

Lemma b64_quanta_encode enc s : b64_quanta enc (b64_encode enc s) = Some s.
Proof.
  induction s as [|a|a b|a b c s IH] using string_ind3; [done|..].
  all: pose proof (code_range a).
  all: try pose proof (code_range b). all: try pose proof (code_range c).
  - pose proof (quantum_bytes (code a) 0 0 ltac:(lia) ltac:(lia) ltac:(lia)) as (Hr & Ha & _).
    rewrite Z.mul_0_l, !Z.add_0_r in Hr, Ha.
    pose proof (quantum_sextets _ Hr) as (? & ? & ? & ? & Hv).
    assert ((code a * 65536 / 64) `mod` 64 = 0) as E3 by (apply (mod_shifted _ (code a * 16)); lia).
    assert ((code a * 65536) `mod` 64 = 0) as E4 by (apply (mod_unshifted _ (code a * 1024)); lia).
    cbn [b64_encode b64_quanta]. rewrite !b64_char_value by done. cbn [mbind option_bind].
    rewrite b64_pad_value. simpl String.eqb. simpl Ascii.eqb. cbn [andb].
    replace (_ * 262144 + _ * 4096) with (code a * 65536) by lia. by rewrite Ha, chr_code.
  - pose proof (quantum_bytes (code a) (code b) 0 ltac:(lia) ltac:(lia) ltac:(lia)) as (Hr & Ha & Hb & _).
    rewrite Z.add_0_r in Hr, Ha, Hb.
    pose proof (quantum_sextets _ Hr) as (? & ? & ? & ? & Hv).
    assert ((code a * 65536 + code b * 256) `mod` 64 = 0) as E4
      by (apply (mod_unshifted _ (code a * 1024 + code b * 4)); lia).
    cbn [b64_encode b64_quanta]. rewrite !b64_char_value by done. cbn [mbind option_bind].
    rewrite b64_pad_value. simpl String.eqb. simpl Ascii.eqb. cbn [andb].
    replace (_ * 262144 + _ * 4096 + _ * 64) with (code a * 65536 + code b * 256) by lia.
    by rewrite Ha, Hb, !chr_code.
  - pose proof (quantum_sextets (code a * 65536 + code b * 256 + code c) ltac:(lia)) as (? & ? & ? & ? & Hv).
    pose proof (quantum_bytes (code a) (code b) (code c) ltac:(lia) ltac:(lia) ltac:(lia)) as (_ & Ha & Hb & Hc).
    cbn [b64_encode b64_quanta]. rewrite !b64_char_value by done. cbn [mbind option_bind].
    rewrite Hv, IH. cbn [mbind option_bind]. by rewrite Ha, Hb, Hc, !chr_code.
Qed.

Lemma b64_decode_encode enc s : b64_decode enc (b64_encode enc s) = Some s.
Proof.
  unfold b64_decode. by rewrite strip_newlines_plain, b64_quanta_encode by apply b64_encode_plain.
Qed.

(** The unpadded encoding. *)
Fixpoint b64_raw (enc : alphabet) (s : string) : string :=
  let d v := b64_char enc v in
  match s with
  | EmptyString => ""
  | String a EmptyString =>
      let v := code a * 65536 in
      String (d (v / 262144)) (String (d ((v / 4096) `mod` 64)) "")
  | String a (String b EmptyString) =>
      let v := code a * 65536 + code b * 256 in
      String (d (v / 262144)) (String (d ((v / 4096) `mod` 64)) (String (d ((v / 64) `mod` 64)) ""))
  | String a (String b (String c s)) =>
      let v := code a * 65536 + code b * 256 + code c in
      String (d (v / 262144)) (String (d ((v / 4096) `mod` 64)) (String (d ((v / 64) `mod` 64))
        (String (d (v `mod` 64)) (b64_raw enc s))))
  end.

Definition b64_pad (s : string) : string :=
  repeat_str "=" (Z.to_nat ((4 - Z.of_nat (String.length s) `mod` 4) `mod` 4)).

Lemma b64_pad_step a b c d s :
  b64_pad (String a (String b (String c (String d s)))) = b64_pad s.
Proof.
  unfold b64_pad.
  replace (Z.of_nat (String.length (String a _))) with (Z.of_nat (String.length s) + 1 * 4)
    by (cbn [String.length]; lia).
  by rewrite Z_mod_plus_full.
Qed.

Lemma b64_encode_raw enc s : b64_raw enc s +:+ b64_pad (b64_raw enc s) = b64_encode enc s.
Proof.
  induction s as [|a|a b|a b c s IH] using string_ind3; try done.
  cbn [b64_raw b64_encode]. rewrite b64_pad_step. simpl. by rewrite IH.
Qed.

Lemma b64_encode_pad enc s : b64_pad (b64_encode enc s) = "".
Proof.
  induction s as [|a|a b|a b c s IH] using string_ind3; try done.
  cbn [b64_encode]. by rewrite b64_pad_step.
Qed.

Lemma b64_value_agree e1 e2 c v w : b64_value e1 c = Some v -> b64_value e2 c = Some w -> v = w.
Proof.
  unfold b64_value. do 3 (case_match; [congruence|]).
  destruct e1, e2; intros; case_all;
    repeat match goal with E : Ascii.eqb _ _ = true |- _ => apply Ascii.eqb_eq in E end; simplify_eq.
Qed.

Lemma string_ind4 (P : string -> Prop) :
  P "" -> (forall a, P (String a "")) -> (forall a b, P (String a (String b ""))) ->
  (forall a b c, P (String a (String b (String c "")))) ->
  (forall a b c d s, P s -> P (String a (String b (String c (String d s))))) -> forall s, P s.
Proof.
  intros H0 H1 H2 H3 H4.
  fix IH 1. intros [|a [|b [|c [|d s]]]]; [exact H0|apply H1|apply H2|apply H3|]. apply H4, IH.
Qed.

(** Two alphabets that both accept a text decode it alike. *)
Lemma b64_quanta_agree e1 e2 s x y :
  b64_quanta e1 s = Some x -> b64_quanta e2 s = Some y -> x = y.
Proof.
  revert x y. induction s as [|a|a b|a b c|a b c d s IH] using string_ind4; intros x y; try done.
  { simpl. congruence. }
  cbn [b64_quanta]. intros H1 H2.
  destruct (b64_value e1 a) as [a1|] eqn:Ea1; [|done]. destruct (b64_value e2 a) as [a2|] eqn:Ea2; [|done].
  destruct (b64_value e1 b) as [b1|] eqn:Eb1; [|done]. destruct (b64_value e2 b) as [b2|] eqn:Eb2; [|done].
  cbn [mbind option_bind] in H1, H2.
  rewrite (b64_value_agree _ _ _ _ _ Ea1 Ea2), (b64_value_agree _ _ _ _ _ Eb1 Eb2) in H1.
  assert (forall e e' ch v, b64_value e ch = Some v -> b64_value e' ch = None ->
    Ascii.eqb ch "=" = false) as Hpad.
  { intros e e' ch v Hv _. destruct (Ascii.eqb_spec ch "=") as [->|]; [by rewrite b64_pad_value in Hv|done]. }
  destruct (b64_value e1 c) as [c1|] eqn:Ec1, (b64_value e2 c) as [c2|] eqn:Ec2.
  - rewrite (b64_value_agree _ _ _ _ _ Ec1 Ec2) in H1.
    destruct (b64_value e1 d) as [d1|] eqn:Ed1, (b64_value e2 d) as [d2|] eqn:Ed2.
    + rewrite (b64_value_agree _ _ _ _ _ Ed1 Ed2) in H1.
      destruct (b64_quanta e1 s), (b64_quanta e2 s); simplify_eq/=.
      by rewrite (IH _ _ eq_refl eq_refl).
    + by rewrite (Hpad _ _ _ _ Ed1 Ed2) in H2.
    + by rewrite (Hpad _ _ _ _ Ed2 Ed1) in H1.
    + case_match; [congruence|done].
  - by rewrite (Hpad _ _ _ _ Ec1 Ec2) in H2.
  - by rewrite (Hpad _ _ _ _ Ec2 Ec1) in H1.
  - case_match; [congruence|done].
Qed.

(** What the front end may send for a text: either alphabet, padded or not. *)
Definition b64_variant (enc : alphabet) (padded : bool) (s : string) : string :=
  if padded then b64_encode enc s else b64_raw enc s.

Lemma b64_variant_padded enc padded s :
  b64_variant enc padded s +:+ b64_pad (b64_variant enc padded s) = b64_encode enc s.
Proof.
  destruct padded; simpl; [by rewrite b64_encode_pad, str_app_nil_r|apply b64_encode_raw].
Qed.

Lemma b64DecodeText_variant enc padded s :
  utf8_valid s = true -> b64DecodeText (b64_variant enc padded s) = s.
Proof.
  intros Hs. unfold b64DecodeText.
  change (repeat_str "=" _) with (b64_pad (b64_variant enc padded s)).
  rewrite b64_variant_padded.
  assert (b64_decode enc (b64_encode enc s) = Some s) as He by apply b64_decode_encode.
  destruct enc; [by rewrite He, Hs|].
  destruct (b64_decode StdEncoding _) as [x|] eqn:Ex; [|by rewrite He, Hs].
  unfold b64_decode in Ex, He. rewrite (b64_quanta_agree _ _ _ _ _ Ex He). by rewrite Hs.
Qed.

(** * Splitting the transport *)

Definition no_slash (s : string) : bool := str_forall (fun c => negb (Ascii.eqb c "/")) s.
Definition no_percent (s : string) : bool := str_forall (fun c => negb (Ascii.eqb c "%")) s.

Lemma replace_percent s : no_percent s = true -> replace_all s "%2F" "/" = s.
Proof.
  unfold replace_all, no_percent. induction s as [|c s IH]; [done|].
  cbn [str_forall]. intros [Hc Hs]%andb_true_iff. cbn [replace_from has_prefix].
  apply negb_true_iff in Hc. rewrite Ascii.eqb_sym in Hc. rewrite Hc. simpl. by rewrite IH.
Qed.

Lemma cut_no_slash s rest : no_slash s = true -> cut_byte "/" (s +:+ "/" +:+ rest) = Some (s, rest).
Proof.
  unfold no_slash. induction s as [|c s IH]; [done|]. simpl. intros [Hc Hs]%andb_true_iff.
  apply negb_true_iff in Hc. rewrite Hc. simpl in IH. by rewrite IH.
Qed.

Lemma splitn_step n s rest :
  no_slash s = true -> splitn_byte "/" (S (S n)) (s +:+ "/" +:+ rest) = s :: splitn_byte "/" (S n) rest.
Proof. intros Hs. cbn [splitn_byte]. by rewrite cut_no_slash. Qed.

Lemma splitn_last n s : no_slash s = true -> splitn_byte "/" (S n) s = [s].
Proof.
  intros Hs. destruct n; [done|]. cbn [splitn_byte].
  assert (cut_byte "/" s = None) as ->; [|done].
  unfold no_slash in Hs. induction s as [|c s IH]; [done|]. simpl in *.
  apply andb_true_iff in Hs as [Hc Hs]. apply negb_true_iff in Hc. by rewrite Hc, IH.
Qed.

Lemma itoa_forall p z :
  p "-"%char = true -> (forall c, decimal_digit c = true -> p c = true) -> str_forall p (itoa z) = true.
Proof.
  intros Hm Hd. unfold itoa, format_int.
  assert (forall n, 0 <= n -> str_forall p (format_uint 10 n) = true).
  { intros n Hn. eapply str_forall_impl; [|by apply format_uint_digits]. auto. }
  destruct (Z.ltb_spec z 0); auto. simpl. rewrite Hm. simpl. apply H. lia.
Qed.

Lemma itoa_no_slash z : no_slash (itoa z) = true.
Proof. apply itoa_forall; [done|]. intros c. by destruct (Ascii.eqb_spec c "/") as [->|]. Qed.

Lemma itoa_no_percent z : no_percent (itoa z) = true.
Proof. apply itoa_forall; [done|]. intros c. by destruct (Ascii.eqb_spec c "%") as [->|]. Qed.

Lemma b64_variant_no_percent enc padded s : no_percent (b64_variant enc padded s) = true.
Proof.
  pose proof (b64_encode_plain enc s) as H. rewrite <- (b64_variant_padded enc padded), str_forall_app in H.
  apply andb_true_iff in H as [H _]. eapply str_forall_impl; [|exact H].
  intros c [_ ?]%andb_true_iff. done.
Qed.

(** A transport text as any front end may build it. *)
Definition transport_text (enc : alphabet) (padded : bool) (f : SearchFilter) : string :=
  let parts := [SortField f; if Descending f then "desc" else "asc"; itoa (PageOffset f); itoa (MaxCount f)] in
  join "/" (if String.eqb (Expression f) "" then parts
            else parts ++ [b64_variant enc padded (Expression f)]).

Lemma b64_variant_nonempty enc padded s : s <> "" -> String.eqb (b64_variant enc padded s) "" = false.
Proof. destruct s as [|a [|b [|c s]]]; [done|..]; by destruct padded. Qed.

(** C34. Parsing inverts serialization: a filter whose sort field has no slash
    or percent sign, whose page is in the range of an int and whose
    expression is trimmed valid text is read back from its transport,
    whichever base64 alphabet the sender used and whether or not it padded
    it.  The date window and the Call-ID do not travel. *)
Theorem transport_roundtrip enc padded f :
  no_slash (SortField f) = true -> no_percent (SortField f) = true ->
  in_int64 (PageOffset f) -> in_int64 (MaxCount f) ->
  utf8_valid (Expression f) = true -> trim_space (Expression f) = Expression f ->
  ParseSearchFilter (transport_text enc padded f) =
    MkSearchFilter (PageOffset f) (MaxCount f) (SortField f) (Descending f) (Expression f) None "" /\
  transport_text StdEncoding true f = filter_String f.
Proof.
  intros Hs Hp Ho Hm Hu Ht. split; [|done].
  assert (forall b : bool, no_slash (if b then "desc" else "asc") = true) as Hdir by by intros [].
  assert (forall b : bool, no_percent (if b then "desc" else "asc") = true) as Hdirp by by intros [].
  assert (no_percent (transport_text enc padded f) = true) as Hnp.
  { unfold transport_text, no_percent in *. destruct (String.eqb _ _); cbn [join app];
      rewrite !str_forall_app, Hp, Hdirp, !itoa_no_percent, ?b64_variant_no_percent; done. }
  unfold ParseSearchFilter, parse_into. rewrite replace_percent by done.
  unfold transport_text. destruct (String.eqb_spec (Expression f) "") as [He|He]; cbn [join app].
  - rewrite !splitn_step, splitn_last by (done || apply Hdir || apply itoa_no_slash).
    unfold safeInt. rewrite !atoi_itoa, He by done. simpl. by destruct (Descending f).
  - rewrite !splitn_step by (done || apply Hdir || apply itoa_no_slash). cbn [splitn_byte].
    rewrite b64_variant_nonempty, b64DecodeText_variant, Ht by done.
    unfold safeInt. rewrite !atoi_itoa by done. simpl. by destruct (Descending f).
Qed.

Lemma transport_roundtrip_witness :
  let f := MkSearchFilter 20 10 "jitter" false "jitter > 3" None "" in
  ParseSearchFilter (transport_text URLEncoding false f) = f /\
  transport_text StdEncoding true f = filter_String f.
Proof.
  intros f. apply (transport_roundtrip URLEncoding false f);
    (reflexivity || (split; vm_compute; congruence)).
Defined.
