(* ===== verification/Model.v ===== *)
(** The domain events decoded from the bus ([internal/model/model.go]): plain
    data.  A [uint64] or [uint32] field is a [Z] in the range of its type, an
    [int64] field a [Z], an optional MOS an [option]. *)

From S2P Require Import Prelude GoFloat GoStrings.

(** A stream's network identity without its link id. *)
Record EndpointKey := MkEndpointKey {
  ek_SrcIP : string; ek_SrcPort : Z; ek_DstIP : string; ek_DstPort : Z; ek_SSRC : Z
}.

Record MediaStreamId := MkMediaStreamId {
  SrcIP : string; SrcPort : Z; DstIP : string; DstPort : Z; SSRC : Z; LinkID : string
}.

#[export] Instance EndpointKey_eq_dec : EqDecision EndpointKey.
Proof. solve_decision. Defined.
#[export] Instance MediaStreamId_eq_dec : EqDecision MediaStreamId.
Proof. solve_decision. Defined.

#[export] Instance EndpointKey_countable : Countable EndpointKey.
Proof.
  apply (inj_countable'
    (fun k => (ek_SrcIP k, ek_SrcPort k, ek_DstIP k, ek_DstPort k, ek_SSRC k))
    (fun '(a, b, c, d, e) => MkEndpointKey a b c d e)).
  by intros [].
Defined.
#[export] Instance MediaStreamId_countable : Countable MediaStreamId.
Proof.
  apply (inj_countable'
    (fun k => (SrcIP k, SrcPort k, DstIP k, DstPort k, SSRC k, LinkID k))
    (fun '(a, b, c, d, e, f) => MkMediaStreamId a b c d e f)).
  by intros [].
Defined.

(** [MediaStreamId.EndpointKey]. *)
Definition endpointKey (m : MediaStreamId) : EndpointKey :=
  MkEndpointKey (SrcIP m) (SrcPort m) (DstIP m) (DstPort m) (SSRC m).

(** [MediaStreamId.String]. *)
Definition stream_id_String (m : MediaStreamId) : string :=
  SrcIP m +:+ ":" +:+ itoa (SrcPort m) +:+ "->" +:+ DstIP m +:+ ":" +:+ itoa (DstPort m)
    +:+ "/" +:+ itoa (SSRC m).

Record StreamReport := MkStreamReport {
  StreamID : MediaStreamId;
  StartMs : Z;
  EndMs : Z;
  StartStreamMs : Z;
  RTPPacketCounter : Z;
  IllegalPacketCounter : Z;
  LostPacketCounter : Z;
  SevanaMOS : option float64;
  NetworkMOS : option float64;
  SevanaRfactor : Z;
  Jitter : float64;
  Codec : string;
  RTTDelay : float64;
  DetectorReport : string;
  DurationAudio : Z;
  AmrNbSwitchCounter : Z;
  AmrWbSwitchCounter : Z;
  DtxSid : Z;
  DtxCount : Z;
  DtxTotal : Z;
  FullReport : bool;
  UserReport : string;
  SipCallID : string;
  SipPeerA : string;
  SipPeerB : string
}.

(** A decoded audio chunk. *)
Record StreamAudio := MkStreamAudio {
  sa_StreamID : MediaStreamId; Wav : string; sa_StartMs : Z; FinishMs : Z
}.

Record SipPeer := MkSipPeer { Aor : string; UserAgent : string; Codecs : string; sp_SSRC : Z }.

Record SipCallStart := MkSipCallStart {
  cs_CallID : string; cs_Timestamp : Z; cs_InviteTimestamp : Z; SetupCode : Z;
  cs_Caller : SipPeer; cs_Callee : SipPeer
}.

Record SipCallEnd := MkSipCallEnd {
  ce_CallID : string; ce_Timestamp : Z; Duration : Z; ByeDirection : Z;
  ResponseCodes : list Z; HasBye : bool
}.

Record SipReinvite := MkSipReinvite {
  ri_CallID : string; ri_Timestamp : Z; IsRequest : bool; Direction : Z;
  UpdatedPeer : SipPeer; RawMessage : string
}.

Record SipCallFailed := MkSipCallFailed {
  cf_CallID : string; cf_Timestamp : Z; cf_InviteTimestamp : Z; Reason : Z;
  ResponseCode : Z; ReasonPhrase : string; cf_Caller : SipPeer; cf_Callee : SipPeer
}.

Record CallHealthWarning := MkCallHealthWarning {
  Code : string; Tag : string; Explanation : string; StreamIDs : list string
}.

Record CallHealth := MkCallHealth {
  ch_CallID : string; ch_Timestamp : Z; StreamCount : Z; Warnings : list CallHealthWarning
}.

Record EspSaEvent := MkEspSaEvent {
  Spis : list Z; Dst : string; EncAlg : string; AuthAlg : string; Source : Z; HasKeys : bool
}.

(** The per-device packet counters and the instance snapshot. *)
Record CaptureStats := MkCaptureStats {
  Device : string; TotalPacketCounter : Z; cap_RTPPacketCounter : Z; SipPacketCounter : Z;
  TruncatedPacketCounter : Z; SrcPortRange : string; DstPortRange : string;
  DroppedHwPacketCounter : Z; ErroneousPacketCounter : Z; MbufAllocFailedCounter : Z
}.

Record InstanceStatistics := MkInstanceStatistics {
  is_ID : string; is_Name : string; ServerTime : string; Version : string;
  UptimeSeconds : Z; PvqaInstanceCounter : Z; PvqaProcessedSeconds : Z;
  ActiveDecoderCounter : Z; ActiveAudioDecoderCounter : Z; TotalDecoderCounter : Z;
  Capturers : list CaptureStats; SipCallCounter : Z; ResipMessageCounter : Z;
  ResipSipMessageCounter : Z; MemAllocatedBytes : Z; MemHeapSize : Z; MemPageheapFreeBytes : Z;
  MemAllocCount : Z; MemFreeCount : Z; MemAllocsPerSec : float64; MemFreesPerSec : float64;
  CpuUserSeconds : float64; CpuSystemSeconds : float64; CpuUsagePercent : float64
}.

(** What a bus message decodes to: the dynamic types of [DecodeEvent]. *)
Inductive domain_event :=
| EStream (id : MediaStreamId)
| EReport (r : StreamReport)
| EAudio (a : StreamAudio)
| EStats (s : InstanceStatistics)
| ECallStart (e : SipCallStart)
| ECallEnd (e : SipCallEnd)
| EReinvite (e : SipReinvite)
| ECallFailed (e : SipCallFailed)
| EHealth (e : CallHealth)
| EEspSa (e : EspSaEvent).

(** A concrete stream and a report of it, for the examples. *)
Definition sample_id (ssrc : Z) (link : string) : MediaStreamId :=
  MkMediaStreamId "10.0.0.1" 4000 "10.0.0.2" 5000 ssrc link.

Definition sample_report (id : MediaStreamId) (start finish rtp : Z) : StreamReport :=
  MkStreamReport id start finish start rtp 0 0 (Some (f64_of_Z 4)) None 80 (f64_of_Z 1) "PCMA"
    fzero "" (finish - start) 0 0 0 0 0 false "" "call-1" "sip:a" "sip:b".
