(* ===== verification/Stats.v ===== *)
(** The active-stream list ([internal/stats]): sort, date window, exact
    Call-ID, filter expression and page slice of the in-memory records
    ([active_list.go]), and the repaging actions ([pagination.go]). *)

From S2P Require Import Prelude GoFloat GoStrings Values StableSort Expression FilterEval Transport.

(** * Sort keys *)

Definition sortKeys : list (string * string) :=
  [("", "start_time"); ("sevana_mos", "sevana_mos"); ("sevana_rfactor", "sevana_rfactor");
   ("src_ip", "src_ip"); ("dst_ip", "dst_ip"); ("network_mos", "network_mos");
   ("jitter", "jitter"); ("duration", "duration"); ("sip_src", "sip_src"); ("sip_dst", "sip_dst")].

Record sortKey := MkSortKey { rank : Z; knum : float64; kstr : string }.

Definition makeSortKey (v : any) : sortKey :=
  match v with
  | ANil => MkSortKey 0 fzero ""
  | AInt64 t | AInt t => MkSortKey 1 (f64_of_Z t) ""
  | AFloat t => MkSortKey 1 t ""
  | ABool t => MkSortKey 2 fzero (if t then "True" else "False")
  | AString t => MkSortKey 2 fzero t
  | _ => MkSortKey 2 fzero ""
  end.

Definition keyLess (a b : sortKey) : bool :=
  if negb (rank a =? rank b) then rank a <? rank b
  else if rank a =? 1 then flt (knum a) (knum b)
  else str_lt (kstr a) (kstr b).

Definition numOf (v : any) : float64 :=
  match v with
  | AInt64 t | AInt t => f64_of_Z t
  | AFloat t => t
  | ABool t => if t then f64_of_Z 1 else fzero
  | AString t => default fzero (parse_float (trim_space t))
  | _ => fzero
  end.

(** The key each record is decorated with, and the comparison of the sort. *)
Definition keyName (sortField : string) : string := default "start_time" (mlookup sortField sortKeys).

Definition recordLess (sortField : string) (descending : bool) (a b : vmap) : bool :=
  let k r := makeSortKey (vget r (keyName sortField)) in
  if descending then keyLess (k b) (k a) else keyLess (k a) (k b).

(** [sortRecords]: [sort.SliceStable] of the decorated records.  The library's
    sort is an insertion sort up to 20 records and merges such blocks above;
    for a strict weak order the result is the same. *)
Definition sortRecords (items : list vmap) (sortField : string) (descending : bool) : list vmap :=
  stable_sort (recordLess sortField descending) items.

(** * The pipeline *)

Section pipeline.
Context `{UnicodeTables}.

Definition keep_window (f : SearchFilter) (r : vmap) : bool :=
  match FilterInterval f with
  | Some d =>
      let lo := f64_of_Z (StartSeconds d) in
      let hi := f64_of_Z (EndSeconds d) in
      let x := numOf (vget r "start_time") in
      fle lo x && fle x hi
  | None => true
  end.

Definition keep_callid (f : SearchFilter) (r : vmap) : bool :=
  if String.eqb (Transport.SIPCallID f) "" then true
  else match vget r "sip_callid" with
       | AString s => String.eqb s (Transport.SIPCallID f)
       | _ => false
       end.

Definition filter_items (f : SearchFilter) (items : list vmap) : list vmap :=
  if String.eqb (Transport.Expression f) "" then items
  else match Parse (Transport.Expression f) with
       | Ok n => List.filter (EvaluateStreamNode n) items
       | Err _ => []
       end.

(** A slice of [n] pointers can be made: Go panics on a negative length and
    on one whose size passes the address space of 48 bits. *)
Definition make_ok (n : Z) : bool := (0 <=? n) && (n <=? 2 ^ 45).

(** The page slice; [None] is a panic, of [make] or of the slice expression. *)
Definition page_slice (f : SearchFilter) (items : list vmap) : option (list vmap) :=
  let len := Z.of_nat (length items) in
  let start := if PageOffset f <? 0 then 0 else PageOffset f in
  if MaxCount f <=? 0 then Some []
  else if len <=? start then Some []
  else
    let e := wrap64 (start + MaxCount f) in
    let e := if len <? e then len else e in
    if make_ok (wrap64 (e - start)) && (start <=? e)
    then Some (take (Z.to_nat (e - start)) (drop (Z.to_nat start) items))
    else None.

Definition PaginateActive (records : list vmap) (f : SearchFilter) : option (list vmap * Z) :=
  let items := sortRecords records (SortField f) (Descending f) in
  let items := List.filter (keep_window f) items in
  let items := List.filter (keep_callid f) items in
  let items := filter_items f items in
  let total := Z.of_nat (length items) in
  match page_slice f items with
  | Some page => Some (page, total)
  | None => None
  end.
End pipeline.

(** * Repaging *)

Record PageAction := MkPageAction { Scope : string; Op : string }.

Definition scopes : list string := ["mem"; "db"].
Definition ops : list string := ["first"; "last"; "prev"; "next"; "refresh"].

Definition ParseAction (action : string) : option PageAction :=
  if String.eqb action "" then None
  else match cut_byte "_" action with
       | Some (scope, op) =>
           if existsb (String.eqb scope) scopes && existsb (String.eqb op) ops
           then Some (MkPageAction scope op) else None
       | None => None
       end.

Definition max0 (v : Z) : Z := if v <? 0 then 0 else v.
Definition min (a b : Z) : Z := if a <? b then a else b.

(** [ResolvePageOffset]: [None] is the error for an unknown operation. *)
Definition ResolvePageOffset (op : string) (offset maxCount total : Z) : option Z :=
  let lastPage := max0 (wrap64 (total - maxCount)) in
  if String.eqb op "first" then Some 0
  else if String.eqb op "last" then Some lastPage
  else if String.eqb op "prev" then Some (max0 (wrap64 (offset - maxCount)))
  else if String.eqb op "next" then Some (max0 (min lastPage (wrap64 (offset + maxCount))))
  else if String.eqb op "refresh" then Some (max0 offset)
  else None.

(** * The order of the records *)

(** Records are ordered when their key is not a NaN. *)
Definition key_ok (sortField : string) (r : vmap) : Prop :=
  fis_nan (knum (makeSortKey (vget r (keyName sortField)))) = false.

Lemma keyLess_irrefl a : keyLess a a = false.
Proof.
  unfold keyLess. rewrite Z.eqb_refl. simpl. case_match; [apply flt_irrefl|apply str_lt_irrefl].
Qed.

Lemma keyLess_asym a b : keyLess a b = true -> keyLess b a = false.
Proof.
  unfold keyLess. rewrite (Z.eqb_sym (rank b)). destruct (Z.eqb_spec (rank a) (rank b)) as [E|]; simpl.
  - rewrite E. case_match; [apply flt_asym|apply str_lt_asym].
  - rewrite Z.ltb_lt, Z.ltb_ge. lia.
Qed.

Lemma keyLess_negtrans a b c :
  fis_nan (knum a) = false -> fis_nan (knum b) = false -> fis_nan (knum c) = false ->
  keyLess a b = false -> keyLess b c = false -> keyLess a c = false.
Proof.
  intros Ha Hb Hc. unfold keyLess.
  destruct (Z.eqb_spec (rank a) (rank b)) as [E1|], (Z.eqb_spec (rank b) (rank c)) as [E2|]; simpl.
  - rewrite E1, E2, Z.eqb_refl. simpl. case_match; [|apply str_lt_negtrans].
    intros H1 H2. apply not_true_iff_false. intros H3.
    destruct (flt_negtrans _ (knum b) _ Hb H3); congruence.
  - rewrite E1. destruct (Z.eqb_spec (rank b) (rank c)); [done|]. done.
  - rewrite <- E2. destruct (Z.eqb_spec (rank a) (rank b)); [done|]. done.
  - rewrite !Z.ltb_ge. intros. destruct (Z.eqb_spec (rank a) (rank c)); simpl; [lia|].
    apply Z.ltb_ge. lia.
Qed.

#[export] Instance recordLess_strict_weak sortField descending :
  StrictWeak (recordLess sortField descending) (key_ok sortField).
Proof.
  unfold recordLess, key_ok. split; destruct descending; intros *; eauto using keyLess_irrefl, keyLess_asym, keyLess_negtrans.
Qed.

(** * The pipeline filters, then sorts *)

Section theorems.
Context `{UnicodeTables}.

(** The predicate the three filtering stages amount to. *)
Definition matches (f : SearchFilter) (r : vmap) : bool :=
  keep_window f r && keep_callid f r &&
  (String.eqb (Transport.Expression f) "" || EvaluateStream (Transport.Expression f) r).

Lemma filter_items_matches f items :
  filter_items f (List.filter (keep_callid f) (List.filter (keep_window f) items)) =
  List.filter (matches f) items.
Proof.
  unfold filter_items. rewrite filter_filter.
  destruct (String.eqb (Transport.Expression f) "") eqn:E.
  { apply filter_ext. intros r. unfold matches. rewrite E. simpl. by rewrite andb_true_r. }
  unfold matches, EvaluateStream. rewrite E. destruct (Parse (Transport.Expression f)).
  - rewrite filter_filter. by apply filter_ext.
  - symmetry. apply filter_none. intros r _. simpl. by rewrite andb_false_r.
Qed.

(** The records a request matches, in the order of the list. *)
Definition matching (records : list vmap) (f : SearchFilter) : list vmap :=
  sortRecords (List.filter (matches f) records) (SortField f) (Descending f).

Lemma pipeline_matching records f :
  Forall (key_ok (SortField f)) records ->
  filter_items f (List.filter (keep_callid f) (List.filter (keep_window f)
    (sortRecords records (SortField f) (Descending f)))) = matching records f.
Proof.
  intros HP. rewrite filter_items_matches. unfold matching, sortRecords.
  by apply (stable_sort_filter _ (key_ok (SortField f))).
Qed.

Lemma matching_length records f : (length (matching records f) <= length records)%nat.
Proof.
  unfold matching, sortRecords. rewrite stable_sort_length. apply List.filter_length_le.
Qed.

(** A request that the arithmetic of the page bounds handles. *)
Definition page_in_range (f : SearchFilter) : Prop :=
  0 <= PageOffset f /\ 0 < MaxCount f /\ PageOffset f + MaxCount f <= max_int64.

Lemma page_slice_in_range f items :
  page_in_range f -> Z.of_nat (length items) <= 2 ^ 45 ->
  page_slice f items = Some (take (Z.to_nat (MaxCount f)) (drop (Z.to_nat (PageOffset f)) items)).
Proof.
  unfold page_in_range, max_int64. intros (Ho & Hm & Hs) Hlen. unfold page_slice.
  destruct (Z.ltb_spec (PageOffset f) 0); [lia|].
  destruct (Z.leb_spec (MaxCount f) 0); [lia|].
  destruct (Z.leb_spec (Z.of_nat (length items)) (PageOffset f)).
  { by rewrite drop_ge, take_nil by lia. }
  rewrite (wrap64_id (PageOffset f + MaxCount f)) by (unfold in_int64, min_int64, max_int64; lia).
  destruct (Z.ltb_spec (Z.of_nat (length items)) (PageOffset f + MaxCount f)).
  - rewrite wrap64_id by (unfold in_int64, min_int64, max_int64; lia). unfold make_ok.
    destruct (Z.leb_spec 0 (Z.of_nat (length items) - PageOffset f)); [|lia].
    destruct (Z.leb_spec (Z.of_nat (length items) - PageOffset f) (2 ^ 45)); [|lia].
    destruct (Z.leb_spec (PageOffset f) (Z.of_nat (length items))); [|lia]. simpl. f_equal.
    rewrite (take_ge _ (Z.to_nat (MaxCount f))) by (rewrite length_drop; lia).
    apply take_ge. rewrite length_drop. lia.
  - rewrite wrap64_id by (unfold in_int64, min_int64, max_int64; lia). unfold make_ok.
    replace (PageOffset f + MaxCount f - PageOffset f) with (MaxCount f) by lia.
    destruct (Z.leb_spec 0 (MaxCount f)); [|lia].
    destruct (Z.leb_spec (MaxCount f) (2 ^ 45)); [|lia].
    by destruct (Z.leb_spec (PageOffset f) (PageOffset f + MaxCount f)); [|lia].
Qed.

Lemma PaginateActive_eq records f :
  Forall (key_ok (SortField f)) records ->
  Z.of_nat (length records) <= 2 ^ 45 -> page_in_range f ->
  PaginateActive records f =
    Some (take (Z.to_nat (MaxCount f)) (drop (Z.to_nat (PageOffset f)) (matching records f)),
          Z.of_nat (length (List.filter (matches f) records))).
Proof.
  intros HP Hlen Hpage. unfold PaginateActive. rewrite pipeline_matching by done.
  pose proof (matching_length records f).
  rewrite page_slice_in_range by (done || lia).
  unfold matching, sortRecords. by rewrite stable_sort_length.
Qed.

(** Consecutive pages make up a list. *)
Lemma pages_concat {A} (m n : nat) (l : list A) :
  (0 < m)%nat -> (length l <= n * m)%nat ->
  concat ((fun k => take m (drop (k * m) l)) <$> seq 0 n) = l.
Proof.
  intros Hm. revert l. induction n as [|n IH]; intros l Hl; simpl.
  { by destruct l; simpl in *; [|lia]. }
  transitivity (take m l ++ drop m l); [|apply take_drop]. rewrite drop_0. f_equal.
  rewrite <- (IH (drop m l)) by (rewrite length_drop; lia).
  rewrite <- fmap_S_seq, <- list_fmap_compose. f_equal. apply list_fmap_ext.
  intros k x _. simpl. by rewrite drop_drop.
Qed.

(** The active list shows a window of the matching streams in order:
    filtering before sorting gives the same list as the code's sorting before
    filtering, the total counts the matching streams, and the order is a
    stable sort by the requested key. *)
Theorem PaginateActive_window records f :
  Forall (key_ok (SortField f)) records ->
  Z.of_nat (length records) <= 2 ^ 45 -> page_in_range f ->
  exists list,
    PaginateActive records f =
      Some (take (Z.to_nat (MaxCount f)) (drop (Z.to_nat (PageOffset f)) list), Z.of_nat (length list)) /\
    list ≡ₚ List.filter (matches f) records /\
    ordered (recordLess (SortField f) (Descending f)) list /\
    forall r, key_ok (SortField f) r ->
      List.filter (eqv (recordLess (SortField f) (Descending f)) r) list =
      List.filter (fun s => matches f s && eqv (recordLess (SortField f) (Descending f)) r s) records.
Proof.
  intros HP Hlen Hpage. exists (matching records f).
  assert (Forall (key_ok (SortField f)) (List.filter (matches f) records)) as HP'.
  { rewrite Forall_forall in HP |- *. intros r [Hr _]%elem_of_filter_bool. auto. }
  split; [|split; [|split]].
  - rewrite PaginateActive_eq by done. unfold matching, sortRecords. by rewrite stable_sort_length.
  - apply stable_sort_Permutation.
  - by apply (stable_sort_ordered _ (key_ok (SortField f))).
  - intros r Hr. unfold matching, sortRecords.
    rewrite (stable_sort_stable _ (key_ok (SortField f))) by done. apply filter_filter.
Qed.

(** Walking the pages of the active list shows each matching stream
    exactly once: the consecutive pages of a fixed size make up the sorted
    list of the matching streams. *)
Theorem PaginateActive_pages_cover records f n :
  Forall (key_ok (SortField f)) records ->
  Z.of_nat (length records) <= 2 ^ 45 -> 0 < MaxCount f ->
  Z.of_nat n * MaxCount f <= max_int64 ->
  Z.of_nat (length (List.filter (matches f) records)) <= Z.of_nat n * MaxCount f ->
  let page k := PaginateActive records
    (MkSearchFilter (Z.of_nat k * MaxCount f) (MaxCount f) (SortField f) (Descending f)
       (Transport.Expression f) (FilterInterval f) (Transport.SIPCallID f)) in
  concat ((fun k => from_option fst [] (page k)) <$> seq 0 n) = matching records f.
Proof.
  intros HP Hlen Hm Hn Hcover page.
  rewrite <- (pages_concat (Z.to_nat (MaxCount f)) n (matching records f)).
  - f_equal. apply list_fmap_ext. intros i k Hk.
    apply lookup_seq in Hk as [-> Hi]. simpl. unfold page.
    rewrite PaginateActive_eq; simpl; [|done|done|].
    + do 2 f_equal. lia.
    + unfold page_in_range. simpl. nia.
  - lia.
  - unfold matching, sortRecords. rewrite stable_sort_length. nia.
Qed.

(** A page whose end overflows an int crashes the request: when some
    matching stream follows the offset and offset plus count passes the
    largest int64, the slice bounds wrap around and the allocation panics. *)
Theorem PaginateActive_overflow_panics records f :
  Forall (key_ok (SortField f)) records ->
  Z.of_nat (length records) <= 2 ^ 45 ->
  0 <= PageOffset f < Z.of_nat (length (List.filter (matches f) records)) ->
  MaxCount f <= max_int64 < PageOffset f + MaxCount f ->
  PaginateActive records f = None.
Proof.
  intros HP Hlen Ho Hm. unfold PaginateActive. rewrite pipeline_matching by done.
  assert (page_slice f (matching records f) = None) as ->; [|done].
  assert (length (matching records f) = length (List.filter (matches f) records)) as Hl
    by (unfold matching, sortRecords; by rewrite stable_sort_length).
  pose proof (matching_length records f). unfold page_slice, max_int64 in *. rewrite Hl in *.
  destruct (Z.ltb_spec (PageOffset f) 0); [lia|].
  destruct (Z.leb_spec (MaxCount f) 0); [lia|].
  destruct (Z.leb_spec (Z.of_nat (length (List.filter (matches f) records))) (PageOffset f)); [lia|].
  assert (wrap64 (PageOffset f + MaxCount f) = PageOffset f + MaxCount f - 2 ^ 64) as ->.
  { unfold wrap64. rewrite <- (Z_mod_plus_full _ (-1)), Z.mod_small; lia. }
  destruct (Z.ltb_spec (Z.of_nat (length (List.filter (matches f) records))) (PageOffset f + MaxCount f - 2 ^ 64)); [lia|].
  destruct (Z.leb_spec (PageOffset f) (PageOffset f + MaxCount f - 2 ^ 64)); [lia|].
  by rewrite andb_false_r.
Qed.
End theorems.

(** Repaging stays inside the list: a known operation never yields a
    negative offset; the first, last and next pages end at the last full
    page, the previous page is never after the current one. *)
Theorem ResolvePageOffset_clamped op offset maxCount total r :
  0 <= maxCount <= max_int64 -> 0 <= total <= max_int64 ->
  min_int64 <= offset - maxCount -> offset + maxCount <= max_int64 ->
  ResolvePageOffset op offset maxCount total = Some r ->
  0 <= r /\
  (op ∈ ["first"; "last"; "next"] -> r <= Z.max 0 (total - maxCount)) /\
  (op ∈ ["prev"; "refresh"] -> r <= Z.max 0 offset).
Proof.
  unfold ResolvePageOffset, max_int64, min_int64. intros Hm Ht Hlo Hhi.
  rewrite !wrap64_id by (unfold in_int64, min_int64, max_int64; lia).
  unfold max0, min. intros Hr.
  repeat match type of Hr with
  | context [String.eqb op ?x] => destruct (String.eqb_spec op x) as [->|]
  end; simplify_eq;
  repeat match goal with
  | |- context [Z.ltb ?a ?b] => destruct (Z.ltb_spec a b)
  | E : context [Z.ltb ?a ?b] |- _ => destruct (Z.ltb_spec a b)
  end;
  (split; [lia|split; intros Hin; rewrite !elem_of_cons, elem_of_nil in Hin]);
  solve [lia | by destruct_or? Hin].
Qed.

(** * The properties at concrete inputs *)

#[local] Existing Instance ascii_tables.

Definition sample_records : list vmap :=
  [{["jitter" := AInt64 3]}; {["jitter" := AInt64 9]}; {["jitter" := AInt64 5]}].

Definition sample_filter (offset count : Z) : SearchFilter :=
  MkSearchFilter offset count "jitter" true "jitter > 4" None "".

Lemma sample_keys : Forall (key_ok "jitter") sample_records.
Proof. repeat constructor. Qed.

Lemma PaginateActive_window_witness :
  exists list,
    PaginateActive sample_records (sample_filter 0 2) = Some (take 2 (drop 0 list), Z.of_nat (length list)) /\
    list ≡ₚ List.filter (matches (sample_filter 0 2)) sample_records /\
    ordered (recordLess "jitter" true) list /\
    forall r, key_ok "jitter" r ->
      List.filter (eqv (recordLess "jitter" true) r) list =
      List.filter (fun s => matches (sample_filter 0 2) s && eqv (recordLess "jitter" true) r s)
        sample_records.
Proof.
  apply (PaginateActive_window sample_records (sample_filter 0 2) sample_keys);
    [vm_compute; congruence|split; [|split]; vm_compute; congruence].
Defined.

Lemma PaginateActive_pages_cover_witness :
  concat ((fun k => from_option fst [] (PaginateActive sample_records
    (MkSearchFilter (Z.of_nat k * 1) 1 "jitter" true "jitter > 4" None ""))) <$> seq 0 2) =
  matching sample_records (sample_filter 0 1).
Proof.
  apply (PaginateActive_pages_cover sample_records (sample_filter 0 1) 2 sample_keys);
    vm_compute; congruence.
Defined.

Lemma PaginateActive_overflow_panics_witness :
  PaginateActive sample_records (sample_filter 1 max_int64) = None.
Proof.
  apply (PaginateActive_overflow_panics sample_records (sample_filter 1 max_int64) sample_keys);
    [vm_compute; congruence|split; vm_compute; congruence|split; vm_compute; congruence].
Defined.

Lemma ResolvePageOffset_clamped_witness :
  0 <= 80 /\ ("next" ∈ ["first"; "last"; "next"] -> 80 <= Z.max 0 (100 - 20)) /\
  ("next" ∈ ["prev"; "refresh"] -> 80 <= Z.max 0 75).
Proof.
  apply (ResolvePageOffset_clamped "next" 75 20 100 80); try reflexivity;
    try (split; vm_compute; congruence); vm_compute; congruence.
Defined.
