(* ===== verification/Registry.v ===== *)
(** The active-stream registry ([internal/state/registry.go]) and the latest
    instance snapshot ([internal/state/snapshot.go]): the registry's state and
    operations, its invariant, and its refinement of an insertion-ordered
    dictionary of report lists.

    The mutex makes every exported method atomic, so a method is a function
    of the state; the clock is an argument.  The three counters are unbounded
    (an [int] that counts events does not reach 2^63). *)

From S2P Require Import Prelude GoFloat GoStrings Values StableSort Model Expression FilterEval FilterSQL.

Record entry := MkEntry {
  streamID : MediaStreamId; reports : list StreamReport; order : Z; lastSeenMs : Z
}.

Record registry := MkRegistry {
  agentID : string; agentName : string; streams : gmap MediaStreamId entry;
  last_order : Z; started : Z; finished : Z; lastUptime : option Z
}.

Definition NewActiveStreamRegistry (agentID agentName : string) : registry :=
  MkRegistry agentID agentName ∅ 0 0 0 None.

(** * Bus-fed mutations *)

Definition OnStreamDetected (now : Z) (id : MediaStreamId) (r : registry) : registry :=
  let order := last_order r + 1 in
  let streams := match streams r !! id with
                 | Some _ => streams r
                 | None => <[id := MkEntry id [] order now]> (streams r)
                 end in
  MkRegistry (agentID r) (agentName r) streams order (started r + 1) (finished r) (lastUptime r).

Definition OnReport (now : Z) (report : StreamReport) (r : registry) : registry :=
  let id := StreamID report in
  let '(e, last) := match streams r !! id with
                    | Some e => (e, last_order r)
                    | None => (MkEntry id [] (last_order r + 1) now, last_order r + 1)
                    end in
  let e := MkEntry (streamID e) (reports e ++ [report]) (order e) now in
  MkRegistry (agentID r) (agentName r) (<[id := e]> (streams r)) last (started r) (finished r)
    (lastUptime r).

Definition OnFinished (report : StreamReport) (r : registry) : registry :=
  MkRegistry (agentID r) (agentName r) (delete (StreamID report) (streams r)) (last_order r)
    (started r) (finished r + 1) (lastUptime r).

(** * Ghost cleanup *)

Definition NoteUptime (uptimeSeconds : Z) (r : registry) : registry * bool :=
  (MkRegistry (agentID r) (agentName r) (streams r) (last_order r) (started r) (finished r)
     (Some uptimeSeconds),
   match lastUptime r with Some previous => uptimeSeconds <? previous | None => false end).

(** [orderedEntriesLocked]: the orders are distinct, so the library's sort is
    determined. *)
Definition entryLess (a b : entry) : bool := order a <? order b.
Definition orderedEntries (m : gmap MediaStreamId entry) : list entry :=
  stable_sort entryLess (map_to_list m).*2.

Definition sum_u64 (f : StreamReport -> Z) (l : list StreamReport) : Z :=
  fold_left (fun acc rp => wrapu64 (acc + f rp)) l 0.
Definition sum_i64 (f : StreamReport -> Z) (l : list StreamReport) : Z :=
  fold_left (fun acc rp => wrap64 (acc + f rp)) l 0.

(** [synthesizeFinal]; [None] is the index panic on an entry without reports. *)
Definition synthesizeFinal (e : entry) : option StreamReport :=
  match head (reports e), last (reports e) with
  | Some first, Some last =>
      Some {|
        StreamID := streamID e;
        StartMs := StartMs first;
        EndMs := EndMs last;
        StartStreamMs := 0;
        RTPPacketCounter := sum_u64 RTPPacketCounter (reports e);
        IllegalPacketCounter := sum_u64 IllegalPacketCounter (reports e);
        LostPacketCounter := sum_u64 LostPacketCounter (reports e);
        SevanaMOS := SevanaMOS last;
        NetworkMOS := NetworkMOS last;
        SevanaRfactor := SevanaRfactor last;
        Jitter := Jitter last;
        Codec := Codec last;
        RTTDelay := RTTDelay last;
        DetectorReport := DetectorReport last;
        DurationAudio := sum_i64 DurationAudio (reports e);
        AmrNbSwitchCounter := sum_i64 AmrNbSwitchCounter (reports e);
        AmrWbSwitchCounter := sum_i64 AmrWbSwitchCounter (reports e);
        DtxSid := sum_u64 DtxSid (reports e);
        DtxCount := sum_u64 DtxCount (reports e);
        DtxTotal := sum_u64 DtxTotal (reports e);
        FullReport := true;
        UserReport := if String.eqb (UserReport last) "" then "auto-finalized" else UserReport last;
        SipCallID := SipCallID last;
        SipPeerA := SipPeerA last;
        SipPeerB := SipPeerB last
      |}
  | _, _ => None
  end.

Definition evict_one (acc : registry * list StreamReport) (e : entry) : registry * list StreamReport :=
  let '(r, finals) := acc in
  let r := MkRegistry (agentID r) (agentName r) (delete (streamID e) (streams r)) (last_order r)
             (started r) (finished r + 1) (lastUptime r) in
  (r, if (0 <? length (reports e))%nat then finals ++ option_list (synthesizeFinal e) else finals).

Definition evictLocked (entries : list entry) (r : registry) : registry * list StreamReport :=
  fold_left evict_one entries (r, []).

Definition stale (idleMs nowMs : Z) (e : entry) : bool := idleMs <=? wrap64 (nowMs - lastSeenMs e).

Definition SweepGhostsAt (idleMs nowMs : Z) (r : registry) : registry * list StreamReport :=
  evictLocked (List.filter (stale idleMs nowMs) (orderedEntries (streams r))) r.

Definition DrainAll (r : registry) : registry * list StreamReport :=
  evictLocked (orderedEntries (streams r)) r.

(** * Reads *)

Definition ActiveCount (r : registry) : Z := Z.of_nat (size (streams r)).

Definition mosOrZero (p : option float64) : float64 := default fzero p.
Definition decimalString (v : Z) : string := itoa v.

(** [recordLocked]; [None] is the index panic on an entry without reports. *)
Definition recordLocked (r : registry) (e : entry) : option vmap :=
  match head (reports e), last (reports e) with
  | Some first, Some last =>
      let sid := streamID e in
      let streamStart := if StartStreamMs first =? 0 then StartMs first else StartStreamMs first in
      let durationMs := wrap64 (EndMs last - streamStart) in
      let durationMs := if durationMs <? 0 then 0 else durationMs in
      let dtxSid := sum_u64 DtxSid (reports e) in
      let dtxCount := sum_u64 DtxCount (reports e) in
      let dtxTotal := sum_u64 DtxTotal (reports e) in
      let durationAudio := sum_i64 DurationAudio (reports e) in
      let rtp := sum_u64 RTPPacketCounter (reports e) in
      let lost := sum_u64 LostPacketCounter (reports e) in
      let silenceRatio :=
        if 0 <? dtxTotal then fdiv (f64_of_Z (wrapu64 (dtxSid + dtxCount))) (f64_of_Z dtxTotal)
        else fzero in
      Some (list_to_map
        [("start_time", AInt64 (Z.quot streamStart 1000));
         ("sevana_mos", AFloat (mosOrZero (SevanaMOS last)));
         ("network_mos", AFloat (mosOrZero (NetworkMOS last)));
         ("sevana_rfactor", AInt64 (SevanaRfactor last));
         ("jitter", AFloat (Jitter last));
         ("rtt_delay", AFloat (RTTDelay last));
         ("silence_ratio", AFloat silenceRatio);
         ("duration", AInt64 durationMs);
         ("src_ip", AString (SrcIP sid));
         ("dst_ip", AString (DstIP sid));
         ("src_port", AInt64 (SrcPort sid));
         ("dst_port", AInt64 (DstPort sid));
         ("ssrc", AString (decimalString (SSRC sid)));
         ("sip_src", AString (SipPeerA last));
         ("sip_dst", AString (SipPeerB last));
         ("sip_callid", AString (SipCallID last));
         ("instance_id", AString (agentID r));
         ("instance_name", AString (agentName r));
         ("link_id", AString (LinkID sid));
         ("duration_audio", AInt64 durationAudio);
         ("start_ms", AInt64 streamStart);
         ("rtp_packet_counter", AInt64 (wrap64 rtp));
         ("lost_packet_counter", AInt64 (wrap64 lost));
         ("dtx_sid", AInt64 (wrap64 dtxSid));
         ("dtx_count", AInt64 (wrap64 dtxCount));
         ("dtx_total", AInt64 (wrap64 dtxTotal));
         ("detector_reports", AStrings (DetectorReport <$> reports e))])
  | _, _ => None
  end.

Definition SnapshotRecords (r : registry) : list vmap :=
  omap (fun e => if (length (reports e) =? 0)%nat then None else recordLocked r e)
    (orderedEntries (streams r)).

(** * The instance snapshot *)

Record snapshot := MkSnapshot { value : option InstanceStatistics }.
Definition NewInstanceSnapshot : snapshot := MkSnapshot None.
Definition snapshot_Set (stats : InstanceStatistics) (s : snapshot) : snapshot := MkSnapshot (Some stats).
Definition snapshot_Get (s : snapshot) : option InstanceStatistics := value s.

(** * Histories *)

(** What the bus and the workers do to the registry, each with the clock. *)
Inductive event :=
| Detected (now : Z) (id : MediaStreamId)
| Reported (now : Z) (rp : StreamReport)
| Finished (rp : StreamReport)
| Uptime (seconds : Z)
| Sweep (idleMs now : Z)
| Drain.

Definition apply_event (ev : event) (r : registry) : registry * list StreamReport :=
  match ev with
  | Detected now id => (OnStreamDetected now id r, [])
  | Reported now rp => (OnReport now rp r, [])
  | Finished rp => (OnFinished rp r, [])
  | Uptime u => ((NoteUptime u r).1, [])
  | Sweep idleMs now => SweepGhostsAt idleMs now r
  | Drain => DrainAll r
  end.

(** A run: the final registry and the finals of all its evictions. *)
Fixpoint run (evs : list event) (r : registry) : registry * list StreamReport :=
  match evs with
  | [] => (r, [])
  | ev :: evs => let '(r, out) := apply_event ev r in
                 let '(r, outs) := run evs r in (r, out ++ outs)
  end.

(** * The abstract specification

    An insertion-ordered dictionary, as the Python original kept it: each
    active stream with its reports, oldest first, and the time it was last
    seen. *)
Definition dict := list (MediaStreamId * (list StreamReport * Z)).

Definition dict_mem (id : MediaStreamId) (d : dict) : bool := bool_decide (id ∈ d.*1).

Definition dict_detect (now : Z) (id : MediaStreamId) (d : dict) : dict :=
  if dict_mem id d then d else d ++ [(id, ([], now))].

Definition dict_report (now : Z) (rp : StreamReport) (d : dict) : dict :=
  if dict_mem (StreamID rp) d
  then (fun '(id, (rps, t)) =>
          if decide (id = StreamID rp) then (id, (rps ++ [rp], now)) else (id, (rps, t))) <$> d
  else d ++ [(StreamID rp, ([rp], now))].

Definition dict_final (x : MediaStreamId * (list StreamReport * Z)) : option StreamReport :=
  synthesizeFinal (MkEntry x.1 x.2.1 0 0).

Definition dict_stale (idleMs now : Z) (x : MediaStreamId * (list StreamReport * Z)) : bool :=
  idleMs <=? wrap64 (now - x.2.2).

Definition dict_event (ev : event) (d : dict) : dict * list StreamReport :=
  match ev with
  | Detected now id => (dict_detect now id d, [])
  | Reported now rp => (dict_report now rp d, [])
  | Finished rp => (List.filter (fun x => negb (bool_decide (x.1 = StreamID rp))) d, [])
  | Uptime _ => (d, [])
  | Sweep idleMs now =>
      (List.filter (fun x => negb (dict_stale idleMs now x)) d,
       omap dict_final (List.filter (dict_stale idleMs now) d))
  | Drain => ([], omap dict_final d)
  end.

Fixpoint dict_run (evs : list event) (d : dict) : dict * list StreamReport :=
  match evs with
  | [] => (d, [])
  | ev :: evs => let '(d, out) := dict_event ev d in
                 let '(d, outs) := dict_run evs d in (d, out ++ outs)
  end.

(** The dictionary a registry implements. *)
Definition abs_entry (e : entry) : MediaStreamId * (list StreamReport * Z) :=
  (streamID e, (reports e, lastSeenMs e)).
Definition abs (r : registry) : dict := abs_entry <$> orderedEntries (streams r).

(** * The invariant *)

Record wf (r : registry) : Prop := {
  wf_key id e : streams r !! id = Some e -> streamID e = id;
  wf_order id e : streams r !! id = Some e -> order e <= last_order r;
  wf_inj i j e f : streams r !! i = Some e -> streams r !! j = Some f -> order e = order f -> i = j
}.

(** [l] lists the entries of [m] in strictly increasing order. *)
Definition is_view (m : gmap MediaStreamId entry) (l : list entry) : Prop :=
  StronglySorted (fun a b => order a < order b) l /\
  forall e, e ∈ l <-> m !! streamID e = Some e.

Lemma strictly_sorted_NoDup l : StronglySorted (fun a b => order a < order b) l -> NoDup l.
Proof.
  induction 1 as [|e l _ IH Hall]; constructor; [|done].
  intros Hin. rewrite Forall_forall in Hall. apply Hall in Hin. lia.
Qed.

Lemma is_view_unique m l1 l2 : is_view m l1 -> is_view m l2 -> l1 = l2.
Proof.
  intros [H1 E1] [H2 E2].
  apply (StronglySorted_unique_strong (fun a b => order a < order b)); [lia|done|done|].
  apply NoDup_Permutation; [by apply strictly_sorted_NoDup..|].
  intros e. by rewrite E1, E2.
Qed.

#[export] Instance entryLess_strict_weak : StrictWeak entryLess (fun _ => True).
Proof. unfold entryLess. split; intros *; rewrite ?Z.ltb_lt, ?Z.ltb_ge; lia. Qed.

Lemma elem_of_orderedEntries m e : e ∈ orderedEntries m <-> exists id, m !! id = Some e.
Proof.
  unfold orderedEntries. rewrite stable_sort_Permutation, list_elem_of_fmap. split.
  - intros ([id e'] & -> & He). apply elem_of_map_to_list in He. by exists id.
  - intros [id He]. exists (id, e). by rewrite elem_of_map_to_list.
Qed.

Lemma ordered_strict l :
  ordered entryLess l -> NoDup (order <$> l) -> StronglySorted (fun a b => order a < order b) l.
Proof.
  unfold ordered. induction 1 as [|e l _ IH Hall]; simpl; intros Hnd; [constructor|].
  apply NoDup_cons in Hnd as [Hnot Hnd]. constructor; [by apply IH|].
  rewrite Forall_forall in Hall |- *. intros f Hf. specialize (Hall f Hf).
  unfold entryLess in Hall. apply Z.ltb_ge in Hall.
  assert (order e <> order f); [|lia]. intros He. apply Hnot. rewrite He.
  by apply list_elem_of_fmap_2.
Qed.

Lemma orders_NoDup r : wf r -> NoDup (order <$> (map_to_list (streams r)).*2).
Proof.
  intros Hwf. rewrite <- list_fmap_compose. apply NoDup_fmap_2_strong; [|apply NoDup_map_to_list].
  intros [i e] [j f] Hi Hj Heq. simpl in Heq.
  apply elem_of_map_to_list in Hi, Hj.
  assert (i = j) as <- by by eapply (wf_inj r Hwf). congruence.
Qed.

Lemma orderedEntries_view r : wf r -> is_view (streams r) (orderedEntries (streams r)).
Proof.
  intros Hwf. split.
  - apply ordered_strict; [apply (stable_sort_ordered _ (fun _ => True)); by apply Forall_true|].
    unfold orderedEntries. rewrite (stable_sort_Permutation entryLess). by apply orders_NoDup.
  - intros e. rewrite elem_of_orderedEntries. split; [|by eexists].
    intros [id He]. by rewrite (wf_key r Hwf id e He).
Qed.

(** The entries of a well-formed registry, when they are known. *)
Lemma orderedEntries_eq r l : wf r -> is_view (streams r) l -> orderedEntries (streams r) = l.
Proof. intros Hwf. apply is_view_unique. by apply orderedEntries_view. Qed.

Lemma orderedEntries_key r e : wf r -> e ∈ orderedEntries (streams r) -> streams r !! streamID e = Some e.
Proof. intros Hwf He. by apply (orderedEntries_view r Hwf). Qed.

Lemma orderedEntries_last r e : wf r -> e ∈ orderedEntries (streams r) -> order e <= last_order r.
Proof. intros Hwf He%orderedEntries_key; [|done]. by eapply wf_order. Qed.

(** * Evictions *)

Lemma synthesizeFinal_empty e :
  (if (0 <? length (reports e))%nat then option_list (synthesizeFinal e) else []) =
  option_list (synthesizeFinal e).
Proof. unfold synthesizeFinal. by destruct (reports e). Qed.

Lemma evict_fold es r fs :
  let '(r', fs') := fold_left evict_one es (r, fs) in
  fs' = fs ++ omap synthesizeFinal es /\
  agentID r' = agentID r /\ agentName r' = agentName r /\ last_order r' = last_order r /\
  started r' = started r /\ lastUptime r' = lastUptime r /\
  finished r' = finished r + Z.of_nat (length es) /\
  forall id, streams r' !! id = if decide (id ∈ streamID <$> es) then None else streams r !! id.
Proof.
  revert r fs. induction es as [|e es IH]; intros r fs.
  { simpl. split_and!; try done; [by rewrite app_nil_r|lia]. }
  cbn [fold_left]. unfold evict_one at 2.
  match goal with |- context [fold_left evict_one es (?a, ?b)] => specialize (IH a b) end.
  destruct (fold_left evict_one es _) as [r' fs'].
  destruct IH as (-> & Ha & Hn & Ho & Hs & Hu & Hf & Hl). simpl in *.
  split_and!; try done.
  - pose proof (synthesizeFinal_empty e) as He. destruct (0 <? length (reports e))%nat; simpl.
    + rewrite <- app_assoc. by destruct (synthesizeFinal e).
    + by destruct (synthesizeFinal e).
  - rewrite Hf. lia.
  - intros id. rewrite Hl.
    destruct (decide (id ∈ streamID <$> es)) as [Hin|Hin].
    + by rewrite decide_True by (by apply elem_of_cons; right).
    + destruct (decide (id = streamID e)) as [->|Hne].
      * rewrite lookup_delete_eq, decide_True by (by apply elem_of_cons; left). done.
      * rewrite lookup_delete_ne, decide_False by (done || rewrite elem_of_cons; tauto). done.
Qed.

Lemma StronglySorted_filter_bool {A} (R : A -> A -> Prop) (p : A -> bool) l :
  StronglySorted R l -> StronglySorted R (List.filter p l).
Proof.
  induction 1 as [|x l _ IH Hall]; simpl; [constructor|]. destruct (p x); [|done].
  constructor; [done|]. rewrite Forall_forall in Hall |- *.
  intros y [Hy _]%elem_of_filter_bool. auto.
Qed.

(** Evicting the entries that [p] selects keeps the others, in order. *)
Lemma evict_filter (p : entry -> bool) r :
  wf r ->
  let '(r', finals) := evictLocked (List.filter p (orderedEntries (streams r))) r in
  wf r' /\
  orderedEntries (streams r') = List.filter (fun e => negb (p e)) (orderedEntries (streams r)) /\
  finals = omap synthesizeFinal (List.filter p (orderedEntries (streams r))) /\
  finished r' = finished r + Z.of_nat (length (List.filter p (orderedEntries (streams r)))) /\
  started r' = started r.
Proof.
  intros Hwf. unfold evictLocked.
  pose proof (evict_fold (List.filter p (orderedEntries (streams r))) r []) as H.
  destruct (fold_left evict_one _ _) as [r' finals].
  destruct H as (-> & _ & _ & Ho & Hs & _ & Hf & Hl).
  assert (forall id e, streams r' !! id = Some e -> streams r !! id = Some e) as Hsub.
  { intros id e. rewrite Hl. by case_match. }
  assert (wf r') as Hwf'.
  { split.
    - intros id e He%Hsub. by eapply wf_key.
    - intros id e He%Hsub. rewrite Ho. by eapply wf_order.
    - intros i j e f Hi%Hsub Hj%Hsub. by eapply (wf_inj r). }
  split_and!; try done. apply orderedEntries_eq; [done|]. split.
  - apply StronglySorted_filter_bool. by apply orderedEntries_view.
  - intros e. rewrite elem_of_filter_bool, Hl, negb_true_iff. split.
    + intros [He Hp]. rewrite decide_False; [by apply orderedEntries_key|].
      intros (e' & Heq & [He' Hp']%elem_of_filter_bool)%list_elem_of_fmap.
      apply orderedEntries_key in He, He'; try done. rewrite Heq in He.
      assert (e = e') as -> by congruence. congruence.
    + case_decide as Hnot; [done|]. intros He.
      assert (e ∈ orderedEntries (streams r)) as Hin by (apply elem_of_orderedEntries; by eexists).
      split; [done|]. apply not_true_iff_false. intros Hp. apply Hnot.
      apply list_elem_of_fmap. exists e. split; [done|]. by apply elem_of_filter_bool.
Qed.

(** * The operations on the dictionary *)

Lemma abs_mem r id : wf r -> id ∈ (abs r).*1 <-> is_Some (streams r !! id).
Proof.
  intros Hwf. unfold abs. rewrite <- list_fmap_compose, list_elem_of_fmap. split.
  - intros (e & -> & He). exists e. by apply orderedEntries_key.
  - intros [e He]. exists e. rewrite elem_of_orderedEntries. split; [|by eexists].
    simpl. by rewrite (wf_key r Hwf _ _ He).
Qed.

Lemma StronglySorted_snoc_strict l e :
  StronglySorted (fun a b => order a < order b) l -> Forall (fun a => order a < order e) l ->
  StronglySorted (fun a b => order a < order b) (l ++ [e]).
Proof.
  induction 1 as [|x l _ IH Hall]; simpl; intros H; [repeat constructor|].
  apply Forall_cons_1 in H as [Hx H]. constructor; [auto|].
  apply Forall_app. by repeat constructor.
Qed.

(** A new entry goes last. *)
Lemma insert_new r m' n' e :
  wf r -> streams r !! streamID e = None -> order e = last_order r + 1 ->
  n' = last_order r + 1 -> m' = <[streamID e := e]> (streams r) ->
  forall a b c d f,
  let r' := MkRegistry a b m' n' c d f in
  wf r' /\ orderedEntries (streams r') = orderedEntries (streams r) ++ [e].
Proof.
  intros Hwf Hnone Ho -> -> a b c d f r'.
  assert (wf r') as Hwf'.
  { split; simpl.
    - intros id x. rewrite lookup_insert_Some. intros [[<- <-]|[_ Hx]]; [done|by eapply wf_key].
    - intros id x. rewrite lookup_insert_Some. intros [[<- <-]|[_ Hx]]; [lia|].
      apply (wf_order r Hwf) in Hx. lia.
    - intros i j x y. rewrite !lookup_insert_Some.
      intros [[<- <-]|[_ Hx]] [[<- <-]|[_ Hy]] Heq; try done.
      + apply (wf_order r Hwf) in Hy. lia.
      + apply (wf_order r Hwf) in Hx. lia.
      + by eapply (wf_inj r). }
  split; [done|]. apply orderedEntries_eq; [done|].
  destruct (orderedEntries_view r Hwf) as [Hsort Hin]. split.
  - apply StronglySorted_snoc_strict; [done|]. apply Forall_forall. intros x Hx.
    apply orderedEntries_last in Hx; [|done]. lia.
  - intros x. rewrite elem_of_app, list_elem_of_singleton, Hin. simpl.
    destruct (decide (streamID x = streamID e)) as [Heq|Hne].
    + rewrite Heq, lookup_insert_eq, Hnone. naive_solver.
    + rewrite lookup_insert_ne by done. naive_solver.
Qed.

(** An entry is updated in place. *)
Lemma update_in_place r m' e e' :
  wf r -> streams r !! streamID e = Some e -> streamID e' = streamID e -> order e' = order e ->
  m' = <[streamID e := e']> (streams r) ->
  forall a b c d f,
  let r' := MkRegistry a b m' (last_order r) c d f in
  wf r' /\
  orderedEntries (streams r') =
    (fun x => if decide (streamID x = streamID e) then e' else x) <$> orderedEntries (streams r).
Proof.
  intros Hwf He Hid Ho -> a b c d f r'.
  assert (wf r') as Hwf'.
  { split; simpl.
    - intros id x. rewrite lookup_insert_Some. intros [[<- <-]|[_ Hx]]; [done|by eapply wf_key].
    - intros id x. rewrite lookup_insert_Some. intros [[<- <-]|[_ Hx]]; [|by eapply wf_order].
      rewrite Ho. by eapply wf_order.
    - intros i j x y. rewrite !lookup_insert_Some.
      intros [[<- <-]|[_ Hx]] [[<- <-]|[_ Hy]] Heq; try done.
      + apply (wf_inj r Hwf _ _ _ _ He Hy). congruence.
      + apply (wf_inj r Hwf _ _ _ _ Hx He). congruence.
      + by eapply (wf_inj r). }
  split; [done|]. apply orderedEntries_eq; [done|].
  destruct (orderedEntries_view r Hwf) as [Hsort Hin]. split.
  - assert (forall x, x ∈ orderedEntries (streams r) ->
      order (if decide (streamID x = streamID e) then e' else x) = order x) as Hord.
    { intros x Hx. case_decide as Heq; [|done].
      apply orderedEntries_key in Hx; [|done]. rewrite Heq in Hx. congruence. }
    clear Hin. induction Hsort as [|x l _ IH Hall]; simpl; [constructor|]. constructor.
    + apply IH. intros y Hy. apply Hord. by apply elem_of_cons; right.
    + apply Forall_fmap, Forall_forall. intros y Hy. simpl.
      rewrite (Hord x), (Hord y) by (rewrite elem_of_cons; auto).
      rewrite Forall_forall in Hall. auto.
  - intros x. rewrite list_elem_of_fmap. simpl. split.
    + intros (y & -> & Hy%orderedEntries_key); [|done]. case_decide as Heq.
      * by rewrite Hid, lookup_insert_eq.
      * by rewrite lookup_insert_ne by done.
    + destruct (decide (streamID x = streamID e)) as [Heq|Hne].
      * rewrite Heq, lookup_insert_eq. intros [= ->]. exists e.
        rewrite decide_True by done. split; [done|]. by apply Hin.
      * rewrite lookup_insert_ne by done. intros Hx. exists x. rewrite decide_False by done.
        split; [done|]. by apply Hin.
Qed.

Lemma finished_view rp r :
  wf r ->
  wf (OnFinished rp r) /\
  orderedEntries (streams (OnFinished rp r)) =
    List.filter (fun e => negb (bool_decide (streamID e = StreamID rp))) (orderedEntries (streams r)).
Proof.
  intros Hwf.
  assert (wf (OnFinished rp r)) as Hwf'.
  { split; simpl.
    - intros id x. rewrite lookup_delete_Some. intros [_ Hx]. by eapply wf_key.
    - intros id x. rewrite lookup_delete_Some. intros [_ Hx]. by eapply wf_order.
    - intros i j x y. rewrite !lookup_delete_Some. intros [_ Hx] [_ Hy]. by eapply (wf_inj r). }
  split; [done|]. apply orderedEntries_eq; [done|].
  destruct (orderedEntries_view r Hwf) as [Hsort Hin]. split; [by apply StronglySorted_filter_bool|].
  intros x. rewrite elem_of_filter_bool, Hin, negb_true_iff, bool_decide_eq_false. simpl.
  rewrite lookup_delete_Some. naive_solver.
Qed.

Lemma omap_abs_final (l : list entry) : omap dict_final (abs_entry <$> l) = omap synthesizeFinal l.
Proof.
  induction l as [|e l IH]; [done|]. rewrite fmap_cons, !omap_unfold, IH. done.
Qed.

Lemma dict_mem_spec r id : wf r -> dict_mem id (abs r) = bool_decide (is_Some (streams r !! id)).
Proof. intros Hwf. unfold dict_mem. apply bool_decide_ext. by apply abs_mem. Qed.

(** Every event acts on the registry as on the dictionary. *)
Lemma apply_event_refines ev r :
  wf r ->
  let '(r', out) := apply_event ev r in
  wf r' /\ (abs r', out) = dict_event ev (abs r).
Proof.
  intros Hwf. destruct ev as [now id|now rp|rp|u|idleMs now|]; cbn [apply_event dict_event].
  - unfold dict_detect. rewrite dict_mem_spec by done. unfold OnStreamDetected.
    destruct (streams r !! id) as [e|] eqn:He.
    + rewrite bool_decide_true by (by eexists). split; [|done].
      split; simpl; [apply Hwf| |apply Hwf]. intros i x Hx. apply (wf_order r Hwf) in Hx. lia.
    + rewrite bool_decide_false by (by intros [? ?]).
      destruct (insert_new r _ _ (MkEntry id [] (last_order r + 1) now) Hwf He eq_refl eq_refl eq_refl
        (agentID r) (agentName r) (started r + 1) (finished r) (lastUptime r)) as [Hwf' Hord].
      split; [exact Hwf'|]. unfold abs. simpl in Hord |- *. by rewrite Hord, fmap_app.
  - unfold dict_report. rewrite dict_mem_spec by done. unfold OnReport.
    destruct (streams r !! StreamID rp) as [e|] eqn:He.
    + rewrite bool_decide_true by (by eexists).
      pose proof (wf_key r Hwf _ _ He) as Hkey.
      destruct (update_in_place r (<[StreamID rp := MkEntry (streamID e) (reports e ++ [rp]) (order e) now]> (streams r))
        e (MkEntry (streamID e) (reports e ++ [rp]) (order e) now) Hwf
        ltac:(by rewrite Hkey) eq_refl eq_refl ltac:(by rewrite Hkey)
        (agentID r) (agentName r) (started r) (finished r) (lastUptime r)) as [Hwf' Hord].
      split; [exact Hwf'|]. unfold abs. simpl in Hord |- *. rewrite Hord. f_equal.
      rewrite <- !list_fmap_compose. apply list_fmap_ext. intros i x Hx. simpl.
      rewrite Hkey. case_decide as Heq; [|done].
      assert (x = e) as ->.
      { apply list_elem_of_lookup_2, orderedEntries_key in Hx; [|done]. rewrite Heq in Hx. congruence. }
      unfold abs_entry; simpl. rewrite Hkey. done.
    + rewrite bool_decide_false by (by intros [? ?]).
      destruct (insert_new r _ _ (MkEntry (StreamID rp) [rp] (last_order r + 1) now) Hwf He eq_refl eq_refl eq_refl
        (agentID r) (agentName r) (started r) (finished r) (lastUptime r)) as [Hwf' Hord].
      split; [exact Hwf'|]. unfold abs. simpl in Hord |- *. by rewrite Hord, fmap_app.
  - destruct (finished_view rp r Hwf) as [Hwf' Hord]. split; [exact Hwf'|].
    unfold abs. rewrite Hord. f_equal. symmetry. by apply filter_fmap_comm.
  - split; [|done]. split; simpl; apply Hwf.
  - unfold SweepGhostsAt.
    pose proof (evict_filter (stale idleMs now) r Hwf) as H.
    destruct (evictLocked _ r) as [r' finals]. destruct H as (Hwf' & Hord & -> & _).
    split; [done|]. unfold abs. rewrite Hord.
    rewrite (filter_fmap_comm abs_entry _ (fun e => negb (stale idleMs now e))) by done.
    rewrite (filter_fmap_comm abs_entry _ (stale idleMs now)) by done. by rewrite omap_abs_final.
  - unfold DrainAll.
    pose proof (evict_filter (fun _ => true) r Hwf) as H.
    rewrite filter_all in H by done.
    destruct (evictLocked _ r) as [r' finals]. destruct H as (Hwf' & Hord & -> & _).
    split; [done|]. unfold abs. rewrite Hord, filter_none by done. by rewrite omap_abs_final.
Qed.

Lemma wf_new a b : wf (NewActiveStreamRegistry a b).
Proof. by split; simpl; intros *; rewrite lookup_empty. Qed.

Lemma run_refines evs r :
  wf r ->
  let '(r', out) := run evs r in
  wf r' /\ (abs r', out) = dict_run evs (abs r).
Proof.
  revert r. induction evs as [|ev evs IH]; intros r Hwf; simpl; [done|].
  pose proof (apply_event_refines ev r Hwf) as H.
  destruct (apply_event ev r) as [r1 out1]. destruct H as [Hwf1 H1].
  specialize (IH r1 Hwf1). destruct (run evs r1) as [r2 out2]. destruct IH as [Hwf2 H2].
  split; [done|]. rewrite <- H1, <- H2. done.
Qed.

(** * Synthesized totals *)

Lemma fold_wrap_add (w : Z -> Z) (f : StreamReport -> Z) l acc :
  (forall a b, w (w a + b) = w (a + b)) ->
  w (fold_left (fun acc rp => w (acc + f rp)) l acc) = w (acc + foldr Z.add 0 (f <$> l)).
Proof.
  intros Hw. revert acc. induction l as [|x l IH]; intros acc; simpl; [by rewrite Z.add_0_r|].
  rewrite IH, Hw. f_equal. symmetry. apply Z.add_assoc.
Qed.

Lemma fold_wrap_idem (w : Z -> Z) (f : StreamReport -> Z) l :
  (forall a b, w (w a + b) = w (a + b)) -> w 0 = 0 ->
  w (fold_left (fun acc rp => w (acc + f rp)) l 0) = fold_left (fun acc rp => w (acc + f rp)) l 0.
Proof.
  intros Hw H0. destruct l as [|x l _] using rev_ind; [done|].
  rewrite fold_left_app. simpl. match goal with |- w (w ?a) = _ => specialize (Hw a 0) end. by rewrite !Z.add_0_r in Hw.
Qed.

Lemma sum_u64_spec f l : sum_u64 f l = wrapu64 (foldr Z.add 0 (f <$> l)).
Proof.
  unfold sum_u64. rewrite <- (fold_wrap_idem wrapu64) by (apply wrapu64_add_l || done).
  rewrite fold_wrap_add by apply wrapu64_add_l. done.
Qed.

Lemma sum_i64_spec f l : sum_i64 f l = wrap64 (foldr Z.add 0 (f <$> l)).
Proof.
  unfold sum_i64. rewrite <- (fold_wrap_idem wrap64) by (apply wrap64_add_l || done).
  rewrite fold_wrap_add by apply wrap64_add_l. done.
Qed.

(** * Properties *)

(** C4. The registry implements the insertion-ordered dictionary: after any
    history of detections, reports, finished streams, uptime notes, sweeps
    and drains its active streams, in their order and with their reports,
    are those of the specification, and so are the finals it has handed out;
    its structural invariant holds throughout. *)
Theorem registry_refines_dict evs agent name :
  let '(r, finals) := run evs (NewActiveStreamRegistry agent name) in
  wf r /\ (abs r, finals) = dict_run evs [].
Proof.
  pose proof (run_refines evs _ (wf_new agent name)) as H.
  destruct (run evs _) as [r finals]. destruct H as [Hwf H]. split; [done|].
  rewrite H. unfold abs, orderedEntries. simpl. by rewrite map_to_list_empty.
Qed.

(** An eviction loses nothing: a sweep or a drain of a reachable registry
    yields exactly one final per evicted stream that has reports, in the
    order of the streams, with the packet and DTX counters summed over its
    reports in 64 bits, and counts every evicted stream as finished; the
    streams that stay are exactly those that were not stale. *)
Theorem sweep_conserves evs agent name idleMs now :
  let '(r, _) := run evs (NewActiveStreamRegistry agent name) in
  let '(r', finals) := SweepGhostsAt idleMs now r in
  let evicted := List.filter (stale idleMs now) (orderedEntries (streams r)) in
  orderedEntries (streams r') = List.filter (fun e => negb (stale idleMs now e)) (orderedEntries (streams r)) /\
  finished r' = finished r + Z.of_nat (length evicted) /\
  (StreamID <$> finals) = streamID <$> List.filter (fun e => negb (bool_decide (reports e = []))) evicted /\
  forall f e, e ∈ evicted -> synthesizeFinal e = Some f ->
    RTPPacketCounter f = wrapu64 (foldr Z.add 0 (RTPPacketCounter <$> reports e)) /\
    LostPacketCounter f = wrapu64 (foldr Z.add 0 (LostPacketCounter <$> reports e)) /\
    DtxTotal f = wrapu64 (foldr Z.add 0 (DtxTotal <$> reports e)) /\
    DurationAudio f = wrap64 (foldr Z.add 0 (DurationAudio <$> reports e)) /\
    FullReport f = true.
Proof.
  pose proof (run_refines evs _ (wf_new agent name)) as H.
  destruct (run evs _) as [r finals0]. destruct H as [Hwf _].
  pose proof (evict_filter (stale idleMs now) r Hwf) as He. unfold SweepGhostsAt.
  destruct (evictLocked _ r) as [r' finals]. destruct He as (_ & Hord & -> & Hfin & _).
  split_and!; try done.
  - generalize (List.filter (stale idleMs now) (orderedEntries (streams r))). intros l.
    induction l as [|e l IH]; [done|]. rewrite omap_unfold, fmap_app, IH. cbn [List.filter].
    unfold synthesizeFinal at 1. destruct (reports e) as [|x rps] eqn:E; simpl.
    + done.
    + destruct (last (x :: rps)) eqn:El; [|by apply last_None in El]. done.
  - intros f e _. unfold synthesizeFinal.
    destruct (head (reports e)); [|done]. destruct (last (reports e)); [|done].
    intros [= <-]. simpl. by rewrite !sum_u64_spec, sum_i64_spec.
Qed.

(** The types of the in-memory filter fields. *)
Definition stream_fields (x : string) : option ety :=
  if existsb (String.eqb x)
       ["start_time"; "sevana_mos"; "network_mos"; "sevana_rfactor"; "jitter"; "rtt_delay";
        "silence_ratio"; "duration"; "duration_audio"; "src_port"; "dst_port"]
  then Some TNum
  else if existsb (String.eqb x)
       ["src_ip"; "dst_ip"; "ssrc"; "sip_src"; "sip_dst"; "sip_callid"; "instance_id"; "instance_name"]
  then Some TText
  else None.

Lemma existsb_eqb_elem x l : existsb (String.eqb x) l = true <-> x ∈ l.
Proof.
  rewrite existsb_exists, list_elem_of_In. setoid_rewrite String.eqb_eq. naive_solver.
Qed.

Definition any_type (v : any) : option ety :=
  match v with
  | AInt64 _ | AFloat _ | ABool _ => Some TNum
  | AString _ => Some TText
  | _ => None
  end.

Lemma mlookup_fmap {V W} (f : V -> W) k (m : list (string * V)) :
  mlookup k ((fun '(x, v) => (x, f v)) <$> m) = f <$> mlookup k m.
Proof.
  unfold mlookup. induction m as [|[k' v] m IH]; simpl; [done|]. by destruct (String.eqb k k').
Qed.

Lemma provides_literal (l : list (string * any)) tys G :
  (fun '(x, v) => (x, any_type v)) <$> l = tys ->
  (forall x t, G x = Some t -> mlookup x tys = Some (Some t)) ->
  provides (list_to_map l) G.
Proof.
  intros <- HG x t Hx. specialize (HG x t Hx). rewrite mlookup_fmap in HG.
  rewrite list_to_map_mlookup. destruct (mlookup x l) as [v|]; [|done].
  exists v. split; [done|]. simpl in HG. by destruct v; simplify_eq/=.
Qed.

Lemma lookup_literal_None (l : list (string * any)) tys x :
  (fun '(x, v) => (x, any_type v)) <$> l = tys -> mlookup x tys = None ->
  (list_to_map l : vmap) !! x = None.
Proof.
  intros <-. rewrite mlookup_fmap, list_to_map_mlookup. by destruct (mlookup x l).
Qed.

(** The types of the values of a record, key by key. *)
Definition record_types : list (string * option ety) :=
  let n k := (k, Some TNum) in
  let t k := (k, Some TText) in
  [n "start_time"; n "sevana_mos"; n "network_mos"; n "sevana_rfactor"; n "jitter"; n "rtt_delay";
   n "silence_ratio"; n "duration"; t "src_ip"; t "dst_ip"; n "src_port"; n "dst_port"; t "ssrc";
   t "sip_src"; t "sip_dst"; t "sip_callid"; t "instance_id"; t "instance_name"; t "link_id";
   n "duration_audio"; n "start_ms"; n "rtp_packet_counter"; n "lost_packet_counter"; n "dtx_sid";
   n "dtx_count"; n "dtx_total"; ("detector_reports", None)].

Lemma stream_fields_types x t : stream_fields x = Some t -> mlookup x record_types = Some (Some t).
Proof.
  unfold stream_fields. destruct (existsb _ _) eqn:E.
  - intros [= <-]. apply existsb_eqb_elem in E. revert x E. apply Forall_forall.
    repeat (apply Forall_cons_2; [reflexivity|]). apply Forall_nil_2.
  - clear E. destruct (existsb _ _) eqn:E; [|done].
    intros [= <-]. apply existsb_eqb_elem in E. revert x E. apply Forall_forall.
    repeat (apply Forall_cons_2; [reflexivity|]). apply Forall_nil_2.
Qed.

Lemma recordLocked_provides r e rec : recordLocked r e = Some rec -> provides rec stream_fields.
Proof.
  unfold recordLocked. destruct (head (reports e)) as [first|]; [|done].
  destruct (last (reports e)) as [lst|]; [|done]. intros He%(inj Some). subst rec.
  apply provides_literal with record_types; [reflexivity|]. apply stream_fields_types.
Qed.

Section filters.
Context `{UnicodeTables}.

(** A filter over the streams' fields that is well typed decides every
    active stream that the snapshot lists: no such stream is excluded by an
    error of the evaluator. *)
Theorem snapshot_filters_decide r text n t rec :
  Parse text = Ok n -> type_of stream_fields n = Some t -> rec ∈ SnapshotRecords r ->
  exists v b, Evaluate n rec = Ok v /\ asBool v = Ok b /\ EvaluateStream text rec = b.
Proof.
  intros HP Ht Hrec. apply list_elem_of_omap in Hrec as (e & _ & He).
  case_match; [done|]. apply recordLocked_provides in He.
  destruct (type_sound _ _ _ _ He Ht) as (v & Hv & Hok).
  destruct (asBool_ok _ _ Hok) as [b Hb]. exists v, b. split_and!; try done.
  unfold EvaluateStream, EvaluateStreamNode. by rewrite HP, Hv, Hb.
Qed.

(** The SQL name map offers the fields sip_source and sip_destination,
    but the in-memory records have neither, so a filter that compares one of
    them finds finished streams and excludes every active one. *)
Theorem sip_source_excludes_active r op s rec field :
  field ∈ ["sip_source"; "sip_destination"] -> rec ∈ SnapshotRecords r ->
  is_ok (BuildWhereNode (BinOp op (Var field) (Str s)) "qmark") = true /\
  EvaluateStreamNode (BinOp op (Var field) (Str s)) rec = false.
Proof.
  intros Hf Hrec.
  assert (mlookup field record_types = None /\ is_Some (mlookup field SQLNameMap)) as [Hnot Hmap].
  { rewrite !elem_of_cons, elem_of_nil in Hf. destruct Hf as [->|[->|[]]]; split; first [reflexivity | eexists; reflexivity]. }
  apply list_elem_of_omap in Hrec as (e & _ & He).
  case_match; [done|]. unfold recordLocked in He.
  destruct (head (reports e)) as [first|]; [|done]. destruct (last (reports e)) as [lst|]; [|done].
  assert (rec !! field = None) as Hnone.
  { apply (inj Some) in He. subst rec. apply lookup_literal_None with record_types; [reflexivity|exact Hnot]. }
  split.
  - unfold BuildWhereNode. rewrite ToSQL_ok. cbn [vars literals forallb app].
    by rewrite bool_decide_true.
  - unfold EvaluateStreamNode. cbn [Evaluate]. rewrite Hnone. by repeat case_match.
Qed.
End filters.

(** * The properties at concrete inputs *)

#[local] Existing Instance ascii_tables.

Definition sample_registry : registry :=
  (run [Detected 1000 (sample_id 7 "a"); Reported 2000 (sample_report (sample_id 7 "a") 1000 2000 50)]
     (NewActiveStreamRegistry "agent" "name")).1.

Definition sample_record : vmap := default ∅ (head (SnapshotRecords sample_registry)).

Lemma snapshot_filters_decide_witness :
  exists v b,
    Evaluate (BinOp ">" (Var "jitter") (Number (NInt 10))) sample_record = Ok v /\ asBool v = Ok b /\
    EvaluateStream "jitter > 10" sample_record = b.
Proof.
  apply (snapshot_filters_decide sample_registry "jitter > 10" _ TNum).
  - vm_compute. reflexivity.
  - vm_compute. reflexivity.
  - apply default_head_in. vm_compute. reflexivity.
Defined.

Lemma sip_source_excludes_active_witness :
  is_ok (BuildWhereNode (BinOp "==" (Var "sip_source") (Str "sip:a")) "qmark") = true /\
  EvaluateStreamNode (BinOp "==" (Var "sip_source") (Str "sip:a")) sample_record = false.
Proof.
  apply (sip_source_excludes_active sample_registry "==" "sip:a" sample_record "sip_source").
  - apply elem_of_cons. left. reflexivity.
  - apply default_head_in. vm_compute. reflexivity.
Defined.
