(* ===== verification/Json.v ===== *)
(** [json.Marshal] of Go's [encoding/json], for the values the program
    marshals: strings, numbers, booleans, null, arrays and objects with their
    members in order. *)

From S2P Require Import Prelude GoFloat GoStrings.

Inductive json :=
| JNull
| JBool (b : bool)
| JInt (z : Z)
| JFloat (f : float64)
| JString (s : string)
| JArray (l : list json)
| JObject (l : list (string * json)).

Definition quote1 : string := String dquote "".

(** "\u" and four hexadecimal digits. *)
Definition unicode_escape (r : Z) : string :=
  "\u" +:+ pad_left 4 (format_uint 16 r).

(** A rune of a string, escaped: HTML-sensitive characters too, as [Marshal]
    does by default; an invalid byte becomes the replacement character. *)
Definition json_rune (r : Z) (w : nat) : string :=
  if (r =? 34) || (r =? 92) then "\" +:+ bytes [r]
  else if r =? 8 then "\b"
  else if r =? 12 then "\f"
  else if r =? 10 then "\n"
  else if r =? 13 then "\r"
  else if r =? 9 then "\t"
  else if (r <? 32) || (r =? 60) || (r =? 62) || (r =? 38) then unicode_escape r
  else if (r =? 8232) || (r =? 8233) then unicode_escape r
  else if (r =? rune_error) && (w =? 1)%nat then "\ufffd"
  else encode_rune r.

Definition json_quote (s : string) : string :=
  quote1 +:+ join "" ((fun '(r, w) => json_rune r w) <$> runes s) +:+ quote1.

(** A float: positional, or with an exponent when it is below 1e-6 or at least
    1e21, the exponent then without a leading zero.  NaN and infinities are
    errors of [Marshal]. *)
Definition json_float (f : float64) : option string :=
  match f with
  | S754_nan | S754_infinity _ => None
  | S754_zero _ => Some (format_float_f f)
  | S754_finite s m e =>
      let a := S754_finite false m e in
      if flt a (f_decimal false 1 (-6)) || fge a (f_decimal false 1 21) then
        let t := format_float_e f in
        let n := String.length t in
        if (4 <=? n)%nat && String.eqb (str_take 3 (str_drop (n - 4) t)) "e-0"
        then Some (str_take (n - 2) t +:+ str_drop (n - 1) t)
        else Some t
      else Some (format_float_f f)
  end.

(** [json.Marshal]; [None] is its error. *)
Fixpoint marshal (j : json) : option string :=
  match j with
  | JNull => Some "null"
  | JBool b => Some (if b then "true" else "false")
  | JInt z => Some (itoa z)
  | JFloat f => json_float f
  | JString s => Some (json_quote s)
  | JArray l =>
      parts ← (fix go (l : list json) : option (list string) :=
                 match l with
                 | [] => Some []
                 | x :: l => t ← marshal x; ts ← go l; Some (t :: ts)
                 end) l;
      Some ("[" +:+ join "," parts +:+ "]")
  | JObject l =>
      parts ← (fix go (l : list (string * json)) : option (list string) :=
                 match l with
                 | [] => Some []
                 | (k, x) :: l => t ← marshal x; ts ← go l; Some ((json_quote k +:+ ":" +:+ t) :: ts)
                 end) l;
      Some ("{" +:+ join "," parts +:+ "}")
  end.
