(* ===== verification/JsonParse.v ===== *)
(** [json.Unmarshal] of Go's [encoding/json], up to the tree of values: the
    scanner's grammar, the unquoting of strings and the nesting limit.  The
    callers assign the tree to their types.

    The round trip: what [Marshal] writes reads back as the same tree, with
    invalid UTF-8 in strings replaced. *)

From S2P Require Import Prelude GoFloat GoStrings Utf8 Json.

(** A number keeps its literal text. *)
Inductive jval :=
| VNull
| VBool (b : bool)
| VNum (lit : string)
| VStr (s : string)
| VArr (l : list jval)
| VObj (l : list (string * jval)).

(** * The grammar *)

Definition json_space (c : ascii) : bool :=
  (code c =? 32) || (code c =? 9) || (code c =? 13) || (code c =? 10).

Fixpoint skip_ws (s : string) : string :=
  match s with
  | String c t => if json_space c then skip_ws t else s
  | EmptyString => s
  end.

(** ** Strings *)

(** [getu4]: [\u] and four hexadecimal digits. *)
Definition getu4 (s : string) : option (Z * string) :=
  match s with
  | String x (String u (String a (String b (String c (String d t))))) =>
      if (code x =? 92) && (code u =? 117) then
        va ← digit_val a; vb ← digit_val b; vc ← digit_val c; vd ← digit_val d;
        if (va <? 16) && (vb <? 16) && (vc <? 16) && (vd <? 16)
        then Some (((va * 16 + vb) * 16 + vc) * 16 + vd, t) else None
      else None
  | _ => None
  end.

Definition is_surrogate (r : Z) : bool := (55296 <=? r) && (r <? 57344).

(** [utf16.DecodeRune]. *)
Definition utf16_decode (r1 r2 : Z) : Z :=
  if (55296 <=? r1) && (r1 <? 56320) && (56320 <=? r2) && (r2 <? 57344)
  then (r1 - 55296) * 1024 + (r2 - 56320) + 65536 else rune_error.

(** One escape sequence, at its backslash. *)
Definition unescape (s : string) : option (string * string) :=
  match s with
  | String _ (String c t) =>
      let z := code c in
      if (z =? 34) || (z =? 92) || (z =? 47) then Some (bytes [z], t)
      else if z =? 98 then Some (bytes [8], t)
      else if z =? 102 then Some (bytes [12], t)
      else if z =? 110 then Some (bytes [10], t)
      else if z =? 114 then Some (bytes [13], t)
      else if z =? 116 then Some (bytes [9], t)
      else if z =? 117 then
        '(r, t) ← getu4 s;
        if is_surrogate r then
          match getu4 t with
          | Some (r2, t2) =>
              let dec := utf16_decode r r2 in
              if dec =? rune_error then Some (encode_rune rune_error, t) else Some (encode_rune dec, t2)
          | None => Some (encode_rune rune_error, t)
          end
        else Some (encode_rune r, t)
      else None
  | _ => None
  end.

(** The rest of a string after its opening quote. *)
Fixpoint parse_string (fuel : nat) (s : string) : option (string * string) :=
  match fuel, s with
  | S fuel, String c t =>
      if code c =? 34 then Some ("", t)
      else if code c =? 92 then
        '(x, t) ← unescape s; '(y, t) ← parse_string fuel t; Some (x +:+ y, t)
      else if code c <? 32 then None
      else
        let '(r, w) := decode_rune s in
        '(y, t) ← parse_string fuel (str_drop w s); Some (encode_rune r +:+ y, t)
  | _, _ => None
  end.

(** ** Numbers *)

Definition parse_exponent (s : string) : option (string * string) :=
  match s with
  | String e t =>
      if (code e =? 101) || (code e =? 69) then
        let '(sign, t) := match t with
                          | String c u => if (code c =? 43) || (code c =? 45) then (String c "", u) else ("", t)
                          | _ => ("", t)
                          end in
        let '(ds, t) := span decimal_digit t in
        if String.eqb ds "" then None else Some (String e sign +:+ ds, t)
      else Some ("", s)
  | _ => Some ("", s)
  end.

Definition parse_fraction (s : string) : option (string * string) :=
  match s with
  | String c t =>
      if code c =? 46 then
        let '(ds, t) := span decimal_digit t in
        if String.eqb ds "" then None else Some (String c ds, t)
      else Some ("", s)
  | _ => Some ("", s)
  end.

Definition parse_number (s : string) : option (string * string) :=
  let '(sign, s) := match s with
                    | String c t => if code c =? 45 then (String c "", t) else ("", s)
                    | _ => ("", s)
                    end in
  '(int, s) ← match s with
              | String c t =>
                  if code c =? 48 then Some (String c "", t)
                  else if decimal_digit c then Some (span decimal_digit s)
                  else None
              | _ => None
              end;
  '(frac, s) ← parse_fraction s;
  '(exp, s) ← parse_exponent s;
  Some (sign +:+ int +:+ frac +:+ exp, s).

(** ** Values *)

(** [maxNestingDepth]. *)
Definition max_depth : nat := 10000.

Definition literal (word : string) (v : jval) (s : string) : option (jval * string) :=
  if has_prefix word s then Some (v, str_drop (String.length word) s) else None.

(** One unit of fuel per value, element or member. *)
Fixpoint parse_value (fuel depth : nat) (s : string) : option (jval * string) :=
  match fuel, s with
  | S fuel, String c t =>
      let z := code c in
      if z =? 34 then '(x, t) ← parse_string (String.length t) t; Some (VStr x, t)
      else if z =? 91 then
        match depth with
        | O => None
        | S depth =>
            match skip_ws t with
            | String b u => if code b =? 93 then Some (VArr [], u)
                            else '(l, t) ← parse_elems fuel depth (String b u); Some (VArr l, t)
            | _ => None
            end
        end
      else if z =? 123 then
        match depth with
        | O => None
        | S depth =>
            match skip_ws t with
            | String b u => if code b =? 125 then Some (VObj [], u)
                            else '(l, t) ← parse_members fuel depth (String b u); Some (VObj l, t)
            | _ => None
            end
        end
      else if z =? 116 then literal "true" (VBool true) s
      else if z =? 102 then literal "false" (VBool false) s
      else if z =? 110 then literal "null" VNull s
      else '(x, t) ← parse_number s; Some (VNum x, t)
  | _, _ => None
  end
with parse_elems (fuel depth : nat) (s : string) : option (list jval * string) :=
  match fuel with
  | S fuel =>
      '(v, t) ← parse_value fuel depth s;
      match skip_ws t with
      | String c u =>
          if code c =? 44 then '(l, t) ← parse_elems fuel depth (skip_ws u); Some (v :: l, t)
          else if code c =? 93 then Some ([v], u)
          else None
      | _ => None
      end
  | O => None
  end
with parse_members (fuel depth : nat) (s : string) : option (list (string * jval) * string) :=
  match fuel, s with
  | S fuel, String q t =>
      if code q =? 34 then
        '(k, t) ← parse_string (String.length t) t;
        match skip_ws t with
        | String c u =>
            if code c =? 58 then
              '(v, t) ← parse_value fuel depth (skip_ws u);
              match skip_ws t with
              | String c u =>
                  if code c =? 44 then '(l, t) ← parse_members fuel depth (skip_ws u); Some ((k, v) :: l, t)
                  else if code c =? 125 then Some ([(k, v)], u)
                  else None
              | _ => None
              end
            else None
        | _ => None
        end
      else None
  | _, _ => None
  end.

(** The whole text is one value. *)
Definition unmarshal (s : string) : option jval :=
  '(v, t) ← parse_value (2 * String.length s) max_depth (skip_ws s);
  if String.eqb (skip_ws t) "" then Some v else None.

(** * Reading back what [Marshal] writes *)

(** ** Strings *)

(** The control and special characters [Marshal] escapes by number. *)
Definition escaped_by_number : list Z := seqZ 0 32 ++ [38; 60; 62; 8232; 8233].

Lemma getu4_escape r X : r ∈ escaped_by_number -> getu4 (unicode_escape r +:+ X) = Some (r, X).
Proof.
  intros Hr. enough (Forall (fun r => getu4 (unicode_escape r +:+ X) = Some (r, X)) escaped_by_number) as H.
  { by apply (proj1 (Forall_forall _ _) H). }
  clear. repeat (apply Forall_cons; split; [vm_compute; reflexivity|]). constructor.
Qed.

(** One character of a string: what is left to show of [parse_string]. *)
Definition reads (t x : string) : Prop := forall fuel X,
  parse_string (S fuel) (t +:+ X) = '(y, u) ← parse_string fuel X; Some (x +:+ y, u).

Lemma reads_escape t x c u : t = String c u -> code c = 92 ->
  (forall X, unescape (t +:+ X) = Some (x, X)) -> reads t x.
Proof.
  intros -> Hc H fuel X. cbn [String.append parse_string].
  replace (code c =? 34) with false by lia. replace (code c =? 92) with true by lia.
  specialize (H X). cbn [String.append] in H. by rewrite H.
Qed.

Lemma reads_plain r : scalar r = true -> 32 <= r -> r <> 34 -> r <> 92 -> reads (encode_rune r) (encode_rune r).
Proof.
  intros Hr Hlo H34 H92 fuel X. pose proof (decode_encode r X Hr) as Hd.
  assert (exists c t, encode_rune r = String c t /\ 32 <= code c /\ code c <> 34 /\ code c <> 92) as (c & t & E & ? & ? & ?).
  { rewrite encode_rune_bytes by done. unfold utf8_bytes. unfold scalar in Hr.
    repeat case_match; eexists _, _; (split; [reflexivity|]); rewrite !code_chr by zdiv; zdiv. }
  rewrite E in *. cbn [String.append parse_string] in *.
  replace (code c =? 34) with false by lia. replace (code c =? 92) with false by lia.
  replace (code c <? 32) with false by lia. rewrite Hd.
  change (String c (t +:+ X)) with (String c t +:+ X). by rewrite str_drop_app, E.
Qed.

Lemma reads_rune a s r w : decode_rune (String a s) = (r, w) -> reads (json_rune r w) (encode_rune r).
Proof.
  intros Hd. pose proof (encode_decode a s) as He. rewrite Hd in He.
  assert (0 <= r) as Hr0 by (unfold scalar, rune_error in He; lia).
  unfold json_rune.
  destruct ((r =? 34) || (r =? 92)) eqn:E1.
  { assert (r = 34 \/ r = 92) as [->| ->] by lia; (eapply reads_escape; [reflexivity|done|]); done. }
  repeat (match goal with |- reads (if r =? ?k then _ else _) _ => destruct (Z.eqb_spec r k) as [->|] end;
    [by (eapply reads_escape; [reflexivity|done|])|]).
  assert (r ∈ escaped_by_number -> reads (unicode_escape r) (encode_rune r)) as Hu.
  { intros Hin. eapply reads_escape; [reflexivity|done|]. intros X.
    unfold unescape. cbn [unicode_escape String.append]. pose proof (getu4_escape r X Hin) as Hg.
    unfold unicode_escape in Hg. cbn [String.append] in Hg.
    cbn [code N_of_ascii]. cbn. cbn in Hg. rewrite Hg. cbn.
    replace (is_surrogate r) with false; [done|]. unfold is_surrogate.
    unfold escaped_by_number in Hin. rewrite elem_of_app, elem_of_seqZ, !elem_of_cons, elem_of_nil in Hin. lia. }
  destruct ((r <? 32) || (r =? 60) || (r =? 62) || (r =? 38)) eqn:E2.
  { apply Hu. unfold escaped_by_number. rewrite elem_of_app, elem_of_seqZ, !elem_of_cons. lia. }
  destruct ((r =? 8232) || (r =? 8233)) eqn:E3.
  { apply Hu. unfold escaped_by_number. rewrite elem_of_app, elem_of_seqZ, !elem_of_cons. lia. }
  destruct ((r =? rune_error) && (w =? 1)%nat) eqn:E4.
  { apply andb_true_iff in E4 as [->%Z.eqb_eq _]. by (eapply reads_escape; [reflexivity|done|]). }
  destruct He as [[-> ->]|(Hs & _)]; [done|]. apply reads_plain; [done|lia..].
Qed.

Lemma json_rune_length a s r w : decode_rune (String a s) = (r, w) -> (1 <= String.length (json_rune r w))%nat.
Proof.
  intros Hd. pose proof (reads_rune a s r w Hd 0%nat quote1) as H. destruct (json_rune r w); [done|cbn; lia].
Qed.

(** The body of a quoted string. *)
Definition json_body (s : string) : string := join "" ((fun '(r, w) => json_rune r w) <$> runes s).

Lemma parse_string_body s : forall fuel X, (String.length (json_body s) < fuel)%nat ->
  parse_string fuel (json_body s +:+ quote1 +:+ X) = Some (sanitize s, X).
Proof.
  unfold json_body, sanitize. induction s as [|a s r w E IH] using runes_ind; intros fuel X Hf.
  { destruct fuel; [lia|]. done. }
  rewrite (runes_cons _ _ _ _ E), !fmap_cons, !join_empty_cons in *. cbn [fst] in *.
  rewrite str_app_length in Hf. pose proof (json_rune_length _ _ _ _ E) as Hl.
  destruct fuel as [|fuel]; [lia|]. rewrite str_app_assoc, (reads_rune _ _ _ _ E), IH by lia. done.
Qed.

Lemma json_quote_body s X : json_quote s +:+ X = String dquote (json_body s +:+ quote1 +:+ X).
Proof. unfold json_quote, quote1. cbn. by rewrite str_app_assoc. Qed.

Lemma parse_quoted s X :
  parse_string (String.length (json_body s +:+ quote1 +:+ X)) (json_body s +:+ quote1 +:+ X) = Some (sanitize s, X).
Proof. apply parse_string_body. rewrite !str_app_length. cbn. lia. Qed.

(** ** Numbers *)

(** What may follow a value. *)
Definition ends_value (X : string) : Prop :=
  match X with EmptyString => True | String c _ => c = ","%char \/ c = "]"%char \/ c = "}"%char end.

Lemma digits_fuel_leading fuel n acc : 0 < n < 10 ^ Z.of_nat fuel ->
  exists d t, 0 < d < 10 /\ digits_fuel 10 fuel n acc = String (digit_char d) t.
Proof.
  revert n acc. induction fuel as [|fuel IH]; intros n acc Hn; [cbn in Hn; lia|]. cbn [digits_fuel].
  destruct (Z.ltb_spec n 10); [exists (n `mod` 10), acc; split; [zdiv|done]|].
  apply IH. rewrite Nat2Z.inj_succ, Z.pow_succ_r in Hn by lia. zdiv.
Qed.

Lemma digit_char_nonzero d : 0 < d < 10 -> code (digit_char d) <> 48 /\ code (digit_char d) <> 45.
Proof. intros Hd. unfold digit_char. destruct (Z.ltb_spec d 10); [|lia]. rewrite code_chr by lia. lia. Qed.

(** A natural number is an integer part, read as it is. *)
Lemma parse_integer n X : 0 <= n -> ends_value X ->
  match format_uint 10 n +:+ X with
  | String c t =>
      if code c =? 48 then Some (String c "", t)
      else if decimal_digit c then Some (span decimal_digit (format_uint 10 n +:+ X))
      else None
  | _ => None
  end = Some (format_uint 10 n, X).
Proof.
  intros Hn HX. destruct (decide (n = 0)) as [->|Hz]; [done|].
  assert (span decimal_digit (format_uint 10 n +:+ X) = (format_uint 10 n, X)) as ->.
  { apply span_all; [by apply format_uint_digits|]. destruct X as [|c X]; [done|].
    by destruct HX as [->|[->| ->]]. }
  unfold format_uint. destruct (digits_fuel_leading (S (Z.to_nat (Z.log2 n))) n "") as (d & t & Hd & ->).
  { split; [lia|]. by apply format_uint_fuel. }
  cbn [String.append]. destruct (digit_char_nonzero d Hd) as [? _].
  replace (code (digit_char d) =? 48) with false by lia. by rewrite digit_char_decimal by lia.
Qed.

Lemma parse_tail X : ends_value X -> parse_fraction X = Some ("", X) /\ parse_exponent X = Some ("", X).
Proof. destruct X as [|c X]; [done|]. by intros [->|[->| ->]]. Qed.

Lemma format_uint_head n X c t : 0 <= n -> format_uint 10 n +:+ X = String c t -> decimal_digit c = true.
Proof.
  intros Hn E. pose proof (format_uint_digits n Hn) as Hd.
  destruct (format_uint_cons 10 n) as (c' & s & Es). rewrite Es in *. cbn in *. injection E as -> _.
  by apply andb_true_iff in Hd as [? _].
Qed.

Lemma parse_number_itoa z X : ends_value X -> parse_number (itoa z +:+ X) = Some (itoa z, X).
Proof.
  intros HX. destruct (parse_tail X HX) as [Hf He]. unfold parse_number, itoa, format_int.
  destruct (Z.ltb_spec z 0).
  - cbn [String.append]. change (code "-" =? 45) with true. cbn iota beta.
    rewrite parse_integer by (lia || done). cbn [mbind option_bind]. rewrite Hf. cbn [mbind option_bind]. rewrite He. cbn.
    by rewrite str_app_nil_r.
  - assert (match format_uint 10 z +:+ X with
            | String c t => if code c =? 45 then (String c "", t) else ("", format_uint 10 z +:+ X)
            | _ => ("", format_uint 10 z +:+ X)
            end = ("", format_uint 10 z +:+ X)) as ->.
    { destruct (format_uint 10 z +:+ X) as [|c t] eqn:E; [done|]. apply format_uint_head in E; [|done].
      unfold decimal_digit, in_range in E. by replace (code c =? 45) with false by lia. }
    rewrite parse_integer by (lia || done). cbn [mbind option_bind]. rewrite Hf. cbn [mbind option_bind]. rewrite He. cbn.
    by rewrite str_app_nil_r.
Qed.

(** ** Trees *)

Fixpoint to_val (j : json) : jval :=
  match j with
  | JNull => VNull
  | JBool b => VBool b
  | JInt z => VNum (itoa z)
  | JFloat f => VNum (default "" (json_float f))
  | JString s => VStr (sanitize s)
  | JArray l => VArr (to_val <$> l)
  | JObject l => VObj ((fun '(k, v) => (sanitize k, to_val v)) <$> l)
  end.

(** Nesting of arrays and objects. *)
Fixpoint nesting (j : json) : nat :=
  match j with
  | JArray l => S (foldr Nat.max 0%nat (nesting <$> l))
  | JObject l => S (foldr Nat.max 0%nat ((fun '(_, v) => nesting v) <$> l))
  | _ => 0%nat
  end.

Fixpoint floatless (j : json) : bool :=
  match j with
  | JFloat _ => false
  | JArray l => forallb floatless l
  | JObject l => forallb (fun '(_, v) => floatless v) l
  | _ => true
  end.

Section json_ind.
Context (P : json -> Prop) (Hnull : P JNull) (Hbool : forall b, P (JBool b)) (Hint : forall z, P (JInt z))
  (Hfloat : forall f, P (JFloat f)) (Hstr : forall s, P (JString s))
  (Harr : forall l, Forall P l -> P (JArray l)) (Hobj : forall l, Forall (fun kv => P kv.2) l -> P (JObject l)).

Fixpoint json_nested_ind (j : json) : P j :=
  match j with
  | JNull => Hnull | JBool b => Hbool b | JInt z => Hint z | JFloat f => Hfloat f | JString s => Hstr s
  | JArray l => Harr l ((fix go l := match l return Forall P l with
                                     | [] => Forall_nil_2 _
                                     | x :: l => Forall_cons_2 _ _ _ (json_nested_ind x) (go l)
                                     end) l)
  | JObject l => Hobj l ((fix go (l : list (string * json)) := match l return Forall (fun kv => P kv.2) l with
                          | [] => Forall_nil_2 _
                          | kv :: l => Forall_cons_2 (fun kv => P kv.2) kv l (json_nested_ind kv.2) (go l)
                          end) l)
  end.
End json_ind.

#[local] Arguments json_quote : simpl never.
#[local] Arguments String.append : simpl never.

(** The texts of the parts of an array and an object. *)
Definition member_text (kv : string * json) : option string :=
  t ← marshal kv.2; Some (json_quote kv.1 +:+ ":" +:+ t).

Lemma marshal_array l : marshal (JArray l) = parts ← mapM marshal l; Some ("[" +:+ join "," parts +:+ "]").
Proof.
  cbn [marshal]. match goal with |- (?a ≫= _) = _ => assert (a = mapM marshal l) as ->; [|done] end.
  induction l as [|x l IH]; [done|]. cbn. destruct (marshal x); [|done]. cbn. by rewrite IH.
Qed.

Lemma marshal_object l : marshal (JObject l) = parts ← mapM member_text l; Some ("{" +:+ join "," parts +:+ "}").
Proof.
  cbn [marshal]. match goal with |- (?a ≫= _) = _ => assert (a = mapM member_text l) as ->; [|done] end.
  induction l as [|[k x] l IH]; [done|]. cbn. unfold member_text at 1. cbn. destruct (marshal x); [|done]. cbn. by rewrite IH.
Qed.

#[local] Arguments String.append !_ _ / : simpl nomatch.

Lemma marshal_head j t : marshal j = Some t -> floatless j = true ->
  exists c u, t = String c u /\ json_space c = false /\ code c <> 93.
Proof.
  destruct j; try done; intros Hm _.
  - injection Hm as <-. by eexists _, _.
  - injection Hm as <-. by destruct b; eexists _, _.
  - injection Hm as <-. unfold itoa, format_int. destruct (Z.ltb_spec z 0); [by eexists _, _|].
    destruct (format_uint 10 z) as [|c u] eqn:E; [by destruct (format_uint_cons 10 z) as (? & ? & ?); congruence|].
    exists c, u. split; [done|]. pose proof (format_uint_head z "" c u) as Hd. rewrite str_app_nil_r in Hd.
    apply Hd in E; [|done]. unfold decimal_digit, in_range in E. unfold json_space. lia.
  - injection Hm as <-. by eexists _, _.
  - rewrite marshal_array in Hm. destruct (mapM marshal l); [|done]. injection Hm as <-. by eexists _, _.
  - rewrite marshal_object in Hm. destruct (mapM member_text l); [|done]. injection Hm as <-. by eexists _, _.
Qed.

Lemma join_cons sep x l : join sep (x :: l) = match l with [] => x | _ => x +:+ sep +:+ join sep l end.
Proof. by destruct l. Qed.

Definition reads_back (j : json) : Prop := forall t, marshal j = Some t -> floatless j = true ->
  forall fuel depth X, (String.length t <= fuel)%nat -> (nesting j <= depth)%nat -> ends_value X ->
  parse_value fuel depth (t +:+ X) = Some (to_val j, X).

Lemma parse_elems_back l : Forall reads_back l -> forall ts, mapM marshal l = Some ts -> l <> [] ->
  forallb floatless l = true -> forall fuel depth X, (String.length (join "," ts) < fuel)%nat ->
  (foldr Nat.max 0 (nesting <$> l) <= depth)%nat ->
  parse_elems fuel depth (join "," ts +:+ "]" +:+ X) = Some (to_val <$> l, X).
Proof.
  induction 1 as [|j l Hj Hl IH]; intros ts Hts Hne Hfl fuel depth X Hf Hd; [done|].
  rewrite fmap_cons in Hd. cbn [mapM forallb foldr] in *. apply andb_true_iff in Hfl as [Hfj Hfl].
  destruct (marshal j) as [t|] eqn:Et; [|done]. destruct (mapM marshal l) as [ts'|] eqn:Ets; [|done].
  cbn in Hts. injection Hts as <-. rewrite join_cons in *.
  destruct fuel as [|fuel]; [lia|]. cbn [parse_elems]. specialize (Hj _ Et Hfj).
  destruct l as [|j' l].
  { cbn in Ets. injection Ets as <-. rewrite Hj by (lia || (cbn; auto)). done. }
  assert (exists t' ts'', ts' = t' :: ts'' /\ marshal j' = Some t') as (t' & ts'' & -> & Et').
  { cbn in Ets. destruct (marshal j') as [t'|]; [|done]. destruct (mapM marshal l) as [ts''|]; [|done].
    cbn in Ets. injection Ets as <-. eauto. }
  rewrite !str_app_length in Hf. cbn [String.length] in Hf.
  rewrite !str_app_assoc. rewrite Hj by (lia || (cbn; auto)). cbn [mbind option_bind String.append skip_ws].
  cbn in Hfl. apply andb_true_iff in Hfl as [Hfj' Hfl'].
  destruct (marshal_head _ _ Et' Hfj') as (c & u & -> & Hsp & _).
  assert (skip_ws (join "," (String c u :: ts'') +:+ String "]" X) = join "," (String c u :: ts'') +:+ String "]" X) as Hskip.
  { rewrite join_cons. destruct ts''; cbn; by rewrite Hsp. }
  change (json_space ",") with false. cbn iota. change (code "," =? 44) with true. cbn iota.
  rewrite Hskip. change (String "]" X) with ("]" +:+ X).
  rewrite (IH _ eq_refl) by (done || (cbn; by rewrite Hfj', Hfl') || lia). done.
Qed.

Lemma mapM_cons_Some {A B} (f : A -> option B) x l ys : mapM f (x :: l) = Some ys ->
  exists y ys', ys = y :: ys' /\ f x = Some y /\ mapM f l = Some ys'.
Proof.
  intros H. change (mapM f (x :: l)) with (y ← f x; k ← mapM f l; Some (y :: k)) in H.
  destruct (f x) as [y|]; [|done]. destruct (mapM f l) as [ys'|]; [|done]. injection H as <-. eauto.
Qed.

Lemma member_text_Some k j x : member_text (k, j) = Some x ->
  exists t, marshal j = Some t /\ x = json_quote k +:+ ":" +:+ t.
Proof. unfold member_text. cbn [fst snd]. destruct (marshal j) as [t|]; [|done]. intros [= <-]. eauto. Qed.

Lemma parse_members_back l : Forall (fun kv => reads_back kv.2) l -> forall ts, mapM member_text l = Some ts -> l <> [] ->
  forallb (fun '(_, v) => floatless v) l = true -> forall fuel depth X, (String.length (join "," ts) < fuel)%nat ->
  (foldr Nat.max 0 ((fun '(_, v) => nesting v) <$> l) <= depth)%nat ->
  parse_members fuel depth (join "," ts +:+ "}" +:+ X) =
    Some ((fun '(k, v) => (sanitize k, to_val v)) <$> l, X).
Proof.
  induction 1 as [|[k j] l Hj Hl IH]; intros ts Hts Hne Hfl fuel depth X Hf Hd; [done|].
  rewrite fmap_cons in Hd. cbn [mapM forallb foldr snd] in *. apply andb_true_iff in Hfl as [Hfj Hfl].
  destruct (mapM_cons_Some _ _ _ _ Hts) as (x & ts' & -> & Hx & Ets). clear Hts.
  destruct (member_text_Some _ _ _ Hx) as (t & Et & ->). rewrite join_cons in *.
  destruct fuel as [|fuel]; [lia|]. specialize (Hj _ Et Hfj).
  destruct (marshal_head _ _ Et Hfj) as (c & u & -> & Hsp & _).
  assert (forall Y, (String.length (String c u) <= fuel)%nat -> ends_value Y ->
    parse_members (S fuel) depth ((json_quote k +:+ ":" +:+ String c u) +:+ Y) =
    match skip_ws Y with
    | String c u =>
        if code c =? 44 then '(l, t) ← parse_members fuel depth (skip_ws u); Some ((sanitize k, to_val j) :: l, t)
        else if code c =? 125 then Some ([(sanitize k, to_val j)], u)
        else None
    | _ => None
    end) as Hone.
  { intros Y Hlen HY. rewrite str_app_assoc, json_quote_body. cbn [parse_members].
    change (code dquote =? 34) with true. cbn iota. rewrite parse_quoted. cbn [mbind option_bind].
    cbn [String.append skip_ws]. change (json_space ":") with false. cbn iota. change (code ":" =? 58) with true. cbn iota.
    cbn [skip_ws]. rewrite Hsp. change (String c (u +:+ Y)) with (String c u +:+ Y). rewrite Hj by (done || lia). done. }
  assert (String.length (String c u) <= String.length (json_quote k +:+ ":" +:+ String c u))%nat as Hlen
    by (rewrite !str_app_length; cbn; lia).
  destruct l as [|[k' j'] l].
  { injection Ets as <-. rewrite Hone; [done|lia|cbn; auto]. }
  destruct (mapM_cons_Some _ _ _ _ Ets) as (x' & ts'' & -> & Hx' & Ets').
  destruct (member_text_Some _ _ _ Hx') as (t' & Et' & ->).
  rewrite !str_app_length in Hf. cbn [String.length] in Hf. rewrite str_app_length in Hlen.
  specialize (IH _ Ets). set (b := join "," _) in *.
  assert (skip_ws (b +:+ "}" +:+ X) = b +:+ "}" +:+ X) as Hskip.
  { unfold b. rewrite join_cons. destruct ts''; rewrite ?str_app_assoc, json_quote_body; done. }
  rewrite (str_app_assoc _ _ ("}" +:+ X)), Hone; [|cbn in *; lia|cbn; auto]. clearbody b.
  cbn [String.append skip_ws] in *. change (json_space ",") with false. cbn iota.
  change (code "," =? 44) with true. cbn iota. rewrite Hskip.
  cbn in Hfl. apply andb_true_iff in Hfl as [Hfj' Hfl'].
  rewrite IH by (done || (cbn; by rewrite Hfj', Hfl') || lia). done.
Qed.

Lemma parse_value_back j : reads_back j.
Proof.
  induction j as [|b|z|f|s|l IH|l IH] using json_nested_ind; intros t Hm Hfl fuel depth X Hf Hd HX; try done.
  - injection Hm as <-. by destruct fuel as [|fuel]; [cbn in Hf; lia|].
  - injection Hm as <-. by destruct b, fuel as [|fuel]; cbn in Hf; try lia.
  - injection Hm as <-. destruct (marshal_head (JInt z) _ eq_refl Hfl) as (c & u & E & _ & _).
    destruct fuel as [|fuel]; [rewrite E in Hf; cbn in Hf; lia|].
    pose proof (parse_number_itoa z X HX) as Hp. cbn [to_val].
    assert (decimal_digit c = true \/ code c = 45) as Hc.
    { unfold itoa, format_int in E. destruct (Z.ltb_spec z 0); [injection E as <- _; by right|].
      left. apply (format_uint_head z "" c u); [done|]. by rewrite str_app_nil_r. }
    rewrite E in *. cbn [String.append parse_value] in *.
    unfold decimal_digit, in_range in Hc.
    replace (code c =? 34) with false by lia. replace (code c =? 91) with false by lia.
    replace (code c =? 123) with false by lia. replace (code c =? 116) with false by lia.
    replace (code c =? 102) with false by lia. replace (code c =? 110) with false by lia. by rewrite Hp.
  - injection Hm as <-. destruct fuel as [|fuel]; [unfold json_quote, quote1 in Hf; cbn in Hf; lia|].
    rewrite json_quote_body. cbn [parse_value]. change (code dquote =? 34) with true. cbn iota.
    by rewrite parse_quoted.
  - rewrite marshal_array in Hm. destruct (mapM marshal l) as [ts|] eqn:Ets; [|done]. injection Hm as <-.
    cbn [String.append String.length] in Hf. rewrite str_app_length in Hf. cbn [String.length] in Hf.
    destruct fuel as [|fuel]; [lia|]. cbn [nesting] in Hd. destruct depth as [|depth]; [lia|].
    destruct l as [|j l]; [injection Ets as <-; done|].
    pose proof (parse_elems_back _ IH _ Ets ltac:(done) Hfl fuel depth X ltac:(lia) ltac:(lia)) as Hp.
    destruct (mapM_cons_Some _ _ _ _ Ets) as (t & ts' & -> & Et & _). cbn in Hfl. apply andb_true_iff in Hfl as [Hfj _].
    destruct (marshal_head _ _ Et Hfj) as (c & u & -> & Hsp & H93).
    assert (exists u', join "," (String c u :: ts') = String c u') as [u' E] by (rewrite join_cons; destruct ts'; eauto).
    rewrite E in *. cbn [String.append parse_value skip_ws] in *. change (code "[" =? 34) with false.
    change (code "[" =? 91) with true. cbn iota. rewrite str_app_assoc, Hsp.
    replace (code c =? 93) with false by lia. cbn [String.append] in Hp |- *. by rewrite Hp.
  - rewrite marshal_object in Hm. destruct (mapM member_text l) as [ts|] eqn:Ets; [|done]. injection Hm as <-.
    cbn [String.append String.length] in Hf. rewrite str_app_length in Hf. cbn [String.length] in Hf.
    destruct fuel as [|fuel]; [lia|]. cbn [nesting] in Hd. destruct depth as [|depth]; [lia|].
    destruct l as [|[k j] l]; [injection Ets as <-; done|].
    pose proof (parse_members_back _ IH _ Ets ltac:(done) Hfl fuel depth X ltac:(lia) ltac:(lia)) as Hp.
    destruct (mapM_cons_Some _ _ _ _ Ets) as (t & ts' & -> & Et & _).
    destruct (member_text_Some _ _ _ Et) as (t' & _ & ->).
    assert (exists u', join "," ((json_quote k +:+ ":" +:+ t') :: ts') = String dquote u') as [u' E]
      by (rewrite join_cons; destruct ts'; eexists; reflexivity).
    rewrite E in *. cbn [String.append parse_value skip_ws] in *. change (code "{" =? 34) with false.
    change (code "{" =? 91) with false. change (code "{" =? 123) with true. cbn iota. rewrite str_app_assoc.
    change (json_space dquote) with false. cbn iota. change (code dquote =? 125) with false. cbn iota.
    cbn [String.append] in Hp |- *. by rewrite Hp.
Qed.

(** [Unmarshal] inverts [Marshal] on trees without floats, up to the invalid
    UTF-8 of their strings. *)
Lemma unmarshal_marshal j t : marshal j = Some t -> floatless j = true -> (nesting j <= max_depth)%nat ->
  unmarshal t = Some (to_val j).
Proof.
  intros Hm Hfl Hd. unfold unmarshal. destruct (marshal_head _ _ Hm Hfl) as (c & u & E & Hsp & _).
  assert (skip_ws t = t) as -> by (rewrite E; cbn; by rewrite Hsp).
  pose proof (parse_value_back j t Hm Hfl (2 * String.length t)%nat max_depth "") as Hp.
  rewrite str_app_nil_r in Hp. by rewrite Hp by (done || lia).
Qed.
