(* ===== verification/Store.v ===== *)
(** The database as the writer sees it ([internal/db/schema.go],
    [internal/db/busy.go]): the tables of the schema as lists of rows, the
    faults a statement can meet, the retry loop for a locked database, and
    the statements and transactions built on it.

    The engine itself is not modelled: that an accepted statement does what
    its SQL says, that a failed autocommit statement or a rolled back
    transaction changes nothing, and which row id the engine gives (a
    parameter [new_id]) are its documented behaviour.  Two conversions of the
    driver on the way in are not modelled: a float that is NaN is kept as it is
    here and stored as NULL by SQLite, and an unsigned counter of 2^63 or more is
    kept here and refused by the driver. *)

From S2P Require Import Prelude GoFloat GoStrings Values Model.

(** * Tables *)

(** rtpmon_streams. *)
Record stream_row := MkStreamRow {
  s_stream_id : Z; s_link_id : string; s_src_ip : string; s_src_port : Z; s_dst_ip : string;
  s_dst_port : Z; s_ssrc : Z; s_sip_source : option string; s_sip_destination : option string;
  s_sip_callid : option string; s_agent_id : option Z; s_created_ts : option Z
}.

(** rtpmon_intervals and rtpmon_statistics ([reportTableDDL]). *)
Record report_row := MkReportRow {
  r_stream_id : Z; r_start_timestamp : Z; r_end_timestamp : Z; r_rtp : Z; r_illegal : Z; r_lost : Z;
  r_sevana_mos : option float64; r_sevana_rfactor : Z; r_network_mos : option float64;
  r_jitter : float64; r_codec : string; r_detector_report : string; r_rtt_delay : float64;
  r_flags : Z; r_tags : option string; r_amr_nb : Z; r_amr_wb : Z; r_link_id : string;
  r_duration_audio : Z; r_user_report : string; r_dtx_sid : Z; r_dtx_count : Z; r_dtx_total : Z
}.

Record instance_row := MkInstanceRow { i_id : Z; i_agent_id : string; i_agent_name : string }.

(** rtpmon_sip_events: the columns an event does not set are NULL. *)
Record sip_row := MkSipRow { e_id : Z; e_values : list (string * any) }.

(** The column event_timestamp, which every event sets. *)
Definition e_timestamp (r : sip_row) : Z :=
  match mlookup "event_timestamp" (e_values r) with Some (AInt64 z) => z | _ => 0 end.

Record health_row := MkHealthRow {
  h_id : Z; h_call_id : string; h_timestamp : Z; h_stream_count : Z; h_warnings : string
}.

Record alarm_row := MkAlarmRow {
  a_id : Z; a_name : string; a_kind : string; a_counter : string; a_op : string;
  a_value : float64; a_limit : float64; a_samples : Z; a_timestamp : Z
}.

Record audio_row := MkAudioRow {
  u_id : Z; u_stream_id : Z; u_start_timestamp : Z; u_end_timestamp : Z; u_wav : string
}.

Record database := MkDatabase {
  rtpmon_streams : list stream_row;
  rtpmon_intervals : list report_row;
  rtpmon_statistics : list report_row;
  rtpmon_instances : list instance_row;
  rtpmon_property : list (string * option string);
  rtpmon_sip_events : list sip_row;
  rtpmon_call_health : list health_row;
  rtpmon_alarm_events : list alarm_row;
  rtpmon_audio : list audio_row
}.

Definition empty_database : database := MkDatabase [] [] [] [] [] [] [] [] [].

(** Updates of one table. *)
Definition set_streams t d := MkDatabase t (rtpmon_intervals d) (rtpmon_statistics d)
  (rtpmon_instances d) (rtpmon_property d) (rtpmon_sip_events d) (rtpmon_call_health d)
  (rtpmon_alarm_events d) (rtpmon_audio d).
Definition set_intervals t d := MkDatabase (rtpmon_streams d) t (rtpmon_statistics d)
  (rtpmon_instances d) (rtpmon_property d) (rtpmon_sip_events d) (rtpmon_call_health d)
  (rtpmon_alarm_events d) (rtpmon_audio d).
Definition set_statistics t d := MkDatabase (rtpmon_streams d) (rtpmon_intervals d) t
  (rtpmon_instances d) (rtpmon_property d) (rtpmon_sip_events d) (rtpmon_call_health d)
  (rtpmon_alarm_events d) (rtpmon_audio d).
Definition set_instances t d := MkDatabase (rtpmon_streams d) (rtpmon_intervals d)
  (rtpmon_statistics d) t (rtpmon_property d) (rtpmon_sip_events d) (rtpmon_call_health d)
  (rtpmon_alarm_events d) (rtpmon_audio d).
Definition set_property t d := MkDatabase (rtpmon_streams d) (rtpmon_intervals d)
  (rtpmon_statistics d) (rtpmon_instances d) t (rtpmon_sip_events d) (rtpmon_call_health d)
  (rtpmon_alarm_events d) (rtpmon_audio d).
Definition set_sip_events t d := MkDatabase (rtpmon_streams d) (rtpmon_intervals d)
  (rtpmon_statistics d) (rtpmon_instances d) (rtpmon_property d) t (rtpmon_call_health d)
  (rtpmon_alarm_events d) (rtpmon_audio d).
Definition set_call_health t d := MkDatabase (rtpmon_streams d) (rtpmon_intervals d)
  (rtpmon_statistics d) (rtpmon_instances d) (rtpmon_property d) (rtpmon_sip_events d) t
  (rtpmon_alarm_events d) (rtpmon_audio d).
Definition set_alarm_events t d := MkDatabase (rtpmon_streams d) (rtpmon_intervals d)
  (rtpmon_statistics d) (rtpmon_instances d) (rtpmon_property d) (rtpmon_sip_events d)
  (rtpmon_call_health d) t (rtpmon_audio d).
Definition set_audio t d := MkDatabase (rtpmon_streams d) (rtpmon_intervals d)
  (rtpmon_statistics d) (rtpmon_instances d) (rtpmon_property d) (rtpmon_sip_events d)
  (rtpmon_call_health d) (rtpmon_alarm_events d) t.

(** * Errors and faults *)

(** An error of the driver, with SQLite's (extended) result code, or an error
    of another layer. *)
Inductive db_error := SqliteError (code : Z) | OtherError (msg : string).

Definition SQLITE_BUSY : Z := 5.

Definition isBusy (e : db_error) : bool :=
  match e with SqliteError code => Z.land code 255 =? SQLITE_BUSY | OtherError _ => false end.

(** What the engine will answer to the coming calls: success, or an error.
    An exhausted list is success. *)
Abbreviation faults := (list (option db_error)).

(** A connection: the tables and the coming faults.  Computations on it
    return a result and the new connection. *)
Record conn := MkConn { tables : database; coming : faults }.

Definition M (A : Type) : Type := conn -> res db_error A * conn.

Definition ret {A} (a : A) : M A := fun c => (Ok a, c).
Definition fail {A} (e : db_error) : M A := fun c => (Err e, c).
Definition bind {A B} (m : M A) (k : A -> M B) : M B :=
  fun c => match m c with (Ok a, c) => k a c | (Err e, c) => (Err e, c) end.

(** One call of the driver: a fault fails it without a change. *)
Definition call {A} (op : database -> A * database) : M A := fun c =>
  match coming c with
  | Some e :: fs => (Err e, MkConn (tables c) fs)
  | None :: fs => let '(a, d) := op (tables c) in (Ok a, MkConn d fs)
  | [] => let '(a, d) := op (tables c) in (Ok a, MkConn d [])
  end.

(** [busyRetryDelays], in milliseconds. *)
Definition busyRetryDelays : list Z := [250; 1000; 2000; 5000].

(** [retryBusy]: one attempt, and another after each pause while the error is
    a busy one. *)
Fixpoint retryBusy {A} (delays : list Z) (op : M A) : M A := fun c =>
  match op c with
  | (Err e, c') =>
      if negb (isBusy e) then (Err e, c')
      else match delays with
           | [] => (Err e, c')
           | _ :: delays => retryBusy delays op c'
           end
  | r => r
  end.

(** [Writer.exec] and a plain query. *)
Definition exec {A} (stmt : database -> A * database) : M A :=
  retryBusy busyRetryDelays (call stmt).
Definition exec_ (stmt : database -> database) : M unit := exec (fun d => (tt, stmt d)).
Definition query {A} (q : database -> A) : M A := call (fun d => (q d, d)).

(** A transaction: [begin] retried while busy, the body without retries, then
    the commit; any error rolls back ([defer tx.Rollback()]). *)
Definition transaction (body : M unit) : M unit := fun c =>
  match retryBusy busyRetryDelays (call (fun d => (tt, d))) c with
  | (Err e, c) => (Err e, c)
  | (Ok _, c) =>
      match bind body (fun _ => call (fun d => (tt, d))) c with
      | (Ok _, c') => (Ok tt, c')
      | (Err e, c') => (Err e, MkConn (tables c) (coming c'))
      end
  end.

(** A statement inside a transaction. *)
Definition tx_exec (stmt : database -> database) : M unit := call (fun d => (tt, stmt d)).

(** * Facts *)

Lemma call_Ok {A} (op : database -> A * database) c a c' :
  call op c = (Ok a, c') -> a = (op (tables c)).1 /\ tables c' = (op (tables c)).2.
Proof.
  unfold call. destruct (coming c) as [|[e|] fs]; [|done|];
    destruct (op (tables c)); intros; by simplify_eq.
Qed.

Lemma call_Err {A} (op : database -> A * database) c e c' :
  call op c = (Err e, c') -> tables c' = tables c.
Proof.
  unfold call. destruct (coming c) as [|[e'|] fs]; [|intros; by simplify_eq|];
    destruct (op (tables c)); intros; by simplify_eq.
Qed.

Lemma retryBusy_call {A} delays (op : database -> A * database) c r c' :
  retryBusy delays (call op) c = (r, c') ->
  match r with
  | Ok a => a = (op (tables c)).1 /\ tables c' = (op (tables c)).2
  | Err _ => tables c' = tables c
  end.
Proof.
  revert c. induction delays as [|x ds IH]; intros c; simpl;
    destruct (call op c) as [[a|e] c1] eqn:E.
  - intros; simplify_eq. by apply call_Ok.
  - destruct (isBusy e); simpl; intros; simplify_eq; by eapply call_Err.
  - intros; simplify_eq. by apply call_Ok.
  - destruct (isBusy e); simpl; intros H; [|simplify_eq; by eapply call_Err].
    apply call_Err in E. rewrite <- E. by apply IH.
Qed.

(** The number of calls the engine sees and the outcome, for a run of busy
    answers followed by [rest]. *)
Lemma retryBusy_busy {A} delays (op : database -> A * database) d codes rest :
  Forall (fun e => isBusy e = true) codes ->
  retryBusy delays (call op) (MkConn d ((Some <$> codes) ++ rest)) =
  if (length codes <=? length delays)%nat
  then retryBusy (drop (length codes) delays) (call op) (MkConn d rest)
  else (Err (default (OtherError "") (codes !! length delays)),
        MkConn d ((Some <$> drop (S (length delays)) codes) ++ rest)).
Proof.
  revert codes. induction delays as [|x ds IH]; intros [|e codes] Hb; simpl; try done.
  - apply Forall_cons_1 in Hb as [He _]. by rewrite He, drop_0.
  - apply Forall_cons_1 in Hb as [He Hb]. rewrite He. simpl. by apply IH.
Qed.

Lemma call_pass {A} (op : database -> A * database) d :
  call op (MkConn d []) = (Ok (op d).1, MkConn (op d).2 []).
Proof. unfold call. simpl. by destruct (op d). Qed.

Lemma retryBusy_pass {A} delays (op : database -> A * database) d :
  retryBusy delays (call op) (MkConn d []) = (Ok (op d).1, MkConn (op d).2 []).
Proof. destruct delays; simpl; rewrite call_pass; done. Qed.

(** A write that finds the database locked is tried again after each of
    the four pauses: up to four busy answers in a row are absorbed and the
    write happens once; after a fifth it fails with that busy error and the
    tables are unchanged; any other error fails it at once. *)
Theorem exec_retries (stmt : database -> database) d codes rest e :
  Forall (fun e => isBusy e = true) codes ->
  ((length codes <= 4)%nat -> exec_ stmt (MkConn d (Some <$> codes)) = (Ok tt, MkConn (stmt d) [])) /\
  ((length codes = 5)%nat ->
     exec_ stmt (MkConn d ((Some <$> codes) ++ rest)) =
       (Err (default (OtherError "") (codes !! 4%nat)), MkConn d rest)) /\
  (isBusy e = false -> (length codes <= 4)%nat ->
     exec_ stmt (MkConn d ((Some <$> codes) ++ Some e :: rest)) = (Err e, MkConn d rest)).
Proof.
  intros Hb. unfold exec_, exec. split_and!.
  - intros Hl. rewrite <- (app_nil_r (Some <$> codes)), retryBusy_busy by done.
    destruct (Nat.leb_spec (length codes) (length busyRetryDelays)); [|simpl in *; lia].
    by rewrite retryBusy_pass.
  - intros Hl. rewrite retryBusy_busy, Hl by done. simpl.
    by rewrite (drop_ge codes) by lia.
  - intros He Hl. rewrite retryBusy_busy by done.
    destruct (Nat.leb_spec (length codes) (length busyRetryDelays)); [|simpl in *; lia].
    destruct (drop (length codes) busyRetryDelays); simpl; by rewrite He.
Qed.

Lemma exec_retries_witness :
  let stmt d := set_property [("k", None)] d in
  ((2 <= 4)%nat -> exec_ stmt (MkConn empty_database [Some (SqliteError 5); Some (SqliteError 517)]) =
     (Ok tt, MkConn (stmt empty_database) [])) /\
  ((2 = 5)%nat ->
     exec_ stmt (MkConn empty_database ([Some (SqliteError 5); Some (SqliteError 517)] ++ [])) =
       (Err (OtherError ""), MkConn empty_database [])) /\
  (isBusy (SqliteError 19) = false -> (2 <= 4)%nat ->
     exec_ stmt (MkConn empty_database ([Some (SqliteError 5); Some (SqliteError 517)] ++ Some (SqliteError 19) :: [])) =
       (Err (SqliteError 19), MkConn empty_database [])).
Proof.
  apply (exec_retries (fun d => set_property [("k", None)] d) empty_database
           [SqliteError 5; SqliteError 517] [] (SqliteError 19)).
  repeat constructor.
Defined.

(** A failed transaction leaves the tables as they were. *)
Lemma transaction_Err body c e c' : transaction body c = (Err e, c') -> tables c' = tables c.
Proof.
  unfold transaction. destruct (retryBusy _ _ c) as [[[]|e1] c1] eqn:E; apply retryBusy_call in E.
  - destruct E as [_ E]. destruct (bind body _ c1) as [[u|e2] c2]; intros; by simplify_eq/=.
  - intros. by simplify_eq/=.
Qed.

Lemma transaction_Ok body c c' :
  transaction body c = (Ok tt, c') ->
  exists c1 c2, tables c1 = tables c /\ body c1 = (Ok tt, c2) /\ tables c' = tables c2.
Proof.
  unfold transaction. destruct (retryBusy _ _ c) as [[[]|e1] c1] eqn:E; apply retryBusy_call in E; [|done].
  destruct E as [_ E]. unfold bind. destruct (body c1) as [[[]|] c2] eqn:Eb; [|done].
  destruct (call _ c2) as [[[]|] c3] eqn:Ec; intros H; simplify_eq.
  apply call_Ok in Ec as [_ Ec]. by exists c1, c2.
Qed.
