(* ===== verification/Writer.v ===== *)
(** The single-writer database layer ([internal/db/writer.go] and
    [internal/db/cleanup.go]): its state with the in-memory maps and every
    operation on the faulty connection, the retention of the cleanup goroutine
    included. *)

From S2P Require Import Prelude GoFloat GoStrings Values StableSort Json Transport Model Store.

Record writer := MkWriter {
  db : conn;
  defaultAgentID : string;
  defaultAgentName : string;
  streamMap : gmap MediaStreamId Z;
  endpointMap : gmap EndpointKey Z;
  agentCache : gmap string Z;
  recordsLimit : Z;
  storeSipFilter : list string
}.

Definition NewWriter (c : conn) (agentID agentName : string) : writer :=
  MkWriter c agentID agentName ∅ ∅ ∅ 0 [].

Definition with_db c w := MkWriter c (defaultAgentID w) (defaultAgentName w) (streamMap w)
  (endpointMap w) (agentCache w) (recordsLimit w) (storeSipFilter w).
Definition with_maps sm em w := MkWriter (db w) (defaultAgentID w) (defaultAgentName w) sm em
  (agentCache w) (recordsLimit w) (storeSipFilter w).
Definition with_cache ac w := MkWriter (db w) (defaultAgentID w) (defaultAgentName w)
  (streamMap w) (endpointMap w) ac (recordsLimit w) (storeSipFilter w).

(** Computations of the writer. *)
Definition W (A : Type) : Type := writer -> res db_error A * writer.

Definition wret {A} (a : A) : W A := fun w => (Ok a, w).
Definition wbind {A B} (m : W A) (k : A -> W B) : W B :=
  fun w => match m w with (Ok a, w) => k a w | (Err e, w) => (Err e, w) end.
Definition lift {A} (m : M A) : W A :=
  fun w => let '(r, c) := m (db w) in (r, with_db c w).
Definition gets {A} (f : writer -> A) : W A := fun w => (Ok (f w), w).
Definition modify (f : writer -> writer) : W unit := fun w => (Ok tt, f w).

Notation "'let!' x ':=' m 'in' k" := (wbind m (fun x => k))
  (at level 10, x pattern, m at level 100, k at level 200,
   format "'[v' 'let!'  x  ':='  m  'in' '/' k ']'") : go_scope.

(** * Options *)

Definition SetRecordsLimit (n : Z) (w : writer) : writer :=
  MkWriter (db w) (defaultAgentID w) (defaultAgentName w) (streamMap w) (endpointMap w)
    (agentCache w) n (storeSipFilter w).

Definition reportHasSip (r : StreamReport) : bool :=
  negb (String.eqb (SipPeerA r) "") || negb (String.eqb (SipPeerB r) "").

Definition sipFilterActive (w : writer) : bool := (0 <? length (storeSipFilter w))%nat.

Section sip_filter.
Context `{UnicodeTables}.

Definition SetStoreSipFilter (patterns : list string) (w : writer) : writer :=
  MkWriter (db w) (defaultAgentID w) (defaultAgentName w) (streamMap w) (endpointMap w)
    (agentCache w) (recordsLimit w)
    (to_lower <$> List.filter (fun p => negb (String.eqb p "")) patterns).

Definition sipMatches (w : writer) (r : StreamReport) : bool :=
  let a := to_lower (SipPeerA r) in
  let b := to_lower (SipPeerB r) in
  existsb (fun p => contains a p || contains b p) (storeSipFilter w).
End sip_filter.

(** * Calls and deletions, which need no new ids *)

(** [callKeyExpr]. *)
Definition callKey (s : stream_row) : string :=
  match s_sip_callid s with
  | None => "S:" +:+ itoa (s_stream_id s)
  | Some c => if String.eqb c "" then "S:" +:+ itoa (s_stream_id s) else "C:" +:+ c
  end.

(** The grouping query: each call key of the finished streams with the
    latest end of its reports, latest first and ties by key, descending. *)
Definition joined (d : database) : list (string * Z) :=
  t ← rtpmon_statistics d; s ← rtpmon_streams d;
  if s_stream_id s =? r_stream_id t then [(callKey s, r_end_timestamp t)] else [].

Definition group_last (rows : list (string * Z)) (k : string) : Z :=
  let ts := snd <$> List.filter (fun x => String.eqb x.1 k) rows in
  fold_left Z.max (tail ts) (default 0 (head ts)).

Definition callLess (a b : string * Z) : bool :=
  (b.2 <? a.2) || ((a.2 =? b.2) && str_lt b.1 a.1).

Definition call_groups (d : database) : list (string * Z) :=
  let rows := joined d in
  stable_sort callLess ((fun k => (k, group_last rows k)) <$> remove_dups rows.*1).

(** [deleteStreamsByIDs]: the four deletes of each chunk of 500 ids. *)
Definition id_in (ids : list Z) (z : Z) : bool := bool_decide (z ∈ ids).

Definition del_intervals ids d :=
  set_intervals (List.filter (fun r => negb (id_in ids (r_stream_id r))) (rtpmon_intervals d)) d.
Definition del_statistics ids d :=
  set_statistics (List.filter (fun r => negb (id_in ids (r_stream_id r))) (rtpmon_statistics d)) d.
Definition del_audio ids d :=
  set_audio (List.filter (fun r => negb (id_in ids (u_stream_id r))) (rtpmon_audio d)) d.
Definition del_streams ids d :=
  set_streams (List.filter (fun s => negb (id_in ids (s_stream_id s))) (rtpmon_streams d)) d.

Definition deleteChunk (chunk : list Z) : M unit :=
  bind (tx_exec (del_intervals chunk)) (fun _ =>
  bind (tx_exec (del_statistics chunk)) (fun _ =>
  bind (tx_exec (del_audio chunk)) (fun _ =>
  tx_exec (del_streams chunk)))).

Definition iterM {A} (f : A -> M unit) (l : list A) : M unit :=
  foldr (fun x k => bind (f x) (fun _ => k)) (ret tt) l.

Definition deleteStreamsByIDs (ids : list Z) : M unit := iterM deleteChunk (chunks 500 ids).

(** [forgetDBIDs]. *)
Definition forgetDBIDs (ids : list Z) (w : writer) : writer :=
  let gone := filter (fun '(_, v) => id_in ids v = true) (map_to_list (streamMap w)) in
  with_maps
    (foldr (fun '(k, _) m => delete k m) (streamMap w) gone)
    (foldr (fun '(k, _) m => delete (endpointKey k) m) (endpointMap w) gone) w.

Definition purgeStream (id : MediaStreamId) : W unit :=
  let! sm := gets streamMap in
  match sm !! id with
  | None => wret tt
  | Some dbID =>
      let! _ := lift (transaction (deleteStreamsByIDs [dbID])) in
      modify (fun w => with_maps (delete id (streamMap w)) (delete (endpointKey id) (endpointMap w)) w)
  end.

Definition ids_of_keys (keys : list string) (d : database) : list Z :=
  s_stream_id <$> List.filter (fun s => bool_decide (callKey s ∈ keys)) (rtpmon_streams d).

(** The ids of the evicted keys, one query per chunk of 500 keys. *)
Definition resolve_chunk (chunk : list string) (k : M (list Z)) : M (list Z) :=
  bind (query (ids_of_keys chunk)) (fun ids => bind k (fun rest => ret (ids ++ rest))).

Definition resolve_ids (evict : list string) : M (list Z) :=
  foldr resolve_chunk (ret []) (chunks 500 evict).

Definition TrimToLastNCalls (n : Z) : W unit :=
  if n <=? 0 then wret tt
  else
    let! groups := lift (query call_groups) in
    let keys := groups.*1 in
    if Z.of_nat (length keys) <=? n then wret tt
    else
      let evict := drop (Z.to_nat n) keys in
      let! ids := lift (resolve_ids evict) in
      let! _ := lift (transaction (deleteStreamsByIDs ids)) in
      modify (forgetDBIDs ids).

(** * Operations that insert rows *)

Section inserts.
Context `{UnicodeTables}.

(** The row id the engine gives to an insert, from the ids in use. *)
Variable new_id : list Z -> Z.

(** [FindOrAddAgent]. *)
Definition find_agent (agentID : string) (d : database) : option Z :=
  i_id <$> head (List.filter (fun r => String.eqb (i_agent_id r) agentID) (rtpmon_instances d)).

Definition insert_agent (agentID agentName : string) (d : database) : Z * database :=
  let id := new_id (i_id <$> rtpmon_instances d) in
  (id, set_instances (rtpmon_instances d ++ [MkInstanceRow id agentID agentName]) d).

Definition FindOrAddAgent (agentID agentName : string) : W Z :=
  let! cache := gets agentCache in
  match cache !! agentID with
  | Some id => wret id
  | None =>
      let! found := lift (query (find_agent agentID)) in
      let! id := match found with
                 | Some id => wret id
                 | None => lift (exec (insert_agent agentID agentName))
                 end in
      let! _ := modify (fun w => with_cache (<[agentID := id]> (agentCache w)) w) in
      wret id
  end.

Definition insert_stream (id : MediaStreamId) (agentRow createdTS : Z) (d : database) : Z * database :=
  let dbID := new_id (s_stream_id <$> rtpmon_streams d) in
  (dbID, set_streams (rtpmon_streams d ++
    [MkStreamRow dbID (LinkID id) (SrcIP id) (SrcPort id) (DstIP id) (DstPort id) (SSRC id)
       None None None (Some agentRow) (Some createdTS)]) d).

Definition OpenStreamAt (id : MediaStreamId) (createdTS : Z) : W Z :=
  let! sm := gets streamMap in
  match sm !! id with
  | Some existing => wret existing
  | None =>
      let! agent := gets (fun w => (defaultAgentID w, defaultAgentName w)) in
      let! agentRow := FindOrAddAgent agent.1 agent.2 in
      let! dbID := lift (exec (insert_stream id agentRow createdTS)) in
      let! _ := modify (fun w => with_maps (<[id := dbID]> (streamMap w))
                                   (<[endpointKey id := dbID]> (endpointMap w)) w) in
      wret dbID
  end.

(** The row of a report. *)
Definition report_values (dbID : Z) (report : StreamReport) : report_row :=
  MkReportRow dbID (StartMs report) (EndMs report) (RTPPacketCounter report)
    (IllegalPacketCounter report) (LostPacketCounter report) (SevanaMOS report)
    (SevanaRfactor report) (NetworkMOS report) (Jitter report) (Codec report)
    (DetectorReport report) (RTTDelay report) (if FullReport report then 1 else 0) None
    (AmrNbSwitchCounter report) (AmrWbSwitchCounter report) (LinkID (StreamID report))
    (DurationAudio report) (UserReport report) (DtxSid report) (DtxCount report) (DtxTotal report).

Inductive report_table := Intervals | Statistics.

Definition insert_report (table : report_table) (row : report_row) (d : database) : database :=
  match table with
  | Intervals => set_intervals (rtpmon_intervals d ++ [row]) d
  | Statistics => set_statistics (rtpmon_statistics d ++ [row]) d
  end.

Definition addReport (now : Z) (report : StreamReport) (table : report_table) : W unit :=
  let! sm := gets streamMap in
  let! dbID := match sm !! StreamID report with
               | Some dbID => wret dbID
               | None => OpenStreamAt (StreamID report) now
               end in
  lift (exec_ (insert_report table (report_values dbID report))).

Definition update_sip (dbID : Z) (report : StreamReport) (d : database) : database :=
  set_streams ((fun s =>
    if s_stream_id s =? dbID
    then MkStreamRow (s_stream_id s) (s_link_id s) (s_src_ip s) (s_src_port s) (s_dst_ip s)
           (s_dst_port s) (s_ssrc s) (Some (SipPeerA report)) (Some (SipPeerB report))
           (Some (SipCallID report)) (s_agent_id s) (s_created_ts s)
    else s) <$> rtpmon_streams d) d.

Definition maybeUpdateSip (report : StreamReport) : W unit :=
  if String.eqb (SipCallID report) "" then wret tt
  else
    let! sm := gets streamMap in
    match sm !! StreamID report with
    | Some dbID => lift (exec_ (update_sip dbID report))
    | None => wret tt
    end.

Definition AddInterval (now : Z) (report : StreamReport) : W unit :=
  let! skip := gets (fun w => sipFilterActive w && reportHasSip report && negb (sipMatches w report)) in
  if (skip : bool) then wret tt
  else
    let! _ := addReport now report Intervals in
    maybeUpdateSip report.

Definition AddFinal (now : Z) (report : StreamReport) : W unit :=
  let! drop := gets (fun w => sipFilterActive w && negb (sipMatches w report)) in
  if (drop : bool) then purgeStream (StreamID report)
  else
    let! _ := addReport now report Statistics in
    let! _ := maybeUpdateSip report in
    let! limit := gets recordsLimit in
    if 0 <? limit then TrimToLastNCalls limit else wret tt.

Definition insert_audio (dbID : Z) (audio : StreamAudio) (d : database) : database :=
  set_audio (rtpmon_audio d ++
    [MkAudioRow (new_id (u_id <$> rtpmon_audio d)) dbID (sa_StartMs audio) (FinishMs audio)
       (b64_encode StdEncoding (Wav audio))]) d.

Definition AddAudio (audio : StreamAudio) : W unit :=
  if (String.length (Wav audio) =? 0)%nat then wret tt
  else
    let! sm := gets streamMap in
    let! em := gets endpointMap in
    let dbID := match sm !! sa_StreamID audio with
                | Some dbID => Some dbID
                | None => em !! endpointKey (sa_StreamID audio)
                end in
    match dbID with
    | None => wret tt
    | Some dbID => lift (exec_ (insert_audio dbID audio))
    end.

(** ** SIP events *)

Definition sipColumns : list string :=
  ["event_type"; "call_id"; "event_timestamp"; "invite_timestamp"; "setup_code";
   "caller"; "callee"; "caller_ua"; "callee_ua"; "caller_codecs"; "callee_codecs";
   "bye_direction"; "duration"; "response_codes"; "reason"; "response_code";
   "reason_phrase"; "direction"; "is_request"].

Definition insertSip (values : list (string * any)) : W unit :=
  let row := omap (fun c => (fun v => (c, v)) <$> mlookup c values) sipColumns in
  lift (exec_ (fun d => set_sip_events
    (rtpmon_sip_events d ++ [MkSipRow (new_id (e_id <$> rtpmon_sip_events d)) row]) d)).

Definition AddSipCallStart (e : SipCallStart) : W unit :=
  insertSip
    [("event_type", AInt 1);
     ("call_id", AString (cs_CallID e));
     ("event_timestamp", AInt64 (cs_Timestamp e));
     ("invite_timestamp", AInt64 (cs_InviteTimestamp e));
     ("setup_code", AUint32 (SetupCode e));
     ("caller", AString (Aor (cs_Caller e)));
     ("callee", AString (Aor (cs_Callee e)));
     ("caller_ua", AString (UserAgent (cs_Caller e)));
     ("callee_ua", AString (UserAgent (cs_Callee e)));
     ("caller_codecs", AString (Codecs (cs_Caller e)));
     ("callee_codecs", AString (Codecs (cs_Callee e)))].

Definition AddSipCallEnd (e : SipCallEnd) : W unit :=
  insertSip
    [("event_type", AInt 2);
     ("call_id", AString (ce_CallID e));
     ("event_timestamp", AInt64 (ce_Timestamp e));
     ("duration", AInt64 (Duration e));
     ("bye_direction", AInt (ByeDirection e));
     ("response_codes", AString (join "," (itoa <$> ResponseCodes e)))].

Definition AddSipReinvite (e : SipReinvite) : W unit :=
  insertSip
    [("event_type", AInt 3);
     ("call_id", AString (ri_CallID e));
     ("event_timestamp", AInt64 (ri_Timestamp e));
     ("direction", AInt (Direction e));
     ("is_request", AInt (if IsRequest e then 1 else 0));
     ("caller", AString (Aor (UpdatedPeer e)));
     ("caller_ua", AString (UserAgent (UpdatedPeer e)));
     ("caller_codecs", AString (Codecs (UpdatedPeer e)))].

Definition AddSipCallFailed (e : SipCallFailed) : W unit :=
  insertSip
    [("event_type", AInt 4);
     ("call_id", AString (cf_CallID e));
     ("event_timestamp", AInt64 (cf_Timestamp e));
     ("invite_timestamp", AInt64 (cf_InviteTimestamp e));
     ("reason", AInt (Reason e));
     ("response_code", AUint32 (ResponseCode e));
     ("reason_phrase", AString (ReasonPhrase e));
     ("caller", AString (Aor (cf_Caller e)));
     ("callee", AString (Aor (cf_Callee e)));
     ("caller_ua", AString (UserAgent (cf_Caller e)));
     ("callee_ua", AString (UserAgent (cf_Callee e)));
     ("caller_codecs", AString (Codecs (cf_Caller e)));
     ("callee_codecs", AString (Codecs (cf_Callee e)))].

Definition warning_json (x : CallHealthWarning) : json :=
  JObject [("code", JString (Code x)); ("tag", JString (Tag x));
           ("explanation", JString (Explanation x));
           ("stream_ids", JArray (JString <$> StreamIDs x))].

(** [AddCallHealth]: no warning marshals to an error, strings never fail. *)
Definition AddCallHealth (e : CallHealth) : W unit :=
  let js := default "" (marshal (JArray (warning_json <$> Warnings e))) in
  lift (exec_ (fun d => set_call_health
    (rtpmon_call_health d ++
      [MkHealthRow (new_id (h_id <$> rtpmon_call_health d)) (ch_CallID e) (ch_Timestamp e)
         (StreamCount e) js]) d)).
End inserts.

(** * Properties and counts *)

Definition get_property (name : string) (d : database) : option (option string) :=
  mlookup name (rtpmon_property d).

Definition SetProperty (name value : string) : W unit :=
  let! existing := lift (query (get_property name)) in
  match existing with
  | None => lift (exec_ (fun d => set_property (rtpmon_property d ++ [(name, Some value)]) d))
  | Some _ =>
      lift (exec_ (fun d => set_property
        ((fun '(n, v) => if String.eqb n name then (n, Some value) else (n, v)) <$> rtpmon_property d) d))
  end.

(** A NULL value reads as the empty string. *)
Definition GetProperty (name : string) : W (option string) :=
  let! v := lift (query (get_property name)) in
  wret (default "" <$> v).

Definition GetStreamCount : W Z :=
  lift (query (fun d => Z.of_nat (length (rtpmon_statistics d)))).

(** * Retention ([internal/db/cleanup.go])

    Durations, which only go to the log, are left out of the statistics.  The
    order in which the engine lists the expired ids is one of its possible
    ones. *)

Record CleanupStats := MkCleanupStats { cl_Streams : Z; cl_Chunks : Z; cl_SipEvents : Z }.

(** The candidates: the UNION of the four selects. *)
Definition cand (cutoff : Z) (d : database) : list Z :=
  remove_dups
    ((s_stream_id <$> List.filter (fun s => match s_created_ts s with
                                            | Some t => t <? cutoff
                                            | None => true
                                            end) (rtpmon_streams d)) ++
     (r_stream_id <$> List.filter (fun r => r_end_timestamp r <? cutoff) (rtpmon_intervals d)) ++
     (r_stream_id <$> List.filter (fun r => r_end_timestamp r <? cutoff) (rtpmon_statistics d)) ++
     (u_stream_id <$> List.filter (fun r => u_start_timestamp r <? cutoff) (rtpmon_audio d))).

(** [expiredStreamsQuery]. *)
Definition expiredStreamsQuery (cutoff : Z) (d : database) : list Z :=
  List.filter (fun z =>
    existsb (fun s => s_stream_id s =? z) (rtpmon_streams d) &&
    negb (existsb (fun i => (r_stream_id i =? z) && (cutoff <=? r_end_timestamp i)) (rtpmon_intervals d)) &&
    negb (existsb (fun t => (r_stream_id t =? z) && (cutoff <=? r_end_timestamp t)) (rtpmon_statistics d)) &&
    negb (existsb (fun a => (u_stream_id a =? z) && (cutoff <=? u_start_timestamp a)) (rtpmon_audio d)))
    (cand cutoff d).

Definition deleteChunkStreams : nat := 100.

(** [deleteStreamsTx]. *)
Definition deleteStreamsTx (ids : list Z) : M unit := transaction (deleteStreamsByIDs ids).

(** The loop over the chunks: the statistics so far and the first error. *)
Fixpoint delete_chunks (l : list (list Z)) (st : CleanupStats) (c : conn) :
    CleanupStats * option db_error * conn :=
  match l with
  | [] => (st, None, c)
  | chunk :: l =>
      match deleteStreamsTx chunk c with
      | (Err e, c) => (st, Some e, c)
      | (Ok _, c) =>
          delete_chunks l (MkCleanupStats (cl_Streams st + Z.of_nat (length chunk))
                             (cl_Chunks st + 1) (cl_SipEvents st)) c
      end
  end.

Definition delete_sip (cutoff : Z) (d : database) : Z * database :=
  (Z.of_nat (length (List.filter (fun r => e_timestamp r <? cutoff) (rtpmon_sip_events d))),
   set_sip_events (List.filter (fun r => negb (e_timestamp r <? cutoff)) (rtpmon_sip_events d)) d).
Definition delete_health (cutoff : Z) (d : database) : database :=
  set_call_health (List.filter (fun r => negb (h_timestamp r <? cutoff)) (rtpmon_call_health d)) d.
Definition delete_alarms (cutoff : Z) (d : database) : database :=
  set_alarm_events (List.filter (fun r => negb (a_timestamp r <? cutoff)) (rtpmon_alarm_events d)) d.

Definition RemoveOldRecords (cutoff : Z) (c : conn) : CleanupStats * option db_error * conn :=
  match query (expiredStreamsQuery cutoff) c with
  | (Err e, c) => (MkCleanupStats 0 0 0, Some e, c)
  | (Ok oldIDs, c) =>
      match delete_chunks (chunks deleteChunkStreams oldIDs) (MkCleanupStats 0 0 0) c with
      | (st, Some e, c) => (st, Some e, c)
      | (st, None, c) =>
          match exec (delete_sip cutoff) c with
          | (Err e, c) => (st, Some e, c)
          | (Ok n, c) =>
              let st := MkCleanupStats (cl_Streams st) (cl_Chunks st) n in
              match exec_ (delete_health cutoff) c with
              | (Err e, c) => (st, Some e, c)
              | (Ok _, c) =>
                  match exec_ (delete_alarms cutoff) c with
                  | (Err e, c) => (st, Some e, c)
                  | (Ok _, c) => (st, None, c)
                  end
              end
          end
      end
  end.

Definition delete_audio (cutoff : Z) (d : database) : database :=
  set_audio (List.filter (fun r => negb (u_start_timestamp r <? cutoff)) (rtpmon_audio d)) d.

Definition RemoveOldAudio (cutoff : Z) : M Z :=
  exec (fun d =>
    (Z.of_nat (length (List.filter (fun r => u_start_timestamp r <? cutoff) (rtpmon_audio d))), delete_audio cutoff d)).
