(* ===== verification/WriterInv.v ===== *)
(** What the writer guarantees ([internal/db/writer.go]): the invariant that
    ties the in-memory maps and the child tables to the stream rows, kept by
    every operation whatever faults the statements meet; all-or-nothing
    deletion; which calls the records limit keeps; which calls the SIP filter
    stores. *)

From S2P Require Import Prelude GoFloat GoStrings Values StableSort Json Transport Model Store Writer.

(** * The invariant *)

Definition stream_ids (d : database) : list Z := s_stream_id <$> rtpmon_streams d.

(** The identity a stream row was opened for. *)
Definition row_identity (s : stream_row) : MediaStreamId :=
  MkMediaStreamId (s_src_ip s) (s_src_port s) (s_dst_ip s) (s_dst_port s) (s_ssrc s) (s_link_id s).

(** The tables alone: ids are unique, and every child row has its stream. *)
Record db_ok (d : database) : Prop := {
  ok_ids : NoDup (stream_ids d);
  ok_intervals r : r ∈ rtpmon_intervals d -> r_stream_id r ∈ stream_ids d;
  ok_statistics r : r ∈ rtpmon_statistics d -> r_stream_id r ∈ stream_ids d;
  ok_audio r : r ∈ rtpmon_audio d -> u_stream_id r ∈ stream_ids d
}.

Lemma stream_row_unique d s s' :
  NoDup (stream_ids d) -> s ∈ rtpmon_streams d -> s' ∈ rtpmon_streams d ->
  s_stream_id s = s_stream_id s' -> s = s'.
Proof.
  intros Hnd Hs Hs' E. apply list_elem_of_lookup in Hs as [i Hi]. apply list_elem_of_lookup in Hs' as [j Hj].
  assert (i = j) as ->; [|congruence].
  apply (NoDup_lookup _ _ _ (s_stream_id s) Hnd); unfold stream_ids;
    rewrite list_lookup_fmap, ?Hi, ?Hj; simpl; congruence.
Qed.
(** The maps point to stream rows of their own identity. *)
Record maps_ok (d : database) (sm : gmap MediaStreamId Z) (em : gmap EndpointKey Z) : Prop := {
  ok_stream id v : sm !! id = Some v ->
    exists s, s ∈ rtpmon_streams d /\ s_stream_id s = v /\ row_identity s = id;
  ok_endpoint ep v : em !! ep = Some v ->
    exists id, sm !! id = Some v /\ endpointKey id = ep
}.

Definition writer_ok (w : writer) : Prop :=
  db_ok (tables (db w)) /\ maps_ok (tables (db w)) (streamMap w) (endpointMap w).
(** The invariant up to the ids [gone]: those that a cleanup pass deleted, on its
    own goroutine and without telling the maps.  An entry of the stream map or a
    child row may still name one of them. *)
Definition attached (gone : list Z) (d : database) (z : Z) : Prop := z ∈ stream_ids d \/ z ∈ gone.

Record db_ok_but (gone : list Z) (d : database) : Prop := {
  but_ids : NoDup (stream_ids d);
  but_intervals r : r ∈ rtpmon_intervals d -> attached gone d (r_stream_id r);
  but_statistics r : r ∈ rtpmon_statistics d -> attached gone d (r_stream_id r);
  but_audio r : r ∈ rtpmon_audio d -> attached gone d (u_stream_id r)
}.

Record maps_ok_but (gone : list Z) (d : database) (sm : gmap MediaStreamId Z) (em : gmap EndpointKey Z) : Prop := {
  but_stream id v : sm !! id = Some v ->
    v ∈ gone \/ exists s, s ∈ rtpmon_streams d /\ s_stream_id s = v /\ row_identity s = id;
  but_endpoint ep v : em !! ep = Some v -> exists id, sm !! id = Some v /\ endpointKey id = ep
}.

Definition writer_ok_but (gone : list Z) (w : writer) : Prop :=
  db_ok_but gone (tables (db w)) /\ maps_ok_but gone (tables (db w)) (streamMap w) (endpointMap w).

Lemma attached_nil d z : attached [] d z <-> z ∈ stream_ids d.
Proof. unfold attached. rewrite elem_of_nil. tauto. Qed.

Lemma db_ok_nil d : db_ok_but [] d <-> db_ok d.
Proof.
  split; intros [H1 H2 H3 H4]; split; try done; intros r Hr; [..|left; by apply H2|left; by apply H3|left; by apply H4];
    apply attached_nil; auto.
Qed.

Lemma maps_ok_nil d sm em : maps_ok_but [] d sm em <-> maps_ok d sm em.
Proof.
  split; intros [H1 H2]; split; try done; intros id v Hv; [|right; by apply H1].
  destruct (H1 id v Hv) as [Hn|?]; [by apply elem_of_nil in Hn|done].
Qed.

Lemma writer_ok_nil w : writer_ok_but [] w <-> writer_ok w.
Proof. unfold writer_ok_but, writer_ok. by rewrite db_ok_nil, maps_ok_nil. Qed.

Section keeping.
Context (gone : list Z).

(** A computation keeps the invariant, failing or not. *)
Definition keeps {A} (m : W A) : Prop := forall w, writer_ok_but gone w -> writer_ok_but gone (m w).2.

Lemma keeps_ret {A} (a : A) : keeps (wret a).
Proof. by intros w. Qed.

Lemma keeps_gets {A} (f : writer -> A) : keeps (gets f).
Proof. by intros w. Qed.

Lemma keeps_bind {A B} (m : W A) (k : A -> W B) :
  keeps m -> (forall a, keeps (k a)) -> keeps (wbind m k).
Proof.
  intros Hm Hk w Hw. unfold wbind. specialize (Hm w Hw).
  destruct (m w) as [[a|e] w']; [|done]. by apply Hk.
Qed.

(** A bind whose continuation may use what its value says of the state. *)
Lemma keeps_bind_gets {A B} (f : writer -> A) (k : A -> W B) :
  (forall w, writer_ok_but gone w -> writer_ok_but gone (k (f w) w).2) -> keeps (wbind (gets f) k).
Proof. intros H w Hw. by apply H. Qed.

(** Statements that do not touch the tables of the invariant. *)
Definition same_streams (d d' : database) : Prop :=
  rtpmon_streams d' = rtpmon_streams d /\ rtpmon_intervals d' = rtpmon_intervals d /\
  rtpmon_statistics d' = rtpmon_statistics d /\ rtpmon_audio d' = rtpmon_audio d.

Lemma but_same d d' : same_streams d d' -> db_ok_but gone d -> db_ok_but gone d'.
Proof.
  intros (Hs & Hi & Ht & Hu) [H1 H2 H3 H4].
  split; unfold attached, stream_ids in *; rewrite ?Hs, ?Hi, ?Ht, ?Hu; done.
Qed.

Lemma maps_but_same d d' sm em :
  rtpmon_streams d' = rtpmon_streams d -> maps_ok_but gone d sm em -> maps_ok_but gone d' sm em.
Proof. intros Hs [H1 H2]. split; rewrite ?Hs; done. Qed.

Lemma lift_exec_db {A} (op : database -> A * database) w :
  let '(r, w') := lift (exec op) w in
  streamMap w' = streamMap w /\ endpointMap w' = endpointMap w /\
  storeSipFilter w' = storeSipFilter w /\ recordsLimit w' = recordsLimit w /\
  match r with
  | Ok a => a = (op (tables (db w))).1 /\ tables (db w') = (op (tables (db w))).2
  | Err _ => tables (db w') = tables (db w)
  end.
Proof.
  unfold lift, exec. destruct (retryBusy _ _ (db w)) as [r c] eqn:E. simpl.
  by apply retryBusy_call in E.
Qed.

Lemma lift_query_db {A} (q : database -> A) w :
  let '(r, w') := lift (query q) w in
  streamMap w' = streamMap w /\ endpointMap w' = endpointMap w /\
  storeSipFilter w' = storeSipFilter w /\ recordsLimit w' = recordsLimit w /\
  tables (db w') = tables (db w) /\
  match r with Ok a => a = q (tables (db w)) | Err _ => True end.
Proof.
  unfold lift, query. destruct (call _ (db w)) as [[a|e] c] eqn:E; simpl.
  - apply call_Ok in E as [-> E]. by rewrite E.
  - apply call_Err in E. by rewrite E.
Qed.

Lemma writer_ok_same w w' :
  tables (db w') = tables (db w) -> streamMap w' = streamMap w -> endpointMap w' = endpointMap w ->
  writer_ok_but gone w -> writer_ok_but gone w'.
Proof. unfold writer_ok_but. by intros -> -> ->. Qed.

(** An autocommit statement keeps the invariant if its effect does. *)
Lemma keeps_exec {A} (op : database -> A * database) :
  (forall w, writer_ok_but gone w ->
     db_ok_but gone (op (tables (db w))).2 /\ maps_ok_but gone (op (tables (db w))).2 (streamMap w) (endpointMap w)) ->
  keeps (lift (exec op)).
Proof.
  intros Hop w Hw. pose proof (lift_exec_db op w) as H.
  destruct (lift (exec op) w) as [[a|e] w']; destruct H as (Hs & He & _ & _ & Hd).
  - destruct Hd as [_ Hd]. unfold writer_ok_but. simpl. rewrite Hs, He, Hd. by apply Hop.
  - by apply (writer_ok_same w).
Qed.

Lemma keeps_exec_same {A} (op : database -> A * database) :
  (forall d, same_streams d (op d).2) -> keeps (lift (exec op)).
Proof.
  intros Hop. apply keeps_exec. intros w [Hd Hm].
  destruct (Hop (tables (db w))) as (Hs & ?). split; [by eapply but_same|by eapply maps_but_same].
Qed.

Lemma keeps_query {A} (q : database -> A) : keeps (lift (query q)).
Proof.
  intros w Hw. pose proof (lift_query_db q w) as H.
  destruct (lift (query q) w) as [r w']. destruct H as (Hs & He & _ & _ & Hd & _).
  by apply (writer_ok_same w).
Qed.

Lemma keeps_modify_maps (f : writer -> writer) :
  (forall w, writer_ok_but gone w -> writer_ok_but gone (f w)) -> keeps (modify f).
Proof. intros Hf w Hw. by apply Hf. Qed.

(** * Deleting streams *)

(** The tables without the streams of [ids] and their children. *)
Definition delete_streams (ids : list Z) (d : database) : database :=
  MkDatabase
    (List.filter (fun s => negb (id_in ids (s_stream_id s))) (rtpmon_streams d))
    (List.filter (fun r => negb (id_in ids (r_stream_id r))) (rtpmon_intervals d))
    (List.filter (fun r => negb (id_in ids (r_stream_id r))) (rtpmon_statistics d))
    (rtpmon_instances d) (rtpmon_property d) (rtpmon_sip_events d) (rtpmon_call_health d)
    (rtpmon_alarm_events d)
    (List.filter (fun r => negb (id_in ids (u_stream_id r))) (rtpmon_audio d)).

Lemma id_in_app l1 l2 z : negb (id_in (l1 ++ l2) z) = negb (id_in l1 z) && negb (id_in l2 z).
Proof.
  unfold id_in. destruct (decide (z ∈ l1)), (decide (z ∈ l2));
    rewrite ?(bool_decide_true (z ∈ l1)), ?(bool_decide_true (z ∈ l2)),
      ?(bool_decide_false (z ∈ l1)), ?(bool_decide_false (z ∈ l2)) by done; simpl;
    rewrite ?bool_decide_true, ?bool_decide_false by (rewrite elem_of_app; tauto); done.
Qed.

Lemma delete_streams_app l1 l2 d :
  delete_streams l2 (delete_streams l1 d) = delete_streams (l1 ++ l2) d.
Proof.
  destruct d. unfold delete_streams. simpl. rewrite !filter_filter.
  f_equal; apply filter_ext; intros; by rewrite id_in_app.
Qed.

Lemma delete_streams_nil d : delete_streams [] d = d.
Proof. destruct d. unfold delete_streams. simpl. by rewrite !filter_all. Qed.

Lemma bind_Ok {A B} (m : M A) (k : A -> M B) c b c' :
  bind m k c = (Ok b, c') -> exists a c1, m c = (Ok a, c1) /\ k a c1 = (Ok b, c').
Proof. unfold bind. destruct (m c) as [[a|e] c1]; [|done]. intros H. by exists a, c1. Qed.

Lemma deleteChunk_Ok chunk c c' :
  deleteChunk chunk c = (Ok tt, c') -> tables c' = delete_streams chunk (tables c).
Proof.
  unfold deleteChunk, tx_exec. intros H.
  apply bind_Ok in H as ([] & c1 & H1 & H). apply call_Ok in H1 as [_ H1].
  apply bind_Ok in H as ([] & c2 & H2 & H). apply call_Ok in H2 as [_ H2].
  apply bind_Ok in H as ([] & c3 & H3 & H). apply call_Ok in H3 as [_ H3].
  apply call_Ok in H as [_ H].
  rewrite H, H3, H2, H1. by destruct (tables c).
Qed.

(** The chunked deletes amount to one delete of all the ids. *)
Lemma deleteStreamsByIDs_Ok ids c c' :
  deleteStreamsByIDs ids c = (Ok tt, c') -> tables c' = delete_streams ids (tables c).
Proof.
  unfold deleteStreamsByIDs. rewrite <- (chunks_concat 500 ids) at 2 by lia.
  generalize (chunks 500 ids). intros l. revert c.
  induction l as [|ch l IH]; intros c; simpl.
  - intros [= <-]. by rewrite delete_streams_nil.
  - intros H. apply bind_Ok in H as ([] & c1 & H1 & H). apply deleteChunk_Ok in H1.
    apply IH in H. by rewrite H, H1, delete_streams_app.
Qed.

(** A deletion transaction deletes all or nothing. *)
Lemma delete_transaction ids c r c' :
  transaction (deleteStreamsByIDs ids) c = (r, c') ->
  tables c' = match r with Ok _ => delete_streams ids (tables c) | Err _ => tables c end.
Proof.
  destruct r as [[]|e]; intros H.
  - apply transaction_Ok in H as (c1 & c2 & H1 & H2 & H3).
    apply deleteStreamsByIDs_Ok in H2. by rewrite H3, H2, H1.
  - by apply transaction_Err in H.
Qed.

Lemma id_in_true ids z : id_in ids z = true <-> z ∈ ids.
Proof. apply bool_decide_eq_true. Qed.
Lemma id_in_false ids z : negb (id_in ids z) = true <-> z ∉ ids.
Proof. rewrite negb_true_iff. apply bool_decide_eq_false. Qed.

Lemma stream_ids_delete ids d z : z ∈ stream_ids (delete_streams ids d) <-> z ∈ stream_ids d /\ z ∉ ids.
Proof.
  unfold stream_ids, delete_streams. simpl. rewrite !list_elem_of_fmap.
  setoid_rewrite elem_of_filter_bool. setoid_rewrite id_in_false. naive_solver.
Qed.

Lemma stream_ids_delete_NoDup ids d : NoDup (stream_ids d) -> NoDup (stream_ids (delete_streams ids d)).
Proof.
  unfold stream_ids, delete_streams. simpl. intros H1.
  induction (rtpmon_streams d) as [|s l IH]; simpl in *; [done|].
  apply NoDup_cons in H1 as [Hn H1]. destruct (negb _); simpl; [|auto]. constructor; [|auto].
  intros (s' & Heq & [Hin _]%elem_of_filter_bool)%list_elem_of_fmap. apply Hn. rewrite Heq.
  by apply list_elem_of_fmap_2.
Qed.

Lemma but_delete ids d : db_ok_but gone d -> db_ok_but gone (delete_streams ids d).
Proof.
  intros [H1 H2 H3 H4]. split.
  - by apply stream_ids_delete_NoDup.
  - intros r. simpl. rewrite elem_of_filter_bool, id_in_false. intros [Hr Hn].
    destruct (H2 r Hr); [left; by apply stream_ids_delete|by right].
  - intros r. simpl. rewrite elem_of_filter_bool, id_in_false. intros [Hr Hn].
    destruct (H3 r Hr); [left; by apply stream_ids_delete|by right].
  - intros r. simpl. rewrite elem_of_filter_bool, id_in_false. intros [Hr Hn].
    destruct (H4 r Hr); [left; by apply stream_ids_delete|by right].
Qed.

(** Apart from [gone] the stream map is injective. *)
Lemma stream_map_inj d sm em i j v :
  NoDup (stream_ids d) -> maps_ok_but gone d sm em -> sm !! i = Some v -> sm !! j = Some v -> v ∈ gone \/ i = j.
Proof.
  intros Hnd [H1 _] Hi Hj. destruct (H1 _ _ Hi) as [Hg|(s & Hs & Hv & <-)]; [by left|].
  destruct (H1 _ _ Hj) as [Hg|(s' & Hs' & Hv' & <-)]; [by left|]. right.
  f_equal. apply (stream_row_unique d); congruence.
Qed.

(** Maps that point to no deleted stream stay correct. *)
Lemma maps_but_delete ids d sm em sm' em' :
  maps_ok_but gone d sm em -> sm' ⊆ sm -> em' ⊆ em ->
  (forall id v, sm' !! id = Some v -> v ∈ ids -> v ∈ gone) ->
  (forall ep v, em' !! ep = Some v -> exists id, sm' !! id = Some v /\ endpointKey id = ep) ->
  maps_ok_but gone (delete_streams ids d) sm' em'.
Proof.
  intros [H1 H2] Hsm Hem Hids Hep. split; [|done].
  intros id v Hv. pose proof (Hids id v Hv) as Hnot.
  apply (lookup_weaken _ sm) in Hv; [|done]. apply H1 in Hv as [Hg|(s & Hs & <- & <-)]; [by left|].
  destruct (decide (s_stream_id s ∈ ids)) as [Hin|Hin]; [left; by apply Hnot|]. right.
  exists s. split; [|done]. unfold delete_streams. simpl.
  by rewrite elem_of_filter_bool, id_in_false.
Qed.

(** The loop deletes a prefix of its ids, all of them if it does not fail. *)
Lemma delete_chunks_spec l st c :
  let '(st', err, c') := delete_chunks l st c in
  exists done rest,
    concat l = done ++ rest /\ tables c' = delete_streams done (tables c) /\
    cl_Streams st' = cl_Streams st + Z.of_nat (length done) /\
    cl_SipEvents st' = cl_SipEvents st /\
    (err = None -> rest = [] /\ cl_Chunks st' = cl_Chunks st + Z.of_nat (length l)).
Proof.
  revert st c. induction l as [|ch l IH]; intros st c; simpl.
  { exists [], []. rewrite delete_streams_nil. split_and!; try done; [simpl; lia|].
    intros _. split; [done|lia]. }
  destruct (deleteStreamsTx ch c) as [[[]|e] c1] eqn:E; apply delete_transaction in E.
  - specialize (IH (MkCleanupStats (cl_Streams st + Z.of_nat (length ch)) (cl_Chunks st + 1) (cl_SipEvents st)) c1).
    destruct (delete_chunks l _ c1) as [[st' err] c']. destruct IH as (dn & rest & Hl & Ht & Hs & He & Hok).
    exists (ch ++ dn), rest. rewrite Hl, app_assoc, Ht, E, delete_streams_app. simpl in *.
    split_and!; try done; [rewrite length_app; lia|]. intros Herr. destruct (Hok Herr) as [-> Hc].
    split; [done|lia].
  - exists [], (ch ++ concat l). rewrite delete_streams_nil. split_and!; try done. simpl. lia.
Qed.

(** The tables after an uninterrupted pass. *)
Definition cleaned (cutoff : Z) (d : database) : database :=
  let d := delete_streams (expiredStreamsQuery cutoff d) d in
  delete_alarms cutoff (delete_health cutoff (delete_sip cutoff d).2).

(** A pass, failing or not: the streams of some expired ids are gone. *)
Lemma RemoveOldRecords_partial cutoff c :
  let '(st, err, c') := RemoveOldRecords cutoff c in
  exists done rest,
    (expiredStreamsQuery cutoff (tables c) = done ++ rest \/ done = []) /\
    let d := delete_streams done (tables c) in
    (tables c' = d \/ rest = [] /\ tables c' = (delete_sip cutoff d).2 \/
     rest = [] /\ tables c' = delete_health cutoff (delete_sip cutoff d).2 \/
     rest = [] /\ tables c' = delete_alarms cutoff (delete_health cutoff (delete_sip cutoff d).2)) /\
    (err = None -> expiredStreamsQuery cutoff (tables c) = done /\ tables c' = cleaned cutoff (tables c) /\
       cl_Streams st = Z.of_nat (length done) /\
       cl_Chunks st = Z.of_nat (length (chunks deleteChunkStreams done)) /\
       cl_SipEvents st = (delete_sip cutoff (tables c)).1).
Proof.
  unfold RemoveOldRecords, query.
  destruct (call _ c) as [[ids|e] c0] eqn:E0.
  2:{ apply call_Err in E0. exists [], []. rewrite delete_streams_nil, E0. split; [by right|].
      split; [by left|done]. }
  apply call_Ok in E0 as [-> E0]. cbn [fst snd] in E0 |- *.
  pose proof (delete_chunks_spec (chunks deleteChunkStreams (expiredStreamsQuery cutoff (tables c)))
    (MkCleanupStats 0 0 0) c0) as Hc.
  rewrite chunks_concat in Hc by (unfold deleteChunkStreams; lia). rewrite E0 in Hc.
  destruct (delete_chunks _ _ c0) as [[st err] c1].
  destruct Hc as (dn & rest & Hl & Ht & Hs & He & Hok).
  destruct err as [e|].
  { exists dn, rest. split; [by left|]. split; [by left|done]. }
  destruct (Hok eq_refl) as [-> Hch]. rewrite app_nil_r in Hl. rewrite Hl in Hch. simpl in *.
  assert (expiredStreamsQuery cutoff (tables c) = dn ++ [] \/ dn = []) as Hdn
    by (left; by rewrite app_nil_r).
  destruct (exec (delete_sip cutoff) c1) as [[n|e] c2] eqn:E1; apply retryBusy_call in E1.
  2:{ exists dn, []. split; [done|]. rewrite E1, Ht. split; [by left|done]. }
  destruct E1 as [-> E1]. unfold exec_.
  destruct (exec (fun d => (tt, delete_health cutoff d)) c2) as [[[]|e] c3] eqn:E2; apply retryBusy_call in E2.
  2:{ exists dn, []. split; [done|]. rewrite E2, E1, Ht. split; [by right; left|done]. }
  destruct E2 as [_ E2].
  destruct (exec (fun d => (tt, delete_alarms cutoff d)) c3) as [[[]|e] c4] eqn:E3; apply retryBusy_call in E3.
  2:{ exists dn, []. split; [done|]. rewrite E3, E2, E1, Ht. split; [by right; right; left|done]. }
  destruct E3 as [_ E3]. exists dn, []. split; [done|]. rewrite E3, E2, E1, Ht. simpl. split; [by right; right; right|].
  intros _. unfold cleaned. rewrite Hl. split_and!; try done; simpl; lia.
Qed.

(** * Every operation keeps the invariant *)

Lemma lift_transaction_db (body : M unit) w :
  let '(r, w') := lift (transaction body) w in
  streamMap w' = streamMap w /\ endpointMap w' = endpointMap w /\
  storeSipFilter w' = storeSipFilter w /\ recordsLimit w' = recordsLimit w /\
  transaction body (db w) = (r, db w').
Proof. unfold lift. by destruct (transaction body (db w)) as [r c]. Qed.

Lemma purgeStream_keeps id : keeps (purgeStream id).
Proof.
  apply keeps_bind_gets. intros w Hw. destruct (streamMap w !! id) as [dbID|] eqn:Hid; [|done].
  unfold wbind. pose proof (lift_transaction_db (deleteStreamsByIDs [dbID]) w) as H.
  destruct (lift _ w) as [[[]|e] w']; destruct H as (Hs & He & _ & _ & Ht); apply delete_transaction in Ht.
  - destruct Hw as [Hd Hm]. split; simpl; rewrite Ht.
    + by apply but_delete.
    + rewrite Hs, He. eapply maps_but_delete; [exact Hm|apply delete_subseteq|apply delete_subseteq| |].
      * intros j v. rewrite lookup_delete_Some. intros [Hne Hj] Hin%list_elem_of_singleton. subst v.
        by destruct (stream_map_inj _ _ _ _ _ _ (but_ids _ _ Hd) Hm Hid Hj).
      * intros ep v. rewrite lookup_delete_Some. intros [Hne Hep].
        destruct (but_endpoint _ _ _ _ Hm _ _ Hep) as (j & Hj & <-). exists j.
        rewrite lookup_delete_ne; [done|]. by intros ->.
  - by apply (writer_ok_same w).
Qed.

Lemma foldr_delete_lookup {K V A} `{Countable K} (f : A -> K) (l : list A) (m : gmap K V) k v :
  foldr (fun x m => delete (f x) m) m l !! k = Some v <-> k ∉ f <$> l /\ m !! k = Some v.
Proof.
  induction l as [|x l IH]; simpl; [set_solver|].
  rewrite lookup_delete_Some, IH, elem_of_cons. naive_solver.
Qed.

Lemma foldr_pair {K V A} `{Countable K} (f : MediaStreamId -> K) (l : list (MediaStreamId * A)) (m : gmap K V) :
  foldr (fun '(k, _) m => delete (f k) m) m l = foldr (fun x m => delete (f x.1) m) m l.
Proof. induction l as [|[k a] l IH]; simpl; [done|]. by rewrite IH. Qed.

Lemma forgetDBIDs_streamMap ids w id v :
  streamMap (forgetDBIDs ids w) !! id = Some v <-> streamMap w !! id = Some v /\ v ∉ ids.
Proof.
  unfold forgetDBIDs. simpl. rewrite (foldr_pair (fun k => k)), foldr_delete_lookup.
  rewrite list_elem_of_fmap. split.
  - intros [Hn Hv]. split; [done|]. intros Hin. apply Hn. exists (id, v). split; [done|].
    apply list_elem_of_filter. rewrite elem_of_map_to_list, id_in_true. done.
  - intros [Hv Hn]. split; [|done]. intros ([k u] & -> & Hku%list_elem_of_filter). simpl in *.
    rewrite elem_of_map_to_list, id_in_true in Hku. naive_solver.
Qed.

Lemma forgetDBIDs_endpointMap ids w ep v :
  endpointMap (forgetDBIDs ids w) !! ep = Some v <->
  endpointMap w !! ep = Some v /\
  forall id u, streamMap w !! id = Some u -> u ∈ ids -> endpointKey id <> ep.
Proof.
  unfold forgetDBIDs. simpl. rewrite (foldr_pair endpointKey), foldr_delete_lookup.
  rewrite list_elem_of_fmap. split.
  - intros [Hn Hv]. split; [done|]. intros id u Hid Hu <-. apply Hn. exists (id, u). split; [done|].
    apply list_elem_of_filter. rewrite elem_of_map_to_list, id_in_true. done.
  - intros [Hv Hn]. split; [|done]. intros ([k u] & -> & Hku%list_elem_of_filter). simpl in *.
    rewrite elem_of_map_to_list, id_in_true in Hku. naive_solver.
Qed.

Lemma forget_ok ids w :
  writer_ok_but gone w -> forall w', streamMap w' = streamMap w -> endpointMap w' = endpointMap w ->
  tables (db w') = delete_streams ids (tables (db w)) -> writer_ok_but gone (forgetDBIDs ids w').
Proof.
  intros [Hd Hm] w' Hs He Ht. split; simpl; rewrite Ht; [by apply but_delete|].
  eapply maps_but_delete; [exact Hm| | | |].
  - apply map_subseteq_spec. intros k v Hk.
    pose proof (proj1 (forgetDBIDs_streamMap ids w' k v) Hk). rewrite <- Hs. naive_solver.
  - apply map_subseteq_spec. intros k v Hk.
    pose proof (proj1 (forgetDBIDs_endpointMap ids w' k v) Hk). rewrite <- He. naive_solver.
  - intros k v Hk. pose proof (proj1 (forgetDBIDs_streamMap ids w' k v) Hk). naive_solver.
  - intros ep v Hk. pose proof (proj1 (forgetDBIDs_endpointMap ids w' ep v) Hk) as [Hep Hno].
    rewrite He in Hep. destruct (but_endpoint _ _ _ _ Hm _ _ Hep) as (j & Hj & Hjep). exists j.
    split; [|done]. apply (forgetDBIDs_streamMap ids w' j v). rewrite Hs. split; [done|].
    intros Hin. rewrite <- Hs in Hj. by apply (Hno j v Hj Hin).
Qed.

Lemma resolve_ids_db evict w :
  let '(r, w') := lift (resolve_ids evict) w in
  streamMap w' = streamMap w /\ endpointMap w' = endpointMap w /\ tables (db w') = tables (db w) /\
  match r with
  | Ok ids => forall z, z ∈ ids <->
      exists s, s ∈ rtpmon_streams (tables (db w)) /\ s_stream_id s = z /\ callKey s ∈ evict
  | Err _ => True
  end.
Proof.
  unfold lift, resolve_ids.
  pose proof (chunks_concat 500 evict ltac:(lia)) as Hc. revert Hc.
  generalize (chunks 500 evict). intros l <-.
  destruct (foldr resolve_chunk (ret []) l (db w)) as [r c] eqn:E. simpl. split; [done|]. split; [done|].
  revert c r E. generalize (db w) as c0. induction l as [|ch l IH]; intros c0 c r E; simpl in E.
  - unfold ret in E. simplify_eq. split; [done|]. intros z. split; [set_solver|].
    intros (s & _ & _ & Hs). set_solver.
  - unfold resolve_chunk at 1 in E. unfold bind at 1, query at 1 in E.
    destruct (call _ c0) as [[ids|e] c1] eqn:E1.
    + apply call_Ok in E1 as [-> E1]. simpl in E1. unfold bind at 1 in E.
      destruct (foldr resolve_chunk (ret []) l c1) as [[rest|e] c2] eqn:E2; apply IH in E2; unfold ret in E; simplify_eq.
      * destruct E2 as [E2 Hrest]. split; [by rewrite E2|]. intros z. simpl.
        rewrite elem_of_app, Hrest, E1. unfold ids_of_keys. rewrite list_elem_of_fmap.
        setoid_rewrite elem_of_filter_bool. setoid_rewrite bool_decide_eq_true.
        setoid_rewrite elem_of_app. naive_solver.
      * destruct E2 as [E2 _]. by rewrite E2.
    + apply call_Err in E1. simplify_eq. done.
Qed.

Lemma TrimToLastNCalls_keeps n : keeps (TrimToLastNCalls n).
Proof.
  unfold TrimToLastNCalls. destruct (n <=? 0); [apply keeps_ret|].
  apply keeps_bind; [apply keeps_query|]. intros groups.
  destruct (_ <=? n); [apply keeps_ret|]. intros w Hw. unfold wbind at 1.
  pose proof (resolve_ids_db (drop (Z.to_nat n) groups.*1) w) as H.
  destruct (lift (resolve_ids _) w) as [[ids|e] w1]; destruct H as (Hs1 & He1 & Ht1 & _);
    [|by apply (writer_ok_same w)].
  unfold wbind. pose proof (lift_transaction_db (deleteStreamsByIDs ids) w1) as H.
  destruct (lift _ w1) as [[[]|e] w2]; destruct H as (Hs2 & He2 & _ & _ & Ht); apply delete_transaction in Ht.
  - apply (forget_ok ids w1); try done. by apply (writer_ok_same w).
  - apply (writer_ok_same w1); [done..|]. by apply (writer_ok_same w).
Qed.

Section inserts.
Context `{UnicodeTables} (new_id : list Z -> Z).
Hypothesis new_id_fresh : forall ids, new_id ids ∉ ids.

Lemma FindOrAddAgent_keeps a b : keeps (FindOrAddAgent new_id a b).
Proof using new_id_fresh.
  unfold FindOrAddAgent. apply keeps_bind; [apply keeps_gets|]. intros cache.
  destruct (cache !! a); [apply keeps_ret|].
  apply keeps_bind; [apply keeps_query|]. intros found.
  apply keeps_bind.
  - destruct found; [apply keeps_ret|]. by apply keeps_exec_same.
  - intros id. apply keeps_bind; [|intros; apply keeps_ret]. by apply keeps_modify_maps.
Qed.

(** The agent lookup does not touch the maps or the stream rows. *)
Lemma FindOrAddAgent_same a b w :
  let '(_, w') := FindOrAddAgent new_id a b w in
  streamMap w' = streamMap w /\ endpointMap w' = endpointMap w /\
  same_streams (tables (db w)) (tables (db w')).
Proof using new_id_fresh.
  unfold FindOrAddAgent, wbind, gets. destruct (agentCache w !! a); [by split|].
  pose proof (lift_query_db (find_agent a) w) as Hq.
  destruct (lift (query (find_agent a)) w) as [[found|e] w1]; destruct Hq as (Hs & He & _ & _ & Ht & _);
    [|by rewrite Ht, Hs, He; split].
  destruct found as [id|]; simpl; [by rewrite Hs, He, Ht; split|].
  pose proof (lift_exec_db (insert_agent new_id a b) w1) as Hx.
  destruct (lift (exec _) w1) as [[id|e] w2]; destruct Hx as (Hs2 & He2 & _ & _ & Hd); simpl.
  - destruct Hd as [_ Hd]. rewrite Hs2, He2, Hs, He, Hd, Ht. by split.
  - rewrite Hs2, He2, Hs, He, Hd, Ht. by split.
Qed.

(** A new stream row and its map entries. *)
Lemma insert_stream_but id agentRow ts d sm em :
  db_ok_but gone d -> maps_ok_but gone d sm em -> sm !! id = None ->
  let '(dbID, d') := insert_stream new_id id agentRow ts d in
  db_ok_but gone d' /\ maps_ok_but gone d' sm em /\ maps_ok_but gone d' (<[id := dbID]> sm) (<[endpointKey id := dbID]> em).
Proof using new_id_fresh.
  intros [H1 H2 H3 H4] [H5 H6] Hnone. unfold insert_stream.
  set (dbID := new_id _). set (row := MkStreamRow dbID _ _ _ _ _ _ _ _ _ _ _).
  assert (forall z, attached gone d z -> attached gone (set_streams (rtpmon_streams d ++ [row]) d) z) as Hmono.
  { intros z [Hz|Hz]; [left|by right]. unfold stream_ids. simpl. rewrite fmap_app, elem_of_app. by left. }
  assert (row_identity row = id) as Hrow by by destruct id.
  assert (maps_ok_but gone (set_streams (rtpmon_streams d ++ [row]) d) sm em) as Hm.
  { split; [|done]. intros i v [Hg|(s & Hs & ?)]%H5; [by left|right]. exists s. split; [|done].
    simpl. apply elem_of_app. by left. }
  split; [|split; [exact Hm|]].
  - split; eauto. unfold stream_ids. simpl. rewrite fmap_app. apply NoDup_app.
    split; [done|]. split; [|apply NoDup_singleton].
    intros z Hz Hin%list_elem_of_singleton. subst z. by apply new_id_fresh in Hz.
  - split.
    + intros i v. rewrite lookup_insert_Some. intros [[<- <-]|[Hne Hi]].
      * right. exists row. split; [|done]. simpl. apply elem_of_app. right. by apply list_elem_of_singleton.
      * by apply (but_stream _ _ _ _ Hm).
    + intros ep v. rewrite lookup_insert_Some. intros [[<- <-]|[Hne Hep]].
      * exists id. by rewrite lookup_insert_eq.
      * apply H6 in Hep as (j & Hj & <-). exists j. split; [|done].
        rewrite lookup_insert_ne; [done|]. by intros ->.
Qed.

Lemma OpenStreamAt_keeps id ts : keeps (OpenStreamAt new_id id ts).
Proof using new_id_fresh.
  apply keeps_bind_gets. intros w Hw. destruct (streamMap w !! id) as [|] eqn:Hnone; [done|].
  unfold wbind at 1, gets. unfold wbind at 1.
  pose proof (FindOrAddAgent_keeps (defaultAgentID w) (defaultAgentName w) w Hw) as Hw1.
  pose proof (FindOrAddAgent_same (defaultAgentID w) (defaultAgentName w) w) as Hsame.
  simpl. destruct (FindOrAddAgent new_id _ _ w) as [[agentRow|e] w1]; [|done].
  destruct Hsame as (Hs & _ & _). simpl in Hw1. unfold wbind.
  pose proof (lift_exec_db (insert_stream new_id id agentRow ts) w1) as Hx.
  pose proof (insert_stream_but id agentRow ts (tables (db w1)) (streamMap w1) (endpointMap w1)
    (proj1 Hw1) (proj2 Hw1) ltac:(by rewrite Hs)) as Hins.
  destruct (insert_stream new_id id agentRow ts (tables (db w1))) as [dbID d'] eqn:E.
  destruct Hins as (Hd & Hm & Hm').
  destruct (lift (exec _) w1) as [[dbID'|e] w2]; destruct Hx as (Hs2 & He2 & _ & _ & Hx); simpl.
  - simpl in Hx. destruct Hx as [-> Hx]. unfold writer_ok_but. simpl. by rewrite Hx, Hs2, He2.
  - by apply (writer_ok_same w1).
Qed.

(** What an opened stream leaves in the map. *)
Lemma OpenStreamAt_mapped id ts w dbID w' :
  OpenStreamAt new_id id ts w = (Ok dbID, w') -> streamMap w' !! id = Some dbID.
Proof using.
  intros Ho. unfold OpenStreamAt, wbind, gets in Ho.
  destruct (streamMap w !! id) as [v|] eqn:Hid; [unfold wret in Ho; by simplify_eq|].
  destruct (FindOrAddAgent new_id _ _ w) as [[agentRow|e] w1]; [|done].
  destruct (lift (exec _) w1) as [[v|e] w2]; [|done].
  unfold modify, wret in Ho. simplify_eq. simpl. by rewrite lookup_insert_eq.
Qed.

Lemma insert_report_but table row d sm em :
  attached gone d (r_stream_id row) -> db_ok_but gone d -> maps_ok_but gone d sm em ->
  db_ok_but gone (insert_report table row d) /\ maps_ok_but gone (insert_report table row d) sm em.
Proof using.
  intros Hrow [H1 H2 H3 H4] Hm. destruct table; simpl.
  - split; [|by apply (maps_but_same d)]. split; try done. intros r. simpl.
    rewrite elem_of_app, list_elem_of_singleton. intros [Hr| ->]; [by apply H2|done].
  - split; [|by apply (maps_but_same d)]. split; try done. intros r. simpl.
    rewrite elem_of_app, list_elem_of_singleton. intros [Hr| ->]; [by apply H3|done].
Qed.

Lemma map_target_in w id v :
  writer_ok_but gone w -> streamMap w !! id = Some v -> attached gone (tables (db w)) v.
Proof using.
  intros [_ Hm] Hv. destruct (but_stream _ _ _ _ Hm _ _ Hv) as [Hg|(s & Hs & <- & _)]; [by right|left].
  by apply list_elem_of_fmap_2.
Qed.

(** A write of a report, once its stream is open. *)
Lemma insert_report_keeps_at table row w :
  writer_ok_but gone w -> attached gone (tables (db w)) (r_stream_id row) ->
  writer_ok_but gone (lift (exec_ (insert_report table row)) w).2.
Proof using.
  intros Hw Hrow.
  pose proof (lift_exec_db (fun d => (tt, insert_report table row d)) w) as Hx. unfold exec_.
  destruct (lift (exec _) w) as [[[]|e] w']; destruct Hx as (Hs & He & _ & _ & Hx).
  - destruct Hx as [_ Hx]. unfold writer_ok_but. simpl. rewrite Hs, He, Hx. simpl.
    by apply insert_report_but; [|apply Hw|apply Hw].
  - by apply (writer_ok_same w).
Qed.

Lemma addReport_keeps now report table : keeps (addReport new_id now report table).
Proof using new_id_fresh.
  apply keeps_bind_gets. intros w Hw. destruct (streamMap w !! StreamID report) as [dbID|] eqn:Hid.
  - unfold wbind, wret. apply insert_report_keeps_at; [done|]. by eapply map_target_in.
  - unfold wbind. pose proof (OpenStreamAt_keeps (StreamID report) now w Hw) as Hk.
    destruct (OpenStreamAt new_id (StreamID report) now w) as [[dbID|e] w1] eqn:Ho; [|done].
    apply OpenStreamAt_mapped in Ho. apply insert_report_keeps_at; [exact Hk|]. by eapply map_target_in.
Qed.

Lemma update_sip_ids dbID report d : stream_ids (update_sip dbID report d) = stream_ids d.
Proof using.
  unfold stream_ids, update_sip. simpl. rewrite <- list_fmap_compose. apply list_fmap_ext.
  intros i s _. simpl. by destruct (s_stream_id s =? dbID).
Qed.

Lemma update_sip_but dbID report d sm em :
  db_ok_but gone d -> maps_ok_but gone d sm em ->
  db_ok_but gone (update_sip dbID report d) /\ maps_ok_but gone (update_sip dbID report d) sm em.
Proof using.
  intros [H1 H2 H3 H4] [H5 H6]. split.
  - split; unfold attached; rewrite ?update_sip_ids; done.
  - split; [|done]. intros id v [Hg|(s & Hs & Hv & Hi)]%H5; [by left|right].
    exists (if s_stream_id s =? dbID
       then MkStreamRow (s_stream_id s) (s_link_id s) (s_src_ip s) (s_src_port s) (s_dst_ip s)
              (s_dst_port s) (s_ssrc s) (Some (SipPeerA report)) (Some (SipPeerB report))
              (Some (SipCallID report)) (s_agent_id s) (s_created_ts s)
       else s). split; [|by destruct (s_stream_id s =? dbID)].
    unfold update_sip. simpl. apply list_elem_of_fmap. by exists s.
Qed.

Lemma maybeUpdateSip_keeps report : keeps (maybeUpdateSip report).
Proof using.
  unfold maybeUpdateSip. case_match; [apply keeps_ret|].
  apply keeps_bind; [apply keeps_gets|]. intros sm. case_match; [|apply keeps_ret].
  apply keeps_exec. intros w [Hd Hm]. by apply update_sip_but.
Qed.

Lemma AddInterval_keeps now report : keeps (AddInterval new_id now report).
Proof using new_id_fresh.
  apply keeps_bind; [apply keeps_gets|]. intros skip. destruct skip; [apply keeps_ret|].
  apply keeps_bind; [apply addReport_keeps|]. intros _. apply maybeUpdateSip_keeps.
Qed.

Lemma AddFinal_keeps now report : keeps (AddFinal new_id now report).
Proof using new_id_fresh.
  apply keeps_bind; [apply keeps_gets|]. intros b. destruct b; [apply purgeStream_keeps|].
  apply keeps_bind; [apply addReport_keeps|]. intros _.
  apply keeps_bind; [apply maybeUpdateSip_keeps|]. intros _.
  apply keeps_bind; [apply keeps_gets|]. intros limit.
  destruct (0 <? limit); [apply TrimToLastNCalls_keeps|apply keeps_ret].
Qed.

Lemma AddAudio_keeps audio : keeps (AddAudio new_id audio).
Proof using.
  unfold AddAudio. case_match; [apply keeps_ret|].
  apply keeps_bind_gets. intros w Hw. unfold wbind, gets.
  assert (forall dbID, attached gone (tables (db w)) dbID ->
    writer_ok_but gone (lift (exec_ (insert_audio new_id dbID audio)) w).2) as Hins.
  { intros dbID Hin.
    pose proof (lift_exec_db (fun d => (tt, insert_audio new_id dbID audio d)) w) as Hx. unfold exec_.
    destruct (lift (exec _) w) as [[[]|e] w']; destruct Hx as (Hs & He & _ & _ & Hx);
      [|by apply (writer_ok_same w)].
    destruct Hx as [_ Hx]. unfold writer_ok_but. simpl. rewrite Hs, He, Hx.
    destruct Hw as [[H1 H2 H3 H4] Hm]. split; [|by apply (maps_but_same (tables (db w)))].
    split; try done. intros r. simpl. rewrite elem_of_app, list_elem_of_singleton.
    intros [Hr| ->]; [by apply H4|exact Hin]. }
  destruct (streamMap w !! sa_StreamID audio) as [dbID|] eqn:E1.
  - apply Hins. by eapply map_target_in.
  - destruct (endpointMap w !! endpointKey (sa_StreamID audio)) as [dbID|] eqn:E2; [|done].
    apply Hins. apply (but_endpoint _ _ _ _ (proj2 Hw)) in E2 as (j & Hj & _). by eapply map_target_in.
Qed.

Lemma insertSip_keeps values : keeps (insertSip new_id values).
Proof using. by apply keeps_exec_same. Qed.

Lemma AddCallHealth_keeps e : keeps (AddCallHealth new_id e).
Proof using. by apply keeps_exec_same. Qed.

Lemma SetProperty_keeps name value : keeps (SetProperty name value).
Proof using.
  unfold SetProperty. apply keeps_bind; [apply keeps_query|].
  intros []; by apply keeps_exec_same.
Qed.

Lemma RemoveOldAudio_keeps cutoff : keeps (lift (RemoveOldAudio cutoff)).
Proof using.
  apply keeps_exec. intros w [[H1 H2 H3 H4] Hm]. split; [|by apply (maps_but_same (tables (db w)))].
  split; try done. intros u. cbn. rewrite elem_of_filter_bool. intros [Hu _]. by apply H4.
Qed.

Lemma new_writer_but fs agent name limit filters :
  writer_ok_but gone (MkWriter (MkConn empty_database fs) agent name ∅ ∅ ∅ limit filters).
Proof using.
  split; simpl.
  - split; simpl; [constructor|by intros ? ?%elem_of_nil..].
  - split; intros *; by rewrite lookup_empty.
Qed.
End inserts.
End keeping.

(** * Histories *)

(** The lemmas without exception. *)
Lemma db_ok_same d d' : same_streams d d' -> db_ok d -> db_ok d'.
Proof. intros Hs Hd%db_ok_nil. by apply db_ok_nil, (but_same [] d). Qed.
Lemma db_ok_delete ids d : db_ok d -> db_ok (delete_streams ids d).
Proof. intros Hd%db_ok_nil. by apply db_ok_nil, but_delete. Qed.
Lemma maps_ok_same d d' sm em : rtpmon_streams d' = rtpmon_streams d -> maps_ok d sm em -> maps_ok d' sm em.
Proof. intros Hs Hm%maps_ok_nil. by apply maps_ok_nil, (maps_but_same [] d). Qed.

Lemma keeps_nil {A} (m : W A) : keeps [] m -> forall w, writer_ok w -> writer_ok (m w).2.
Proof. intros Hm w Hw%writer_ok_nil. by apply writer_ok_nil, Hm. Qed.

(** More ids may be gone. *)
Lemma writer_ok_weaken l1 l2 w : writer_ok_but l1 w -> writer_ok_but (l1 ++ l2) w.
Proof.
  assert (forall d z, attached l1 d z -> attached (l1 ++ l2) d z) as Ha
    by (unfold attached; intros d z; rewrite elem_of_app; tauto).
  intros [[H1 H2 H3 H4] [H5 H6]]. split; split; auto. intros id v Hv. rewrite elem_of_app. destruct (H5 id v Hv); auto.
Qed.

Section history.
Context `{UnicodeTables} (new_id : list Z -> Z).
Context (new_id_fresh : forall ids, new_id ids ∉ ids).

(** The writer's operations: those the bus goroutine and the API call, and the
    two of the cleanup goroutine. *)
Inductive wop :=
| OOpen (id : MediaStreamId) (now : Z)
| OInterval (now : Z) (r : StreamReport)
| OFinal (now : Z) (r : StreamReport)
| OAudio (a : StreamAudio)
| OCallStart (e : SipCallStart)
| OCallEnd (e : SipCallEnd)
| OReinvite (e : SipReinvite)
| OCallFailed (e : SipCallFailed)
| OHealth (e : CallHealth)
| OTrim (n : Z)
| OSetProperty (name value : string)
| ORemoveOldRecords (cutoff : Z)
| ORemoveOldAudio (cutoff : Z).

Definition run_op (op : wop) : W unit :=
  match op with
  | OOpen id now => let! _ := OpenStreamAt new_id id now in wret tt
  | OInterval now r => AddInterval new_id now r
  | OFinal now r => AddFinal new_id now r
  | OAudio a => AddAudio new_id a
  | OCallStart e => AddSipCallStart new_id e
  | OCallEnd e => AddSipCallEnd new_id e
  | OReinvite e => AddSipReinvite new_id e
  | OCallFailed e => AddSipCallFailed new_id e
  | OHealth e => AddCallHealth new_id e
  | OTrim n => TrimToLastNCalls n
  | OSetProperty name value => SetProperty name value
  | ORemoveOldRecords cutoff => fun w =>
      let '(_, err, c) := RemoveOldRecords cutoff (db w) in
      (match err with None => Ok tt | Some e => Err e end, with_db c w)
  | ORemoveOldAudio cutoff => let! _ := lift (RemoveOldAudio cutoff) in wret tt
  end.

(** A history: each operation runs whatever became of the one before, as the
    callers only log errors. *)
Definition run_ops (ops : list wop) (w : writer) : writer :=
  fold_left (fun w op => (run_op op w).2) ops w.

(** The ids whose rows the cleanup passes of a history deleted. *)
Definition removed (op : wop) (w : writer) : list Z :=
  match op with
  | ORemoveOldRecords _ =>
      List.filter (fun z => negb (id_in (stream_ids (tables (db (run_op op w).2))) z)) (stream_ids (tables (db w)))
  | _ => []
  end.
Fixpoint retired (ops : list wop) (w : writer) : list Z :=
  match ops with
  | [] => []
  | op :: ops => removed op w ++ retired ops (run_op op w).2
  end.

Definition is_cleanup (op : wop) : bool := match op with ORemoveOldRecords _ => true | _ => false end.

(** What a cleanup pass, failing or not, does to the tables of the streams. *)
Lemma RemoveOldRecords_deletes cutoff c :
  exists ids, same_streams (delete_streams ids (tables c)) (tables (RemoveOldRecords cutoff c).2).
Proof using.
  pose proof (RemoveOldRecords_partial cutoff c) as Hp. destruct (RemoveOldRecords cutoff c) as [[st err] c'].
  destruct Hp as (ids & rest & _ & Ht & _). exists ids. cbn [snd].
  by destruct Ht as [->|[[_ ->]|[[_ ->]|[_ ->]]]].
Qed.

Lemma RemoveOldRecords_keeps gone cutoff w : writer_ok_but gone w ->
  writer_ok_but (gone ++ removed (ORemoveOldRecords cutoff) w) (run_op (ORemoveOldRecords cutoff) w).2.
Proof using.
  intros Hw. destruct (RemoveOldRecords_deletes cutoff (db w)) as [ids Hs].
  assert ((run_op (ORemoveOldRecords cutoff) w).2 = with_db (RemoveOldRecords cutoff (db w)).2 w) as E
    by (cbn; by destruct (RemoveOldRecords cutoff (db w)) as [[st err] c]).
  assert (forall z, z ∈ stream_ids (tables (db w)) -> z ∈ ids -> z ∈ removed (ORemoveOldRecords cutoff) w) as Hr.
  { intros z Hz Hin. unfold removed. rewrite E. cbn [db with_db]. apply elem_of_filter_bool. split; [done|].
    apply id_in_false. unfold stream_ids. rewrite (proj1 Hs). fold (stream_ids (delete_streams ids (tables (db w)))).
    by intros [_ Hn]%stream_ids_delete. }
  rewrite E. set (gone' := gone ++ removed _ w) in *.
  destruct (writer_ok_weaken gone (removed (ORemoveOldRecords cutoff) w) w Hw) as [Hd Hm]. split; cbn [db with_db streamMap endpointMap].
  - apply (but_same _ (delete_streams ids (tables (db w)))); [done|]. by apply but_delete.
  - apply (maps_but_same _ (delete_streams ids (tables (db w)))); [apply Hs|].
    eapply maps_but_delete; [exact Hm|done|done| |apply Hm]. intros id v Hv Hin. apply elem_of_app.
    destruct (but_stream _ _ _ _ (proj2 Hw) id v Hv) as [Hg|(s & Hin' & <- & _)]; [by left|right].
    apply Hr; [|done]. by apply list_elem_of_fmap_2.
Qed.

Lemma run_op_keeps gone op w : writer_ok_but gone w -> writer_ok_but (gone ++ removed op w) (run_op op w).2.
Proof using new_id_fresh.
  intros Hw. destruct (is_cleanup op) eqn:Ec; [destruct op; try done; by apply RemoveOldRecords_keeps|].
  assert (removed op w = []) as -> by by destruct op. rewrite app_nil_r. revert w Hw. change (keeps gone (run_op op)).
  destruct op; cbn [run_op]; try done.
  - apply keeps_bind; [by apply OpenStreamAt_keeps|]. intros. apply keeps_ret.
  - by apply AddInterval_keeps.
  - by apply AddFinal_keeps.
  - apply AddAudio_keeps.
  - apply insertSip_keeps.
  - apply insertSip_keeps.
  - apply insertSip_keeps.
  - apply insertSip_keeps.
  - apply AddCallHealth_keeps.
  - apply TrimToLastNCalls_keeps.
  - apply SetProperty_keeps.
  - apply keeps_bind; [apply RemoveOldAudio_keeps|]. intros. apply keeps_ret.
Qed.

Lemma run_ops_keeps_but gone ops w : writer_ok_but gone w -> writer_ok_but (gone ++ retired ops w) (run_ops ops w).
Proof using new_id_fresh.
  revert gone w. induction ops as [|op ops IH]; intros gone w Hw; [by rewrite app_nil_r|].
  cbn [retired]. rewrite app_assoc. apply (IH (gone ++ removed op w) (run_op op w).2). by apply run_op_keeps.
Qed.

Lemma retired_none ops w : forallb (fun op => negb (is_cleanup op)) ops = true -> retired ops w = [].
Proof using.
  revert w. induction ops as [|op ops IH]; intros w; [done|]. cbn. intros [Ho Hops]%andb_true_iff.
  rewrite IH by done. by destruct op.
Qed.

(** Without a cleanup pass. *)
Lemma run_ops_keeps ops w : forallb (fun op => negb (is_cleanup op)) ops = true -> writer_ok w -> writer_ok (run_ops ops w).
Proof using new_id_fresh.
  intros Hops Hw%writer_ok_nil. apply writer_ok_nil. rewrite <- (retired_none ops w Hops). by apply (run_ops_keeps_but []).
Qed.

Lemma new_writer_ok fs agent name limit filters :
  writer_ok (MkWriter (MkConn empty_database fs) agent name ∅ ∅ ∅ limit filters).
Proof using. apply writer_ok_nil, new_writer_but. Qed.

Lemma OpenStreamAt_Ok id ts w dbID w' :
  writer_ok w -> OpenStreamAt new_id id ts w = (Ok dbID, w') ->
  writer_ok w' /\ streamMap w' !! id = Some dbID /\
  exists s, s ∈ rtpmon_streams (tables (db w')) /\ s_stream_id s = dbID /\ row_identity s = id.
Proof using new_id_fresh.
  intros Hw%writer_ok_nil Ho. pose proof (OpenStreamAt_keeps [] new_id new_id_fresh id ts w Hw) as Hw'.
  rewrite Ho in Hw'. apply writer_ok_nil in Hw'. pose proof (OpenStreamAt_mapped _ _ _ _ _ _ Ho) as Hm.
  split; [done|]. split; [done|]. by apply (ok_stream _ _ _ (proj2 Hw')).
Qed.

(** C2. Any history of the writer's operations, the cleanup's included, one after
    the other and with any faults of the database.  Stream ids stay unique; every
    interval, statistics and audio row belongs to a stream row, each entry of the
    stream map points to the row of its own identity, and each entry of the
    endpoint map to a mapped stream with that endpoint - up to the ids whose rows
    a cleanup pass of the history deleted, which the maps are not told of.
    Without a cleanup pass there is no exception. *)
Theorem writer_invariant ops fs agent name limit filters :
  let w0 := MkWriter (MkConn empty_database fs) agent name ∅ ∅ ∅ limit filters in
  writer_ok_but (retired ops w0) (run_ops ops w0) /\
  (forallb (fun op => negb (is_cleanup op)) ops = true -> writer_ok (run_ops ops w0)).
Proof using new_id_fresh.
  intros w0. split; [apply (run_ops_keeps_but []), new_writer_but|]. intros Hops. by apply run_ops_keeps, new_writer_ok.
Qed.
End history.

(** * The options are read only *)

(** No operation changes the records limit or the SIP filter. *)
Definition options_are (limit : Z) (filters : list string) (w : writer) : Prop :=
  recordsLimit w = limit /\ storeSipFilter w = filters.

Definition preserves (I : writer -> Prop) {A} (m : W A) : Prop := forall w, I w -> I (m w).2.

Lemma preserves_ret I {A} (a : A) : preserves I (wret a).
Proof. by intros w. Qed.
Lemma preserves_gets I {A} (f : writer -> A) : preserves I (gets f).
Proof. by intros w. Qed.
Lemma preserves_bind (I : writer -> Prop) {A B} (m : W A) (k : A -> W B) :
  preserves I m -> (forall a, preserves I (k a)) -> preserves I (wbind m k).
Proof.
  intros Hm Hk w Hw. unfold wbind. specialize (Hm w Hw).
  destruct (m w) as [[a|e] w']; [|done]. by apply Hk.
Qed.
Lemma preserves_lift limit filters {A} (m : M A) : preserves (options_are limit filters) (lift m).
Proof. intros w Hw. unfold lift. by destruct (m (db w)). Qed.
Lemma preserves_modify (I : writer -> Prop) f : (forall w, I w -> I (f w)) -> preserves I (modify f).
Proof. intros Hf w Hw. by apply Hf. Qed.

Ltac keep_options :=
  repeat first
    [ assumption | apply preserves_ret | apply preserves_gets | apply preserves_lift
    | apply preserves_modify; done | apply preserves_bind; [|intros] | case_match ].

Lemma run_op_options `{UnicodeTables} new_id limit filters op :
  preserves (options_are limit filters) (run_op new_id op).
Proof.
  assert (forall id, preserves (options_are limit filters) (purgeStream id)) as Hpurge
    by (intros; unfold purgeStream; keep_options).
  assert (forall n, preserves (options_are limit filters) (TrimToLastNCalls n)) as Htrim
    by (intros; unfold TrimToLastNCalls; keep_options).
  assert (forall id ts, preserves (options_are limit filters) (OpenStreamAt new_id id ts)) as Hopen
    by (intros; unfold OpenStreamAt, FindOrAddAgent; keep_options).
  assert (forall now r t, preserves (options_are limit filters) (addReport new_id now r t)) as Hadd
    by (intros; unfold addReport; keep_options; apply Hopen).
  assert (forall r, preserves (options_are limit filters) (maybeUpdateSip r)) as Hsip
    by (intros; unfold maybeUpdateSip; keep_options).
  destruct op; simpl; unfold AddInterval, AddFinal, AddAudio, AddSipCallStart, AddSipCallEnd,
    AddSipReinvite, AddSipCallFailed, insertSip, AddCallHealth, SetProperty; keep_options;
    auto.
  intros w Hw. by destruct (RemoveOldRecords cutoff (db w)) as [[st err] c].
Qed.

Lemma addReport_options `{UnicodeTables} new_id now r t w :
  recordsLimit (addReport new_id now r t w).2 = recordsLimit w /\
  storeSipFilter (addReport new_id now r t w).2 = storeSipFilter w.
Proof.
  assert (preserves (options_are (recordsLimit w) (storeSipFilter w)) (addReport new_id now r t)) as Hp.
  { unfold addReport, OpenStreamAt, FindOrAddAgent. keep_options. }
  by apply Hp.
Qed.

(** * Storing a final report *)

Section finals.
Context `{UnicodeTables} (new_id : list Z -> Z).
Hypothesis new_id_fresh : forall ids, new_id ids ∉ ids.

(** The parts of the state that opening a stream and writing its report leave
    alone. *)
Definition same_reports (d d' : database) : Prop :=
  rtpmon_intervals d' = rtpmon_intervals d /\ rtpmon_statistics d' = rtpmon_statistics d /\
  rtpmon_audio d' = rtpmon_audio d.

Lemma OpenStreamAt_same id ts w :
  let '(_, w') := OpenStreamAt new_id id ts w in
  same_reports (tables (db w)) (tables (db w')).
Proof using new_id_fresh.
  unfold OpenStreamAt, wbind, gets. destruct (streamMap w !! id); [by repeat split|]. simpl.
  pose proof (FindOrAddAgent_same new_id new_id_fresh (defaultAgentID w) (defaultAgentName w) w) as Hs.
  destruct (FindOrAddAgent new_id _ _ w) as [[agentRow|e] w1]; destruct Hs as (_ & _ & _ & Hi & Ht & Ha);
    [|by repeat split].
  pose proof (lift_exec_db (insert_stream new_id id agentRow ts) w1) as Hx.
  destruct (lift (exec _) w1) as [[dbID|e] w2]; destruct Hx as (_ & _ & _ & _ & Hx); simpl.
  - destruct Hx as [_ ->]. by repeat split.
  - rewrite Hx. by repeat split.
Qed.

Lemma addReport_Ok now report table w w' :
  writer_ok w -> addReport new_id now report table w = (Ok tt, w') ->
  exists dbID d, streamMap w' !! StreamID report = Some dbID /\
    same_reports (tables (db w)) d /\
    tables (db w') = insert_report table (report_values dbID report) d.
Proof using new_id_fresh.
  intros Hw Ho. unfold addReport, wbind, gets in Ho.
  destruct (streamMap w !! StreamID report) as [dbID|] eqn:Hid.
  - unfold wret in Ho.
    pose proof (lift_exec_db (fun d => (tt, insert_report table (report_values dbID report) d)) w) as Hx.
    unfold exec_ in Ho. rewrite Ho in Hx. destruct Hx as (Hs & _ & _ & _ & _ & Hx).
    exists dbID, (tables (db w)). rewrite Hs, Hx. by repeat split.
  - pose proof (OpenStreamAt_same (StreamID report) now w) as Hsame.
    destruct (OpenStreamAt new_id (StreamID report) now w) as [[dbID|e] w1] eqn:Eo; [|done].
    apply (OpenStreamAt_Ok new_id new_id_fresh) in Eo as (_ & Hmap & _); [|done].
    pose proof (lift_exec_db (fun d => (tt, insert_report table (report_values dbID report) d)) w1) as Hx.
    unfold exec_ in Ho. rewrite Ho in Hx. destruct Hx as (Hs & _ & _ & _ & _ & Hx).
    exists dbID, (tables (db w1)). rewrite Hs, Hx. split; [done|]. by split; [exact Hsame|].
Qed.

(** The SIP fields of a stream row agree with a report that has a Call-ID. *)
Definition sip_recorded (report : StreamReport) (s : stream_row) : Prop :=
  SipCallID report <> "" ->
  s_sip_callid s = Some (SipCallID report) /\ s_sip_source s = Some (SipPeerA report) /\
  s_sip_destination s = Some (SipPeerB report).

Lemma maybeUpdateSip_Ok report dbID w w' :
  writer_ok w -> streamMap w !! StreamID report = Some dbID ->
  maybeUpdateSip report w = (Ok tt, w') ->
  same_reports (tables (db w)) (tables (db w')) /\ streamMap w' = streamMap w /\
  recordsLimit w' = recordsLimit w /\
  exists s, s ∈ rtpmon_streams (tables (db w')) /\ s_stream_id s = dbID /\
    row_identity s = StreamID report /\ sip_recorded report s.
Proof using.
  intros Hw Hmap. pose proof (ok_stream _ _ _ (proj2 Hw) _ _ Hmap) as (s & Hs & Hv & Hi).
  unfold maybeUpdateSip, sip_recorded.
  destruct (String.eqb_spec (SipCallID report) "") as [Hc|Hc].
  { intros [= <-]. repeat split. exists s. by repeat split. }
  unfold wbind, gets. rewrite Hmap. intros Ho.
  pose proof (lift_exec_db (fun d => (tt, update_sip dbID report d)) w) as Hx.
  unfold exec_ in Ho. rewrite Ho in Hx. destruct Hx as (Hsm & _ & _ & Hlim & _ & Hx).
  rewrite Hx, Hsm, Hlim. repeat split. simpl.
  eexists. split; [apply list_elem_of_fmap; exists s; split; [reflexivity|done]|].
  rewrite Hv, Z.eqb_refl. by repeat split.
Qed.

Lemma AddFinal_Ok now report w w' :
  writer_ok w -> recordsLimit w <= 0 ->
  sipFilterActive w && negb (sipMatches w report) = false ->
  AddFinal new_id now report w = (Ok tt, w') ->
  exists dbID s,
    rtpmon_statistics (tables (db w')) =
      rtpmon_statistics (tables (db w)) ++ [report_values dbID report] /\
    rtpmon_intervals (tables (db w')) = rtpmon_intervals (tables (db w)) /\
    streamMap w' !! StreamID report = Some dbID /\
    s ∈ rtpmon_streams (tables (db w')) /\ s_stream_id s = dbID /\
    row_identity s = StreamID report /\ sip_recorded report s.
Proof using new_id_fresh.
  intros Hw Hlim Hf Ho. unfold AddFinal, wbind, gets in Ho. rewrite Hf in Ho.
  pose proof (keeps_nil _ (addReport_keeps [] new_id new_id_fresh now report Statistics) w Hw) as Hk.
  destruct (addReport new_id now report Statistics w) as [[[]|e] w1] eqn:E1; [|done].
  pose proof E1 as E1'. apply addReport_Ok in E1 as (dbID & d & Hmap & (Hi & Ht & _) & Htab); [|done].
  destruct (maybeUpdateSip report w1) as [[[]|e] w2] eqn:E2; [|done].
  apply (maybeUpdateSip_Ok report dbID) in E2 as ((Hi2 & Ht2 & _) & Hsm & Hl2 & s & Hs); [|done|done].
  assert (w' = w2) as ->.
  { destruct (0 <? recordsLimit w2) eqn:El; [|unfold wret in Ho; by simplify_eq].
    exfalso. apply Z.ltb_lt in El. rewrite Hl2 in El.
    pose proof (addReport_options new_id now report Statistics w) as [Hl1 _].
    rewrite E1' in Hl1. simpl in Hl1. lia. }
  exists dbID, s. rewrite Ht2, Hi2, Htab, Hsm. simpl. rewrite Ht, Hi.
  destruct Hs as (? & ? & ? & ?). by split_and!.
Qed.

(** Storing a final report that the SIP filter accepts adds exactly its
    row to the statistics, under the stream row of its own identity, and
    leaves that row with the report's SIP correlation. *)
Theorem AddFinal_stores now report w w' :
  writer_ok w -> recordsLimit w <= 0 ->
  sipFilterActive w && negb (sipMatches w report) = false ->
  AddFinal new_id now report w = (Ok tt, w') ->
  exists dbID s,
    rtpmon_statistics (tables (db w')) =
      rtpmon_statistics (tables (db w)) ++ [report_values dbID report] /\
    rtpmon_intervals (tables (db w')) = rtpmon_intervals (tables (db w)) /\
    streamMap w' !! StreamID report = Some dbID /\
    s ∈ rtpmon_streams (tables (db w')) /\ s_stream_id s = dbID /\
    row_identity s = StreamID report /\ sip_recorded report s.
Proof using new_id_fresh. apply AddFinal_Ok. Qed.

(** * The SIP filter *)

(** Under an active filter the statistics only hold rows of the matching final
    reports of the history [hist], each once and in their order. *)
Definition sip_match (filters : list string) (r : StreamReport) : bool :=
  existsb (fun p => contains (to_lower (SipPeerA r)) p || contains (to_lower (SipPeerB r)) p) filters.
Definition row_of (t : report_row) (r : StreamReport) : Prop := exists dbID, t = report_values dbID r.
Definition stats_match (filters : list string) (hist : list StreamReport) (w : writer) : Prop :=
  storeSipFilter w = filters /\
  exists l, l `sublist_of` List.filter (sip_match filters) hist /\ Forall2 row_of (rtpmon_statistics (tables (db w))) l.

Lemma Forall2_sublist_l {A B} (P : A -> B -> Prop) l l' k : l' `sublist_of` l -> Forall2 P l k ->
  exists k', k' `sublist_of` k /\ Forall2 P l' k'.
Proof using.
  intros Hs. revert k. induction Hs as [|x l1 l2 _ IH|x l1 l2 _ IH]; intros k Hk.
  - apply Forall2_nil_inv_l in Hk as ->. by exists [].
  - apply Forall2_cons_inv_l in Hk as (y & k2 & Hp & Hk & ->). destruct (IH k2 Hk) as (k' & Hs & Hf).
    exists (y :: k'). split; [by constructor|by constructor].
  - apply Forall2_cons_inv_l in Hk as (y & k2 & Hp & Hk & ->). destruct (IH k2 Hk) as (k' & Hs & Hf).
    exists k'. split; [by constructor|done].
Qed.

Lemma list_filter_sublist {A} (p : A -> bool) l : List.filter p l `sublist_of` l.
Proof using. induction l as [|x l IH]; [constructor|]. cbn. destruct (p x); by constructor. Qed.

Lemma stats_match_same filters hist w w' :
  storeSipFilter w' = storeSipFilter w ->
  rtpmon_statistics (tables (db w')) `sublist_of` rtpmon_statistics (tables (db w)) ->
  stats_match filters hist w -> stats_match filters hist w'.
Proof using.
  unfold stats_match. intros Hf Hs (Hw & l & Hl & Hall). rewrite Hf. split; [done|].
  destruct (Forall2_sublist_l _ _ _ _ Hs Hall) as (k & Hk & Hall'). exists k. split; [by etrans|done].
Qed.

Lemma stats_match_grow filters hist more w : stats_match filters hist w -> stats_match filters (hist ++ more) w.
Proof using.
  intros (Hw & l & Hl & Hall). split; [done|]. exists l. split; [|done]. rewrite List.filter_app. by apply sublist_inserts_r.
Qed.

(** A statement that does not add statistics. *)
Lemma stats_exec filters hist {A} (op : database -> A * database) :
  (forall d, rtpmon_statistics (op d).2 `sublist_of` rtpmon_statistics d) ->
  preserves (stats_match filters hist) (lift (exec op)).
Proof using.
  intros Hop w Hw. pose proof (lift_exec_db op w) as H0.
  destruct (lift (exec op) w) as [[a|e] w']; destruct H0 as (_ & _ & Hf & _ & Hd);
    (apply (stats_match_same _ _ w); [done| |done]); simpl.
  - destruct Hd as [_ ->]. apply Hop.
  - by rewrite Hd.
Qed.

Lemma stats_query filters hist {A} (q : database -> A) : preserves (stats_match filters hist) (lift (query q)).
Proof using.
  intros w Hw. pose proof (lift_query_db q w) as H0.
  destruct (lift (query q) w) as [r w']. destruct H0 as (_ & _ & Hf & _ & Hd & _).
  apply (stats_match_same _ _ w); [done| |done]. simpl. by rewrite Hd.
Qed.

Lemma stats_delete filters hist ids : preserves (stats_match filters hist) (lift (transaction (deleteStreamsByIDs ids))).
Proof using.
  intros w Hw. pose proof (lift_transaction_db (deleteStreamsByIDs ids) w) as H0.
  destruct (lift _ w) as [r w']. destruct H0 as (_ & _ & Hf & _ & Ht).
  apply delete_transaction in Ht. apply (stats_match_same _ _ w); [done| |done]. simpl. rewrite Ht.
  destruct r as [[]|e]; [|done]. apply list_filter_sublist.
Qed.

Lemma stats_resolve filters hist evict : preserves (stats_match filters hist) (lift (resolve_ids evict)).
Proof using.
  intros w Hw. pose proof (resolve_ids_db evict w) as H0.
  unfold lift in *. destruct (resolve_ids evict (db w)) as [r c]. destruct H0 as (_ & _ & Ht & _).
  apply (stats_match_same _ _ w); [done| |done]. simpl in *. by rewrite Ht.
Qed.

Lemma stats_modify filters hist f :
  (forall w, db (f w) = db w /\ storeSipFilter (f w) = storeSipFilter w) ->
  preserves (stats_match filters hist) (modify f).
Proof using.
  intros Hf w Hw. destruct (Hf w) as [Hd Hs]. apply (stats_match_same _ _ w); [done| |done].
  simpl. by rewrite Hd.
Qed.

Ltac keep_stats :=
  repeat first
    [ assumption | apply preserves_ret | apply preserves_gets | apply stats_query
    | apply stats_delete | apply stats_resolve
    | apply stats_exec; done
    | apply stats_modify; done
    | apply preserves_bind; [|intros] | case_match ].

Lemma stats_open filters hist id ts : preserves (stats_match filters hist) (OpenStreamAt new_id id ts).
Proof using. unfold OpenStreamAt, FindOrAddAgent. keep_stats. Qed.

Lemma stats_purge filters hist id : preserves (stats_match filters hist) (purgeStream id).
Proof using. unfold purgeStream. keep_stats. Qed.

Lemma stats_trim filters hist n : preserves (stats_match filters hist) (TrimToLastNCalls n).
Proof using. unfold TrimToLastNCalls. keep_stats. Qed.

Lemma stats_sip filters hist r : preserves (stats_match filters hist) (maybeUpdateSip r).
Proof using. unfold maybeUpdateSip, exec_. keep_stats. Qed.

Lemma stats_interval filters hist now r : preserves (stats_match filters hist) (addReport new_id now r Intervals).
Proof using. unfold addReport, exec_. keep_stats; apply stats_open. Qed.

(** The one statement that adds statistics. *)
Lemma stats_final filters hist now r w :
  stats_match filters hist w -> sip_match filters r = true ->
  stats_match filters (hist ++ [r]) (addReport new_id now r Statistics w).2.
Proof using.
  intros Hw Hr. unfold addReport, wbind, gets.
  assert (forall dbID w1, stats_match filters hist w1 ->
    stats_match filters (hist ++ [r]) (lift (exec_ (insert_report Statistics (report_values dbID r))) w1).2) as Hins.
  { intros dbID w1 Hw1. unfold exec_.
    pose proof (lift_exec_db (fun d => (tt, insert_report Statistics (report_values dbID r) d)) w1) as H0.
    destruct (lift (exec _) w1) as [[[]|e] w2]; destruct H0 as (_ & _ & Hf & _ & Hd); cbn [snd].
    - destruct Hd as [_ Hd], Hw1 as (Hf1 & l & Hl & Hall). unfold stats_match. rewrite Hf, Hd. split; [done|].
      exists (l ++ [r]). rewrite List.filter_app. cbn. rewrite Hr. split; [by apply sublist_app|].
      apply Forall2_app; [done|]. constructor; [by exists dbID|constructor].
    - apply stats_match_grow. apply (stats_match_same _ _ w1); [done|by rewrite Hd|done]. }
  destruct (streamMap w !! StreamID r) as [dbID|]; [by apply Hins|].
  pose proof (stats_open filters hist (StreamID r) now w Hw) as Hw1.
  destruct (OpenStreamAt new_id (StreamID r) now w) as [[dbID|e] w1]; [by apply Hins|by apply stats_match_grow].
Qed.

(** The final report an operation is given. *)
Definition final_of (op : wop) : option StreamReport := match op with OFinal _ r => Some r | _ => None end.

Lemma stats_AddFinal filters hist now r w : filters <> [] ->
  stats_match filters hist w -> stats_match filters (hist ++ [r]) (AddFinal new_id now r w).2.
Proof using.
  intros Hne Hw. unfold AddFinal, wbind at 1, gets at 1.
  destruct (sipFilterActive w && negb (sipMatches w r)) eqn:Ef; [by apply stats_match_grow, stats_purge|].
  assert (sip_match filters r = true) as Hm.
  { unfold sipFilterActive in Ef. rewrite (proj1 Hw) in Ef. unfold sipMatches in Ef. rewrite (proj1 Hw) in Ef.
    fold (sip_match filters r) in Ef. by destruct filters, (sip_match _ r). }
  pose proof (stats_final filters hist now r w Hw Hm) as Hw1. unfold wbind at 1.
  destruct (addReport new_id now r Statistics w) as [[[]|e] w1]; [|done].
  revert Hw1. cbn [snd]. generalize (hist ++ [r]) w1. clear. intros hist w Hw. revert w Hw.
  change (preserves (stats_match filters hist)
    (let! _ := maybeUpdateSip r in let! limit := gets recordsLimit in
     if 0 <? limit then TrimToLastNCalls limit else wret tt)).
  apply preserves_bind; [apply stats_sip|]. intros _.
  apply preserves_bind; [apply preserves_gets|]. intros limit.
  case_match; [apply stats_trim|apply preserves_ret].
Qed.

Lemma stats_op filters hist op w : filters <> [] -> stats_match filters hist w ->
  stats_match filters (hist ++ option_list (final_of op)) (run_op new_id op w).2.
Proof using.
  intros Hne Hw. destruct (final_of op) as [r|] eqn:Ef.
  { destruct op; try done. injection Ef as ->. by apply stats_AddFinal. }
  rewrite app_nil_r. revert w Hw. change (preserves (stats_match filters hist) (run_op new_id op)).
  destruct op as [id now|now r|now r|a|e|e|e|e|e|n|name value|cutoff|cutoff]; cbn [run_op]; try done.
  - keep_stats; apply stats_open.
  - unfold AddInterval. keep_stats; auto using stats_interval, stats_sip.
  - unfold AddAudio, exec_. keep_stats.
  - unfold AddSipCallStart, insertSip, exec_. keep_stats.
  - unfold AddSipCallEnd, insertSip, exec_. keep_stats.
  - unfold AddSipReinvite, insertSip, exec_. keep_stats.
  - unfold AddSipCallFailed, insertSip, exec_. keep_stats.
  - unfold AddCallHealth, exec_. keep_stats.
  - apply stats_trim.
  - unfold SetProperty, exec_. keep_stats.
  - intros w Hw. destruct (RemoveOldRecords_deletes cutoff (db w)) as [ids Hs].
    destruct (RemoveOldRecords cutoff (db w)) as [[st err] c]. destruct Hs as (_ & _ & Hs & _).
    apply (stats_match_same _ _ w); [done| |done]. cbn in *. rewrite Hs. apply list_filter_sublist.
  - unfold RemoveOldAudio. keep_stats.
Qed.

(** C35. With a SIP store filter set, whatever the writer does and whatever faults
    it meets, the rows of the finished-stream statistics are those of final
    reports it was given whose SIP source or destination matches a pattern of
    the filter: no row for any other final, no two rows for one, and in the
    order the reports came. *)
Theorem sip_filter_respected ops fs agent name limit filters :
  filters <> [] ->
  let w := run_ops new_id ops (MkWriter (MkConn empty_database fs) agent name ∅ ∅ ∅ limit filters) in
  exists stored, stored `sublist_of` List.filter (sip_match filters) (omap final_of ops) /\
    Forall2 row_of (rtpmon_statistics (tables (db w))) stored.
Proof using.
  intros Hne. cbn zeta. set (w0 := MkWriter _ _ _ _ _ _ _ _).
  assert (forall hist w, stats_match filters hist w -> stats_match filters (hist ++ omap final_of ops) (run_ops new_id ops w)) as Hrun.
  { induction ops as [|op ops IH]; intros hist w Hw; [by rewrite app_nil_r|].
    change (op :: ops) with ([op] ++ ops). rewrite omap_app, app_assoc. cbn [run_ops fold_left app].
    apply IH. rewrite omap_unfold. destruct (final_of op) as [r|] eqn:E.
    - pose proof (stats_op filters hist op w Hne Hw) as Hs. by rewrite E in Hs.
    - pose proof (stats_op filters hist op w Hne Hw) as Hs. by rewrite E in Hs. }
  destruct (Hrun [] w0) as (_ & l & Hl & Hall); [split; [done|]; exists []; by split|]. by exists l.
Qed.
End finals.

(** * The records limit *)

#[export] Instance callLess_strict_weak : StrictWeak callLess (fun _ => True).
Proof.
  unfold callLess. split; intros *.
  - by rewrite Z.ltb_irrefl, str_lt_irrefl, andb_false_r.
  - intros _ _ H. apply orb_true_iff in H as [H|[Heq H]%andb_true_iff].
    + apply Z.ltb_lt in H. destruct (Z.ltb_spec (snd x) (snd y)); [lia|].
      by destruct (Z.eqb_spec (snd y) (snd x)); [lia|].
    + apply Z.eqb_eq in Heq. rewrite Heq, Z.ltb_irrefl, Z.eqb_refl. simpl. by apply str_lt_asym.
  - intros _ _ _. rewrite !orb_false_iff, !Z.ltb_ge. intros [H1 H1'] [H2 H2']. split; [lia|].
    destruct (Z.eqb_spec (snd x) (snd z)) as [E|]; [|done]. simpl.
    assert (snd x = snd y) as E1 by lia. assert (snd y = snd z) as E2 by lia.
    rewrite E1, Z.eqb_refl in H1'. rewrite E2, Z.eqb_refl in H2'. simpl in *.
    by apply (str_lt_negtrans _ (fst y)).
Qed.

Lemma call_groups_keys d k : k ∈ (call_groups d).*1 <-> k ∈ (joined d).*1.
Proof.
  unfold call_groups. rewrite (stable_sort_Permutation callLess), <- list_fmap_compose. simpl.
  rewrite list_fmap_id. apply elem_of_remove_dups.
Qed.

Lemma call_groups_NoDup d : NoDup (call_groups d).*1.
Proof.
  unfold call_groups. rewrite (stable_sort_Permutation callLess), <- list_fmap_compose. simpl.
  rewrite list_fmap_id. apply NoDup_remove_dups.
Qed.

(** Every kept group comes before every evicted one. *)
Lemma ordered_take_drop {A} (less : A -> A -> bool) n l a b :
  ordered less l -> a ∈ take n l -> b ∈ drop n l -> less b a = false.
Proof.
  unfold ordered. revert n. induction l as [|x l IH]; intros n Hs Ha Hb.
  { rewrite take_nil in Ha. by apply elem_of_nil in Ha. }
  apply StronglySorted_inv in Hs as [Hs Hall]. destruct n as [|n]; simpl in *; [by apply elem_of_nil in Ha|].
  apply elem_of_cons in Ha as [->|Ha]; [|by apply (IH n)].
  rewrite Forall_forall in Hall. apply Hall. rewrite <- (take_drop n l). apply elem_of_app. by right.
Qed.

Lemma call_groups_split d n a b :
  a ∈ take n (call_groups d) -> b ∈ drop n (call_groups d) -> callLess a b = true.
Proof.
  intros Ha Hb.
  assert (callLess b a = false) as Hba.
  { eapply (ordered_take_drop _ n); [|done|done].
    apply (stable_sort_ordered _ (fun _ => True)); by apply Forall_true. }
  destruct (callLess a b) eqn:Hab; [done|exfalso].
  pose proof (call_groups_NoDup d) as Hnd.
  rewrite <- (take_drop n (call_groups d)), fmap_app in Hnd.
  apply NoDup_app in Hnd as (_ & Hdisj & _).
  apply (Hdisj (fst a)); [by apply list_elem_of_fmap_2|].
  unfold callLess in Hab, Hba. rewrite orb_false_iff, Z.ltb_ge in Hab, Hba.
  destruct Hab as [Hab1 Hab2], Hba as [Hba1 Hba2].
  assert (snd a = snd b) as E by lia. rewrite E, Z.eqb_refl in Hab2, Hba2. simpl in *.
  rewrite (str_lt_total (fst a) (fst b)) by done. by apply list_elem_of_fmap_2.
Qed.

(** What a trim deletes. *)
Lemma TrimToLastNCalls_Ok n w w' :
  0 < n -> TrimToLastNCalls n w = (Ok tt, w') ->
  let evicted := drop (Z.to_nat n) (call_groups (tables (db w))) in
  exists ids, tables (db w') = delete_streams ids (tables (db w)) /\
    forall z, z ∈ ids <->
      exists s, s ∈ rtpmon_streams (tables (db w)) /\ s_stream_id s = z /\ callKey s ∈ evicted.*1.
Proof.
  intros Hn Ho evicted. unfold TrimToLastNCalls in Ho.
  destruct (Z.leb_spec n 0); [lia|]. unfold wbind at 1 in Ho.
  pose proof (lift_query_db call_groups w) as Hq.
  destruct (lift (query call_groups) w) as [[groups|e] w1]; [|done].
  destruct Hq as (_ & _ & _ & _ & Ht1 & ->).
  destruct (Z.leb_spec (Z.of_nat (length (call_groups (tables (db w))).*1)) n) as [Hle|Hgt].
  - unfold wret in Ho. simplify_eq. exists []. rewrite Ht1, delete_streams_nil. split; [done|].
    intros z. split; [set_solver|]. intros (s & _ & _ & Hs). rewrite length_fmap in Hle.
    unfold evicted in Hs. rewrite drop_ge in Hs by lia. by apply elem_of_nil in Hs.
  - unfold wbind at 1 in Ho.
    pose proof (resolve_ids_db (drop (Z.to_nat n) (call_groups (tables (db w))).*1) w1) as Hr.
    destruct (lift (resolve_ids _) w1) as [[ids|e] w2]; [|done].
    destruct Hr as (_ & _ & Ht2 & Hids). unfold wbind in Ho.
    pose proof (lift_transaction_db (deleteStreamsByIDs ids) w2) as Hx.
    destruct (lift _ w2) as [[[]|e] w3]; [|done]. destruct Hx as (_ & _ & _ & _ & Ht3).
    apply delete_transaction in Ht3. unfold modify in Ho. simplify_eq. exists ids. simpl.
    rewrite Ht3, Ht2, Ht1. split; [done|]. rewrite Ht1 in Hids. unfold evicted.
    by rewrite fmap_drop.
Qed.

Lemma TrimToLastNCalls_Err n w e w' : TrimToLastNCalls n w = (Err e, w') -> tables (db w') = tables (db w).
Proof.
  unfold TrimToLastNCalls. destruct (n <=? 0); [done|]. unfold wbind at 1.
  pose proof (lift_query_db call_groups w) as Hq.
  destruct (lift (query call_groups) w) as [[groups|e1] w1]; destruct Hq as (_ & _ & _ & _ & Ht1 & _); [|by intros [= _ <-]].
  destruct (Z.of_nat (length groups.*1) <=? n); [done|]. unfold wbind at 1.
  pose proof (resolve_ids_db (drop (Z.to_nat n) groups.*1) w1) as Hr.
  destruct (lift (resolve_ids _) w1) as [[ids|e2] w2]; destruct Hr as (_ & _ & Ht2 & _); [|intros [= _ <-]; by rewrite Ht2].
  unfold wbind. pose proof (lift_transaction_db (deleteStreamsByIDs ids) w2) as Hx.
  destruct (lift _ w2) as [[[]|e3] w3]; destruct Hx as (_ & _ & _ & _ & Ht3); apply delete_transaction in Ht3; [done|].
  intros [= _ <-]. by rewrite Ht3, Ht2, Ht1.
Qed.

(** ** What the limit promises

    A call is a key of [callKeyExpr].  It is finished when a stream of it has a
    statistics row, and its last end is the latest end of those rows. *)
Definition call_ends (d : database) (k : string) (t : Z) : Prop :=
  exists x s, x ∈ rtpmon_statistics d /\ s ∈ rtpmon_streams d /\ s_stream_id s = r_stream_id x /\
    callKey s = k /\ r_end_timestamp x = t.
Definition call_finished (d : database) (k : string) : Prop := exists t, call_ends d k t.
Definition last_end (d : database) (k : string) (t : Z) : Prop := call_ends d k t /\ forall t', call_ends d k t' -> t' <= t.

(** [k] ended after [k'], or at the same time with the greater key. *)
Definition call_later (d : database) (k k' : string) : Prop :=
  exists t t', last_end d k t /\ last_end d k' t' /\ (t' < t \/ t' = t /\ str_lt k' k = true).

(** A stream of a kept call, or of one that has not finished. *)
Definition stream_stays (d : database) (kept : list string) (z : Z) : Prop :=
  exists s, s ∈ rtpmon_streams d /\ s_stream_id s = z /\ (callKey s ∈ kept \/ ~ call_finished d (callKey s)).

Lemma joined_ends d k t : (k, t) ∈ joined d <-> call_ends d k t.
Proof.
  unfold joined, call_ends. rewrite list_elem_of_bind. split.
  - intros (x & H & Hx). apply list_elem_of_bind in H as (s & H & Hs).
    destruct (Z.eqb_spec (s_stream_id s) (r_stream_id x)); [|by apply elem_of_nil in H].
    apply list_elem_of_singleton in H as [= -> ->]. by exists x, s.
  - intros (x & s & Hx & Hs & E & <- & <-). exists x. split; [|done]. apply list_elem_of_bind. exists s.
    split; [|done]. rewrite E, Z.eqb_refl. by apply list_elem_of_singleton.
Qed.

Lemma joined_finished d k : k ∈ (joined d).*1 <-> call_finished d k.
Proof.
  rewrite list_elem_of_fmap. split.
  - intros ([k' t] & -> & H%joined_ends). by exists t.
  - intros [t H%joined_ends]. by exists (k, t).
Qed.

Lemma fold_max l a : (fold_left Z.max l a = a \/ fold_left Z.max l a ∈ l) /\ a <= fold_left Z.max l a /\
  forall x, x ∈ l -> x <= fold_left Z.max l a.
Proof.
  revert a. induction l as [|y l IH]; intros a; cbn.
  { split_and!; [by left|lia|by intros x ?%elem_of_nil]. }
  destruct (IH (Z.max a y)) as (Hin & Ha & Hl). split_and!.
  - rewrite elem_of_cons. destruct Hin as [E|Hin]; [|by auto]. rewrite E. destruct (Z.max_spec a y) as [[_ ->]|[_ ->]]; auto.
  - lia.
  - intros x [->|Hx]%elem_of_cons; [lia|by apply Hl].
Qed.

(** [MAX(end_timestamp)] of a group. *)
Lemma group_last_end d k : call_finished d k -> last_end d k (group_last (joined d) k).
Proof.
  intros [t0 H0]. unfold group_last. set (ts := snd <$> _).
  assert (forall t, t ∈ ts <-> call_ends d k t) as Hts.
  { intros t. unfold ts. rewrite list_elem_of_fmap, <- joined_ends. split.
    - intros ([k' t'] & -> & Hin). apply elem_of_filter_bool in Hin as [Hin Hk]. apply String.eqb_eq in Hk. cbn in Hk. by subst.
    - intros Hin. exists (k, t). split; [done|]. apply elem_of_filter_bool. cbn. by rewrite String.eqb_refl. }
  clearbody ts. destruct ts as [|t ts]; [by apply Hts, elem_of_nil in H0|]. cbn [tail head default].
  destruct (fold_max ts t) as (Hin & Ht & Hmax). split.
  - apply Hts, elem_of_cons. destruct Hin; auto.
  - intros t' [->|Ht']%Hts%elem_of_cons; [done|by apply Hmax].
Qed.

Lemma call_groups_finished d k : k ∈ (call_groups d).*1 <-> call_finished d k.
Proof. by rewrite call_groups_keys, joined_finished. Qed.

Lemma call_groups_last d a : a ∈ call_groups d -> last_end d a.1 a.2.
Proof.
  intros Ha. assert (call_finished d a.1) as Hf by (by apply call_groups_finished, list_elem_of_fmap_2).
  unfold call_groups in Ha. rewrite (stable_sort_Permutation callLess) in Ha. apply list_elem_of_fmap in Ha as (k & -> & _).
  by apply group_last_end.
Qed.

(** The keys the limit keeps are the latest. *)
Lemma kept_latest d n :
  let kept := take n (call_groups d).*1 in
  NoDup kept /\ (forall k, k ∈ kept -> call_finished d k) /\
  (forall k k', k ∈ kept -> call_finished d k' -> k' ∉ kept -> call_later d k k') /\ (length kept <= n)%nat /\
  ((exists k, call_finished d k /\ k ∉ kept) -> length kept = n).
Proof.
  set (kept := take n (call_groups d).*1). cbn zeta.
  assert (forall k, call_finished d k -> k ∈ kept \/ k ∈ drop n (call_groups d).*1) as Hsplit.
  { intros k Hk%call_groups_finished. rewrite <- (take_drop n (call_groups d).*1) in Hk. by apply elem_of_app in Hk. }
  pose proof (call_groups_NoDup d) as Hnd. rewrite <- (take_drop n (call_groups d).*1) in Hnd. apply NoDup_app in Hnd as (Hnd & _ & _).
  split_and!; [done| | | |].
  - intros k Hk. apply call_groups_finished. rewrite <- (take_drop n (call_groups d).*1). apply elem_of_app. by left.
  - intros k k' Hk Hf Hn. destruct (Hsplit k' Hf) as [|Hd]; [done|].
    unfold kept in Hk. rewrite <- fmap_take in Hk. rewrite <- fmap_drop in Hd.
    apply list_elem_of_fmap in Hk as (a & -> & Ha). apply list_elem_of_fmap in Hd as (b & -> & Hb).
    pose proof (call_groups_split d n a b Ha Hb) as Hl. unfold callLess in Hl.
    assert (forall c, c ∈ take n (call_groups d) \/ c ∈ drop n (call_groups d) -> last_end d c.1 c.2) as Hc.
    { intros c Hc. apply call_groups_last. rewrite <- (take_drop n (call_groups d)). by apply elem_of_app. }
    exists a.2, b.2. split; [by apply Hc; left|]. split; [by apply Hc; right|].
    apply orb_true_iff in Hl as [Hl|[He Hl]%andb_true_iff]; [left; by apply Z.ltb_lt|right]. apply Z.eqb_eq in He. auto.
  - unfold kept. rewrite length_take. lia.
  - intros (k & Hf & Hn). destruct (Hsplit k Hf) as [|Hd]; [done|]. unfold kept. rewrite length_take.
    destruct (decide (length (call_groups d).*1 < n)%nat); [|lia]. rewrite drop_ge in Hd by lia. by apply elem_of_nil in Hd.
Qed.

(** C7. The records limit.  With a limit of [n], a trim that succeeds keeps the [n]
    calls whose last finished stream ended latest, ties by key - all of them when
    no more than [n] have finished: every kept call ended later than every evicted
    one.  An evicted call goes as a whole, with its stream rows and their
    intervals, statistics and audio; every row of a kept call, and of a call that
    has not finished, stays, in its place; and no other table changes.  A trim
    that fails changes nothing. *)
Theorem TrimToLastNCalls_keeps_latest n w : writer_ok w -> 0 < n ->
  let '(r, w') := TrimToLastNCalls n w in
  let d := tables (db w) in
  let d' := tables (db w') in
  match r with
  | Err _ => d' = d
  | Ok _ =>
      exists kept (stay : Z -> bool),
        (NoDup kept /\ (forall k, k ∈ kept -> call_finished d k) /\
         (forall k k', k ∈ kept -> call_finished d k' -> k' ∉ kept -> call_later d k k') /\
         Z.of_nat (length kept) <= n /\ ((exists k, call_finished d k /\ k ∉ kept) -> Z.of_nat (length kept) = n)) /\
        (forall z, z ∈ stream_ids d -> stay z = true <-> stream_stays d kept z) /\
        rtpmon_streams d' = List.filter (fun s => stay (s_stream_id s)) (rtpmon_streams d) /\
        rtpmon_intervals d' = List.filter (fun r => stay (r_stream_id r)) (rtpmon_intervals d) /\
        rtpmon_statistics d' = List.filter (fun r => stay (r_stream_id r)) (rtpmon_statistics d) /\
        rtpmon_audio d' = List.filter (fun u => stay (u_stream_id u)) (rtpmon_audio d) /\
        rtpmon_instances d' = rtpmon_instances d /\ rtpmon_property d' = rtpmon_property d /\
        rtpmon_sip_events d' = rtpmon_sip_events d /\ rtpmon_call_health d' = rtpmon_call_health d /\
        rtpmon_alarm_events d' = rtpmon_alarm_events d
  end.
Proof.
  intros Hw Hn. destruct (TrimToLastNCalls n w) as [[[]|e] w'] eqn:Ho; [|by eapply TrimToLastNCalls_Err].
  intros d d'. destruct (TrimToLastNCalls_Ok n w w' Hn Ho) as (ids & Hd' & Hids). fold d in Hd', Hids. fold d' in Hd'.
  set (kept := take (Z.to_nat n) (call_groups d).*1). exists kept, (fun z => negb (id_in ids z)).
  destruct (kept_latest d (Z.to_nat n)) as (Hnd & Hf & Hl & Hle & Hfull). fold kept in Hnd, Hf, Hl, Hle, Hfull.
  assert (forall s, s ∈ rtpmon_streams d -> s_stream_id s ∉ ids <-> stream_stays d kept (s_stream_id s)) as Hs.
  { intros s Hin. assert (callKey s ∈ (drop (Z.to_nat n) (call_groups d)).*1 <-> call_finished d (callKey s) /\ callKey s ∉ kept) as Hk.
    { rewrite fmap_drop, <- call_groups_finished. pose proof (call_groups_NoDup d) as Hu.
      rewrite <- (take_drop (Z.to_nat n) (call_groups d).*1) in Hu. apply NoDup_app in Hu as (_ & Hu & _).
      rewrite <- (take_drop (Z.to_nat n) (call_groups d).*1) at 2. rewrite elem_of_app. fold kept in Hu |- *. naive_solver. }
    assert (forall s', s' ∈ rtpmon_streams d -> s_stream_id s' = s_stream_id s -> s' = s) as Hu
      by (intros s' Hs' E; by apply (stream_row_unique d s' s (ok_ids _ (proj1 Hw)))).
    rewrite Hids. split.
    - intros Hnot. exists s. split; [done|]. split; [done|]. destruct (decide (callKey s ∈ kept)); [by left|right].
      intros Hfin. apply Hnot. exists s. split; [done|]. split; [done|]. by apply Hk.
    - intros (s1 & Hs1 & E1 & Hst) (s2 & Hs2 & E2 & Hev). rewrite (Hu s1) in Hst by done. rewrite (Hu s2) in Hev by done.
      apply Hk in Hev as [? ?]. by destruct Hst. }
  assert (forall z, z ∈ stream_ids d -> z ∉ ids <-> stream_stays d kept z) as Hz.
  { intros z (s & -> & Hin)%list_elem_of_fmap. by apply Hs. }
  split; [split_and!; [done..|lia|intros He; rewrite (Hfull He); lia]|].
  split; [intros z Hin; rewrite id_in_false; by apply Hz|]. by rewrite Hd'.
Qed.

(** * Deletion is all or nothing *)

(** A completed call that the SIP filter rejects is purged as a unit: if
    the purge succeeds no interval, statistics, audio or stream row of its
    stream is left, every other row stays, and the stream is forgotten; if
    any statement of it fails, the tables and the maps are unchanged. *)
Theorem purge_all_or_nothing id dbID w :
  writer_ok w -> streamMap w !! id = Some dbID ->
  let '(r, w') := purgeStream id w in
  match r with
  | Ok _ =>
      tables (db w') = delete_streams [dbID] (tables (db w)) /\
      dbID ∉ stream_ids (tables (db w')) /\ streamMap w' = delete id (streamMap w) /\
      (forall t, t ∈ rtpmon_intervals (tables (db w')) \/ t ∈ rtpmon_statistics (tables (db w')) ->
         r_stream_id t <> dbID) /\
      (forall u, u ∈ rtpmon_audio (tables (db w')) -> u_stream_id u <> dbID)
  | Err _ =>
      tables (db w') = tables (db w) /\ streamMap w' = streamMap w /\ endpointMap w' = endpointMap w
  end.
Proof.
  intros Hw Hid. unfold purgeStream, wbind, gets. rewrite Hid.
  pose proof (lift_transaction_db (deleteStreamsByIDs [dbID]) w) as Hx.
  destruct (lift _ w) as [[[]|e] w1]; destruct Hx as (Hs & He & _ & _ & Ht);
    apply delete_transaction in Ht; [|done].
  unfold modify. simpl. rewrite Ht, Hs.
  assert (db_ok (delete_streams [dbID] (tables (db w)))) as Hok by (apply db_ok_delete, Hw).
  assert (dbID ∉ stream_ids (delete_streams [dbID] (tables (db w)))) as Hnot.
  { rewrite stream_ids_delete, list_elem_of_singleton. tauto. }
  split_and!; try done.
  - intros t [Hin|Hin]; intros <-; apply Hnot.
    + by apply (ok_intervals _ Hok).
    + by apply (ok_statistics _ Hok).
  - intros u Hin <-. apply Hnot. by apply (ok_audio _ Hok).
Qed.

(** * Audio *)

(** An audio chunk is stored under a stream of its own endpoint: the one
    opened under its identity or, for a chunk without one, a mapped stream
    with its addresses, ports and SSRC; if no such stream is mapped it is
    dropped and nothing changes. *)
Theorem AddAudio_matches_endpoint new_id audio w w' :
  writer_ok w -> Wav audio <> "" -> AddAudio new_id audio w = (Ok tt, w') ->
  (streamMap w !! sa_StreamID audio = None /\
   endpointMap w !! endpointKey (sa_StreamID audio) = None /\ w' = w) \/
  exists id dbID row s,
    rtpmon_audio (tables (db w')) = rtpmon_audio (tables (db w)) ++ [row] /\
    u_stream_id row = dbID /\ streamMap w !! id = Some dbID /\
    endpointKey id = endpointKey (sa_StreamID audio) /\
    s ∈ rtpmon_streams (tables (db w')) /\ s_stream_id s = dbID /\ row_identity s = id /\
    b64_decode StdEncoding (u_wav row) = Some (Wav audio).
Proof.
  intros Hw Hne Ho. unfold AddAudio in Ho.
  destruct (Nat.eqb_spec (String.length (Wav audio)) 0) as [E|E]; [by destruct (Wav audio)|].
  unfold wbind, gets in Ho.
  assert (forall id dbID, streamMap w !! id = Some dbID ->
    endpointKey id = endpointKey (sa_StreamID audio) ->
    lift (exec_ (insert_audio new_id dbID audio)) w = (Ok tt, w') ->
    exists id dbID row s,
      rtpmon_audio (tables (db w')) = rtpmon_audio (tables (db w)) ++ [row] /\
      u_stream_id row = dbID /\ streamMap w !! id = Some dbID /\
      endpointKey id = endpointKey (sa_StreamID audio) /\
      s ∈ rtpmon_streams (tables (db w')) /\ s_stream_id s = dbID /\ row_identity s = id /\
      b64_decode StdEncoding (u_wav row) = Some (Wav audio)) as Hins.
  { intros id dbID Hid Hep Hx.
    pose proof (ok_stream _ _ _ (proj2 Hw) _ _ Hid) as (s & Hs & Hv & Hi).
    pose proof (lift_exec_db (fun d => (tt, insert_audio new_id dbID audio d)) w) as Hl.
    unfold exec_ in Hx. rewrite Hx in Hl. destruct Hl as (_ & _ & _ & _ & _ & Hl).
    exists id, dbID, (MkAudioRow (new_id (u_id <$> rtpmon_audio (tables (db w)))) dbID
      (sa_StartMs audio) (FinishMs audio) (b64_encode StdEncoding (Wav audio))), s.
    rewrite Hl. split_and!; try done. apply b64_decode_encode. }
  destruct (streamMap w !! sa_StreamID audio) as [dbID|] eqn:E1.
  { right. by apply (Hins (sa_StreamID audio) dbID). }
  destruct (endpointMap w !! endpointKey (sa_StreamID audio)) as [dbID|] eqn:E2.
  - right. apply (ok_endpoint _ _ _ (proj2 Hw)) in E2 as (id & Hid & Hep). by apply (Hins id dbID).
  - left. unfold wret in Ho. by simplify_eq.
Qed.

(** * Concrete runs *)

#[local] Existing Instance ascii_tables.

(** The engine's row ids: one more than the largest in use. *)
Definition next_rowid (ids : list Z) : Z := foldr Z.max 0 ids + 1.

Lemma next_rowid_fresh ids : next_rowid ids ∉ ids.
Proof.
  assert (forall z, z ∈ ids -> z <= foldr Z.max 0 ids) as Hmax.
  { induction ids as [|x l IH]; intros z; [by intros ?%elem_of_nil|].
    rewrite elem_of_cons. simpl. intros [->|Hz%IH]; lia. }
  unfold next_rowid. intros H%Hmax. lia.
Qed.

Definition fresh_writer (limit : Z) (filters : list string) (fs : faults) : writer :=
  MkWriter (MkConn empty_database fs) "agent" "name" ∅ ∅ ∅ limit filters.

(** The state of a run, from its result alone. *)
Lemma run_eq {A} (m : W A) w a : (m w).1 = Ok a -> m w = (Ok a, (m w).2).
Proof. intros <-. apply surjective_pairing. Qed.

(** A report of stream [ssrc] of the call [call], ending at [finish]. *)
Definition call_report (ssrc : Z) (link call peer : string) (start finish : Z) : StreamReport :=
  MkStreamReport (sample_id ssrc link) start finish start 50 0 0 (Some (f64_of_Z 4)) None 80
    (f64_of_Z 1) "PCMA" fzero "" (finish - start) 0 0 0 0 0 true "" call peer "sip:b".

Lemma writer_invariant_witness :
  writer_ok (run_ops next_rowid [OOpen (sample_id 7 "a") 5; OFinal 9 (call_report 7 "a" "c1" "sip:a" 1 9)]
    (fresh_writer 0 [] [Some (SqliteError 5); None; Some (OtherError "disk")])) /\
  let ops := [OOpen (sample_id 7 "a") 1; ORemoveOldRecords 100; OFinal 200 (call_report 7 "a" "c1" "sip:a" 150 200)] in
  retired next_rowid ops (fresh_writer 0 [] []) = [1] /\ writer_ok_but [1] (run_ops next_rowid ops (fresh_writer 0 [] [])).
Proof.
  split; [by apply (writer_invariant next_rowid next_rowid_fresh)|]. intros ops.
  assert (retired next_rowid ops (fresh_writer 0 [] []) = [1]) as E by (vm_compute; reflexivity). split; [exact E|].
  rewrite <- E. apply (writer_invariant next_rowid next_rowid_fresh).
Defined.

Lemma AddFinal_stores_witness :
  let w := fresh_writer 0 ["sip:a"] [None; Some (SqliteError 5)] in
  let r := call_report 7 "a" "c1" "SIP:A" 1 9 in
  let w' := (AddFinal next_rowid 9 r w).2 in
  exists dbID s,
    rtpmon_statistics (tables (db w')) = rtpmon_statistics (tables (db w)) ++ [report_values dbID r] /\
    rtpmon_intervals (tables (db w')) = rtpmon_intervals (tables (db w)) /\
    streamMap w' !! StreamID r = Some dbID /\
    s ∈ rtpmon_streams (tables (db w')) /\ s_stream_id s = dbID /\
    row_identity s = StreamID r /\ sip_recorded r s.
Proof.
  intros w r w'. apply (AddFinal_stores next_rowid next_rowid_fresh 9 r w w').
  - apply new_writer_ok.
  - vm_compute. congruence.
  - vm_compute. reflexivity.
  - subst w'. apply (run_eq (AddFinal next_rowid 9 r) w tt). vm_compute. reflexivity.
Defined.

Definition filtered_calls : writer :=
  run_ops next_rowid
    [OFinal 9 (call_report 7 "a" "c1" "sip:a" 1 9); OFinal 9 (call_report 8 "b" "c2" "sip:z" 1 9)]
    (fresh_writer 0 ["sip:a"] []).

Lemma sip_filter_respected_witness : exists stored,
  stored `sublist_of` [call_report 7 "a" "c1" "sip:a" 1 9] /\
  Forall2 row_of (rtpmon_statistics (tables (db filtered_calls))) stored /\
  length (rtpmon_statistics (tables (db filtered_calls))) = 1%nat.
Proof.
  destruct (sip_filter_respected next_rowid
    [OFinal 9 (call_report 7 "a" "c1" "sip:a" 1 9); OFinal 9 (call_report 8 "b" "c2" "sip:z" 1 9)]
    [] "agent" "name" 0 ["sip:a"]) as (l & Hl & Hf); [discriminate|].
  exists l. split; [exact Hl|]. split; [exact Hf|vm_compute; reflexivity].
Defined.

Definition two_calls : writer :=
  run_ops next_rowid
    [OFinal 9 (call_report 7 "a" "c1" "sip:a" 1 9); OFinal 9 (call_report 8 "b" "c2" "sip:z" 1 12)]
    (fresh_writer 0 [] []).

Lemma two_calls_ok : writer_ok two_calls.
Proof. by apply (run_ops_keeps next_rowid next_rowid_fresh), new_writer_ok. Qed.

Lemma TrimToLastNCalls_keeps_latest_witness :
  let d := tables (db two_calls) in
  let d' := tables (db (TrimToLastNCalls 1 two_calls).2) in
  stream_ids d = [1; 2] /\ stream_ids d' = [2] /\
  exists kept, Z.of_nat (length kept) <= 1 /\
    (forall k k', k ∈ kept -> call_finished d k' -> k' ∉ kept -> call_later d k k') /\
    (forall z, z ∈ stream_ids d -> z ∈ [2] <-> stream_stays d kept z).
Proof.
  intros d d'. assert (stream_ids d = [1; 2]) as E by (vm_compute; reflexivity).
  assert (stream_ids d' = [2]) as E' by (vm_compute; reflexivity). split; [done|]. split; [done|].
  pose proof (TrimToLastNCalls_keeps_latest 1 two_calls two_calls_ok eq_refl) as Ht.
  assert ((TrimToLastNCalls 1 two_calls).1 = Ok tt) as Er by (vm_compute; reflexivity).
  unfold d' in E'. destruct (TrimToLastNCalls 1 two_calls) as [r w']. cbn [fst snd] in *. subst r.
  destruct Ht as (kept & stay & (_ & _ & Hl & Hn & _) & Hs & Hd & _). exists kept. split; [done|]. split; [done|].
  intros z Hz. etrans; [|by apply (Hs z)]. rewrite <- E'. unfold stream_ids. rewrite Hd, list_elem_of_fmap. fold d.
  split; [intros (s & -> & Hs'%elem_of_filter_bool); exact (proj2 Hs')|]. intros Hst. apply list_elem_of_fmap in Hz as (s & -> & Hin).
  exists s. split; [reflexivity|]. apply elem_of_filter_bool. exact (conj Hin Hst).
Defined.

Lemma purge_all_or_nothing_witness :
  let w := two_calls in
  let '(r, w') := purgeStream (sample_id 7 "a") w in
  match r with
  | Ok _ =>
      tables (db w') = delete_streams [1] (tables (db w)) /\
      1 ∉ stream_ids (tables (db w')) /\ streamMap w' = delete (sample_id 7 "a") (streamMap w) /\
      (forall t, t ∈ rtpmon_intervals (tables (db w')) \/ t ∈ rtpmon_statistics (tables (db w')) ->
         r_stream_id t <> 1) /\
      (forall u, u ∈ rtpmon_audio (tables (db w')) -> u_stream_id u <> 1)
  | Err _ =>
      tables (db w') = tables (db w) /\ streamMap w' = streamMap w /\ endpointMap w' = endpointMap w
  end.
Proof.
  apply (purge_all_or_nothing (sample_id 7 "a") 1 two_calls two_calls_ok).
  vm_compute. reflexivity.
Defined.

Definition sample_audio (ssrc : Z) : StreamAudio := MkStreamAudio (sample_id ssrc "") "RIFF" 1 2.

Lemma AddAudio_matches_endpoint_witness :
  let w' := (AddAudio next_rowid (sample_audio 8) two_calls).2 in
  (streamMap two_calls !! sa_StreamID (sample_audio 8) = None /\
   endpointMap two_calls !! endpointKey (sa_StreamID (sample_audio 8)) = None /\ w' = two_calls) \/
  exists id dbID row s,
    rtpmon_audio (tables (db w')) = rtpmon_audio (tables (db two_calls)) ++ [row] /\
    u_stream_id row = dbID /\ streamMap two_calls !! id = Some dbID /\
    endpointKey id = endpointKey (sa_StreamID (sample_audio 8)) /\
    s ∈ rtpmon_streams (tables (db w')) /\ s_stream_id s = dbID /\ row_identity s = id /\
    b64_decode StdEncoding (u_wav row) = Some (Wav (sample_audio 8)).
Proof.
  apply (AddAudio_matches_endpoint next_rowid (sample_audio 8) two_calls).
  - apply two_calls_ok.
  - discriminate.
  - apply run_eq. vm_compute. reflexivity.
Defined.

(** Two streams of one endpoint, the older one filtered out when it ends. *)
Definition shared_endpoint : writer :=
  run_ops next_rowid
    [OOpen (sample_id 7 "old") 1; OOpen (sample_id 7 "new") 2;
     OFinal 9 (call_report 7 "old" "c1" "sip:z" 1 9)]
    (fresh_writer 0 ["sip:a"] []).

(** Purging a stream drops the endpoint entry even when it points to a
    newer stream: after an older stream with the same addresses, ports and
    SSRC is filtered out, the live stream is still mapped but its nil-uuid
    audio is dropped. *)
Theorem purge_forgets_live_endpoint :
  streamMap shared_endpoint !! sample_id 7 "new" = Some 2 /\
  (AddAudio next_rowid (sample_audio 7) shared_endpoint).1 = Ok tt /\
  rtpmon_audio (tables (db (AddAudio next_rowid (sample_audio 7) shared_endpoint).2)) = [].
Proof. repeat split; vm_compute; reflexivity. Qed.
