(* ===== verification/Cleanup.v ===== *)
(** Retention: the cleanup worker of [internal/worker/cleanup.go], and what the
    operations of [internal/db/cleanup.go], which are in [Writer], guarantee: the
    query for the expired streams is equivalent to its specification, the
    chunked deletion is safe and resumes after a failure. *)

From S2P Require Import Prelude GoFloat GoStrings Values StableSort Model Store Writer WriterInv.

(** * The expired streams *)

(** The times of the rows that belong to a stream. *)
Definition report_times (z : Z) (d : database) : list Z :=
  (r_end_timestamp <$> List.filter (fun r => r_stream_id r =? z) (rtpmon_intervals d)) ++
  (r_end_timestamp <$> List.filter (fun r => r_stream_id r =? z) (rtpmon_statistics d)) ++
  (u_start_timestamp <$> List.filter (fun r => u_stream_id r =? z) (rtpmon_audio d)).

(** The specification, the legacy form of the query: a stream none of whose
    rows is at or after the cutoff, and that has a row, or was created before
    the cutoff, or has no creation time. *)
Definition expired (cutoff : Z) (d : database) (s : stream_row) : Prop :=
  Forall (fun t => t < cutoff) (report_times (s_stream_id s) d) /\
  (report_times (s_stream_id s) d <> [] \/
   match s_created_ts s with Some t => t < cutoff | None => True end).

(** * The worker *)

Record CleanupWorker := MkCleanupWorker { recordsS : Z; audioS : Z; cw_interval : Z }.

(** [NewCleanupWorker]; the interval in nanoseconds, an hour by default. *)
Definition NewCleanupWorker (recordsS audioS interval : Z) : CleanupWorker :=
  MkCleanupWorker recordsS audioS (if interval <=? 0 then 3600 * 1000000000 else interval).

(** [sweep] at the time [nowMs]; errors are logged. *)
Definition sweep (cw : CleanupWorker) (nowMs : Z) (c : conn) : conn :=
  let c := if 0 <? recordsS cw
           then (RemoveOldRecords (wrap64 (nowMs - wrap64 (recordsS cw * 1000))) c).2 else c in
  if 0 <? audioS cw
  then (RemoveOldAudio (wrap64 (nowMs - wrap64 (audioS cw * 1000))) c).2 else c.

(** * The query and its specification *)

Lemma existsb_elem {A} (p : A -> bool) l : existsb p l = true <-> exists x, x ∈ l /\ p x = true.
Proof. rewrite existsb_exists. by setoid_rewrite list_elem_of_In. Qed.

Lemma existsb_none {A} (p : A -> bool) l : negb (existsb p l) = true <-> forall x, x ∈ l -> p x = false.
Proof.
  rewrite negb_true_iff, <- not_true_iff_false, existsb_elem. split.
  - intros H x Hx. apply not_true_iff_false. intros Hp. apply H. by exists x.
  - intros H (x & Hx & Hp). by rewrite H in Hp.
Qed.

(** Membership of the rows a filter by stream keeps. *)
Lemma elem_of_times {A} (key time : A -> Z) z l t :
  t ∈ time <$> List.filter (fun r => key r =? z) l <-> exists r, r ∈ l /\ key r = z /\ time r = t.
Proof.
  rewrite list_elem_of_fmap. setoid_rewrite elem_of_filter_bool. setoid_rewrite Z.eqb_eq. naive_solver.
Qed.

Lemma no_late_rows {A} (key time : A -> Z) z cutoff l :
  negb (existsb (fun r => (key r =? z) && (cutoff <=? time r)) l) = true <->
  Forall (fun t => t < cutoff) (time <$> List.filter (fun r => key r =? z) l).
Proof.
  rewrite existsb_none, Forall_forall. setoid_rewrite elem_of_times. split.
  - intros H t (r & Hr & Hk & <-). specialize (H r Hr). rewrite Hk, Z.eqb_refl in H. simpl in H. zbool. lia.
  - intros H r Hr. destruct (Z.eqb_spec (key r) z); [simpl|done]. apply Z.leb_gt. apply H. by exists r.
Qed.

Lemma elem_of_early {A} (key time : A -> Z) z cutoff l :
  z ∈ key <$> List.filter (fun r => time r <? cutoff) l <-> exists r, r ∈ l /\ key r = z /\ time r < cutoff.
Proof.
  rewrite list_elem_of_fmap. setoid_rewrite elem_of_filter_bool. setoid_rewrite Z.ltb_lt. naive_solver.
Qed.

Lemma elem_of_created z cutoff d :
  z ∈ s_stream_id <$> List.filter (fun s => match s_created_ts s with
                                            | Some t => t <? cutoff
                                            | None => true
                                            end) (rtpmon_streams d) <->
  exists s, s ∈ rtpmon_streams d /\ s_stream_id s = z /\
    match s_created_ts s with Some t => t < cutoff | None => True end.
Proof.
  rewrite list_elem_of_fmap. setoid_rewrite elem_of_filter_bool. split.
  - intros (s & -> & Hs & Hc). exists s. split_and!; try done. by case_match; zbool.
  - intros (s & Hs & <- & Hc). exists s. split_and!; try done. case_match; [by apply Z.ltb_lt|done].
Qed.

Lemma report_times_app z d t :
  t ∈ report_times z d <->
  (exists r, r ∈ rtpmon_intervals d /\ r_stream_id r = z /\ r_end_timestamp r = t) \/
  (exists r, r ∈ rtpmon_statistics d /\ r_stream_id r = z /\ r_end_timestamp r = t) \/
  (exists r, r ∈ rtpmon_audio d /\ u_stream_id r = z /\ u_start_timestamp r = t).
Proof. unfold report_times. by rewrite !elem_of_app, !elem_of_times. Qed.

Lemma cand_iff cutoff d z :
  z ∈ cand cutoff d <->
  (exists s, s ∈ rtpmon_streams d /\ s_stream_id s = z /\
     match s_created_ts s with Some t => t < cutoff | None => True end) \/
  exists t, t ∈ report_times z d /\ t < cutoff.
Proof.
  unfold cand. rewrite elem_of_remove_dups, !elem_of_app, elem_of_created, !elem_of_early.
  setoid_rewrite report_times_app. naive_solver.
Qed.

Lemma expired_iff cutoff d z :
  NoDup (stream_ids d) ->
  z ∈ expiredStreamsQuery cutoff d <->
  exists s, s ∈ rtpmon_streams d /\ s_stream_id s = z /\ expired cutoff d s.
Proof.
  intros Hnd. unfold expiredStreamsQuery, expired.
  rewrite elem_of_filter_bool, !andb_true_iff, existsb_elem, !no_late_rows, cand_iff.
  setoid_rewrite Z.eqb_eq. unfold report_times. setoid_rewrite Forall_app. setoid_rewrite Forall_app.
  fold (report_times z d). split.
  - intros [Hc [[[(s & Hs & Hz) Hi] Ht] Ha]]. exists s. subst z. split_and!; try done.
    destruct Hc as [(s' & Hs' & Hid & Hcr)|(t & Hin & _)].
    + right. assert (s' = s) as <-; [|done].
      by apply (stream_row_unique d).
    + left. intros Hnil. unfold report_times in Hin. rewrite Hnil in Hin. by apply elem_of_nil in Hin.
  - intros (s & Hs & <- & (Hi & Ht & Ha) & Hold). split_and!; try done; [|by exists s].
    destruct Hold as [Hne|Hcr]; [|left; by exists s].
    right. fold (report_times (s_stream_id s) d) in Hne.
    destruct (report_times (s_stream_id s) d) as [|t l] eqn:E; [done|]. exists t. split; [set_solver|].
    assert (Forall (fun t => t < cutoff) (report_times (s_stream_id s) d)) as Hall.
    { unfold report_times. by rewrite !Forall_app. }
    rewrite E in Hall. by apply Forall_cons_1 in Hall as [? _].
Qed.

(** * What a pass does *)

Lemma delete_streams_ext l1 l2 d :
  (forall z, z ∈ stream_ids d \/ z ∈ l1 \/ z ∈ l2 -> z ∈ l1 <-> z ∈ l2) ->
  delete_streams l1 d = delete_streams l2 d.
Proof.
  intros Hext. assert (forall z, id_in l1 z = id_in l2 z) as Hid.
  { intros z. unfold id_in. apply bool_decide_ext. split; intros Hz; apply Hext; auto. }
  unfold delete_streams. f_equal; apply filter_ext; intros x; by rewrite Hid.
Qed.

Lemma db_ok_cleanup cutoff d :
  db_ok d -> db_ok (delete_sip cutoff d).2 /\ db_ok (delete_health cutoff (delete_sip cutoff d).2) /\
  db_ok (delete_alarms cutoff (delete_health cutoff (delete_sip cutoff d).2)).
Proof. intros Hd. split_and!; by apply (db_ok_same d). Qed.

(** The expired streams after some of them are deleted. *)
Lemma report_times_delete ids d z :
  z ∉ ids -> report_times z (delete_streams ids d) = report_times z d.
Proof.
  intros Hz. unfold report_times. simpl. rewrite !filter_filter.
  assert (forall {A} (key : A -> Z) x, negb (id_in ids (key x)) && (key x =? z) = (key x =? z)) as Hk.
  { intros A key x. destruct (Z.eqb_spec (key x) z) as [->|]; [|apply andb_false_r].
    rewrite andb_true_r. by apply id_in_false. }
  f_equal; [|f_equal]; apply (f_equal (fmap _)), filter_ext; intros; apply Hk.
Qed.

Lemma expired_after_delete cutoff ids d z :
  NoDup (stream_ids d) ->
  z ∈ expiredStreamsQuery cutoff (delete_streams ids d) <->
  z ∈ expiredStreamsQuery cutoff d /\ z ∉ ids.
Proof.
  intros Hnd. rewrite !expired_iff; [|done|].
  2:{ by apply stream_ids_delete_NoDup. }
  unfold expired. split.
  - intros (s & Hs & Hz & Hex). simpl in Hs. apply elem_of_filter_bool in Hs as [Hs Hnot].
    apply id_in_false in Hnot. rewrite report_times_delete in Hex by done.
    split; [by exists s|by subst].
  - intros ((s & Hs & Hz & Hex) & Hnot). exists s. subst z.
    rewrite report_times_delete by done. split_and!; try done; try apply Hex. simpl.
    apply elem_of_filter_bool. by rewrite id_in_false.
Qed.

(** The final deletes commute with the deletion of streams, and repeat
    themselves to no effect. *)
Lemma delete_rest_idem cutoff d :
  let f d := delete_alarms cutoff (delete_health cutoff (delete_sip cutoff d).2) in
  f (delete_sip cutoff d).2 = f d /\ f (delete_health cutoff (delete_sip cutoff d).2) = f d /\
  f (f d) = f d.
Proof.
  destruct d. unfold delete_alarms, delete_health, delete_sip, set_alarm_events, set_call_health,
    set_sip_events. simpl.
  rewrite !filter_filter. split_and!; f_equal; apply filter_ext; intros r; apply andb_diag.
Qed.

Lemma delete_streams_rest ids cutoff d :
  delete_streams ids (delete_sip cutoff d).2 = (delete_sip cutoff (delete_streams ids d)).2 /\
  delete_streams ids (delete_health cutoff d) = delete_health cutoff (delete_streams ids d) /\
  delete_streams ids (delete_alarms cutoff d) = delete_alarms cutoff (delete_streams ids d).
Proof. by destruct d. Qed.

Lemma expired_rest cutoff d :
  expiredStreamsQuery cutoff (delete_sip cutoff d).2 = expiredStreamsQuery cutoff d /\
  expiredStreamsQuery cutoff (delete_health cutoff d) = expiredStreamsQuery cutoff d /\
  expiredStreamsQuery cutoff (delete_alarms cutoff d) = expiredStreamsQuery cutoff d.
Proof. by destruct d. Qed.

(** A pass over the leftovers of an interrupted one. *)
Lemma cleaned_resume cutoff d dn :
  NoDup (stream_ids d) -> (forall z, z ∈ dn -> z ∈ expiredStreamsQuery cutoff d) ->
  cleaned cutoff (delete_streams dn d) = cleaned cutoff d.
Proof.
  intros Hnd Hsub. unfold cleaned. rewrite delete_streams_app.
  rewrite (delete_streams_ext _ (expiredStreamsQuery cutoff d)); [done|].
  intros z _. rewrite elem_of_app, expired_after_delete by done.
  destruct (decide (z ∈ dn)); naive_solver.
Qed.

(** Without faults a pass does all its work. *)
Lemma delete_transaction_no_faults ids d :
  transaction (deleteStreamsByIDs ids) (MkConn d []) = (Ok tt, MkConn (delete_streams ids d) []).
Proof.
  assert (forall l d, iterM deleteChunk l (MkConn d []) = (Ok tt, MkConn (delete_streams (concat l) d) [])) as Hl.
  { induction l as [|ch l IH]; intros d'; simpl; [by rewrite delete_streams_nil|].
    unfold bind at 1, deleteChunk, tx_exec. unfold bind at 1. rewrite call_pass.
    unfold bind at 1. rewrite call_pass. unfold bind at 1. rewrite !call_pass. cbn [fst snd].
    rewrite IH, <- delete_streams_app. by destruct d'. }
  unfold transaction. rewrite retryBusy_pass. cbn [fst snd]. unfold bind, deleteStreamsByIDs.
  rewrite Hl, call_pass, chunks_concat by lia. done.
Qed.

Lemma delete_chunks_no_faults l st d :
  exists st', delete_chunks l st (MkConn d []) = (st', None, MkConn (delete_streams (concat l) d) []).
Proof.
  revert st d. induction l as [|ch l IH]; intros st d; simpl.
  { exists st. by rewrite delete_streams_nil. }
  unfold deleteStreamsTx. rewrite delete_transaction_no_faults.
  match goal with |- context [delete_chunks l ?s _] => destruct (IH s (delete_streams ch d)) as [st' ->] end.
  exists st'. by rewrite delete_streams_app.
Qed.

Lemma RemoveOldRecords_no_faults cutoff d :
  let '(_, err, c) := RemoveOldRecords cutoff (MkConn d []) in
  err = None /\ tables c = cleaned cutoff d.
Proof.
  unfold RemoveOldRecords, query. rewrite call_pass. cbn [fst snd].
  destruct (delete_chunks_no_faults (chunks deleteChunkStreams (expiredStreamsQuery cutoff d))
    (MkCleanupStats 0 0 0) d) as [st ->].
  unfold exec_, exec. rewrite !retryBusy_pass. cbn [fst snd]. split; [done|].
  rewrite chunks_concat by (unfold deleteChunkStreams; lia). done.
Qed.

(** The tail of an interrupted pass is repeated by the next one. *)
Lemma cleaned_rest cutoff d (rest : list Z) d' :
  (d' = d \/ rest = [] /\ d' = (delete_sip cutoff d).2 \/
   rest = [] /\ d' = delete_health cutoff (delete_sip cutoff d).2 \/
   rest = [] /\ d' = delete_alarms cutoff (delete_health cutoff (delete_sip cutoff d).2)) ->
  cleaned cutoff d' = cleaned cutoff d.
Proof.
  intros Hd'. destruct (delete_rest_idem cutoff (delete_streams (expiredStreamsQuery cutoff d) d)) as (H1 & H2 & H3).
  unfold cleaned.
  destruct Hd' as [->|[[_ ->]|[[_ ->]|[_ ->]]]]; [done|..];
    rewrite ?(proj2 (proj2 (expired_rest cutoff _))), ?(proj1 (proj2 (expired_rest cutoff _))),
      ?(proj1 (expired_rest cutoff _)), ?(proj2 (proj2 (delete_streams_rest _ cutoff _))),
      ?(proj1 (proj2 (delete_streams_rest _ cutoff _))), ?(proj1 (delete_streams_rest _ cutoff _)); done.
Qed.

(** * Properties *)

(** The expired streams: the query that gathers candidates and then
    checks them selects exactly the streams of the specification, those none
    of whose interval, statistics or audio rows is at or after the cutoff and
    that have such a row, or were created before it, or have no creation
    time; each is listed once. *)
Theorem expiredStreamsQuery_correct cutoff d :
  NoDup (stream_ids d) ->
  NoDup (expiredStreamsQuery cutoff d) /\
  forall z, z ∈ expiredStreamsQuery cutoff d <->
    exists s, s ∈ rtpmon_streams d /\ s_stream_id s = z /\ expired cutoff d s.
Proof.
  intros Hnd. split; [|intros z; by apply expired_iff].
  apply NoDup_filter_bool, NoDup_remove_dups.
Qed.

(** C8. A cleanup pass is safe wherever it stops: whatever faults the database
    answers, referential integrity is kept, a stream that is not expired
    keeps its row and all its reports and audio, and if the pass reports no
    error then exactly the expired streams are gone, counted, in chunks of at
    most a hundred. *)
Theorem RemoveOldRecords_safe cutoff c :
  db_ok (tables c) ->
  let '(st, err, c') := RemoveOldRecords cutoff c in
  db_ok (tables c') /\
  (forall s, s ∈ rtpmon_streams (tables c) -> ~ expired cutoff (tables c) s ->
     s ∈ rtpmon_streams (tables c') /\
     report_times (s_stream_id s) (tables c') = report_times (s_stream_id s) (tables c)) /\
  (err = None ->
     (forall s, s ∈ rtpmon_streams (tables c') <-> s ∈ rtpmon_streams (tables c) /\ ~ expired cutoff (tables c) s) /\
     cl_Streams st = Z.of_nat (length (expiredStreamsQuery cutoff (tables c))) /\
     Forall (fun ch => (length ch <= 100)%nat) (chunks deleteChunkStreams (expiredStreamsQuery cutoff (tables c)))).
Proof.
  intros Hok. pose proof (RemoveOldRecords_partial cutoff c) as Hp.
  destruct (RemoveOldRecords cutoff c) as [[st err] c'].
  destruct Hp as (dn & rest & Hdn & Ht & Hdone).
  set (d := delete_streams dn (tables c)) in *.
  assert (db_ok d) as Hd by by apply db_ok_delete.
  assert (forall z, z ∈ dn -> z ∈ expiredStreamsQuery cutoff (tables c)) as Hsub.
  { intros z Hz. destruct Hdn as [->| ->]; [apply elem_of_app; by left|by apply elem_of_nil in Hz]. }
  assert (forall s, s ∈ rtpmon_streams (tables c) -> ~ expired cutoff (tables c) s -> s_stream_id s ∉ dn) as Hnot.
  { intros s Hs Hex Hin. apply Hsub, expired_iff in Hin as (s' & Hs' & Heq & Hex'); [|apply Hok].
    by rewrite (stream_row_unique (tables c) s' s (ok_ids _ Hok)) in Hex'. }
  split; [|split].
  - destruct (db_ok_cleanup cutoff d Hd) as (? & ? & ?).
    by destruct Ht as [->|[[_ ->]|[[_ ->]|[_ ->]]]].
  - intros s Hs Hex. assert (s ∈ rtpmon_streams d) as Hsd.
    { unfold d. simpl. apply elem_of_filter_bool. rewrite id_in_false. auto. }
    assert (report_times (s_stream_id s) d = report_times (s_stream_id s) (tables c)) as Hr
      by (apply report_times_delete; auto).
    destruct Ht as [->|[[_ ->]|[[_ ->]|[_ ->]]]]; by split.
  - intros Herr. destruct (Hdone Herr) as (<- & Htab & Hst & _). rewrite Hst.
    split_and!; [|done|apply chunks_bound].
    intros s. rewrite Htab. unfold cleaned. simpl. rewrite elem_of_filter_bool, id_in_false. split.
    + intros [Hs Hno]. split; [done|]. intros Hex. apply Hno. apply expired_iff; [apply Hok|]. by exists s.
    + intros [Hs Hex]. auto.
Qed.

(** C36. An interrupted pass resumes: running the cleanup again after a pass
    that failed anywhere, this time without faults, leaves the same tables as
    one pass without faults would have. *)
Theorem RemoveOldRecords_resumes cutoff c :
  db_ok (tables c) ->
  let '(_, _, c') := RemoveOldRecords cutoff c in
  let '(_, err, c'') := RemoveOldRecords cutoff (MkConn (tables c') []) in
  err = None /\ tables c'' = cleaned cutoff (tables c).
Proof.
  intros Hok. pose proof (RemoveOldRecords_partial cutoff c) as Hp.
  destruct (RemoveOldRecords cutoff c) as [[st err] c'].
  destruct Hp as (dn & rest & Hdn & Ht & _).
  assert (forall z, z ∈ dn -> z ∈ expiredStreamsQuery cutoff (tables c)) as Hsub.
  { intros z Hz. destruct Hdn as [->| ->]; [apply elem_of_app; by left|by apply elem_of_nil in Hz]. }
  assert (cleaned cutoff (tables c') = cleaned cutoff (tables c)) as Hclean.
  { rewrite <- (cleaned_resume cutoff (tables c) dn) by (done || apply Hok).
    by apply cleaned_rest in Ht. }
  rewrite <- Hclean. apply RemoveOldRecords_no_faults.
Qed.

(** * Concrete runs *)

#[local] Existing Instance ascii_tables.

Definition two_calls_db : database := tables (db two_calls).

Lemma two_calls_db_ok : db_ok two_calls_db.
Proof. apply two_calls_ok. Qed.

Lemma expiredStreamsQuery_correct_witness :
  NoDup (expiredStreamsQuery 10 two_calls_db) /\
  forall z, z ∈ expiredStreamsQuery 10 two_calls_db <->
    exists s, s ∈ rtpmon_streams two_calls_db /\ s_stream_id s = z /\ expired 10 two_calls_db s.
Proof. apply expiredStreamsQuery_correct. apply two_calls_db_ok. Defined.

Lemma RemoveOldRecords_safe_witness :
  let c := MkConn two_calls_db [None; Some (SqliteError 5); None; Some (OtherError "disk")] in
  let '(st, err, c') := RemoveOldRecords 10 c in
  db_ok (tables c') /\
  (forall s, s ∈ rtpmon_streams (tables c) -> ~ expired 10 (tables c) s ->
     s ∈ rtpmon_streams (tables c') /\
     report_times (s_stream_id s) (tables c') = report_times (s_stream_id s) (tables c)) /\
  (err = None ->
     (forall s, s ∈ rtpmon_streams (tables c') <-> s ∈ rtpmon_streams (tables c) /\ ~ expired 10 (tables c) s) /\
     cl_Streams st = Z.of_nat (length (expiredStreamsQuery 10 (tables c))) /\
     Forall (fun ch => (length ch <= 100)%nat) (chunks deleteChunkStreams (expiredStreamsQuery 10 (tables c)))).
Proof. intros c. apply (RemoveOldRecords_safe 10 c). apply two_calls_db_ok. Defined.

Lemma RemoveOldRecords_resumes_witness :
  let c := MkConn two_calls_db [None; None; None; Some (OtherError "disk")] in
  let '(_, _, c') := RemoveOldRecords 10 c in
  let '(_, err, c'') := RemoveOldRecords 10 (MkConn (tables c') []) in
  err = None /\ tables c'' = cleaned 10 (tables c).
Proof. intros c. apply (RemoveOldRecords_resumes 10 c). apply two_calls_db_ok. Defined.

(** A stream that is opened, expires, and then reports. *)
Definition expired_then_reports : res db_error unit * writer :=
  let w := run_ops next_rowid [OOpen (sample_id 7 "a") 1] (fresh_writer 0 [] []) in
  let w := with_db (RemoveOldRecords 100 (db w)).2 w in
  AddFinal next_rowid 200 (call_report 7 "a" "c1" "sip:a" 150 200) w.

(** The cleanup deletes rows but leaves the writer's stream map: a stream
    that reports again after its row expired is still mapped, so its
    statistics row is written, without an error, under an id that has no
    stream row. *)
Theorem cleanup_orphans_late_reports :
  expired_then_reports.1 = Ok tt /\
  (r_stream_id <$> rtpmon_statistics (tables (db expired_then_reports.2))) = [1] /\
  stream_ids (tables (db expired_then_reports.2)) = [].
Proof. repeat split; vm_compute; reflexivity. Qed.
