(* ===== verification/Retention.v ===== *)
(** The cleanup worker as a goroutine ([internal/worker/cleanup.go]) that shares
    the database with the writer of the bus goroutine, the API and the alarms.

    The worker's loop takes turns with the others, one statement or
    transaction at a time: a run is a list of actions, and an action that is not
    possible in a state is [None].  [sweep] of [Cleanup] is the pass of a worker
    that runs alone; here other goroutines may write between its read of the
    expired ids and its deletes.  The comment on [RemoveOldRecords] calls that
    safe because nothing writes to a selected stream; what holds without this
    assumption and what holds with it is told apart below. *)

From S2P Require Import Prelude GoFloat GoStrings Values StableSort Model Store Writer WriterInv Cleanup.

(** * What the other goroutines write *)

(** The statements of the writer on the four tables of streams, and any change
    of the other tables. *)
Inductive write :=
| InsertStream (id : MediaStreamId) (agentRow createdTS : Z)
| InsertReport (table : report_table) (row : report_row)
| UpdateSip (dbID : Z) (report : StreamReport)
| InsertAudio (dbID : Z) (audio : StreamAudio)
| DeleteStreams (ids : list Z)
| Elsewhere (instances : list instance_row) (property : list (string * option string))
    (sip : list sip_row) (health : list health_row) (alarms : list alarm_row).

(** The rows a statement adds to, changes or deletes, by the id of the stream;
    and the ids that a new row needs. *)
Definition targets (x : write) : list Z :=
  match x with
  | InsertStream _ _ _ | Elsewhere _ _ _ _ _ => []
  | InsertReport _ row => [r_stream_id row]
  | UpdateSip z _ | InsertAudio z _ => [z]
  | DeleteStreams ids => ids
  end.
Definition attaches (x : write) : list Z :=
  match x with InsertReport _ row => [r_stream_id row] | InsertAudio z _ => [z] | _ => [] end.

(** A statement that spares the streams of [ids] and adds no row without a
    stream. *)
Definition spares (ids : list Z) (d : database) (x : write) : bool :=
  forallb (fun z => negb (id_in ids z)) (targets x) && forallb (id_in (stream_ids d)) (attaches x).

(** * The worker's goroutine *)

(** Where it is: in its select, about to read the ids of the expired streams,
    about to delete a chunk of them, before each of the three deletes that
    follow, before the delete of the audio, or returned.  A pass carries the
    time it started at. *)
Inductive position :=
| Waiting
| Reading (now : Z)
| Deleting (now : Z) (chunk : list Z) (rest : list (list Z))
| SipEvents (now : Z) | CallHealth (now : Z) | AlarmEvents (now : Z)
| AudioChunks (now : Z)
| Returned.

Record cleaning := MkCleaning { k_tables : database; k_position : position; k_stop : bool }.

Section worker.
Context (new_id : list Z -> Z) (cw : CleanupWorker).

Definition apply_write (x : write) (d : database) : database :=
  match x with
  | InsertStream id agentRow createdTS => (insert_stream new_id id agentRow createdTS d).2
  | InsertReport table row => insert_report table row d
  | UpdateSip dbID report => update_sip dbID report d
  | InsertAudio dbID audio => insert_audio new_id dbID audio d
  | DeleteStreams ids => delete_streams ids d
  | Elsewhere i p s h a =>
      MkDatabase (rtpmon_streams d) (rtpmon_intervals d) (rtpmon_statistics d) i p s h a (rtpmon_audio d)
  end.

Definition records_cutoff (now : Z) : Z := wrap64 (now - wrap64 (recordsS cw * 1000)).
Definition audio_cutoff (now : Z) : Z := wrap64 (now - wrap64 (audioS cw * 1000)).

(** The second part of [sweep], the first, and the loop over the chunks. *)
Definition then_audio (now : Z) : position := if 0 <? audioS cw then AudioChunks now else Waiting.
Definition begin (now : Z) : position := if 0 <? recordsS cw then Reading now else then_audio now.
Definition deleting (now : Z) (l : list (list Z)) : position :=
  match l with [] => SipEvents now | ch :: l => Deleting now ch l end.

(** The next statement of a pass, retried while busy: it takes effect, or fails
    and ends its part of the pass. *)
Definition statement (ok : bool) (d : database) (p : position) : option (database * position) :=
  match p with
  | Waiting | Returned => None
  | Reading now =>
      Some (d, if ok then deleting now (chunks deleteChunkStreams (expiredStreamsQuery (records_cutoff now) d))
               else then_audio now)
  | Deleting now chunk rest =>
      Some (if ok then (delete_streams chunk d, deleting now rest) else (d, then_audio now))
  | SipEvents now =>
      Some (if ok then ((delete_sip (records_cutoff now) d).2, CallHealth now) else (d, then_audio now))
  | CallHealth now =>
      Some (if ok then (delete_health (records_cutoff now) d, AlarmEvents now) else (d, then_audio now))
  | AlarmEvents now =>
      Some (if ok then delete_alarms (records_cutoff now) d else d, then_audio now)
  | AudioChunks now => Some (if ok then delete_audio (audio_cutoff now) d else d, Waiting)
  end.

(** [Tick]: the ticker fires and the select takes it.  [Stop]: [close(c.stop)].
    [Halt]: the select takes the closed channel. *)
Inductive action := Tick (now : Z) | Statement (ok : bool) | Stop | Halt | Write (x : write).

Definition step (a : action) (s : cleaning) : option cleaning :=
  match a, k_position s with
  | Tick now, Waiting => Some (MkCleaning (k_tables s) (begin now) (k_stop s))
  | Halt, Waiting => if k_stop s then Some (MkCleaning (k_tables s) Returned true) else None
  | Stop, _ => if k_stop s then None else Some (MkCleaning (k_tables s) (k_position s) true)
  | Statement ok, p => (fun '(d, p) => MkCleaning d p (k_stop s)) <$> statement ok (k_tables s) p
  | Write x, p => Some (MkCleaning (apply_write x (k_tables s)) p (k_stop s))
  | _, _ => None
  end.

Fixpoint run (acts : list action) (s : cleaning) : option cleaning :=
  match acts with
  | [] => Some s
  | a :: acts => match step a s with Some s => run acts s | None => None end
  end.

(** The ids a pass has selected and not yet deleted. *)
Definition pending (p : position) : list Z :=
  match p with Deleting _ chunk rest => concat (chunk :: rest) | _ => [] end.

(** What the comment on [RemoveOldRecords] relies on: no write of a run is to a
    selected stream. *)
Fixpoint undisturbed (acts : list action) (s : cleaning) : bool :=
  match acts with
  | [] => true
  | a :: acts =>
      match a with Write x => spares (pending (k_position s)) (k_tables s) x | _ => true end &&
      match step a s with Some s => undisturbed acts s | None => true end
  end.

(** * A statement of another goroutine *)

Context (new_id_fresh : forall ids, new_id ids ∉ ids).

Lemma spares_iff ids d x : spares ids d x = true <->
  (forall z, z ∈ targets x -> z ∉ ids) /\ (forall z, z ∈ attaches x -> z ∈ stream_ids d).
Proof.
  unfold spares. rewrite andb_true_iff, !forallb_forall. setoid_rewrite <- list_elem_of_In.
  setoid_rewrite id_in_false. by setoid_rewrite id_in_true.
Qed.

Lemma no_maps_ok d : maps_ok d ∅ ∅.
Proof. split; intros *; by rewrite lookup_empty. Qed.

Lemma write_db_ok ids d x : db_ok d -> spares ids d x = true -> db_ok (apply_write x d).
Proof using new_id_fresh.
  rewrite <- !db_ok_nil. intros Hd [_ Ha]%spares_iff.
  pose proof (proj2 (maps_ok_nil d ∅ ∅) (no_maps_ok d)) as Hm.
  destruct x as [id a c|t row|z r|z a|l|i p s h a]; cbn [apply_write attaches] in *.
  - pose proof (insert_stream_but [] new_id new_id_fresh id a c d ∅ ∅ Hd Hm (lookup_empty id)) as H.
    destruct (insert_stream new_id id a c d). apply H.
  - apply (insert_report_but [] t row d ∅ ∅); [left; apply Ha; by left|done|done].
  - by apply (update_sip_but [] z r d ∅ ∅).
  - destruct Hd as [H1 H2 H3 H4]. split; try done. intros u. cbn.
    rewrite elem_of_app, list_elem_of_singleton. intros [Hu| ->]; [by apply H4|left; apply Ha; by left].
  - apply db_ok_nil, db_ok_delete. by apply db_ok_nil.
  - apply db_ok_nil, (db_ok_same d); by try apply db_ok_nil.
Qed.

(** It leaves the other streams as they are. *)
Lemma write_spares_times x d z : z ∉ targets x -> report_times z (apply_write x d) = report_times z d.
Proof.
  intros Hz. destruct x as [id a c|[] row|v r|v a|l|i p s h a]; cbn [apply_write targets] in *;
    [done| | |done| |by apply report_times_delete|done];
    unfold report_times; cbn; rewrite List.filter_app; cbn;
    [destruct (Z.eqb_spec (r_stream_id row) z) as [<-|]; [set_solver|]..|
     destruct (Z.eqb_spec v z) as [<-|]; [set_solver|]]; by rewrite app_nil_r.
Qed.

Lemma write_spares_row x d s : s ∈ rtpmon_streams d -> s_stream_id s ∉ targets x -> s ∈ rtpmon_streams (apply_write x d).
Proof.
  intros Hs Hz. destruct x as [id a c|[] row|v r|v a|l|i p sp h a]; cbn [apply_write targets] in *; try done.
  - cbn. apply elem_of_app. by left.
  - cbn. apply list_elem_of_fmap. exists s. split; [|done].
    destruct (Z.eqb_spec (s_stream_id s) v) as [E|]; [|done]. destruct Hz. rewrite E. by left.
  - cbn. apply elem_of_filter_bool. by rewrite id_in_false.
Qed.

Lemma write_spares_expired x d cutoff ids z : db_ok d -> spares ids d x = true -> z ∈ ids ->
  z ∈ expiredStreamsQuery cutoff d -> z ∈ expiredStreamsQuery cutoff (apply_write x d).
Proof using new_id_fresh.
  intros Hd Hx Hz. assert (z ∉ targets x) as Ht by (intros Hin; by apply (proj1 (spares_iff _ _ _) Hx) in Hin).
  rewrite !expired_iff by first [apply Hd|by eapply write_db_ok].
  intros (s & Hs & <- & He). exists s. split; [by apply write_spares_row|]. split; [done|].
  unfold expired. by rewrite write_spares_times.
Qed.

(** * The worker's own statements *)

(** Every selected stream is still expired, and is selected once. *)
Definition selected_ok (s : cleaning) : Prop :=
  db_ok (k_tables s) /\ NoDup (pending (k_position s)) /\
  match k_position s with
  | Deleting now chunk rest =>
      forall z, z ∈ pending (Deleting now chunk rest) -> z ∈ expiredStreamsQuery (records_cutoff now) (k_tables s)
  | _ => True
  end.

(** A pass between two chunks, or done with them. *)
Lemma deleting_ok now l d stop : db_ok d -> NoDup (concat l) ->
  (forall z, z ∈ concat l -> z ∈ expiredStreamsQuery (records_cutoff now) d) ->
  selected_ok (MkCleaning d (deleting now l) stop).
Proof. intros Hd Hnd He. by destruct l as [|ch l]; (split; [|split; [try apply NoDup_nil_2|]]). Qed.

Lemma idle_ok now d stop : db_ok d -> selected_ok (MkCleaning d (then_audio now) stop).
Proof. intros Hd. unfold then_audio. case_match; (split; [done|split; [apply NoDup_nil_2|done]]). Qed.

Lemma delete_audio_ok cutoff d : db_ok d -> db_ok (delete_audio cutoff d).
Proof. intros [H1 H2 H3 H4]. split; try done. intros u [Hu _]%elem_of_filter_bool. by apply H4. Qed.

Lemma statement_ok ok d p stop d' p' : selected_ok (MkCleaning d p stop) -> statement ok d p = Some (d', p') ->
  selected_ok (MkCleaning d' p' stop).
Proof.
  intros (Hd & Hnd & He) Hs. cbn [k_tables k_position] in *.
  destruct p as [|now|now ch l|now|now|now|now|]; [done|..|done]; destruct ok; injection Hs as <- <-; try (by apply idle_ok).
  - assert (concat (chunks deleteChunkStreams (expiredStreamsQuery (records_cutoff now) d)) =
            expiredStreamsQuery (records_cutoff now) d) as Hch by (apply chunks_concat; unfold deleteChunkStreams; lia).
    apply deleting_ok; [done|rewrite Hch; apply NoDup_filter_bool, NoDup_remove_dups|by rewrite Hch].
  - cbn [pending concat] in Hnd, He. apply NoDup_app in Hnd as (_ & Hdisj & Hl).
    apply deleting_ok; [by apply db_ok_delete|done|]. intros z Hz. apply expired_after_delete; [apply Hd|].
    split; [apply He, elem_of_app; by right|]. intros Hin. by apply (Hdisj z).
  - split; [|split; [apply NoDup_nil_2|done]]. apply (db_ok_same d); done.
  - split; [|split; [apply NoDup_nil_2|done]]. apply (db_ok_same d); done.
  - apply idle_ok. apply (db_ok_same d); done.
  - split; [by apply delete_audio_ok|split; [apply NoDup_nil_2|done]].
  - split; [done|split; [apply NoDup_nil_2|done]].
Qed.

(** What a statement of the pass started at [now] leaves: the row and the
    reports of every stream that is not expired, its audio that is not older
    than the audio's lifetime, and the events that are not older than the
    records'. *)
Definition of_stream (z : Z) (l : list report_row) : list report_row := List.filter (fun r => r_stream_id r =? z) l.
Definition recent {A} (time : A -> Z) (cutoff : Z) (l : list A) : list A := List.filter (fun x => negb (time x <? cutoff)) l.
Definition audio_of (z cutoff : Z) (d : database) : list audio_row :=
  recent u_start_timestamp cutoff (List.filter (fun u => u_stream_id u =? z) (rtpmon_audio d)).

Record spares_live (now : Z) (d d' : database) : Prop := {
  live_row s : s ∈ rtpmon_streams d -> ~ expired (records_cutoff now) d s -> s ∈ rtpmon_streams d';
  live_intervals s : s ∈ rtpmon_streams d -> ~ expired (records_cutoff now) d s ->
    of_stream (s_stream_id s) (rtpmon_intervals d') = of_stream (s_stream_id s) (rtpmon_intervals d);
  live_statistics s : s ∈ rtpmon_streams d -> ~ expired (records_cutoff now) d s ->
    of_stream (s_stream_id s) (rtpmon_statistics d') = of_stream (s_stream_id s) (rtpmon_statistics d);
  live_audio s : s ∈ rtpmon_streams d -> ~ expired (records_cutoff now) d s ->
    audio_of (s_stream_id s) (audio_cutoff now) d' = audio_of (s_stream_id s) (audio_cutoff now) d;
  live_sip : recent e_timestamp (records_cutoff now) (rtpmon_sip_events d') =
    recent e_timestamp (records_cutoff now) (rtpmon_sip_events d);
  live_health : recent h_timestamp (records_cutoff now) (rtpmon_call_health d') =
    recent h_timestamp (records_cutoff now) (rtpmon_call_health d);
  live_alarms : recent a_timestamp (records_cutoff now) (rtpmon_alarm_events d') =
    recent a_timestamp (records_cutoff now) (rtpmon_alarm_events d)
}.

Lemma spares_live_refl now d : spares_live now d d.
Proof. by split. Qed.

Lemma recent_recent {A} (time : A -> Z) cutoff l : recent time cutoff (recent time cutoff l) = recent time cutoff l.
Proof. unfold recent. rewrite filter_filter. apply filter_ext. intros x. apply andb_diag. Qed.

Lemma filter_delete {A} (key : A -> Z) z ids l : z ∉ ids ->
  List.filter (fun x => key x =? z) (List.filter (fun x => negb (id_in ids (key x))) l) = List.filter (fun x => key x =? z) l.
Proof.
  intros Hz. rewrite filter_filter. apply filter_ext. intros x. destruct (Z.eqb_spec (key x) z) as [->|]; [|apply andb_false_r].
  rewrite andb_true_r. by apply id_in_false.
Qed.

Lemma delete_spares now ids d : db_ok d -> (forall z, z ∈ ids -> z ∈ expiredStreamsQuery (records_cutoff now) d) ->
  spares_live now d (delete_streams ids d).
Proof.
  intros Hd Hids. assert (forall s, s ∈ rtpmon_streams d -> ~ expired (records_cutoff now) d s -> s_stream_id s ∉ ids) as Hnot.
  { intros s Hs He Hin. apply Hids, expired_iff in Hin as (s' & Hs' & Heq & He'); [|apply Hd].
    by rewrite (stream_row_unique d s' s (ok_ids _ Hd)) in He'. }
  split; try done; intros s Hs He; pose proof (Hnot s Hs He) as Hz.
  - apply elem_of_filter_bool. by rewrite id_in_false.
  - by apply (filter_delete r_stream_id).
  - by apply (filter_delete r_stream_id).
  - unfold audio_of. f_equal. by apply (filter_delete u_stream_id).
Qed.

Lemma audio_kept now z d : audio_of z (audio_cutoff now) (delete_audio (audio_cutoff now) d) = audio_of z (audio_cutoff now) d.
Proof.
  unfold audio_of, recent. cbn. rewrite !filter_filter. apply filter_ext. intros u.
  by destruct (u_start_timestamp u <? _), (u_stream_id u =? _).
Qed.

(** The time of the pass under way. *)
Definition started (p : position) : option Z :=
  match p with
  | Waiting | Returned => None
  | Reading now | Deleting now _ _ | SipEvents now | CallHealth now | AlarmEvents now | AudioChunks now => Some now
  end.

Lemma statement_spares ok d p stop d' p' now : selected_ok (MkCleaning d p stop) -> started p = Some now ->
  statement ok d p = Some (d', p') -> spares_live now d d'.
Proof.
  intros (Hd & _ & He) Hn Hs. cbn [k_tables k_position] in *.
  destruct p as [|n|n ch l|n|n|n|n|]; [done|..|done]; injection Hn as ->; destruct ok; injection Hs as <- <-;
    try apply spares_live_refl.
  - apply delete_spares; [done|]. intros z Hz. apply He. cbn. apply elem_of_app. by left.
  - split; try done. apply (recent_recent e_timestamp).
  - split; try done. apply (recent_recent h_timestamp).
  - split; try done. apply (recent_recent a_timestamp).
  - split; try done. intros s _ _. apply audio_kept.
Qed.

(** ** Without the assumption *)

(** Everything of the stream [z] is as it was, but for audio older than the
    lifetime; the events within the lifetime are. *)
Record stream_kept (now z : Z) (d d' : database) : Prop := {
  kept_row : List.filter (fun s => s_stream_id s =? z) (rtpmon_streams d') =
    List.filter (fun s => s_stream_id s =? z) (rtpmon_streams d);
  kept_intervals : of_stream z (rtpmon_intervals d') = of_stream z (rtpmon_intervals d);
  kept_statistics : of_stream z (rtpmon_statistics d') = of_stream z (rtpmon_statistics d);
  kept_audio : audio_of z (audio_cutoff now) d' = audio_of z (audio_cutoff now) d
}.

Record events_kept (now : Z) (d d' : database) : Prop := {
  kept_sip : recent e_timestamp (records_cutoff now) (rtpmon_sip_events d') =
    recent e_timestamp (records_cutoff now) (rtpmon_sip_events d);
  kept_health : recent h_timestamp (records_cutoff now) (rtpmon_call_health d') =
    recent h_timestamp (records_cutoff now) (rtpmon_call_health d);
  kept_alarms : recent a_timestamp (records_cutoff now) (rtpmon_alarm_events d') =
    recent a_timestamp (records_cutoff now) (rtpmon_alarm_events d)
}.

(** A stream that was expired when the pass under way, started at [now], read
    the ids: the read is the statement after [before], and no tick follows. *)
Definition selected_by (acts : list action) (d : database) (now z : Z) : Prop :=
  exists before after s0, acts = before ++ Statement true :: after /\ (forall t, Tick t ∉ after) /\
    run before (MkCleaning d Waiting false) = Some s0 /\ k_position s0 = Reading now /\
    z ∈ expiredStreamsQuery (records_cutoff now) (k_tables s0).

Lemma statement_keeps ok d p d' p' now z : started p = Some now -> statement ok d p = Some (d', p') ->
  z ∉ pending p -> stream_kept now z d d'.
Proof.
  intros Hn Hs Hz. destruct p as [|n|n ch l|n|n|n|n|]; [done|..|done]; injection Hn as ->; destruct ok; injection Hs as <- <-;
    try by split.
  - assert (z ∉ ch) as Hch by (intros Hin; apply Hz; cbn; apply elem_of_app; by left).
    split; [by apply (filter_delete s_stream_id)|by apply (filter_delete r_stream_id)|by apply (filter_delete r_stream_id)|].
    unfold audio_of. f_equal. by apply (filter_delete u_stream_id).
  - split; try done. apply audio_kept.
Qed.

Lemma statement_keeps_events ok d p d' p' now : started p = Some now -> statement ok d p = Some (d', p') ->
  events_kept now d d'.
Proof.
  intros Hn Hs. destruct p as [|n|n ch l|n|n|n|n|]; [done|..|done]; injection Hn as ->; destruct ok; injection Hs as <- <-;
    (split; try done); [apply (recent_recent e_timestamp)|apply (recent_recent h_timestamp)|apply (recent_recent a_timestamp)].
Qed.

(** * Runs *)

Lemma run_app l1 l2 s : run (l1 ++ l2) s = match run l1 s with Some s => run l2 s | None => None end.
Proof. revert s. induction l1 as [|a l1 IH]; intros s; [done|]. cbn. by destruct (step a s). Qed.

Lemma step_ok a s s' : selected_ok s -> match a with Write x => spares (pending (k_position s)) (k_tables s) x | _ => true end = true ->
  step a s = Some s' -> selected_ok s'.
Proof using new_id_fresh.
  intros Hs Ha E. destruct s as [d p stop], a as [now|ok| | |x]; cbn in E.
  - destruct p; try done. injection E as <-. destruct Hs as (Hd & _ & _). unfold begin.
    case_match; [|by apply idle_ok]. split; [done|split; [apply NoDup_nil_2|done]].
  - destruct (statement ok d p) as [[d' p']|] eqn:Hp; [|done]. injection E as <-. by eapply statement_ok.
  - destruct stop; [done|]. by injection E as <-.
  - destruct p, stop; try done. by injection E as <-.
  - injection E as <-. destruct Hs as (Hd & Hnd & He). cbn [k_tables k_position] in *.
    split; [by eapply write_db_ok|]. split; [done|]. cbn [k_position k_tables]. destruct p; try done.
    intros z Hz. by eapply write_spares_expired, He.
Qed.

Lemma run_ok acts s s' : selected_ok s -> undisturbed acts s = true -> run acts s = Some s' -> selected_ok s'.
Proof using new_id_fresh.
  revert s. induction acts as [|a acts IH]; intros s Hs Hu E; [by injection E as <-|]. cbn in Hu, E.
  apply andb_true_iff in Hu as [Ha Hu]. destruct (step a s) as [s1|] eqn:E1; [|done].
  apply (IH s1); [by eapply step_ok|done|done].
Qed.

(** The pass under way was started by a tick. *)
Lemma run_started acts s s' now : run acts s = Some s' -> started (k_position s') = Some now ->
  Tick now ∈ acts \/ started (k_position s) = Some now.
Proof.
  assert (forall n l, started (deleting n l) = Some n) as Hdel by by intros n [|].
  assert (forall n, started (then_audio n) = Some n \/ started (then_audio n) = None) as Haud
    by (intros n; unfold then_audio; case_match; auto).
  revert s. induction acts as [|a acts IH]; intros s E Hn; [injection E as <-; by right|].
  cbn in E. destruct (step a s) as [s1|] eqn:E1; [|done]. destruct (IH s1 E Hn) as [Hin|Hs1]; [left; by right|].
  destruct s as [d p stop], a as [n|ok| | |x]; cbn in E1.
  - destruct p; try done. injection E1 as <-. left. cbn in Hs1. unfold begin in Hs1. case_match; cbn in Hs1.
    + injection Hs1 as ->. by left.
    + destruct (Haud n) as [Hx|Hx]; rewrite Hx in Hs1; [injection Hs1 as ->; by left|done].
  - right. destruct (statement ok d p) as [[d' p']|] eqn:Hp; [|done]. injection E1 as <-. cbn in *.
    destruct p as [|n|n ch l|n|n|n|n|], ok; try done; injection Hp as <- <-; rewrite ?Hdel in Hs1; cbn in *; try done;
      destruct (Haud n) as [Hx|Hx]; congruence.
  - right. destruct stop; [done|]. by injection E1 as <-.
  - right. destruct p, stop; try done. by injection E1 as <-.
  - right. by injection E1 as <-.
Qed.

Lemma idle_start_ok d : db_ok d -> selected_ok (MkCleaning d Waiting false).
Proof. intros Hd. split; [done|split; [apply NoDup_nil_2|done]]. Qed.

(** The ids that await their delete were read by the pass under way. *)
Lemma pending_step a s s' now z : step a s = Some s' -> started (k_position s') = Some now -> z ∈ pending (k_position s') ->
  (forall t, a <> Tick t) /\
  (started (k_position s) = Some now /\ z ∈ pending (k_position s) \/
   a = Statement true /\ k_position s = Reading now /\ z ∈ expiredStreamsQuery (records_cutoff now) (k_tables s)).
Proof.
  assert (forall n, pending (then_audio n) = []) as Haud by (intros n; unfold then_audio; by case_match).
  assert (forall n, pending (begin n) = []) as Hbeg by (intros n; unfold begin; by case_match).
  assert (forall n l, pending (deleting n l) = concat l /\ started (deleting n l) = Some n) as Hdel by by intros n [|].
  intros E Hn Hz. destruct s as [d p stop], a as [n|ok| | |x]; cbn in E.
  - destruct p; try done. injection E as <-. cbn in Hz. by rewrite Hbeg in Hz; apply elem_of_nil in Hz.
  - split; [done|]. destruct (statement ok d p) as [[d' p']|] eqn:Hp; [|done]. injection E as <-. cbn in *.
    destruct p as [|n|n ch l|n|n|n|n|], ok; try done; injection Hp as <- <-; rewrite ?Haud in Hz; try by apply elem_of_nil in Hz.
    + destruct (Hdel n (chunks deleteChunkStreams (expiredStreamsQuery (records_cutoff n) d))) as [H1 H2].
      rewrite H1, chunks_concat in Hz by (unfold deleteChunkStreams; lia). rewrite H2 in Hn. injection Hn as ->. by right.
    + destruct (Hdel n l) as [H1 H2]. rewrite H1 in Hz. rewrite H2 in Hn. left. split; [done|]. apply elem_of_app. by right.
  - split; [done|]. destruct stop; [done|]. injection E as <-. by left.
  - destruct p, stop; try done. injection E as <-. done.
  - split; [done|]. injection E as <-. by left.
Qed.

Lemma run_selected acts d s : run acts (MkCleaning d Waiting false) = Some s ->
  forall now z, started (k_position s) = Some now -> z ∈ pending (k_position s) -> selected_by acts d now z.
Proof.
  revert s. induction acts as [|a acts IH] using rev_ind; intros s E now z Hn Hz; [by injection E as <-|].
  rewrite run_app in E. destruct (run acts _) as [s1|] eqn:E1; [|done]. cbn in E.
  destruct (step a s1) as [s2|] eqn:E2; [|done]. injection E as ->.
  destruct (pending_step a s1 s now z E2 Hn Hz) as [Ha [[Hn1 Hz1]|(-> & Hp & He)]].
  - destruct (IH s1 eq_refl now z Hn1 Hz1) as (before & after & s0 & -> & Ht & H0). exists before, (after ++ [a]), s0.
    rewrite <- app_assoc. split; [done|]. split; [|done]. intros t [Hin|Hin%list_elem_of_singleton]%elem_of_app; [by apply (Ht t)|].
    by apply (Ha t).
  - exists acts, [], s1. split; [done|]. split; [|done]. by intros t ?%elem_of_nil.
Qed.

(** * The worker alone *)

Lemma delete_chunks_run now l st c stop :
  let '(_, err, c') := delete_chunks l st c in
  exists oks, run (Statement <$> oks) (MkCleaning (tables c) (deleting now l) stop) =
    Some (MkCleaning (tables c') (match err with None => SipEvents now | Some _ => then_audio now end) stop).
Proof.
  revert st c. induction l as [|ch l IH]; intros st c; cbn [delete_chunks]; [by exists []|].
  destruct (deleteStreamsTx ch c) as [[[]|e] c1] eqn:E; apply delete_transaction in E.
  - specialize (IH (MkCleanupStats (cl_Streams st + Z.of_nat (length ch)) (cl_Chunks st + 1) (cl_SipEvents st)) c1).
    destruct (delete_chunks l _ c1) as [[st' err] c']. destruct IH as [oks IH]. exists (true :: oks). cbn. by rewrite <- E.
  - exists [false]. cbn. by rewrite E.
Qed.

Lemma RemoveOldRecords_run now c stop :
  exists oks, run (Statement <$> oks) (MkCleaning (tables c) (Reading now) stop) =
    Some (MkCleaning (tables (RemoveOldRecords (records_cutoff now) c).2) (then_audio now) stop).
Proof.
  unfold RemoveOldRecords, query. destruct (call _ c) as [[ids|e] c0] eqn:E0.
  2: { apply call_Err in E0. exists [false]. cbn. by rewrite E0. }
  apply call_Ok in E0 as [-> E0]. cbn [fst snd] in E0 |- *.
  pose proof (delete_chunks_run now (chunks deleteChunkStreams (expiredStreamsQuery (records_cutoff now) (tables c)))
    (MkCleanupStats 0 0 0) c0 stop) as Hc. rewrite E0 in Hc.
  destruct (delete_chunks _ _ c0) as [[st err] c1]. destruct Hc as [oks Hc].
  assert (forall more s, run (Statement <$> more)
    (MkCleaning (tables c1) (match err with None => SipEvents now | Some _ => then_audio now end) stop) = Some s ->
    exists oks, run (Statement <$> oks) (MkCleaning (tables c) (Reading now) stop) = Some s) as Hrun.
  { intros more s Hm. exists (true :: oks ++ more). cbn. rewrite fmap_app. by rewrite run_app, Hc. }
  destruct err as [e|]; [by apply (Hrun [])|]. unfold exec_.
  destruct (exec (delete_sip _) c1) as [[n|e] c2] eqn:E1; apply retryBusy_call in E1;
    [destruct E1 as [_ E1]|by apply (Hrun [false]); cbn; rewrite E1].
  destruct (exec (fun d => (tt, delete_health _ d)) c2) as [[[]|e] c3] eqn:E2; apply retryBusy_call in E2;
    [destruct E2 as [_ E2]|by apply (Hrun [true; false]); cbn; rewrite E2, E1].
  destruct (exec (fun d => (tt, delete_alarms _ d)) c3) as [[[]|e] c4] eqn:E3; apply retryBusy_call in E3;
    [destruct E3 as [_ E3]; apply (Hrun [true; true; true])|apply (Hrun [true; true; false])]; cbn; rewrite E3, E2, E1; done.
Qed.

Lemma sweep_run now c stop :
  exists oks, run (Tick now :: (Statement <$> oks)) (MkCleaning (tables c) Waiting stop) =
    Some (MkCleaning (tables (sweep cw now c)) Waiting stop).
Proof.
  assert (forall c, exists oks, run (Statement <$> oks) (MkCleaning (tables c) (then_audio now) stop) =
    Some (MkCleaning (tables (if 0 <? audioS cw then (RemoveOldAudio (audio_cutoff now) c).2 else c)) Waiting stop)) as Ha.
  { intros c'. unfold then_audio, RemoveOldAudio. destruct (0 <? audioS cw); [|by exists []].
    destruct (exec _ c') as [[n|e] c2] eqn:E; apply retryBusy_call in E;
      [destruct E as [_ E]; exists [true]|exists [false]]; cbn; by rewrite E. }
  unfold sweep. cbn [run step k_position k_tables k_stop]. unfold begin. destruct (0 <? recordsS cw); [|apply Ha].
  destruct (RemoveOldRecords_run now c stop) as [oks Hr]. destruct (Ha (RemoveOldRecords (records_cutoff now) c).2) as [more Hm].
  exists (oks ++ more). by rewrite fmap_app, run_app, Hr.
Qed.

(** * Properties *)

(** A pass of a worker that runs alone is [Cleanup.sweep], whatever statements
    fail: some schedule of the loop has its outcome. *)
Theorem sweep_alone now c stop :
  exists oks, run (Tick now :: (Statement <$> oks)) (MkCleaning (tables c) Waiting stop) =
    Some (MkCleaning (tables (sweep cw now c)) Waiting stop).
Proof using. apply sweep_run. Qed.

(** C9. The cleanup beside the other goroutines, whatever they write between the
    statements of a pass and whichever statements fail.  A statement of the
    worker deletes nothing of a stream that was not expired when this pass read
    the ids, counting from the tick that started it: the row of every other
    stream stays, with its reports and the audio within the audio's lifetime, and
    so do the events within the records' lifetime.  A stream that was expired at
    the read may have come to life since; as long as no other goroutine has
    written to a stream between its selection and its delete, what the comment on
    [RemoveOldRecords] relies on ([undisturbed]), everything that is live at the
    moment of the statement stays too, and the tables stay consistent. *)
Theorem live_rows_survive acts d s ok s' :
  run acts (MkCleaning d Waiting false) = Some s -> step (Statement ok) s = Some s' ->
  exists now, Tick now ∈ acts /\
    (forall z, stream_kept now z (k_tables s) (k_tables s') \/ selected_by acts d now z) /\
    events_kept now (k_tables s) (k_tables s') /\
    (db_ok d -> undisturbed acts (MkCleaning d Waiting false) = true ->
     db_ok (k_tables s') /\ spares_live now (k_tables s) (k_tables s')).
Proof using new_id_fresh.
  intros Hrun E. pose proof (run_selected acts d s Hrun) as Hsel. destruct s as [t p stop]. cbn in E.
  destruct (statement ok t p) as [[t' p']|] eqn:Hp; [|done]. injection E as <-.
  destruct (started p) as [now|] eqn:Hn; [|by destruct p].
  exists now. cbn [k_tables]. split; [by destruct (run_started acts _ _ now Hrun Hn) as [|]|]. split; [|split].
  - intros z. destruct (decide (z ∈ pending p)) as [Hz|Hz]; [right; by apply (Hsel now z)|].
    left. by eapply statement_keeps.
  - by eapply statement_keeps_events.
  - intros Hd Hu. pose proof (run_ok acts _ _ (idle_start_ok d Hd) Hu Hrun) as Hs.
    pose proof (statement_ok ok t p stop t' p' Hs Hp) as Hs'. split; [apply Hs'|by eapply statement_spares].
Qed.

End worker.

(** * The writer's operations as such statements *)

Section writer.
Context `{UnicodeTables} (new_id : list Z -> Z) (ids : list Z).
Context (new_id_fresh : forall l, new_id l ∉ l).

(** One statement that spares [ids]. *)
Definition spared (d d' : database) : Prop := exists x, spares ids d x = true /\ d' = apply_write new_id x d.

(** The row that an operation of the writer finds for its stream. *)
Definition op_target (op : wop) (w : writer) : option Z :=
  match op with
  | OInterval _ r | OFinal _ r => streamMap w !! StreamID r
  | OAudio a => match streamMap w !! sa_StreamID a with
                | Some z => Some z
                | None => endpointMap w !! endpointKey (sa_StreamID a)
                end
  | _ => None
  end.

(** The selected ids are those of rows, and the row of the stream [id], if it
    has one, exists and is not selected; no records limit is set. *)
Definition careful (id : MediaStreamId) (w : writer) : Prop :=
  (forall z, z ∈ ids -> z ∈ stream_ids (tables (db w))) /\ recordsLimit w <= 0 /\
  forall z, streamMap w !! id = Some z -> z ∈ stream_ids (tables (db w)) /\ z ∉ ids.

Definition writes (id : MediaStreamId) {A} (m : W A) : Prop := forall w, careful id w ->
  careful id (m w).2 /\ rtc spared (tables (db w)) (tables (db (m w).2)).

Lemma writes_ret id {A} (a : A) : writes id (wret a).
Proof. intros w Hw. by split. Qed.
Lemma writes_gets id {A} (f : writer -> A) : writes id (gets f).
Proof. intros w Hw. by split. Qed.
Lemma writes_bind id {A B} (m : W A) (k : A -> W B) : writes id m -> (forall a, writes id (k a)) -> writes id (wbind m k).
Proof.
  intros Hm Hk w Hw. unfold wbind. destruct (Hm w Hw) as [Hw1 Hr1]. destruct (m w) as [[a|e] w1]; [|done].
  destruct (Hk a w1 Hw1) as [Hw2 Hr2]. split; [done|by etrans].
Qed.
Lemma writes_bind_gets id {A B} (f : writer -> A) (k : A -> W B) :
  (forall w, careful id w -> careful id (k (f w) w).2 /\ rtc spared (tables (db w)) (tables (db (k (f w) w).2))) ->
  writes id (wbind (gets f) k).
Proof. intros Hk w Hw. by apply Hk. Qed.

Lemma careful_same id w w' : tables (db w') = tables (db w) -> streamMap w' = streamMap w -> recordsLimit w' = recordsLimit w ->
  careful id w -> careful id w'.
Proof. unfold careful. by intros -> -> ->. Qed.

Lemma writes_query id {A} (q : database -> A) : writes id (lift (query q)).
Proof.
  intros w Hw. pose proof (lift_query_db q w) as Hq. destruct (lift (query q) w) as [r w1].
  destruct Hq as (Hs & _ & _ & Hl & Ht & _). split; [by apply (careful_same id w)|]. cbn. by rewrite Ht.
Qed.

Lemma insert_keeps_ids x d z : (forall l, x <> DeleteStreams l) -> z ∈ stream_ids d -> z ∈ stream_ids (apply_write new_id x d).
Proof.
  intros Hx Hz. destruct x as [id a c|[] row|v r|v a|l|i p s h a]; cbn [apply_write]; try done; [| |by destruct (Hx l)].
  - unfold stream_ids. cbn. rewrite fmap_app. apply elem_of_app. by left.
  - by rewrite update_sip_ids.
Qed.

(** An autocommit statement. *)
Lemma exec_writes id {A} (op : database -> A * database) x w : careful id w -> (forall l, x <> DeleteStreams l) ->
  (op (tables (db w))).2 = apply_write new_id x (tables (db w)) -> spares ids (tables (db w)) x = true ->
  careful id (lift (exec op) w).2 /\ rtc spared (tables (db w)) (tables (db (lift (exec op) w).2)).
Proof.
  intros (Hi & Hlim & Hm) Hx Hop Hsp. pose proof (lift_exec_db op w) as Hl.
  destruct (lift (exec op) w) as [[a|e] w1]; destruct Hl as (Hs & _ & _ & Hr & Ht); cbn [snd].
  - destruct Ht as [_ Ht]. rewrite Hop in Ht. split.
    + unfold careful. rewrite Ht, Hs, Hr. split_and!; [|done|].
      * intros z Hz. by apply insert_keeps_ids, Hi.
      * intros z [Hz Hn]%Hm. split; [by apply insert_keeps_ids|done].
    + rewrite Ht. apply rtc_once. by exists x.
  - split; [by apply (careful_same id w)|]. by rewrite Ht.
Qed.

Lemma exec_writes_same id {A} (op : database -> A * database) : (forall d, same_streams d (op d).2) -> writes id (lift (exec op)).
Proof.
  intros Hop w Hw. set (d' := (op (tables (db w))).2).
  apply (exec_writes id op (Elsewhere (rtpmon_instances d') (rtpmon_property d') (rtpmon_sip_events d') (rtpmon_call_health d')
    (rtpmon_alarm_events d'))); [done|done| |done].
  destruct (Hop (tables (db w))) as (Hs & Hi & Ht & Ha). cbn [apply_write]. rewrite <- Hs, <- Hi, <- Ht, <- Ha. by destruct (op _).2.
Qed.

Lemma FindOrAddAgent_writes id a b : writes id (FindOrAddAgent new_id a b).
Proof.
  apply writes_bind; [apply writes_gets|]. intros cache. case_match; [apply writes_ret|].
  apply writes_bind; [apply writes_query|]. intros found. apply writes_bind.
  - destruct found; [apply writes_ret|by apply exec_writes_same].
  - intros i. apply writes_bind; [|intros; apply writes_ret]. intros w Hw. by split; [apply (careful_same id w)|].
Qed.

(** A new row has an id that no row has, hence none of [ids]. *)
Lemma OpenStreamAt_writes id ts w : careful id w -> streamMap w !! id = None ->
  let '(r, w') := OpenStreamAt new_id id ts w in
  careful id w' /\ rtc spared (tables (db w)) (tables (db w')) /\ (forall z, r = Ok z -> streamMap w' !! id = Some z).
Proof using new_id_fresh.
  intros Hw Hnone. unfold OpenStreamAt, wbind at 1, gets. rewrite Hnone. unfold wbind at 1, gets. unfold wbind at 1. simpl.
  destruct (FindOrAddAgent_writes id (defaultAgentID w) (defaultAgentName w) w Hw) as [Hw1 Hr1].
  destruct (FindOrAddAgent new_id _ _ w) as [[agentRow|e] w1]; [|by simpl; split]. cbn [snd] in Hw1, Hr1. unfold wbind.
  pose proof (lift_exec_db (insert_stream new_id id agentRow ts) w1) as Hx.
  destruct (exec_writes id (insert_stream new_id id agentRow ts) (InsertStream id agentRow ts) w1 Hw1 ltac:(done) eq_refl eq_refl)
    as [Hc Hr2].
  destruct (lift (exec _) w1) as [[z|e] w2]; cbn [snd] in *; [|simpl; split; [done|split; [by etrans|done]]].
  destruct Hx as (_ & _ & _ & _ & Hz & Ht). cbn in Hz. destruct Hc as (Hi & Hlim & Hm). cbn. split; [|split; [by etrans|]].
  - split; [done|split; [done|]]. cbn. intros v. rewrite lookup_insert_Some. intros [[_ <-]|[_ Hv]]; [|by apply Hm].
    rewrite Ht, Hz. split.
    + unfold stream_ids. cbn. rewrite fmap_app. apply elem_of_app. right. by left.
    + intros Hin. by apply (new_id_fresh (s_stream_id <$> rtpmon_streams (tables (db w1)))), (proj1 Hw1).
  - intros v [= ->]. apply lookup_insert_eq.
Qed.

Lemma insert_report_writes id table row w : careful id w -> streamMap w !! id = Some (r_stream_id row) ->
  careful id (lift (exec_ (insert_report table row)) w).2 /\
  rtc spared (tables (db w)) (tables (db (lift (exec_ (insert_report table row)) w).2)).
Proof.
  intros Hw Hrow. destruct (proj2 (proj2 Hw) _ Hrow) as [Hin Hn].
  apply (exec_writes id _ (InsertReport table row)); [done|done|done|].
  apply spares_iff. split; intros z Hz; cbn in Hz; apply list_elem_of_singleton in Hz as ->; done.
Qed.

Lemma addReport_writes now report table : writes (StreamID report) (addReport new_id now report table).
Proof using new_id_fresh.
  apply writes_bind_gets. intros w Hw. destruct (streamMap w !! StreamID report) as [z|] eqn:Hid.
  - by apply insert_report_writes.
  - unfold wbind. pose proof (OpenStreamAt_writes (StreamID report) now w Hw Hid) as Ho.
    destruct (OpenStreamAt new_id (StreamID report) now w) as [[z|e] w1]; destruct Ho as (Hw1 & Hr1 & Hz); [|by split].
    destruct (insert_report_writes (StreamID report) table (report_values z report) w1 Hw1 (Hz z eq_refl)) as [Hw2 Hr2].
    split; [done|by etrans].
Qed.

Lemma maybeUpdateSip_writes report : writes (StreamID report) (maybeUpdateSip report).
Proof.
  unfold maybeUpdateSip. case_match; [apply writes_ret|]. apply writes_bind_gets. intros w Hw.
  destruct (streamMap w !! StreamID report) as [z|] eqn:Hz; [|by split]. destruct (proj2 (proj2 Hw) _ Hz) as [_ Hn].
  apply (exec_writes (StreamID report) _ (UpdateSip z report)); [done|done|done|].
  apply spares_iff. cbn. by split; [intros v ->%list_elem_of_singleton|intros v ?%elem_of_nil].
Qed.

(** A purge deletes the row of the stream itself. *)
Lemma purgeStream_writes id w : careful id w -> rtc spared (tables (db w)) (tables (db (purgeStream id w).2)).
Proof.
  intros (_ & _ & Hm). unfold purgeStream, wbind, gets. destruct (streamMap w !! id) as [z|]; [|done].
  pose proof (lift_transaction_db (deleteStreamsByIDs [z]) w) as Hl. destruct (Hm z eq_refl) as [_ Hn].
  destruct (lift _ w) as [[[]|e] w']; destruct Hl as (_ & _ & _ & _ & Ht); apply delete_transaction in Ht; cbn; rewrite Ht; [|done].
  apply rtc_once. exists (DeleteStreams [z]). split; [|done]. apply spares_iff. cbn.
  by split; [intros v ->%list_elem_of_singleton|intros v ?%elem_of_nil].
Qed.

Lemma AddFinal_writes now report w : careful (StreamID report) w ->
  rtc spared (tables (db w)) (tables (db (AddFinal new_id now report w).2)).
Proof using new_id_fresh.
  intros Hw. unfold AddFinal, wbind at 1, gets. destruct (_ && _); [by apply purgeStream_writes|].
  assert (writes (StreamID report) (let! _ := addReport new_id now report Statistics in
    let! _ := maybeUpdateSip report in
    let! limit := gets recordsLimit in if 0 <? limit then TrimToLastNCalls limit else wret tt)) as Hall; [|by apply Hall].
  apply writes_bind; [apply addReport_writes|]. intros _. apply writes_bind; [apply maybeUpdateSip_writes|]. intros _.
  apply writes_bind_gets. intros w' Hw'. destruct (Z.ltb_spec 0 (recordsLimit w')); [destruct Hw'; lia|by split].
Qed.

Lemma AddAudio_writes audio w z : match streamMap w !! sa_StreamID audio with
                                  | Some z => Some z
                                  | None => endpointMap w !! endpointKey (sa_StreamID audio)
                                  end = Some z ->
  z ∈ stream_ids (tables (db w)) -> z ∉ ids -> rtc spared (tables (db w)) (tables (db (AddAudio new_id audio w).2)).
Proof.
  intros Hz Hin Hn. unfold AddAudio. destruct (_ =? _)%nat; [done|]. unfold wbind, gets. rewrite Hz.
  pose proof (lift_exec_db (fun d => (tt, insert_audio new_id z audio d)) w) as Hx. unfold exec_.
  destruct (lift (exec _) w) as [[[]|e] w']; destruct Hx as (_ & _ & _ & _ & Ht); cbn; [|by rewrite Ht].
  destruct Ht as [_ ->]. apply rtc_once. exists (InsertAudio z audio). split; [|done]. apply spares_iff. cbn.
  by split; intros v ->%list_elem_of_singleton.
Qed.

(** The operations that do not touch the tables of streams. *)
Lemma same_streams_spared d d' : same_streams d d' -> rtc spared d d'.
Proof.
  intros (Hs & Hi & Ht & Ha). apply rtc_once. exists (Elsewhere (rtpmon_instances d') (rtpmon_property d') (rtpmon_sip_events d')
    (rtpmon_call_health d') (rtpmon_alarm_events d')). split; [done|]. cbn. rewrite <- Hs, <- Hi, <- Ht, <- Ha. by destruct d'.
Qed.

Lemma same_exec d {A} (op : database -> A * database) : (forall d, same_streams d (op d).2) ->
  preserves (fun w => same_streams d (tables (db w))) (lift (exec op)).
Proof.
  intros Hop w Hw. pose proof (lift_exec_db op w) as Hl.
  destruct (lift (exec op) w) as [[a|e] w1]; destruct Hl as (_ & _ & _ & _ & Ht); cbn; [destruct Ht as [_ ->]|by rewrite Ht].
  destruct Hw as (H1 & H2 & H3 & H4), (Hop (tables (db w))) as (E1 & E2 & E3 & E4). unfold same_streams. by rewrite E1, E2, E3, E4.
Qed.

Lemma same_SetProperty d name value : preserves (fun w => same_streams d (tables (db w))) (SetProperty name value).
Proof.
  apply preserves_bind; [|intros []; by apply same_exec]. intros w Hw. pose proof (lift_query_db (get_property name) w) as Hl.
  destruct (lift _ w) as [r w1]. destruct Hl as (_ & _ & _ & _ & Ht & _). cbn. by rewrite Ht.
Qed.

(** Neither a trim nor a cleanup: the operations of the other goroutines when no
    records limit is set. *)
Definition no_delete (op : wop) : bool :=
  match op with OTrim _ | ORemoveOldRecords _ | ORemoveOldAudio _ => false | _ => true end.

(** Without a records limit, an operation of the writer for a stream that has no
    row yet, or one that is there and not selected, is a sequence of statements
    that spare the selected streams: what a run is assumed to be. *)
Theorem writer_spares op w :
  (forall z, z ∈ ids -> z ∈ stream_ids (tables (db w))) -> recordsLimit w <= 0 -> no_delete op = true ->
  (forall z, op_target op w = Some z -> z ∈ stream_ids (tables (db w)) /\ z ∉ ids) ->
  rtc spared (tables (db w)) (tables (db (run_op new_id op w).2)).
Proof using new_id_fresh.
  intros Hi Hlim Hop Ht. assert (same_streams (tables (db w)) (tables (db w))) as Hrefl by done.
  assert (forall id, (forall z, streamMap w !! id = Some z -> z ∈ stream_ids (tables (db w)) /\ z ∉ ids) -> careful id w) as Hc
    by (intros id Hid; by split).
  destruct op as [id now|now r|now r|a|e|e|e|e|e|n|name value|c|c]; cbn [run_op op_target] in *; try done;
    try (apply same_streams_spared; by apply (same_exec (tables (db w)))).
  - unfold wbind at 1. destruct (streamMap w !! id) as [z|] eqn:E.
    + unfold OpenStreamAt, wbind, gets. by rewrite E.
    + pose proof (OpenStreamAt_writes id now w (Hc id ltac:(by rewrite E)) E) as Ho.
      destruct (OpenStreamAt new_id id now w) as [[z|e] w1]; apply Ho.
  - assert (writes (StreamID r) (AddInterval new_id now r)) as Hw; [|by apply Hw, Hc].
    apply writes_bind; [apply writes_gets|]. intros [|]; [apply writes_ret|].
    apply writes_bind; [apply addReport_writes|]. intros _. apply maybeUpdateSip_writes.
  - by apply AddFinal_writes, Hc.
  - destruct (match streamMap w !! sa_StreamID a with Some z => Some z | None => _ end) as [z|] eqn:E.
    + destruct (Ht z eq_refl) as [Hin Hn]. by apply (AddAudio_writes a w z).
    + unfold AddAudio. destruct (_ =? _)%nat; [done|]. unfold wbind, gets. by rewrite E.
  - by apply same_streams_spared, same_SetProperty.
Qed.

End writer.

(** * Concrete runs *)

#[local] Existing Instance ascii_tables.

(** Records are kept for a second.  Stream 1 expires; stream 2 reports and a
    third stream is opened while the pass is between its read and its delete. *)
Definition second_worker : CleanupWorker := NewCleanupWorker 1 0 0.
Definition beside_reports : list action :=
  [Tick 1010; Statement true;
   Write (InsertReport Intervals (report_values 2 (call_report 8 "b" "c2" "sip:z" 12 1005)));
   Write (InsertStream (sample_id 9 "c") 1 1006); Stop].

Lemma live_rows_survive_witness : exists s s' now,
  run next_rowid second_worker beside_reports (MkCleaning two_calls_db Waiting false) = Some s /\
  step next_rowid second_worker (Statement true) s = Some s' /\
  stream_ids (k_tables s) = [1; 2; 3] /\ stream_ids (k_tables s') = [2; 3] /\
  (forall z, stream_kept second_worker now z (k_tables s) (k_tables s') \/
     selected_by next_rowid second_worker beside_reports two_calls_db now z) /\
  spares_live second_worker now (k_tables s) (k_tables s').
Proof.
  set (start := MkCleaning two_calls_db Waiting false).
  destruct (run next_rowid second_worker beside_reports start) as [s|] eqn:E.
  2: { apply (f_equal (fun o => bool_decide (is_Some (k_stop <$> o)))) in E. vm_compute in E. discriminate. }
  pose proof (run_app next_rowid second_worker beside_reports [Statement true] start) as Ea. rewrite E in Ea. cbn [run] in Ea.
  destruct (step next_rowid second_worker (Statement true) s) as [s'|] eqn:E'.
  2: { apply (f_equal (fun o => bool_decide (is_Some (k_stop <$> o)))) in Ea. vm_compute in Ea. discriminate. }
  destruct (live_rows_survive next_rowid second_worker next_rowid_fresh beside_reports two_calls_db s true s' E E')
    as (now & _ & Hk & _ & Hl). destruct (Hl two_calls_db_ok ltac:(vm_compute; reflexivity)) as [_ Hlive].
  exists s, s', now. split; [done|]. split; [done|]. split; [|split; [|split; [exact Hk|exact Hlive]]]; apply (inj Some).
  - change (Some (stream_ids (k_tables s))) with ((fun s => stream_ids (k_tables s)) <$> Some s). rewrite <- E. vm_compute. reflexivity.
  - change (Some (stream_ids (k_tables s'))) with ((fun s => stream_ids (k_tables s)) <$> Some s'). rewrite <- Ea. vm_compute. reflexivity.
Defined.

(** For the streams that were selected the assumption is needed: a report for one
    that comes between the read and the delete goes with it, although it is
    within the lifetime. *)
Lemma disturbed_report_lost :
  let late := report_values 1 (call_report 7 "a" "c1" "sip:a" 1 1009) in
  let acts := [Tick 1010; Statement true; Write (InsertReport Statistics late); Statement true] in
  undisturbed next_rowid second_worker acts (MkCleaning two_calls_db Waiting false) = false /\
  ((fun s => stream_ids (k_tables s)) <$> run next_rowid second_worker acts (MkCleaning two_calls_db Waiting false)) = Some [2] /\
  records_cutoff second_worker 1010 <= r_end_timestamp late.
Proof. split_and!; by vm_compute. Qed.
