(* ===== verification/Ingest.v ===== *)
(** The ingest path ([internal/ingest/pipeline.go]) and the ghost sweeper
    ([internal/worker/cleanup.go]): how a decoded event reaches the writer, the
    registry and the statistics callback, and the theorem that the database
    and the registry together implement one abstract machine - every finished
    or lost stream becomes exactly one row of the statistics.

    One goroutine feeds the pipeline and runs the idle callback, so a history
    is a list of steps.  Each step reads the clock once. *)

From S2P Require Import Prelude GoFloat GoStrings Values Model Transport Store Writer WriterInv Registry.

Section pipeline.
Context `{UnicodeTables} (new_id : list Z -> Z).

(** The state behind the statistics callback, and the callback if any. *)
Context {S : Type} (onInstanceStats : option (InstanceStatistics -> S -> S)).

Record Pipeline := MkPipeline {
  p_writer : writer; p_registry : option registry; p_stats : S
}.

(** An error of the writer is logged. *)
Definition logged (m : W unit) (w : writer) : writer := (m w).2.

(** The finals of an eviction go to the writer, in order. *)
Definition add_finals (now : Z) (finals : list StreamReport) (w : writer) : writer :=
  fold_left (fun w report => logged (AddFinal new_id now report) w) finals w.

Definition Dispatch (now : Z) (event : domain_event) (p : Pipeline) : Pipeline :=
  let write (m : W unit) := MkPipeline (logged m (p_writer p)) (p_registry p) (p_stats p) in
  match event with
  | EStream e =>
      MkPipeline (logged (let! _ := OpenStreamAt new_id e now in wret tt) (p_writer p))
        (OnStreamDetected now e <$> p_registry p) (p_stats p)
  | EReport e =>
      if FullReport e
      then MkPipeline (logged (AddFinal new_id now e) (p_writer p)) (OnFinished e <$> p_registry p) (p_stats p)
      else MkPipeline (logged (AddInterval new_id now e) (p_writer p)) (OnReport now e <$> p_registry p) (p_stats p)
  | EAudio e => write (AddAudio new_id e)
  | ECallStart e => write (AddSipCallStart new_id e)
  | ECallEnd e => write (AddSipCallEnd new_id e)
  | EReinvite e => write (AddSipReinvite new_id e)
  | ECallFailed e => write (AddSipCallFailed new_id e)
  | EHealth e => write (AddCallHealth new_id e)
  | EStats e =>
      let stats := match onInstanceStats with Some f => f e (p_stats p) | None => p_stats p end in
      match p_registry p with
      | None => MkPipeline (p_writer p) None stats
      | Some r =>
          let '(r, restarted) := NoteUptime (UptimeSeconds e) r in
          if restarted then
            let '(r, finals) := DrainAll r in
            MkPipeline (add_finals now finals (p_writer p)) (Some r) stats
          else MkPipeline (p_writer p) (Some r) stats
      end
  | EEspSa _ => p
  end.

(** [OnBytes]: [decode] is [translate.DecodeBytes]. *)
Definition OnBytes (decode : string -> option (option domain_event)) (now : Z) (data : string) (p : Pipeline) : Pipeline :=
  match decode data with
  | Some (Some event) => Dispatch now event p
  | _ => p
  end.

(** ** The ghost sweeper *)

(** Times in nanoseconds; [gs_nextAt] is [None] for the zero time. *)
Record GhostSweeper := MkGhostSweeper { gs_idleMs : Z; gs_interval : Z; gs_nextAt : option Z }.

Definition NewGhostSweeper (idleS interval : Z) : GhostSweeper :=
  MkGhostSweeper (wrap64 (idleS * 1000)) (if interval <=? 0 then 30 * 1000000000 else interval) None.

Definition due (now : Z) (g : GhostSweeper) : bool :=
  match gs_nextAt g with Some t => negb (now <? t) | None => true end.

Definition Tick (now : Z) (g : GhostSweeper) (w : writer) (r : registry) : GhostSweeper * writer * registry :=
  if due now g then
    let g := MkGhostSweeper (gs_idleMs g) (gs_interval g) (Some (now + gs_interval g)) in
    let '(r, finals) := SweepGhostsAt (gs_idleMs g) (now / 1000000) r in
    (g, add_finals (now / 1000000) finals w, r)
  else (g, w, r).

(** ** The bus goroutine *)

(** The daemon as it is assembled: a pipeline with a registry, and a sweeper
    when a ghost timeout is configured. *)
Record daemon := MkDaemon { d_writer : writer; d_registry : registry; d_stats : S; d_sweeper : option GhostSweeper }.

Inductive bus_step := Deliver (now_ms : Z) (e : domain_event) | Idle (now_ns : Z).

Definition run_step (d : daemon) (s : bus_step) : daemon :=
  match s with
  | Deliver now e =>
      let p := Dispatch now e (MkPipeline (d_writer d) (Some (d_registry d)) (d_stats d)) in
      MkDaemon (p_writer p) (default (d_registry d) (p_registry p)) (p_stats p) (d_sweeper d)
  | Idle now =>
      match d_sweeper d with
      | None => d
      | Some g =>
          let '(g, w, r) := Tick now g (d_writer d) (d_registry d) in
          MkDaemon w r (d_stats d) (Some g)
      end
  end.

Definition run_bus (steps : list bus_step) (d : daemon) : daemon := fold_left run_step steps d.

(** ** The abstract machine

    The registry's dictionary, the last uptime and the sweeper's schedule; a
    step yields the final reports it completes. *)
Record spec_state := MkSpec { sp_dict : dict; sp_uptime : option Z; sp_sweeper : option GhostSweeper }.

Definition spec_step (sp : spec_state) (s : bus_step) : spec_state * list StreamReport :=
  match s with
  | Deliver now (EStream id) => (MkSpec (dict_detect now id (sp_dict sp)) (sp_uptime sp) (sp_sweeper sp), [])
  | Deliver now (EReport r) =>
      if FullReport r
      then (MkSpec (dict_event (Finished r) (sp_dict sp)).1 (sp_uptime sp) (sp_sweeper sp), [r])
      else (MkSpec (dict_report now r (sp_dict sp)) (sp_uptime sp) (sp_sweeper sp), [])
  | Deliver now (EStats e) =>
      if match sp_uptime sp with Some u => UptimeSeconds e <? u | None => false end
      then (MkSpec [] (Some (UptimeSeconds e)) (sp_sweeper sp), omap dict_final (sp_dict sp))
      else (MkSpec (sp_dict sp) (Some (UptimeSeconds e)) (sp_sweeper sp), [])
  | Deliver _ _ => (sp, [])
  | Idle now =>
      match sp_sweeper sp with
      | Some g =>
          if due now g then
            let '(d, finals) := dict_event (Sweep (gs_idleMs g) (now / 1000000)) (sp_dict sp) in
            (MkSpec d (sp_uptime sp) (Some (MkGhostSweeper (gs_idleMs g) (gs_interval g) (Some (now + gs_interval g)))), finals)
          else (sp, [])
      | None => (sp, [])
      end
  end.

Fixpoint spec_run (steps : list bus_step) (sp : spec_state) : spec_state * list StreamReport :=
  match steps with
  | [] => (sp, [])
  | s :: steps =>
      let '(sp, out) := spec_step sp s in
      let '(sp, outs) := spec_run steps sp in (sp, out ++ outs)
  end.

Definition fresh_daemon (fs : faults) (agent name : string) (limit : Z) (filters : list string)
    (stats : S) (g : option GhostSweeper) : daemon :=
  MkDaemon (MkWriter (MkConn empty_database fs) agent name ∅ ∅ ∅ limit filters)
    (NewActiveStreamRegistry agent name) stats g.
End pipeline.

(** * The registry's side

    Whatever the database answers, the registry and the sweeper follow the
    abstract machine. *)

Definition spec_of {S} (d : daemon (S:=S)) : spec_state :=
  MkSpec (abs (d_registry d)) (lastUptime (d_registry d)) (d_sweeper d).

Lemma evictLocked_uptime entries r : lastUptime (evictLocked entries r).1 = lastUptime r.
Proof.
  unfold evictLocked. enough (forall out, lastUptime (fold_left evict_one entries (r, out)).1 = lastUptime r) by auto.
  revert r. induction entries as [|e entries IH]; intros r out; [done|]. cbn. by rewrite IH.
Qed.

Section refinement.
Context `{UnicodeTables} (new_id : list Z -> Z).
Context {S : Type} (onInstanceStats : option (InstanceStatistics -> S -> S)).
Implicit Types d : daemon (S:=S).

(** The writer's operations of a step, given the finals it completes. *)
Definition step_ops (s : bus_step) (finals : list StreamReport) : list wop :=
  match s with
  | Deliver now (EStream id) => [OOpen id now]
  | Deliver now (EReport r) => if FullReport r then OFinal now <$> finals else [OInterval now r]
  | Deliver _ (EAudio a) => [OAudio a]
  | Deliver _ (ECallStart e) => [OCallStart e]
  | Deliver _ (ECallEnd e) => [OCallEnd e]
  | Deliver _ (EReinvite e) => [OReinvite e]
  | Deliver _ (ECallFailed e) => [OCallFailed e]
  | Deliver _ (EHealth e) => [OHealth e]
  | Deliver now (EStats _) => OFinal now <$> finals
  | Deliver _ (EEspSa _) => []
  | Idle now => OFinal (now / 1000000) <$> finals
  end.

Lemma add_finals_ops now finals w :
  add_finals new_id now finals w = run_ops new_id (OFinal now <$> finals) w.
Proof.
  unfold add_finals, run_ops. revert w. induction finals as [|r finals IH]; intros w; [done|]. apply IH.
Qed.

Lemma run_step_spec d s :
  wf (d_registry d) ->
  let d' := run_step new_id onInstanceStats d s in
  wf (d_registry d') /\ spec_of d' = (spec_step (spec_of d) s).1 /\
  d_writer d' = run_ops new_id (step_ops s (spec_step (spec_of d) s).2) (d_writer d).
Proof.
  intros Hwf. destruct d as [w r st g]. cbn [d_registry] in Hwf.
  destruct s as [now [id|rp|a|e|e|e|e|e|e|e]|now];
    cbn [run_step Dispatch p_writer p_registry p_stats d_writer d_registry d_stats d_sweeper spec_of spec_step
         sp_dict sp_uptime sp_sweeper step_ops fst snd];
    try (split_and!; done).
  - pose proof (apply_event_refines (Detected now id) r Hwf) as [Hwf' Ha].
    split_and!; [done| |done]. apply (f_equal fst) in Ha. cbn in Ha |- *. unfold spec_of. cbn. by rewrite Ha.
  - destruct (FullReport rp); cbn.
    + pose proof (apply_event_refines (Finished rp) r Hwf) as [Hwf' Ha].
      split_and!; [done| |done]. apply (f_equal fst) in Ha. cbn in Ha |- *. unfold spec_of. cbn. by rewrite Ha.
    + pose proof (apply_event_refines (Reported now rp) r Hwf) as [Hwf' Ha].
      split_and!; [done| |done]. apply (f_equal fst) in Ha. cbn in Ha. unfold spec_of. cbn. rewrite Ha. f_equal.
      unfold OnReport. by destruct (streams r !! StreamID rp).
  - unfold NoteUptime. cbn [lastUptime fst snd].
    set (r1 := MkRegistry _ _ _ _ _ _ _).
    pose proof (apply_event_refines (Uptime (UptimeSeconds e)) r Hwf) as [Hwf1 Ha1].
    cbn in Hwf1, Ha1. fold r1 in Hwf1, Ha1. apply (f_equal fst) in Ha1. cbn in Ha1.
    destruct (match lastUptime r with Some u => UptimeSeconds e <? u | None => false end); cbn [fst snd].
    + pose proof (apply_event_refines Drain r1 Hwf1) as Hd. cbn [apply_event] in Hd.
      pose proof (evictLocked_uptime (orderedEntries (streams r1)) r1) as Hu. unfold DrainAll in *.
      destruct (evictLocked _ r1) as [r2 finals]. destruct Hd as [Hwf2 Ha2]. cbn in Ha2.
      pose proof (f_equal snd Ha2) as Hf. apply (f_equal fst) in Ha2. cbn in Ha2, Hf. cbn [p_writer p_registry p_stats d_writer d_registry default fst] in *.
      split_and!; [done| |].
      * unfold spec_of. cbn. by rewrite Ha2, Hu.
      * by rewrite add_finals_ops, Hf, Ha1.
    + cbn. split_and!; [done| |done]. unfold spec_of. cbn. by rewrite Ha1.
  - destruct g as [g|]; [|cbn; split_and!; done]. unfold Tick.
    destruct (due now g); [|cbn; split_and!; done].
    pose proof (apply_event_refines (Sweep (gs_idleMs g) (now / 1000000)) r Hwf) as Hd. cbn [apply_event] in Hd.
    pose proof (evictLocked_uptime (List.filter (stale (gs_idleMs g) (now / 1000000)) (orderedEntries (streams r))) r) as Hu.
    unfold SweepGhostsAt in *. cbn [gs_idleMs].
    destruct (evictLocked _ r) as [r2 finals]. destruct Hd as [Hwf2 Ha2]. cbn [dict_event] in *.
    pose proof (f_equal snd Ha2) as Hf. apply (f_equal fst) in Ha2. cbn in Ha2, Hf. cbn [d_writer d_registry fst snd] in *. split_and!; [done| |].
    + unfold spec_of. cbn. by rewrite Ha2, Hu.
    + by rewrite add_finals_ops, Hf.
Qed.

(** The operations of a history, and the finals among them. *)
Fixpoint bus_ops (steps : list bus_step) (sp : spec_state) : list wop :=
  match steps with
  | [] => []
  | s :: steps => step_ops s (spec_step sp s).2 ++ bus_ops steps (spec_step sp s).1
  end.

(** The bus goroutine calls neither the trim, which [AddFinal] does, nor the
    cleanup. *)
Definition no_trim (op : wop) : Prop :=
  match op with OTrim _ | ORemoveOldRecords _ | ORemoveOldAudio _ => False | _ => True end.

Lemma no_trim_no_cleanup ops : Forall no_trim ops -> forallb (fun op => negb (is_cleanup op)) ops = true.
Proof. induction 1 as [|op ops Hop _ IH]; [done|]. cbn. rewrite IH. by destruct op. Qed.

Lemma finals_of_ops now (l : list StreamReport) : omap final_of (OFinal now <$> l) = l.
Proof. induction l as [|r l IH]; [done|]. by rewrite fmap_cons, omap_unfold, IH. Qed.

Lemma step_ops_finals s sp :
  omap final_of (step_ops s (spec_step sp s).2) = (spec_step sp s).2.
Proof.
  destruct s as [now [id|rp|a|e|e|e|e|e|e|e]|now]; cbn [step_ops spec_step]; try done.
  - by destruct (FullReport rp).
  - apply finals_of_ops.
  - apply finals_of_ops.
Qed.

Lemma step_ops_no_trim s l : Forall no_trim (step_ops s l).
Proof.
  destruct s as [now [id|rp|a|e|e|e|e|e|e|e]|now]; cbn; try (destruct (FullReport rp));
    try (by repeat constructor); apply Forall_fmap, Forall_true; done.
Qed.

Lemma run_bus_spec steps d :
  wf (d_registry d) ->
  let d' := run_bus new_id onInstanceStats steps d in
  wf (d_registry d') /\ spec_of d' = (spec_run steps (spec_of d)).1 /\
  d_writer d' = run_ops new_id (bus_ops steps (spec_of d)) (d_writer d).
Proof.
  revert d. induction steps as [|s steps IH]; intros d Hwf; [done|].
  cbn [run_bus fold_left spec_run bus_ops].
  destruct (run_step_spec d s Hwf) as (Hwf1 & Hs & Hw).
  specialize (IH (run_step new_id onInstanceStats d s) Hwf1). rewrite Hs in IH.
  destruct (spec_step (spec_of d) s) as [sp out]. cbn [fst snd] in *.
  destruct (spec_run steps sp) as [sp' outs]. cbn [fst snd] in *.
  destruct IH as (? & ? & IH). split_and!; [done|done|].
  unfold run_bus in IH. rewrite IH, Hw. unfold run_ops. by rewrite fold_left_app.
Qed.

Lemma bus_ops_finals steps sp :
  omap final_of (bus_ops steps sp) = (spec_run steps sp).2 /\ Forall no_trim (bus_ops steps sp).
Proof.
  revert sp. induction steps as [|s steps IH]; intros sp; [done|]. cbn [bus_ops spec_run].
  rewrite omap_app, step_ops_finals. destruct (spec_step sp s) as [sp1 out]. cbn [fst snd].
  destruct (IH sp1) as [-> Hn]. destruct (spec_run steps sp1). split; [done|].
  apply Forall_app. split; [apply step_ops_no_trim|done].
Qed.
End refinement.

(** * The writer's side

    With no faults, no SIP filter and no records limit, each operation
    succeeds, keeps the stream rows, and only a final report adds to the
    statistics. *)

Definition quiet (w : writer) : Prop :=
  coming (db w) = [] /\ recordsLimit w <= 0 /\ storeSipFilter w = [].

(** Stream rows stay, with their identity. *)
Definition rows_kept (d d' : database) : Prop :=
  forall s, s ∈ rtpmon_streams d -> exists s', s' ∈ rtpmon_streams d' /\
    s_stream_id s' = s_stream_id s /\ row_identity s' = row_identity s.

Definition finals_kept (d d' : database) : Prop :=
  rows_kept d d' /\ rtpmon_statistics d' = rtpmon_statistics d.

#[export] Instance rows_kept_preorder : PreOrder rows_kept.
Proof.
  split; [by intros d s Hs; exists s|].
  intros d1 d2 d3 H1 H2 s Hs. destruct (H1 s Hs) as (s1 & Hs1 & ? & ?).
  destruct (H2 s1 Hs1) as (s2 & Hs2 & ? & ?). exists s2. split_and!; congruence.
Qed.

#[export] Instance finals_kept_preorder : PreOrder finals_kept.
Proof.
  split; [by split|]. intros d1 d2 d3 [H1 E1] [H2 E2]. split; [by trans d2|congruence].
Qed.

(** [calm R m]: from a quiet state [m] succeeds, stays quiet and moves the
    tables along [R]. *)
Definition calm (R : relation database) {A} (m : W A) : Prop := forall w, quiet w ->
  exists a w', m w = (Ok a, w') /\ quiet w' /\ R (tables (db w)) (tables (db w')).

Section calm.
Context (R : relation database) `{!PreOrder R}.

Lemma calm_ret {A} (a : A) : calm R (wret a).
Proof. intros w Hw. by exists a, w. Qed.

Lemma calm_gets {A} (f : writer -> A) : calm R (gets f).
Proof. intros w Hw. by exists (f w), w. Qed.

Lemma calm_bind {A B} (m : W A) (k : A -> W B) :
  calm R m -> (forall a, calm R (k a)) -> calm R (wbind m k).
Proof.
  intros Hm Hk w Hw. destruct (Hm w Hw) as (a & w1 & E & Hw1 & H1).
  destruct (Hk a w1 Hw1) as (b & w2 & E2 & Hw2 & H2). exists b, w2. unfold wbind. rewrite E.
  split_and!; [done|done|]. by trans (tables (db w1)).
Qed.

Lemma calm_modify f :
  (forall w, db (f w) = db w /\ recordsLimit (f w) = recordsLimit w /\ storeSipFilter (f w) = storeSipFilter w) ->
  calm R (modify f).
Proof.
  intros Hf w Hw. exists tt, (f w). destruct (Hf w) as (Hd & Hl & Hs).
  unfold quiet in *. by rewrite Hd, Hl, Hs.
Qed.

Lemma calm_exec {A} (op : database -> A * database) :
  (forall d, R d (op d).2) -> calm R (lift (exec op)).
Proof.
  intros Hop w (Hc & Hl & Hs). destruct (db w) as [d cs] eqn:Ew. cbn in Hc. subst cs.
  exists (op d).1, (with_db (MkConn (op d).2 []) w). unfold lift, exec. rewrite Ew, retryBusy_pass.
  split_and!; [done| |apply Hop]. by split_and!.
Qed.

Lemma calm_query {A} (q : database -> A) : calm R (lift (query q)).
Proof.
  intros w (Hc & Hl & Hs). destruct (db w) as [d cs] eqn:Ew. cbn in Hc. subst cs.
  exists (q d), (with_db (MkConn d []) w). unfold lift, query. rewrite Ew, call_pass.
  split_and!; [done| |done]. by split_and!.
Qed.
End calm.

Lemma calm_weaken {A} (m : W A) : calm finals_kept m -> calm rows_kept m.
Proof.
  intros Hm w Hw. destruct (Hm w Hw) as (a & w' & E & Hq & [Hr _]). by exists a, w'.
Qed.

Lemma kept_update_sip dbID r d : finals_kept d (update_sip dbID r d).
Proof.
  split; [|done]. intros s Hs. eexists. split; [apply list_elem_of_fmap; exists s; by split|].
  by destruct (s_stream_id s =? dbID).
Qed.

Lemma kept_append rows d : finals_kept d (set_streams (rtpmon_streams d ++ rows) d).
Proof. split; [|done]. intros s Hs. exists s. cbn. rewrite elem_of_app. auto. Qed.

Lemma kept_same d d' :
  rtpmon_streams d' = rtpmon_streams d -> rtpmon_statistics d' = rtpmon_statistics d -> finals_kept d d'.
Proof. intros Hs Ht. split; [|done]. intros s. rewrite Hs. by exists s. Qed.

Ltac calm_tac :=
  repeat first
    [ assumption | apply calm_ret | apply calm_gets | apply calm_query
    | apply calm_modify; [apply _|by intros; split_and!]
    | apply calm_exec; intros; first [apply kept_update_sip | apply kept_append | by apply kept_same]
    | apply calm_bind; [apply _| |intros] | case_match ]; try apply _.

Section stored.
Context `{UnicodeTables} (new_id : list Z -> Z).
Hypothesis new_id_fresh : forall ids, new_id ids ∉ ids.

Lemma OpenStreamAt_calm id ts : calm finals_kept (OpenStreamAt new_id id ts).
Proof using. unfold OpenStreamAt, FindOrAddAgent. calm_tac. Qed.

Lemma maybeUpdateSip_calm r : calm finals_kept (maybeUpdateSip r).
Proof using. unfold maybeUpdateSip. calm_tac. Qed.

Lemma addReport_calm (R : relation database) `{!PreOrder R} now r table :
  (forall id ts, calm R (OpenStreamAt new_id id ts)) ->
  (forall row d, R d (insert_report table row d)) ->
  calm R (addReport new_id now r table).
Proof using.
  intros Ho Hi. unfold addReport. refine (calm_bind R _ _ (calm_gets R _) _). intros sm.
  refine (calm_bind R _ _ _ (fun _ => calm_exec R _ _)); [|intros; apply Hi].
  destruct (sm !! StreamID r); [apply calm_ret, _|apply Ho].
Qed.

(** The skip tests of the SIP filter fail in a quiet state. *)
Lemma calm_skip (R : relation database) `{!PreOrder R} (f : writer -> bool) (m n : W unit) :
  (forall w, quiet w -> f w = false) -> calm R n ->
  calm R (let! skip := gets f in if (skip : bool) then m else n).
Proof using.
  intros Hf Hn w Hw. unfold wbind, gets. rewrite (Hf w Hw). by apply Hn.
Qed.

Lemma quiet_no_filter w : quiet w -> sipFilterActive w = false.
Proof using. intros (_ & _ & Hs). unfold sipFilterActive. by rewrite Hs. Qed.

Lemma op_calm op : no_trim op -> final_of op = None -> calm finals_kept (run_op new_id op).
Proof using.
  intros Hn Hf. destruct op; try done; simpl.
  - refine (calm_bind _ _ _ (OpenStreamAt_calm _ _) _). intros. apply calm_ret, _.
  - unfold AddInterval. apply calm_skip; [apply _|intros w Hw; by rewrite quiet_no_filter|].
    refine (calm_bind _ _ _ _ (fun _ => maybeUpdateSip_calm _)).
    apply addReport_calm; [apply _|apply OpenStreamAt_calm|]. intros; by apply kept_same.
  - unfold AddAudio. calm_tac.
  - unfold AddSipCallStart, insertSip. calm_tac.
  - unfold AddSipCallEnd, insertSip. calm_tac.
  - unfold AddSipReinvite, insertSip. calm_tac.
  - unfold AddSipCallFailed, insertSip. calm_tac.
  - unfold AddCallHealth. calm_tac.
  - unfold SetProperty. calm_tac.
Qed.

Lemma final_calm now r : calm rows_kept (AddFinal new_id now r).
Proof using.
  unfold AddFinal. apply calm_skip; [apply _|intros w Hw; by rewrite quiet_no_filter|].
  refine (calm_bind _ _ _ (addReport_calm _ _ _ _ _ _) _).
  { intros. apply calm_weaken, OpenStreamAt_calm. }
  { intros row d s Hs. by exists s. }
  intros _. refine (calm_bind _ _ _ (calm_weaken _ (maybeUpdateSip_calm _)) _). intros _.
  intros w Hw. unfold wbind, gets. destruct Hw as (Hc & Hl & Hs).
  destruct (Z.ltb_spec 0 (recordsLimit w)); [lia|]. apply calm_ret; [apply _|by split_and!].
Qed.

(** A row of the statistics holds a report, under a stream row of the
    report's own stream. *)
Definition stored (d : database) (t : report_row) (r : StreamReport) : Prop :=
  exists s, s ∈ rtpmon_streams d /\ row_identity s = StreamID r /\ t = report_values (s_stream_id s) r.

Lemma stored_kept d d' t r : rows_kept d d' -> stored d t r -> stored d' t r.
Proof using.
  intros Hk (s & Hs & Hi & ->). destruct (Hk s Hs) as (s' & Hs' & Hv & Hi').
  exists s'. split_and!; [done|congruence|congruence].
Qed.

Definition holds_finals (hist : list StreamReport) (w : writer) : Prop :=
  writer_ok w /\ quiet w /\ Forall2 (stored (tables (db w))) (rtpmon_statistics (tables (db w))) hist.

Lemma op_holds op hist w : no_trim op -> holds_finals hist w ->
  holds_finals (hist ++ omap final_of [op]) (run_op new_id op w).2.
Proof using new_id_fresh.
  intros Hn (Hw & Hq & Hf). pose proof (run_ops_keeps new_id new_id_fresh [op] w ltac:(by destruct op) Hw) as Hk.
  cbn [run_ops fold_left] in Hk.
  destruct (final_of op) as [r|] eqn:Ef.
  - destruct op as [| |now r'| | | | | | | | | |]; try done. injection Ef as ->. cbn [run_op] in *.
    destruct (final_calm now r w Hq) as ([] & w' & E & Hq' & Hr). rewrite E in *. cbn [snd] in *.
    apply (AddFinal_Ok new_id new_id_fresh) in E as (dbID & s & Et & _ & _ & Hs & <- & Hi & _);
      [|done|apply Hq|by rewrite quiet_no_filter].
    split_and!; [done|done|]. rewrite Et. apply Forall2_app.
    + eapply Forall2_impl; [exact Hf|]. intros. by eapply stored_kept.
    + repeat constructor. by exists s.
  - destruct (op_calm op Hn Ef w Hq) as ([] & w' & E & Hq' & Hr & Et). rewrite E in *. cbn [snd] in *.
    split_and!; [done|done|]. cbn. rewrite Ef, app_nil_r, Et.
    eapply Forall2_impl; [exact Hf|]. intros. by eapply stored_kept.
Qed.

Lemma ops_hold ops hist w : Forall no_trim ops -> holds_finals hist w ->
  holds_finals (hist ++ omap final_of ops) (run_ops new_id ops w).
Proof using new_id_fresh.
  revert hist w. induction ops as [|op ops IH]; intros hist w Hn Hh; [by rewrite app_nil_r|].
  apply Forall_cons_1 in Hn as [Hn Hns].
  change (op :: ops) with ([op] ++ ops). rewrite omap_app, app_assoc. cbn [run_ops fold_left app].
  apply IH; [done|]. by apply op_holds.
Qed.

Context {S : Type} (onInstanceStats : option (InstanceStatistics -> S -> S)).

(** The statistics table of a calm database holds the finals of the machine. *)
Lemma finals_stored steps agent name limit stats g : limit <= 0 ->
  let d := run_bus new_id onInstanceStats steps (fresh_daemon [] agent name limit [] stats g) in
  Forall2 (stored (tables (db (d_writer d)))) (rtpmon_statistics (tables (db (d_writer d)))) (spec_run steps (MkSpec [] None g)).2.
Proof using new_id_fresh.
  intros Hl. cbn zeta. set (d0 := fresh_daemon _ _ _ _ _ _ _).
  destruct (run_bus_spec new_id onInstanceStats steps d0) as (_ & _ & ->); [apply wf_new|].
  change (spec_of d0) with (MkSpec [] None g). destruct (bus_ops_finals steps (MkSpec [] None g)) as [<- Hn].
  apply (ops_hold _ [] (d_writer d0) Hn). split_and!; [by apply new_writer_ok|done|constructor].
Qed.

(** What the machine completes at once: a full report. *)
Lemma full_report_final now r steps sp : Deliver now (EReport r) ∈ steps -> FullReport r = true -> r ∈ (spec_run steps sp).2.
Proof using.
  revert sp. induction steps as [|s steps IH]; intros sp Hs Hf; [by apply elem_of_nil in Hs|]. cbn [spec_run].
  destruct (spec_step sp s) as [sp' out] eqn:E. destruct (spec_run steps sp') as [sp'' outs] eqn:Er. cbn [snd].
  apply elem_of_app. apply elem_of_cons in Hs as [<-|Hs].
  - left. cbn in E. rewrite Hf in E. injection E as _ <-. by left.
  - right. specialize (IH sp' Hs Hf). by rewrite Er in IH.
Qed.

(** C1. The daemon implements the abstract machine.  Over any history of
    delivered events and idle ticks, and whatever faults the database answers,
    the registry, its uptime and the sweeper's schedule are those of the
    machine and the writer's invariant holds; and when the database answers,
    no SIP filter is set and no records limit applies, the statistics table
    holds exactly the final reports the machine yields - one row per stream
    that finished, timed out or was lost to a restart - in that order, each
    under the stream row of its own stream. *)
Theorem run_bus_refines steps fs agent name limit filters stats g :
  let d0 := fresh_daemon fs agent name limit filters stats g in
  let d := run_bus new_id onInstanceStats steps d0 in
  let spec := spec_run steps (MkSpec [] None g) in
  spec_of d = spec.1 /\ writer_ok (d_writer d) /\
  (fs = [] -> limit <= 0 -> filters = [] ->
     Forall2 (stored (tables (db (d_writer d)))) (rtpmon_statistics (tables (db (d_writer d)))) spec.2).
Proof using new_id_fresh.
  cbn zeta. set (d0 := fresh_daemon _ _ _ _ _ _ _).
  destruct (run_bus_spec new_id onInstanceStats steps d0) as (_ & Hs & Hw); [apply wf_new|].
  assert (spec_of d0 = MkSpec [] None g) as H0 by done. rewrite H0 in Hs, Hw.
  rewrite Hw. split_and!; [done|by apply run_ops_keeps, new_writer_ok; [done|apply no_trim_no_cleanup, bus_ops_finals]|].
  intros -> Hl ->. rewrite <- Hw. by apply finals_stored.
Qed.
End stored.

#[local] Existing Instance ascii_tables.

(** Statistics of a capture engine that has been up for [uptime] seconds. *)
Definition sample_stats (uptime : Z) : InstanceStatistics :=
  MkInstanceStatistics "a" "n" "" "" uptime 0 0 0 0 0 [] 0 0 0 0 0 0 0 0 fzero fzero fzero fzero fzero.

(** Three streams: the first finishes, the second goes silent and the sweeper
    evicts it, the third is lost when the capture engine restarts. *)
Definition sample_steps : list bus_step :=
  [Deliver 1000 (EStats (sample_stats 100)); Deliver 1000 (EStream (sample_id 1 "a"));
   Deliver 2000 (EReport (sample_report (sample_id 1 "a") 1000 2000 50));
   Deliver 2100 (EReport (sample_report (sample_id 2 "a") 1100 2100 50));
   Deliver 3000 (EReport (call_report 1 "a" "c1" "sip:a" 1000 3000));
   Idle (70000 * 1000000);
   Deliver 70500 (EReport (sample_report (sample_id 3 "a") 69000 70500 40));
   Deliver 71000 (EStats (sample_stats 5))].

Lemma run_bus_refines_witness :
  let g := Some (NewGhostSweeper 60 0) in
  let d := run_bus next_rowid None sample_steps (fresh_daemon [] "a" "n" 0 [] tt g) in
  let spec := spec_run sample_steps (MkSpec [] None g) in
  (SSRC ∘ StreamID <$> spec.2) = [1; 2; 3] /\
  spec_of d = spec.1 /\
  Forall2 (stored (tables (db (d_writer d)))) (rtpmon_statistics (tables (db (d_writer d)))) spec.2.
Proof.
  split; [vm_compute; reflexivity|].
  destruct (run_bus_refines next_rowid next_rowid_fresh None sample_steps [] "a" "n" 0 [] tt
    (Some (NewGhostSweeper 60 0))) as (Hs & _ & Hf).
  split; [exact Hs|]. apply Hf; done.
Defined.
