(* ===== verification/Workers.v ===== *)
(** The control side of the daemon: the persisted track patterns
    ([internal/db/track_store.go]), the control client of the capture engine
    ([internal/bus/control.go]) and the worker that keeps the engine's track
    list equal to the persisted one ([internal/worker/worker.go]).

    The worker is proved against the class [Control] - what it needs of a
    control connection - and the client is one instance of it, over the
    operations of the socket library. *)

From S2P Require Import Prelude GoFloat GoStrings Utf8 Values Json JsonParse Store Writer WriterInv.

(** * The persisted patterns *)

(** [json.Unmarshal] into a [[]string]: a null element leaves the zero
    value. *)
Definition as_string_elem (v : jval) : option string :=
  match v with VStr s => Some s | VNull => Some "" | _ => None end.

Definition as_strings (v : jval) : option (list string) :=
  match v with VNull => Some [] | VArr l => mapM as_string_elem l | _ => None end.

Definition PropertyKey : string := "track_patterns".

Definition nonempty (p : string) : bool := negb (String.eqb p "").

(** [TrackStore.Load]. *)
Definition decode_patterns (raw : option string) : list string :=
  match raw with
  | None => []
  | Some raw =>
      if String.eqb raw "" then []
      else match unmarshal raw ≫= as_strings with
           | None => []
           | Some value => List.filter nonempty value
           end
  end.

Definition Load : W (list string) :=
  let! raw := GetProperty PropertyKey in wret (decode_patterns raw).

(** [TrackStore.Save]. *)
Definition Save (patterns : list string) : W unit :=
  match marshal (JArray (JString <$> List.filter nonempty patterns)) with
  | Some data => SetProperty PropertyKey data
  | None => fun w => (Err (OtherError "json"), w)
  end.

(** * The control connection *)

Inductive TrackOp := TrackAdd | TrackRemove | TrackReplace | TrackQuery.

Record TrackAck := MkTrackAck {
  TransportOK : bool; ack_OK : bool; ack_Error : string; Current : list string; AffectedStreams : Z
}.

Definition no_ack : TrackAck := MkTrackAck false false "" [] 0.
Definition ack_error (ok : bool) (e : string) : TrackAck := MkTrackAck ok false e [] 0.

(** What the worker needs of a control connection: [Send], and [Reconnect]
    when the connection can redial. *)
Class Control (C : Type) := {
  Send : TrackOp -> list string -> C -> TrackAck * C;
  Reconnect : option (C -> option string * C)
}.

(** ** The client

    The sockets and the messages are those of libraries: [dial] opens a REQ
    socket, [marshal_command] and [unmarshal_ack] are the generated
    protobuf code. *)
Record TrackEntry := MkTrackEntry { SipPattern : string }.
Inductive Command_Op := Command_TRACK_ADD | Command_TRACK_REMOVE | Command_TRACK_REPLACE | Command_TRACK_QUERY.
Record Command := MkCommand { c_Op : Command_Op; Entries : list TrackEntry }.
Record CommandAck := MkCommandAck {
  GetOk : bool; GetError : string; GetCurrent : list TrackEntry; GetAffectedStreams : Z
}.

Class Zmq (Net Sock : Type) := {
  dial : string -> Net -> (Sock + string) * Net;
  close : Sock -> Net -> Net;
  send : Sock -> string -> Net -> option string * Net;
  (** the frames of a reply within the timeout, or an error *)
  recv : Sock -> Net -> (list string + string) * Net
}.

Class CommandCodec := {
  marshal_command : Command -> string + string;
  unmarshal_ack : string -> option CommandAck
}.

Definition protoOp (op : TrackOp) : Command_Op :=
  match op with
  | TrackAdd => Command_TRACK_ADD
  | TrackRemove => Command_TRACK_REMOVE
  | TrackReplace => Command_TRACK_REPLACE
  | TrackQuery => Command_TRACK_QUERY
  end.

Section client.
Context {Net Sock : Type} `{!Zmq Net Sock} `{!CommandCodec}.

Record ControlClient := MkControlClient { endpoint : string; socket : option Sock; net : Net }.

(** [openSocket]: the socket is closed and replaced, or gone if the dial
    fails. *)
Definition openSocket (c : ControlClient) : option string * ControlClient :=
  let n := match socket c with Some s => close s (net c) | None => net c end in
  match dial (endpoint c) n with
  | (inl s, n) => (None, MkControlClient (endpoint c) (Some s) n)
  | (inr e, n) => (Some e, MkControlClient (endpoint c) None n)
  end.

Definition NewControlClient (ep : string) (n : Net) : option string * ControlClient :=
  openSocket (MkControlClient ep None n).

Definition Close (c : ControlClient) : ControlClient :=
  match socket c with
  | Some s => MkControlClient (endpoint c) None (close s (net c))
  | None => c
  end.

(** [recvWithTimeout]. *)
Definition recvWithTimeout (s : Sock) (n : Net) : (string + string) * Net :=
  match recv s n with
  | (inr e, n) => (inr e, n)
  | (inl [], n) => (inr "empty reply", n)
  | (inl (f :: _), n) => (inl f, n)
  end.

(** The result of a reply. *)
Definition decode_ack (reply : string) : TrackAck :=
  match unmarshal_ack reply with
  | None => ack_error true "failed to parse CommandAck"
  | Some ack => MkTrackAck true (GetOk ack) (GetError ack) (SipPattern <$> GetCurrent ack) (GetAffectedStreams ack)
  end.

(** [ControlClient.Send] with an open socket: one request, one reply. *)
Definition exchange (s : Sock) (buffer : string) (c : ControlClient) : TrackAck * ControlClient :=
  match send s buffer (net c) with
  | (Some e, n) => (ack_error false e, (openSocket (MkControlClient (endpoint c) (Some s) n)).2)
  | (None, n) =>
      match recvWithTimeout s n with
      | (inr _, n) =>
          (ack_error false "control socket did not reply",
           (openSocket (MkControlClient (endpoint c) (Some s) n)).2)
      | (inl reply, n) => (decode_ack reply, MkControlClient (endpoint c) (Some s) n)
      end
  end.

Definition client_Send (op : TrackOp) (patterns : list string) (c : ControlClient) : TrackAck * ControlClient :=
  match marshal_command (MkCommand (protoOp op) (MkTrackEntry <$> patterns)) with
  | inr e => (ack_error false e, c)
  | inl buffer =>
      match socket c with
      | Some s => exchange s buffer c
      | None =>
          match openSocket c with
          | (Some e, c) => (ack_error false e, c)
          | (None, c) =>
              match socket c with
              | Some s => exchange s buffer c
              | None => (no_ack, c)
              end
          end
      end
  end.

#[export] Instance client_control : Control ControlClient := {|
  Send := client_Send;
  Reconnect := Some openSocket
|}.
End client.
Arguments ControlClient : clear implicits.

(** * The worker *)

(** [setEqual]. *)
Definition setEqual (a b : list string) : bool :=
  (length a =? length b)%nat && forallb (fun s => bool_decide (s ∈ a)) b.

Section worker.
Context {C : Type} `{!Control C}.

(** [RestoreTrackPatterns]; [store] is what [Load] answers. *)
Definition RestoreTrackPatterns (store : res db_error (list string)) (c : C) : C :=
  match store with
  | Ok (p :: ps) => (Send TrackReplace (p :: ps) c).2
  | _ => c
  end.

(** [SyncOnce]: false only when the engine could not be reached. *)
Definition SyncOnce (store : res db_error (list string)) (c : C) : bool * C :=
  match store with
  | Err _ => (true, c)
  | Ok desired =>
      match desired with
      | [] => (true, c)
      | _ =>
          let '(query, c) := Send TrackQuery [] c in
          if negb (TransportOK query) then (false, c)
          else if setEqual (Current query) desired then (true, c)
          else
            let '(rep, c) := Send TrackReplace desired c in
            (TransportOK rep, c)
      end
  end.

Definition restartRetryEvery : Z := 2 * 1000000000.
Definition restartRetryFor : Z := 30 * 1000000000.

Definition redial (c : C) : C :=
  match Reconnect with Some r => (r c).2 | None => c end.

(** The loop of [syncAfterKick] after a restart.  [world k c] is what the
    world does to the connection while attempt [k] runs and the worker waits;
    [clock k] is the time after attempt [k], [stopped k] whether the daemon
    stops during the wait after it. *)
Fixpoint retry_loop (fuel : nat) (k : nat) (deadline : Z) (clock : nat -> Z) (stopped : nat -> bool)
    (store : nat -> res db_error (list string)) (world : nat -> C -> C) (c : C) : option (bool * C) :=
  match fuel with
  | O => None
  | S fuel =>
      let '(done, c) := SyncOnce (store k) (redial c) in
      if done then Some (true, c)
      else if deadline <? clock k then Some (false, c)
      else if stopped k then Some (false, c)
      else retry_loop fuel (S k) deadline clock stopped store world (world k c)
  end.

Definition syncAfterKick (fuel : nat) (restarted : bool) (start : Z) (clock : nat -> Z) (stopped : nat -> bool)
    (store : nat -> res db_error (list string)) (world : nat -> C -> C) (c : C) : option (bool * C) :=
  if restarted then retry_loop fuel 0 (start + restartRetryFor) clock stopped store world c
  else Some (SyncOnce (store 0%nat) c).
End worker.

(** * Saving and loading *)

(** The value a property has, after a successful [SetProperty]. *)
Lemma SetProperty_Ok name value w w' : SetProperty name value w = (Ok tt, w') ->
  get_property name (tables (db w')) = Some (Some value).
Proof.
  unfold SetProperty, wbind. pose proof (lift_query_db (get_property name) w) as Hq.
  destruct (lift (query _) w) as [[existing|e] w1]; [|done].
  destruct Hq as (_ & _ & _ & _ & Hdb & Hex). intros Ho.
  assert (forall f, lift (exec_ f) w1 = (Ok tt, w') -> tables (db w') = f (tables (db w1))) as Hx.
  { intros f Hf. pose proof (lift_exec_db (fun d => (tt, f d)) w1) as Hx. unfold exec_ in Hf. rewrite Hf in Hx.
    by destruct Hx as (_ & _ & _ & _ & _ & ->). }
  rewrite Hdb in Hx. unfold get_property in *.
  destruct existing as [v|]; apply Hx in Ho; rewrite Ho; [by eapply mlookup_update|by apply mlookup_snoc].
Qed.

Lemma SetProperty_Err name value w e w' : SetProperty name value w = (Err e, w') -> tables (db w') = tables (db w).
Proof.
  unfold SetProperty, wbind. pose proof (lift_query_db (get_property name) w) as Hq.
  destruct (lift (query _) w) as [[existing|e1] w1]; destruct Hq as (_ & _ & _ & _ & Hdb & _); [|by intros [= _ <-]].
  assert (forall f, lift (exec_ f) w1 = (Err e, w') -> tables (db w') = tables (db w1)) as Hx.
  { intros f Hf. pose proof (lift_exec_db (fun d => (tt, f d)) w1) as Hx. unfold exec_ in Hf. rewrite Hf in Hx.
    by destruct Hx as (_ & _ & _ & _ & ->). }
  destruct existing as [v|]; intros ->%Hx; by rewrite Hdb.
Qed.

(** A [Save] that fails leaves what was saved before. *)
Lemma Save_Err patterns w e w' : Save patterns w = (Err e, w') -> tables (db w') = tables (db w).
Proof. unfold Save. case_match; [apply SetProperty_Err|by intros [= _ <-]]. Qed.

Lemma sanitize_nonempty s : nonempty (sanitize s) = nonempty s.
Proof.
  destruct s as [|a s]; [done|]. unfold sanitize.
  destruct (decode_rune (String a s)) as [r w] eqn:E. rewrite (runes_cons _ _ _ _ E), !fmap_cons, join_empty_cons.
  cbn [fst]. assert (exists c t, encode_rune r = String c t) as (c & t & ->); [|done].
  unfold encode_rune. repeat case_match; cbn; eauto.
Qed.

Lemma patterns_decode patterns data :
  marshal (JArray (JString <$> List.filter nonempty patterns)) = Some data ->
  decode_patterns (Some data) = sanitize <$> List.filter nonempty patterns.
Proof.
  intros Hm. unfold decode_patterns. set (l := List.filter nonempty patterns) in *.
  assert (data <> "") as Hd.
  { cbn in Hm. destruct ((fix go (l : list json) : option (list string) := _) _); [|done]. by injection Hm as <-. }
  apply String.eqb_neq in Hd as ->. rewrite (unmarshal_marshal _ _ Hm); cbn [mbind option_bind to_val as_strings].
  - rewrite <- list_fmap_compose. assert (forall l, mapM as_string_elem ((to_val ∘ JString) <$> l) = Some (sanitize <$> l)) as ->.
    { clear. induction l as [|s l IH]; [done|]. cbn in *. by rewrite IH. }
    rewrite (filter_fmap_comm _ _ nonempty) by apply sanitize_nonempty. f_equal. unfold l. apply filter_all.
    intros s Hs. by apply elem_of_filter_bool in Hs as [_ Hs].
  - cbn. apply forallb_forall. intros x Hx. apply list_elem_of_In, list_elem_of_fmap in Hx as (s & -> & _). done.
  - cbn. enough (foldr Nat.max 0%nat (nesting <$> (JString <$> l)) = 0%nat) as ->.
    { apply Nat.leb_le. vm_compute. done. }
    clear. induction l as [|s l IH]; [done|]. by rewrite !fmap_cons.
Qed.

Lemma Load_Save patterns w w' r w'' :
  Forall (fun p => utf8_valid p = true) patterns ->
  Save patterns w = (Ok tt, w') -> Load w' = (r, w'') ->
  match r with Ok l => l = List.filter nonempty patterns | Err _ => True end.
Proof.
  intros Hv HS HL. unfold Save in HS. destruct (marshal _) as [data|] eqn:Em; [|done].
  apply SetProperty_Ok in HS. unfold Load, GetProperty, wbind in HL.
  pose proof (lift_query_db (get_property PropertyKey) w') as Hq.
  destruct (lift (query _) w') as [[v|e] w1]; [|by injection HL as <- _].
  destruct Hq as (_ & _ & _ & _ & _ & ->). rewrite HS in HL. injection HL as <- _.
  change (decode_patterns (Some data) = List.filter nonempty patterns).
  rewrite (patterns_decode _ _ Em). clear -Hv.
  induction Hv as [|p l Hp _ IH]; [done|]. cbn. destruct (nonempty p); [|done].
  rewrite fmap_cons, IH. f_equal. by apply sanitize_valid.
Qed.

(** A successful [Save] persists the patterns: whatever database faults
    come after it, a later [Load] fails or returns exactly the saved list
    without its empty patterns, in order and with every special character
    intact (invalid UTF-8 excepted, which JSON cannot carry). *)
Theorem Load_after_Save patterns w w' r w'' :
  Forall (fun p => utf8_valid p = true) patterns ->
  Save patterns w = (Ok tt, w') -> Load w' = (r, w'') ->
  match r with Ok l => l = List.filter nonempty patterns | Err _ => True end.
Proof. apply Load_Save. Qed.

(** * Convergence *)

Lemma setEqual_perm a b : NoDup a -> NoDup b -> setEqual a b = true <-> a ≡ₚ b.
Proof.
  intros Ha Hb. unfold setEqual. rewrite andb_true_iff, Nat.eqb_eq, forallb_forall. split.
  - intros [Hl Hs]. symmetry. apply NoDup_Permutation_bis; [by apply NoDup_ListNoDup|lia|].
    intros x Hx. apply Hs, bool_decide_eq_true in Hx. by apply list_elem_of_In.
  - intros Hp. split; [by apply Permutation_length|]. intros x Hx. apply bool_decide_eq_true. rewrite Hp. by apply list_elem_of_In.
Qed.

(** What the engine promises: a query answers with the list and leaves it
    alone; a replacement it accepts installs the list it was given, even if
    the answer is lost; and a reachable engine answers. *)
Class HonestControl (C : Type) `{!Control C} := {
  tracked : C -> list string;
  reachable : C -> Prop;
  accepts : list string -> Prop;
  query_answers (c : C) : let '(a, c') := Send TrackQuery [] c in
    tracked c' = tracked c /\ (reachable c -> reachable c') /\
    (TransportOK a = true -> Current a = tracked c);
  replace_installs ps (c : C) : let '(a, c') := Send TrackReplace ps c in
    (accepts ps -> tracked c' = ps \/ (TransportOK a = false /\ tracked c' = tracked c)) /\
    (reachable c -> reachable c');
  reachable_answers op ps (c : C) : reachable c -> TransportOK (Send op ps c).1 = true
}.

Section convergence.
Context {C : Type} `{!Control C} `{!HonestControl C}.

(** A pass that reports success leaves the engine with the persisted list. *)
Lemma SyncOnce_synced desired (c c' : C) : desired <> [] -> accepts desired -> NoDup desired -> NoDup (tracked c) ->
  SyncOnce (Ok desired) c = (true, c') -> tracked c' ≡ₚ desired.
Proof using.
  intros Hne Hacc Hd Hc. unfold SyncOnce. destruct desired as [|p ps]; [done|].
  pose proof (query_answers c) as Hq. destruct (Send TrackQuery [] c) as [q c1]. destruct Hq as (Ht & _ & Hcur).
  destruct (TransportOK q); cbn [negb]; [|done]. rewrite Hcur by done.
  destruct (setEqual (tracked c) (p :: ps)) eqn:E.
  - intros [= <-]. rewrite Ht. by apply setEqual_perm.
  - pose proof (replace_installs (p :: ps) c1) as Hr. destruct (Send TrackReplace (p :: ps) c1) as [a c2].
    intros [= Ha <-]. destruct Hr as [Hr _]. destruct (Hr Hacc) as [->|[Hf _]]; [done|congruence].
Qed.

(** An engine that has forgotten its list gets exactly the persisted one, with
    duplicates and all: an empty list is [setEqual] to no other. *)
Lemma SyncOnce_restarted desired (c c' : C) : accepts desired -> tracked c = [] ->
  SyncOnce (Ok desired) c = (true, c') -> tracked c' = desired.
Proof using.
  intros Hacc Hc. unfold SyncOnce. destruct desired as [|p ps]; [by intros [= <-]|].
  pose proof (query_answers c) as Hq. destruct (Send TrackQuery [] c) as [q c1]. destruct Hq as (_ & _ & Hcur).
  destruct (TransportOK q); cbn [negb]; [|done]. rewrite Hcur, Hc by done. change (setEqual [] (p :: ps)) with false.
  pose proof (replace_installs (p :: ps) c1) as Hr. destruct (Send TrackReplace (p :: ps) c1) as [a c2].
  intros [= Ha <-]. destruct Hr as [Hr _]. destruct (Hr Hacc) as [->|[Hf _]]; [done|congruence].
Qed.

(** A reachable engine is always synced in one pass. *)
Lemma SyncOnce_reachable store (c : C) : reachable c -> (SyncOnce store c).1 = true.
Proof using.
  intros Hr. unfold SyncOnce. destruct store as [[|p ps]|e]; [done| |done].
  pose proof (query_answers c) as Hq. pose proof (reachable_answers TrackQuery [] c Hr) as Ha.
  destruct (Send TrackQuery [] c) as [q c1]. cbn in Ha. rewrite Ha. cbn. destruct Hq as (_ & Hr1 & _).
  destruct (setEqual _ _); [done|].
  pose proof (reachable_answers TrackReplace (p :: ps) c1 (Hr1 Hr)) as Hb. by destruct (Send _ _ c1).
Qed.

(** The number of attempts that fit before the deadline. *)
Definition max_attempts : nat := 17.

(** The connection as attempt [k] finds it. *)
Fixpoint attempt (k : nat) (store : nat -> res db_error (list string)) (world : nat -> C -> C) (c : C) : C :=
  match k with
  | O => redial c
  | S k => redial (world k (SyncOnce (store k) (attempt k store world c)).2)
  end.

(** The loop from attempt [k], the earlier ones having failed in time. *)
Lemma retry_loop_reaches start clock stopped store world (c : C) j fuel k :
  (k <= j)%nat -> (j - k < fuel)%nat ->
  (forall i, (i < j)%nat -> clock i <= start /\ stopped i = false) ->
  (SyncOnce (store j) (attempt j store world c)).1 = true ->
  exists i, (k <= i <= j)%nat /\
    retry_loop fuel k start clock stopped store world
      (match k with O => c | S k => world k (SyncOnce (store k) (attempt k store world c)).2 end) =
    Some (true, (SyncOnce (store i) (attempt i store world c)).2) /\
    (SyncOnce (store i) (attempt i store world c)).1 = true.
Proof using.
  revert k. induction fuel as [|fuel IH]; intros k Hk Hf Htime Hj; [lia|]. cbn [retry_loop].
  assert (redial (match k with O => c | S k => world k (SyncOnce (store k) (attempt k store world c)).2 end) =
    attempt k store world c) as -> by (destruct k; done).
  destruct (SyncOnce (store k) (attempt k store world c)) as [ok c1] eqn:E. destruct ok.
  { exists k. rewrite E. split_and!; [lia|lia|done|done]. }
  destruct (decide (k = j)) as [->|Hne]; [by rewrite E in Hj|].
  destruct (Htime k ltac:(lia)) as [Hc ->]. replace (start <? clock k) with false by lia.
  destruct (IH (S k)) as (i & Hi & Hr & Ho); [lia|lia|done|done|].
  rewrite E in Hr. exists i. split_and!; [lia|lia|done|done].
Qed.

(** Time passes: each wait takes at least [restartRetryEvery]. *)
Definition ticks (start : Z) (clock : nat -> Z) : Prop :=
  start <= clock 0%nat /\ forall k, clock k + restartRetryEvery <= clock (S k).

Lemma clock_after start clock k : ticks start clock -> start + Z.of_nat k * restartRetryEvery <= clock k.
Proof using.
  intros [H0 Hs]. induction k as [|k IH]; [lia|]. specialize (Hs k). rewrite Nat2Z.inj_succ. lia.
Qed.

(** The loop ends by the deadline. *)
Lemma retry_loop_ends start clock stopped store world : ticks start clock ->
  forall fuel k (c : C), (k + fuel = max_attempts)%nat -> (0 < fuel)%nat ->
  is_Some (retry_loop fuel k (start + restartRetryFor) clock stopped store world c).
Proof using.
  intros Ht. induction fuel as [|fuel IH]; intros k c Hk Hf; [lia|]. cbn [retry_loop].
  destruct (SyncOnce (store k) (redial c)) as [[] c1]; [by eexists|].
  pose proof (clock_after start clock k Ht) as Hc.
  destruct (Z.ltb_spec (start + restartRetryFor) (clock k)); [by eexists|].
  destruct (stopped k); [by eexists|]. apply IH; [lia|].
  unfold restartRetryFor, restartRetryEvery, max_attempts in *. lia.
Qed.

End convergence.

(** * Noticing restarts

    The bus goroutine runs [NoteUptime], the worker its loop; the shared state
    is the [restarted] flag and the one-slot [kick] channel.  Each step is one
    of their atomic actions. *)

Inductive noter := NIdle | NStored.
Inductive worker_pc := WWait | WKicked | WSync (redialing : bool) | WDone.

Record sync_state := MkSync {
  y_lastUptime : option Z; y_kick : bool; y_restarted : bool; y_noter : noter; y_worker : worker_pc
}.

Definition new_sync : sync_state := MkSync None false false NIdle WWait.

Definition uptime_back (y : sync_state) (u : Z) : bool :=
  match y_lastUptime y with Some l => u <? l | None => false end.

Inductive sync_step : sync_state -> sync_state -> Prop :=
(** [NoteUptime] without a restart *)
| step_note y u : y_noter y = NIdle -> uptime_back y u = false ->
    sync_step y (MkSync (Some u) (y_kick y) (y_restarted y) NIdle (y_worker y))
(** [NoteUptime] with a restart: the flag, then the kick *)
| step_store y u : y_noter y = NIdle -> uptime_back y u = true ->
    sync_step y (MkSync (Some u) (y_kick y) true NStored (y_worker y))
| step_kick y : y_noter y = NStored ->
    sync_step y (MkSync (y_lastUptime y) true (y_restarted y) NIdle (y_worker y))
(** the worker: the ticker, the kick channel, the swap of the flag, the end of
    a pass, and [Stop] *)
| step_tick y : y_worker y = WWait ->
    sync_step y (MkSync (y_lastUptime y) (y_kick y) (y_restarted y) (y_noter y) (WSync false))
| step_take y : y_worker y = WWait -> y_kick y = true ->
    sync_step y (MkSync (y_lastUptime y) false (y_restarted y) (y_noter y) WKicked)
| step_swap y : y_worker y = WKicked ->
    sync_step y (MkSync (y_lastUptime y) (y_kick y) false (y_noter y) (WSync (y_restarted y)))
| step_finish y b : y_worker y = WSync b ->
    sync_step y (MkSync (y_lastUptime y) (y_kick y) (y_restarted y) (y_noter y) WWait)
| step_stop y : y_worker y = WWait ->
    sync_step y (MkSync (y_lastUptime y) (y_kick y) (y_restarted y) (y_noter y) WDone).

(** A noted restart is on its way to the worker. *)
Definition restart_pending (y : sync_state) : Prop :=
  y_noter y = NStored \/ y_kick y = true \/ y_worker y = WKicked.

Lemma restart_not_lost y : rtc sync_step new_sync y -> y_restarted y = true -> restart_pending y.
Proof.
  intros Hr. refine (rtc_ind_r (fun y => y_restarted y = true -> restart_pending y) new_sync _ _ y Hr); [done|].
  clear y Hr. intros y1 y2 _ Hs IH. unfold restart_pending in *. destruct Hs; cbn; intros Hf; try (by auto); try (destruct (IH Hf) as [?|[?|?]]; by auto).
  - destruct (IH Hf) as [?|[?|?]]; [congruence|by auto|by auto].
  - destruct (IH Hf) as [?|[?|?]]; [by auto|by auto|congruence].
  - destruct (IH Hf) as [?|[?|?]]; [by auto|by auto|congruence].
  - destruct (IH Hf) as [?|[?|?]]; [by auto|by auto|congruence].
Qed.

(** C33. No restart of the capture engine is lost, however the bus goroutine
    and the worker interleave: a noted restart is always pending - about to be
    kicked, in the channel, or taken by the worker - and unless the daemon
    stops, at most four further actions of the two start a sync pass that
    redials the connection. *)
Theorem restart_never_lost y : rtc sync_step new_sync y -> y_restarted y = true ->
  restart_pending y /\
  (y_worker y <> WDone -> exists n y', (n <= 4)%nat /\ nsteps sync_step n y y' /\ y_worker y' = WSync true).
Proof.
  intros Hr Hf. pose proof (restart_not_lost y Hr Hf) as Hp. split; [done|]. intros Hw.
  assert (forall z, y_restarted z = true -> y_worker z = WKicked ->
    exists z', nsteps sync_step 1 z z' /\ y_worker z' = WSync true) as Hswap.
  { intros z Hz Hk. eexists. split; [by apply nsteps_once, step_swap|]. cbn. by rewrite Hz. }
  assert (forall z, y_restarted z = true -> y_kick z = true -> y_worker z = WWait ->
    exists z', nsteps sync_step 2 z z' /\ y_worker z' = WSync true) as Hwait.
  { intros z Hz Hk Hz2. edestruct (Hswap (MkSync (y_lastUptime z) false (y_restarted z) (y_noter z) WKicked)) as (z' & Hs & ?);
      [done..|]. exists z'. split; [|done]. eapply nsteps_l; [by apply step_take|done]. }
  assert (forall z, y_restarted z = true -> y_kick z = true -> y_worker z <> WDone ->
    exists n z', (n <= 3)%nat /\ nsteps sync_step n z z' /\ y_worker z' = WSync true) as Hkick.
  { intros z Hz Hk Hz2. destruct (y_worker z) as [| |b|] eqn:E; [..|done].
    - destruct (Hwait z Hz Hk E) as (z' & ? & ?). exists 2%nat, z'. split_and!; [lia|done|done].
    - destruct (Hswap z Hz E) as (z' & ? & ?). exists 1%nat, z'. split_and!; [lia|done|done].
    - destruct (Hwait (MkSync (y_lastUptime z) (y_kick z) (y_restarted z) (y_noter z) WWait)) as (z' & Hs & ?); [done..|].
      exists 3%nat, z'. split_and!; [lia| |done]. eapply nsteps_l; [by eapply step_finish|done]. }
  destruct Hp as [Hn|[Hk|Hk]].
  - destruct (Hkick (MkSync (y_lastUptime y) true (y_restarted y) NIdle (y_worker y))) as (n & z & ? & Hs & ?); [done..|].
    exists (S n), z. split_and!; [lia| |done]. eapply nsteps_l; [by apply step_kick|done].
  - destruct (Hkick y Hf Hk Hw) as (n & z & ? & Hs & ?). exists n, z. split_and!; [lia|done|done].
  - destruct (Hswap y Hf Hk) as (z & ? & ?). exists 1%nat, z. split_and!; [lia|done|done].
Qed.

(** * The client's socket

    A REQ socket that has sent a request can only receive; one that never got
    its reply is stuck.  [ready] tells when a socket can send. *)

Section client_ready.
Context {Net Sock : Type} `{!Zmq Net Sock} `{!CommandCodec}.
Context (ready : Sock -> Net -> Prop).

(** A new socket can send. *)
Hypothesis dial_ready : forall e n s n', dial e n = (inl s, n') -> ready s n'.

(** A socket that received the reply to its request can send again. *)
Hypothesis recv_ready : forall s n n1 n2 b frames,
  ready s n -> send s b n = (None, n1) -> recv s n1 = (inl frames, n2) -> ready s n2.

Inductive client_op := CSend (op : TrackOp) (patterns : list string) | CReconnect | CClose.

Definition run_client_op (c : ControlClient Net Sock) (o : client_op) : ControlClient Net Sock :=
  match o with
  | CSend op ps => (client_Send op ps c).2
  | CReconnect => (openSocket c).2
  | CClose => Close c
  end.

Definition client_ready (c : ControlClient Net Sock) : Prop :=
  match socket c with Some s => ready s (net c) | None => True end.

Lemma openSocket_ready c : client_ready (openSocket c).2.
Proof using dial_ready.
  unfold openSocket, client_ready. destruct (dial _ _) as [[s|e] n] eqn:E; [|done]. by eapply dial_ready.
Qed.

Lemma exchange_ready s b c : ready s (net c) -> client_ready (exchange s b c).2.
Proof using dial_ready recv_ready.
  intros Hs. unfold exchange. destruct (send s b (net c)) as [[e|] n] eqn:Es; [apply openSocket_ready|].
  unfold recvWithTimeout. destruct (recv s n) as [[[|f fs]|e] n2] eqn:Er; [apply openSocket_ready| |apply openSocket_ready].
  by eapply recv_ready.
Qed.

Lemma client_op_ready c o : client_ready c -> client_ready (run_client_op c o).
Proof using dial_ready recv_ready.
  intros Hc. destruct o as [op ps| |]; cbn; [|apply openSocket_ready|].
  - unfold client_Send. destruct (marshal_command _) as [b|e]; [|done].
    unfold client_ready in Hc. destruct (socket c) as [s|] eqn:Es; [by apply exchange_ready|].
    pose proof (openSocket_ready c) as Ho. destruct (openSocket c) as [[e|] c1]; [done|].
    unfold client_ready in Ho. cbn [snd] in Ho. destruct (socket c1) as [s|] eqn:Es1; [by apply exchange_ready|].
    unfold client_ready. cbn. by rewrite Es1.
  - unfold Close, client_ready. destruct (socket c) eqn:E; cbn; [done|by rewrite E].
Qed.

(** The control client never waits on a stuck socket: whatever commands,
    reconnects and closes it goes through, and however dials, sends and
    replies fail, the socket it keeps is one that can send the next
    request. *)
Theorem client_never_stuck ops ep n :
  client_ready (fold_left run_client_op ops (NewControlClient ep n).2).
Proof using dial_ready recv_ready.
  enough (forall c, client_ready c -> client_ready (fold_left run_client_op ops c)) as Hrun
    by (apply Hrun, openSocket_ready).
  induction ops as [|o ops IH]; intros c Hc; [done|]. apply IH. by apply client_op_ready.
Qed.
End client_ready.

(** * Instances *)

(** Sockets by number; a socket awaits its reply while it is listed, and the
    script says which requests are answered. *)
Record sample_net := MkSampleNet { next_sock : nat; awaiting : list nat; script : list bool }.

Definition drop_sock (s : nat) (l : list nat) : list nat := List.filter (fun x => negb (x =? s)%nat) l.

#[local] Instance sample_zmq : Zmq sample_net nat := {|
  dial _ n := (inl (next_sock n), MkSampleNet (S (next_sock n)) (drop_sock (next_sock n) (awaiting n)) (script n));
  close s n := n;
  send s _ n := (None, MkSampleNet (next_sock n) (s :: awaiting n) (script n));
  recv s n := match script n with
              | true :: t => (inl ["ack"], MkSampleNet (next_sock n) (drop_sock s (awaiting n)) t)
              | _ :: t => (inr "timeout", MkSampleNet (next_sock n) (awaiting n) t)
              | [] => (inr "timeout", n)
              end
|}.

#[local] Instance sample_codec : CommandCodec := {|
  marshal_command _ := inl "cmd";
  unmarshal_ack _ := Some (MkCommandAck true "" [MkTrackEntry "sip:a"] 1)
|}.

Lemma drop_sock_spec s l : s ∉ drop_sock s l.
Proof.
  intros Hs. apply elem_of_filter_bool in Hs as [_ Hs]. by rewrite Nat.eqb_refl in Hs.
Qed.

Lemma client_never_stuck_witness :
  let c := fold_left run_client_op [CSend TrackQuery []; CSend TrackQuery []; CReconnect; CSend TrackAdd ["sip:b"]]
    (NewControlClient "tcp://localhost:1" (MkSampleNet 0 [] [true; false; true])).2 in
  socket c = Some 2%nat /\ awaiting (net c) = [0%nat] /\ client_ready (fun s n => s ∉ awaiting n) c.
Proof.
  split; [reflexivity|]. split; [reflexivity|].
  apply (client_never_stuck (fun s n => s ∉ awaiting n)).
  - intros e n s n' [= <- <-]. apply drop_sock_spec.
  - intros s n n1 n2 b frames _ [= <-]. cbn. destruct (script n) as [|[] t]; [done| |done].
    intros [= _ <-]. cbn. rewrite Nat.eqb_refl. apply drop_sock_spec.
Defined.

(** An engine that is down or holds a list. *)
Record sample_engine := MkEngine { up : bool; engine_list : list string }.

#[local] Instance sample_control : Control sample_engine := {|
  Send op ps c :=
    if up c then
      let l := match op with TrackReplace => ps | TrackAdd => engine_list c ++ ps | _ => engine_list c end in
      (MkTrackAck true true "" l 0, MkEngine true l)
    else (ack_error false "control socket did not reply", c);
  Reconnect := None
|}.

#[local] Instance sample_honest : HonestControl sample_engine.
Proof.
  refine {| tracked := engine_list; reachable c := up c = true; accepts _ := True |}.
  - intros [[] l]; cbn; by split_and!.
  - intros ps [[] l]; cbn; split; auto.
  - intros op ps [[] l]; by cbn.
Defined.


Lemma restart_never_lost_witness :
  let y := MkSync (Some 3) false true NStored WWait in
  rtc sync_step new_sync y /\ restart_pending y /\
  exists n y', (n <= 4)%nat /\ nsteps sync_step n y y' /\ y_worker y' = WSync true.
Proof.
  intros y. assert (rtc sync_step new_sync y) as Hr.
  { apply (rtc_l _ _ (MkSync (Some 9) false false NIdle WWait)); [by apply (step_note new_sync 9)|].
    apply rtc_once. by apply (step_store (MkSync (Some 9) false false NIdle WWait) 3). }
  split; [done|]. destruct (restart_never_lost y Hr eq_refl) as [Hp Hs]. split; [done|]. by apply Hs.
Defined.

Lemma Load_after_Save_witness :
  let ps := ["sip:a<b>"; ""; "+372*"] in
  let w' := (Save ps (fresh_writer 0 [] [None; Some (SqliteError 5)])).2 in
  Save ps (fresh_writer 0 [] [None; Some (SqliteError 5)]) = (Ok tt, w') /\
  Load w' = (Ok ["sip:a<b>"; "+372*"], (Load w').2).
Proof.
  intros ps w'. assert (Save ps (fresh_writer 0 [] [None; Some (SqliteError 5)]) = (Ok tt, w')) as HS
    by (apply run_eq; vm_compute; reflexivity).
  split; [done|]. destruct (Load w') as [r w''] eqn:E.
  assert (Forall (fun p => utf8_valid p = true) ps) as Hv by (repeat constructor).
  pose proof (Load_after_Save ps _ w' r w'' Hv HS E) as Hr. destruct r as [l|e].
  - by rewrite Hr.
  - exfalso. apply (f_equal (fun p => is_ok p.1)) in E. vm_compute in E. discriminate.
Defined.

(** [setEqual] is equality of sets only for lists without duplicates. *)
Lemma setEqual_duplicates : setEqual ["sip:a"; "sip:b"] ["sip:a"; "sip:a"] = true.
Proof. reflexivity. Qed.
