(* ===== verification/Pvqa.v ===== *)
(** The PVQA interval reports ([internal/pvqa/report.go]): the parser of the
    report text, the decomposition into detector counters, the silent-stream
    rule, and the theorems that the counters are per detector name whatever
    the column order, and when the parser panics. *)

From S2P Require Import Prelude GoFloat GoStrings.

Record Row := MkRow { Poor : bool; Values : list float64; Marked : list bool }.

Record Detector := MkDetector { IntThresh : float64; Flagged : bool }.

Abbreviation Thresholds := (gmap string Detector).

Record ParsedReport := MkParsedReport { DetectorList : list string; Rows : list Row }.

Record DetectorCount := MkDetectorCount { Name : string; Count : Z }.

Record Decomposition := MkDecomposition {
  Detectors : list DetectorCount; Intervals : Z; PoorIntervals : Z
}.

Definition RfactorPercents (d : Decomposition) : Z :=
  if Intervals d <=? 0 then 0
  else
    let pct := int64_of_f64 (fmul (fdiv (f64_of_Z (Intervals d - PoorIntervals d))
                                        (f64_of_Z (Intervals d))) (f64_of_Z 100)) in
    if 100 <? pct then 100 else pct.

(** * The parser *)

Definition CR : string := bytes [13].
Definition LF : string := bytes [10].

Definition splitLines (text : string) : list string :=
  let normalized := replace_all text (CR +:+ LF) LF in
  let normalized := replace_all normalized CR LF in
  split_byte (chr 10) normalized.

Definition splitStrip (s : string) : list string := trim_space <$> split_byte ";" s.

(** The header: whether the average is present, and the detector names. *)
Definition parse_header (line : string) : bool * list string :=
  let header := splitStrip line in
  let header := match header with
                | h :: t => if String.eqb h "Time" then t else header
                | [] => header
                end in
  let '(averagePresent, header) :=
    match header with
    | h :: t => if String.eqb h "Average" then (true, t) else (false, header)
    | [] => (false, header)
    end in
  let header := match last header with
                | Some s => if String.eqb s "Status" then removelast header else header
                | None => header
                end in
  (averagePresent, header).

(** One cell: its value and its mark. *)
Definition parse_cell (cell : string) : float64 * bool :=
  let mark := has_suffix "!" cell in
  let v := if mark then trim_space (str_take (String.length cell - 1) cell) else cell in
  (default fzero (parse_float v), mark).

Inductive line_result := Skip | RowOf (r : Row) | Panic.

(** One line after the header; the slice [fields[startOffset : len-1]] panics
    when its bounds cross. *)
Definition parse_line (averagePresent : bool) (line : string) : line_result :=
  let line := trim_space line in
  if String.eqb line "" then Skip
  else
    let fields := splitStrip line in
    if (length fields <? 2)%nat then Skip
    else
      let startOffset := if averagePresent then 2%nat else 1%nat in
      let len := (length fields - 1)%nat in
      if (len <? startOffset)%nat then Panic
      else
        let cells := parse_cell <$> drop startOffset (take len fields) in
        RowOf (MkRow (String.eqb (default "" (last fields)) "Poor") cells.*1 cells.*2).

Fixpoint parse_lines (averagePresent : bool) (lines : list string) : option (list Row) :=
  match lines with
  | [] => Some []
  | l :: ls =>
      match parse_line averagePresent l with
      | Skip => parse_lines averagePresent ls
      | RowOf r => match parse_lines averagePresent ls with Some rs => Some (r :: rs) | None => None end
      | Panic => None
      end
  end.

(** [ParseIntervalReport]; [None] is a panic. *)
Definition ParseIntervalReport (text : string) : option ParsedReport :=
  if String.eqb (trim_space text) "" then Some (MkParsedReport [] [])
  else
    match splitLines text with
    | [] => Some (MkParsedReport [] [])
    | h :: lines =>
        let '(averagePresent, header) := parse_header h in
        match parse_lines averagePresent lines with
        | Some rows => Some (MkParsedReport header rows)
        | None => None
        end
    end.

(** * Decomposition *)

(** 0.001 *)
Definition milli : float64 := f_decimal false 1 (-3).

(** [triggered]; the callers' index is in the range of the values. *)
Definition triggered (row : Row) (idx : nat) (threshold : float64) (known : bool) : bool :=
  if default false (Marked row !! idx) then true
  else
    let v := default fzero (Values row !! idx) in
    if known then fgt v threshold else Poor row && fgt v milli.

(** The detectors seen so far and the index by name. *)
Record counters := MkCounters { detectors : list DetectorCount; index : gmap string nat }.

(** The slot of a column; [None] is the source's -1, not counted. *)
Record column := MkColumn { slot : option nat; limit : float64; known : bool }.

Definition add_column (thresholds : Thresholds) (st : counters) (name : string) : counters * column :=
  let det := thresholds !! name in
  let skip := match det with Some d => negb (Flagged d) | None => false end in
  if skip then (st, MkColumn None fzero false)
  else
    let '(st, i) := match index st !! name with
                    | Some i => (st, i)
                    | None =>
                        let i := length (detectors st) in
                        (MkCounters (detectors st ++ [MkDetectorCount name 0]) (<[name := i]> (index st)), i)
                    end in
    (st, MkColumn (Some i) (match det with Some d => IntThresh d | None => fzero end)
           (match det with Some _ => true | None => false end)).

Fixpoint add_columns (thresholds : Thresholds) (st : counters) (names : list string) : counters * list column :=
  match names with
  | [] => (st, [])
  | n :: ns => let '(st, c) := add_column thresholds st n in
               let '(st, cs) := add_columns thresholds st ns in (st, c :: cs)
  end.

Definition bump (d : DetectorCount) : DetectorCount := MkDetectorCount (Name d) (Count d + 1).

(** The cell [idx] of a row. *)
Definition count_cell (row : Row) (columns : list column) (ds : list DetectorCount) (idx : nat) : list DetectorCount :=
  match columns !! idx with
  | Some c =>
      match slot c with
      | Some i => if triggered row idx (limit c) (known c) then alter bump i ds else ds
      | None => ds
      end
  | None => ds
  end.

Definition count_row (columns : list column) (ds : list DetectorCount) (row : Row) : list DetectorCount :=
  fold_left (count_cell row columns) (seq 0 (length (Values row))) ds.

Definition add_text (thresholds : Thresholds) (acc : counters * Z * Z) (parsed : ParsedReport) : counters * Z * Z :=
  let '(st, intervals, poor) := acc in
  let '(st, columns) := add_columns thresholds st (DetectorList parsed) in
  (MkCounters (fold_left (count_row columns) (Rows parsed) (detectors st)) (index st),
   intervals + Z.of_nat (length (Rows parsed)),
   poor + Z.of_nat (length (List.filter Poor (Rows parsed)))).

(** [DecomposeWith]; [None] is a panic of the parser. *)
Definition DecomposeWith (texts : list string) (thresholds : Thresholds) : option Decomposition :=
  parsed ← mapM ParseIntervalReport texts;
  let '(st, intervals, poor) := fold_left (add_text thresholds) parsed (MkCounters [] ∅, 0, 0) in
  Some (MkDecomposition (detectors st) intervals poor).

(** The thresholds of the process: an atomic pointer, nil at first.  [None] is
    the nil map. *)
Definition defaultThresholds : Type := option Thresholds.
Definition SetDefaultThresholds (t : option Thresholds) (_ : defaultThresholds) : defaultThresholds := t.
Definition DefaultThresholds (p : defaultThresholds) : Thresholds := default ∅ p.
Definition Decompose (texts : list string) (p : defaultThresholds) : option Decomposition := DecomposeWith texts (DefaultThresholds p).

(** * Silence *)

Definition SilentCall : string := "SilentCall".
Definition SilentStreamRatio : float64 := f_decimal false 9 (-1).
Definition SilentStreamMinIntervals : Z := 8.
Definition defaultSilentCallLevel : float64 := f_decimal false 99 (-2).

(** The SilentCall values of a report: one per row that has the cell. *)
Definition silent_values (parsed : ParsedReport) : list float64 :=
  match list_find (fun n => n = SilentCall) (DetectorList parsed) with
  | Some (col, _) => omap (fun row => Values row !! col) (Rows parsed)
  | None => []
  end.

Definition SilentShare (thresholds : Thresholds) (texts : list string) : option (float64 * Z) :=
  parsed ← mapM ParseIntervalReport texts;
  let level := match thresholds !! SilentCall with Some d => IntThresh d | None => defaultSilentCallLevel end in
  let vs := parsed ≫= silent_values in
  let intervals := Z.of_nat (length vs) in
  let silent := Z.of_nat (length (List.filter (fun v => fge v level) vs)) in
  Some (if intervals =? 0 then (fzero, 0) else (fdiv (f64_of_Z silent) (f64_of_Z intervals), intervals)).

Definition SilentStream (thresholds : Thresholds) (texts : list string) : option (bool * float64) :=
  '(share, n) ← SilentShare thresholds texts;
  Some ((SilentStreamMinIntervals <=? n) && fge share SilentStreamRatio, share).

(** * Counters by name *)

(** Whether a detector is counted, and how a cell of its columns triggers. *)
Definition counted (thresholds : Thresholds) (name : string) : bool :=
  match thresholds !! name with Some d => Flagged d | None => true end.

Definition cell_triggers (thresholds : Thresholds) (name : string) (row : Row) (idx : nat) : bool :=
  triggered row idx (match thresholds !! name with Some d => IntThresh d | None => fzero end)
    (match thresholds !! name with Some _ => true | None => false end).

(** The specification of a counter: over all rows of all reports, the cells
    under a column of that name that trigger. *)
Definition row_count (thresholds : Thresholds) (name : string) (header : list string) (row : Row) : Z :=
  Z.of_nat (length (List.filter (fun idx =>
    bool_decide (header !! idx = Some name) && cell_triggers thresholds name row idx)
    (seq 0 (length (Values row))))).

Definition report_count (thresholds : Thresholds) (name : string) (parsed : ParsedReport) : Z :=
  if counted thresholds name
  then foldr Z.add 0 (row_count thresholds name (DetectorList parsed) <$> Rows parsed) else 0.

(** The state of the counting: the index lists the names, and the counts are
    those of [cnt]. *)
Record counters_ok (st : counters) (cnt : string -> Z) : Prop := {
  co_index name i : index st !! name = Some i <-> Name <$> detectors st !! i = Some name;
  co_count d : d ∈ detectors st -> Count d = cnt (Name d)
}.

Lemma counters_ok_NoDup st cnt : counters_ok st cnt -> NoDup (Name <$> detectors st).
Proof.
  intros [Hi _]. apply NoDup_alt. intros i j n H1 H2. rewrite list_lookup_fmap in H1, H2.
  apply Hi in H1, H2. congruence.
Qed.

(** What [add_columns] guarantees of a column. *)
Definition column_ok (thresholds : Thresholds) (st : counters) (name : string) (c : column) : Prop :=
  if counted thresholds name
  then exists i, slot c = Some i /\ index st !! name = Some i /\
    limit c = (match thresholds !! name with Some d => IntThresh d | None => fzero end) /\
    known c = (match thresholds !! name with Some _ => true | None => false end)
  else slot c = None.

Lemma column_ok_mono thresholds st st' name c :
  index st ⊆ index st' -> column_ok thresholds st name c -> column_ok thresholds st' name c.
Proof.
  unfold column_ok. intros Hsub. case_match; [|done].
  intros (i & ? & Hi & ?). exists i. split_and!; try done; try naive_solver. by eapply lookup_weaken.
Qed.

Lemma add_column_ok thresholds st cnt name :
  counters_ok st cnt -> (forall n, index st !! n = None -> cnt n = 0) ->
  let '(st', c) := add_column thresholds st name in
  counters_ok st' cnt /\ (forall n, index st' !! n = None -> cnt n = 0) /\
  index st ⊆ index st' /\ column_ok thresholds st' name c.
Proof.
  intros Hok Hz. unfold add_column, column_ok, counted.
  assert (forall (b : bool), (match thresholds !! name with Some d => negb (Flagged d) | None => false end) = b ->
    match thresholds !! name with Some d => Flagged d | None => true end = negb b) as Hc.
  { intros b <-. case_match; [by rewrite negb_involutive|done]. }
  destruct (match thresholds !! name with Some d => negb (Flagged d) | None => false end) eqn:E;
    rewrite (Hc _ eq_refl); simpl; [by split_and!|].
  destruct (index st !! name) as [i|] eqn:Ei.
  { split_and!; try done. exists i. by split_and!. }
  assert (index st ⊆ <[name := length (detectors st)]> (index st)) as Hsub by by apply insert_subseteq.
  split_and!; simpl; [|intros n; rewrite lookup_insert_None; intros [? _]; auto|done|].
  - destruct Hok as [H1 H2]. split; simpl.
    + intros n j. rewrite lookup_insert_Some, H1. split.
      * intros [[<- <-]|[Hne Hj]]; [by rewrite lookup_app_r, Nat.sub_diag by lia|].
        destruct (detectors st !! j) as [d|] eqn:Ed; [|done]. by rewrite (lookup_app_l_Some _ _ _ _ Ed).
      * rewrite lookup_app. destruct (detectors st !! j) as [d|] eqn:Ed.
        { intros Hn. right. split; [|done]. intros <-.
          assert (index st !! name = Some j) as Hx by (apply H1; by rewrite Ed). congruence. }
        apply lookup_ge_None in Ed.
        destruct (j - length (detectors st))%nat as [|k] eqn:Ej; simpl; [|by destruct k].
        intros [= <-]. left. split; [done|lia].
    + intros d. rewrite elem_of_app, list_elem_of_singleton. intros [Hd| ->]; [by apply H2|].
      simpl. symmetry. by apply Hz.
  - exists (length (detectors st)). by rewrite lookup_insert_eq.
Qed.

Lemma add_columns_ok thresholds st cnt names :
  counters_ok st cnt -> (forall n, index st !! n = None -> cnt n = 0) ->
  let '(st', cs) := add_columns thresholds st names in
  counters_ok st' cnt /\ (forall n, index st' !! n = None -> cnt n = 0) /\
  index st ⊆ index st' /\ Forall2 (column_ok thresholds st') names cs.
Proof.
  revert st. induction names as [|n names IH]; intros st Hok Hz; simpl; [by split_and!|].
  pose proof (add_column_ok thresholds st cnt n Hok Hz) as H1.
  destruct (add_column thresholds st n) as [st1 c]. destruct H1 as (Hok1 & Hz1 & Hs1 & Hc1).
  specialize (IH st1 Hok1 Hz1). destruct (add_columns thresholds st1 names) as [st2 cs].
  destruct IH as (Hok2 & Hz2 & Hs2 & Hcs). split_and!; try done; [by etrans|].
  constructor; [|done]. by eapply column_ok_mono.
Qed.

(** One cell adds one to the counter of its column's name. *)
Definition cell_delta (thresholds : Thresholds) (header : list string) (row : Row) (idx : nat) (n : string) : Z :=
  if counted thresholds n && (bool_decide (header !! idx = Some n) && cell_triggers thresholds n row idx)
  then 1 else 0.

Lemma count_cell_ok thresholds st cnt header columns row idx :
  counters_ok st cnt -> Forall2 (column_ok thresholds st) header columns ->
  counters_ok (MkCounters (count_cell row columns (detectors st) idx) (index st))
    (fun n => cnt n + cell_delta thresholds header row idx n).
Proof.
  intros Hok Hcols. pose proof (counters_ok_NoDup _ _ Hok) as Hnd. destruct Hok as [H1 H2].
  assert (forall ds : list DetectorCount, (forall j : nat, Name <$> ds !! j = Name <$> detectors st !! j) ->
    forall n i, index st !! n = Some i <-> Name <$> ds !! i = Some n) as Hidx.
  { intros ds Hds n i. by rewrite Hds. }
  assert ((forall n, cell_delta thresholds header row idx n = 0) ->
    counters_ok (MkCounters (detectors st) (index st))
      (fun n => cnt n + cell_delta thresholds header row idx n)) as Hsame.
  { intros Hz. split; simpl; [done|]. intros d Hd. rewrite Hz, Z.add_0_r. by apply H2. }
  unfold count_cell, cell_delta in *.
  destruct (columns !! idx) as [c|] eqn:Ec.
  2:{ apply Hsame. intros n. rewrite bool_decide_false; [by rewrite andb_false_r|].
      intros Hh. destruct (Forall2_lookup_l _ _ _ _ _ Hcols Hh) as (c & Hc & _). congruence. }
  destruct (Forall2_lookup_r _ _ _ _ _ Hcols Ec) as (name & Hh & Hc).
  unfold column_ok in Hc. destruct (counted thresholds name) eqn:Ecnt.
  2:{ rewrite Hc. apply Hsame. intros n. destruct (decide (n = name)) as [->|Hne]; [by rewrite Ecnt|].
      rewrite bool_decide_false by congruence. by rewrite andb_false_r. }
  destruct Hc as (i & Hslot & Hi & Hlim & Hkn). rewrite Hslot, Hlim, Hkn.
  fold (cell_triggers thresholds name row idx).
  destruct (cell_triggers thresholds name row idx) eqn:Et.
  2:{ apply Hsame. intros n. destruct (decide (n = name)) as [->|Hne]; [by rewrite Et, !andb_false_r|].
      rewrite bool_decide_false by congruence. by rewrite andb_false_r. }
  split; simpl.
  - apply Hidx. intros j. rewrite list_lookup_alter. case_decide as E; [subst j|done].
    by destruct (detectors st !! i).
  - intros d (j & Hj)%list_elem_of_lookup. rewrite list_lookup_alter in Hj.
    assert (Name <$> detectors st !! i = Some name) as Hname by by apply H1.
    case_decide as E; [subst j|].
    + destruct (detectors st !! i) as [d0|] eqn:Ed; simplify_eq/=.
      rewrite Ecnt, bool_decide_true, Et by done. simpl.
      f_equal. apply H2. by eapply list_elem_of_lookup_2.
    + assert (Name d <> name) as Hne.
      { intros Heq. apply E. symmetry. eapply (NoDup_lookup _ _ _ name Hnd);
          rewrite list_lookup_fmap; [|done]. rewrite Hj. simpl. by rewrite Heq. }
      rewrite bool_decide_false by congruence. rewrite andb_false_r, Z.add_0_r.
      apply H2. by eapply list_elem_of_lookup_2.
Qed.

Lemma counters_ok_ext st cnt cnt' : (forall n, cnt n = cnt' n) -> counters_ok st cnt -> counters_ok st cnt'.
Proof. intros Hext [H1 H2]. split; [done|]. intros d Hd. rewrite <- Hext. auto. Qed.

Lemma sum_filter_cons (p : nat -> bool) i l :
  Z.of_nat (length (List.filter p (i :: l))) = (if p i then 1 else 0) + Z.of_nat (length (List.filter p l)).
Proof. simpl. destruct (p i); simpl; lia. Qed.

Lemma count_row_ok thresholds st cnt header columns row :
  counters_ok st cnt -> Forall2 (column_ok thresholds st) header columns ->
  counters_ok (MkCounters (count_row columns (detectors st) row) (index st))
    (fun n => cnt n + if counted thresholds n then row_count thresholds n header row else 0).
Proof.
  intros Hok Hcols. unfold count_row, row_count. generalize (seq 0 (length (Values row))) as l. intros l.
  destruct st as [ds ix]. simpl in *. revert ds cnt Hok Hcols.
  induction l as [|i l IH]; intros ds cnt Hok Hcols.
  { simpl. eapply counters_ok_ext; [|exact Hok]. intros n. simpl. destruct (counted thresholds n); lia. }
  cbn [fold_left].
  pose proof (count_cell_ok thresholds _ cnt header columns row i Hok Hcols) as H1. simpl in H1.
  specialize (IH _ _ H1). eapply counters_ok_ext; [|apply IH].
  - intros n. cbv beta. unfold cell_delta. destruct (counted thresholds n); [|simpl; lia].
    rewrite sum_filter_cons. cbn [andb]. lia.
  - eapply Forall2_impl; [exact Hcols|]. by intros.
Qed.

Lemma count_rows_ok thresholds st cnt header columns rows :
  counters_ok st cnt -> Forall2 (column_ok thresholds st) header columns ->
  counters_ok (MkCounters (fold_left (count_row columns) rows (detectors st)) (index st))
    (fun n => cnt n + if counted thresholds n
                      then foldr Z.add 0 (row_count thresholds n header <$> rows) else 0).
Proof.
  destruct st as [ds ix]. simpl. revert ds cnt.
  induction rows as [|row rows IH]; intros ds cnt Hok Hcols.
  { simpl. eapply counters_ok_ext; [|exact Hok]. intros n. simpl. destruct (counted thresholds n); lia. }
  cbn [fold_left].
  pose proof (count_row_ok thresholds _ cnt header columns row Hok Hcols) as H1. simpl in H1.
  specialize (IH _ _ H1). eapply counters_ok_ext; [|apply IH].
  - intros n. cbv beta. rewrite fmap_cons. cbn [foldr]. destruct (counted thresholds n); lia.
  - eapply Forall2_impl; [exact Hcols|]. by intros.
Qed.

(** The count of a name over some reports. *)
Definition total_count (thresholds : Thresholds) (parsed : list ParsedReport) (n : string) : Z :=
  foldr Z.add 0 (report_count thresholds n <$> parsed).

Lemma total_count_snoc thresholds l p n :
  total_count thresholds (l ++ [p]) n = total_count thresholds l n + report_count thresholds n p.
Proof.
  unfold total_count. rewrite fmap_app. apply sum_snoc.
Qed.

(** A report counts only names of its own header. *)
Lemma report_count_zero thresholds n p : n ∉ DetectorList p -> report_count thresholds n p = 0.
Proof.
  intros Hn. unfold report_count. case_match; [|done].
  induction (Rows p) as [|row rows IH]; [done|]. rewrite fmap_cons. cbn [foldr].
  rewrite IH, Z.add_0_r. unfold row_count.
  rewrite filter_none; [done|]. intros i _. rewrite bool_decide_false; [done|].
  intros Hh. apply Hn. by eapply list_elem_of_lookup_2.
Qed.

Lemma fold_texts_ok thresholds parsed :
  let '(st, intervals, poor) := fold_left (add_text thresholds) parsed (MkCounters [] ∅, 0, 0) in
  counters_ok st (total_count thresholds parsed) /\
  (forall n, index st !! n = None -> total_count thresholds parsed n = 0) /\
  intervals = foldr Z.add 0 ((fun p => Z.of_nat (length (Rows p))) <$> parsed) /\
  0 <= poor <= intervals.
Proof.
  induction parsed as [|p parsed IH] using rev_ind.
  { simpl. split_and!; try done. split; simpl; [|by intros ? ?%elem_of_nil].
    intros n i. rewrite lookup_empty. done. }
  rewrite fold_left_app. cbn [fold_left].
  destruct (fold_left (add_text thresholds) parsed _) as [[st intervals] poor].
  destruct IH as (Hok & Hz & Hint & Hpoor). unfold add_text.
  pose proof (add_columns_ok thresholds st _ (DetectorList p) Hok Hz) as Hc.
  destruct (add_columns thresholds st (DetectorList p)) as [st' columns].
  destruct Hc as (Hok' & Hz' & Hsub & Hcols). simpl.
  split_and!.
  - eapply counters_ok_ext; [|apply (count_rows_ok thresholds st' _ (DetectorList p) columns (Rows p) Hok' Hcols)].
    intros n. simpl. by rewrite total_count_snoc.
  - intros n Hn. rewrite total_count_snoc, (Hz' n Hn). unfold report_count.
    destruct (counted thresholds n) eqn:Ec; [|done].
    assert (n ∉ DetectorList p) as Hnot.
    { intros Hin. apply list_elem_of_lookup in Hin as [i Hi].
      destruct (Forall2_lookup_l _ _ _ _ _ Hcols Hi) as (c & _ & Hc). unfold column_ok in Hc.
      rewrite Ec in Hc. destruct Hc as (j & _ & Hj & _). congruence. }
    pose proof (report_count_zero thresholds n p Hnot) as H0. unfold report_count in H0. by rewrite Ec in H0.
  - rewrite fmap_app, Hint. symmetry. apply sum_snoc.
  - lia.
  - pose proof (List.filter_length_le Poor (Rows p)). lia.
Qed.

(** * Properties *)


(** The parser handles every report whose rows are complete, and panics
    exactly when the header announces the average and a row has only its time
    and its status: the slice of its cells then has crossed bounds. *)
Theorem ParseIntervalReport_panics text h lines :
  trim_space text <> "" -> splitLines text = h :: lines ->
  ParseIntervalReport text = None <->
  (parse_header h).1 = true /\
  exists line, line ∈ lines /\ trim_space line <> "" /\ length (splitStrip (trim_space line)) = 2%nat.
Proof.
  intros Ht Hs. unfold ParseIntervalReport. rewrite Hs.
  destruct (String.eqb_spec (trim_space text) ""); [done|]. clear Ht Hs n.
  destruct (parse_header h) as [avg header]. simpl.
  assert (forall line, parse_line avg line = Panic <->
    avg = true /\ trim_space line <> "" /\ length (splitStrip (trim_space line)) = 2%nat) as Hline.
  { intros line. unfold parse_line. destruct (String.eqb_spec (trim_space line) ""); [naive_solver|].
    destruct (Nat.ltb_spec (length (splitStrip (trim_space line))) 2); [split; [done|]; lia|].
    destruct avg; case_match eqn:E; rewrite ?Nat.ltb_lt, ?Nat.ltb_ge in E; split; try done; try lia.
    intros _. split_and!; try done. lia. }
  assert (parse_lines avg lines = None <-> exists line, line ∈ lines /\ parse_line avg line = Panic) as Hlines.
  { induction lines as [|l ls IH]; simpl; [split; [done|]; by intros (? & ?%elem_of_nil & _)|].
    setoid_rewrite elem_of_cons. destruct (parse_line avg l) eqn:E.
    - rewrite IH. split; [intros (x & ? & ?); exists x; auto|].
      intros (x & [->|Hx] & Hp); [congruence|by exists x].
    - transitivity (parse_lines avg ls = None); [by destruct (parse_lines avg ls)|].
      rewrite IH. split; [intros (x & ? & ?); exists x; auto|].
      intros (x & [->|Hx] & Hp); [congruence|by exists x].
    - split; [|done]. intros _. exists l. auto. }
  transitivity (parse_lines avg lines = None); [by destruct (parse_lines avg lines)|].
  rewrite Hlines. setoid_rewrite Hline. split.
  - intros (x & Hx & ? & ? & ?). split; [done|]. by exists x.
  - intros [? (x & Hx & ? & ?)]. by exists x.
Qed.

Definition nl : string := LF.


Lemma ParseIntervalReport_panics_witness :
  ParseIntervalReport ("Time; Average; Click; Status" +:+ nl +:+ "0:1; Poor") = None <->
  (parse_header "Time; Average; Click; Status").1 = true /\
  exists line, line ∈ ["0:1; Poor"] /\ trim_space line <> "" /\ length (splitStrip (trim_space line)) = 2%nat.
Proof.
  apply (ParseIntervalReport_panics _ "Time; Average; Click; Status" ["0:1; Poor"]).
  - apply String.eqb_neq. vm_compute. reflexivity.
  - vm_compute. reflexivity.
Defined.
