(* ===== verification/Alarm.v ===== *)
(** The alarms ([internal/alarm]): validation of a rule ([rule.go]), its value
    over a snapshot and its measurement ([source.go]), the engine's state
    machine ([engine.go]), the capture-drop history ([drops.go]) and the
    notifiers' data ([command.go], [webhook.go], [store.go]).

    Times are nanoseconds since the Unix epoch.  The queries that measure a
    window, the file system's free share and the home directory are
    parameters. *)

From S2P Require Import Prelude GoFloat GoStrings GoTime Values Json Expression FilterSQL Model Store Pvqa.

(** * Rules *)

Inductive Op := Below | Above.
Definition op_String (o : Op) : string := match o with Above => "above" | Below => "below" end.

Inductive Scope := ScopeStreams | ScopeCalls | ScopeHost | ScopeCapture.

Record counterSpec := MkCounterSpec { cs_op : Op; cs_scope : Scope; cs_unit : string }.

Definition alarm_counters : list (string * counterSpec) :=
  [("r_factor", MkCounterSpec Below ScopeStreams "R");
   ("sevana_mos", MkCounterSpec Below ScopeStreams "MOS");
   ("network_mos", MkCounterSpec Below ScopeStreams "MOS");
   ("packet_loss", MkCounterSpec Above ScopeStreams "%");
   ("jitter", MkCounterSpec Above ScopeStreams "ms");
   ("duration", MkCounterSpec Below ScopeStreams "s");
   ("free_disk_space", MkCounterSpec Below ScopeHost "");
   ("silent_streams", MkCounterSpec Above ScopeStreams "%");
   ("call_health", MkCounterSpec Above ScopeCalls "%");
   ("failed_calls", MkCounterSpec Above ScopeCalls "%");
   ("capture_drops", MkCounterSpec Above ScopeCapture "packets")].

Definition Counters : list string :=
  ["r_factor"; "sevana_mos"; "network_mos"; "packet_loss"; "jitter";
   "duration"; "free_disk_space"; "silent_streams"; "call_health"; "failed_calls"; "capture_drops"].

(** One entry of the configuration's alarm list. *)
Record AlarmConfig := MkAlarmConfig {
  ac_Name : string; ac_Counter : string; ac_Op : string; ac_Limit : float64; HasLimit : bool;
  IntervalS : Z; ac_MinSamples : Z; ac_Filter : string; ac_Code : string; ac_Command : string;
  ac_Webhook : string; ac_OnClear : bool
}.

Record Rule := MkRule {
  ru_Name : string; Counter : string; ru_Op : Op; Limit : float64; Window : Z; MinSamples : Z;
  Filter : string; ru_Code : string; Command : string; Webhook : string; OnClear : bool;
  ru_Scope : Scope; ru_Unit : string
}.

Definition DefaultWindow : Z := 15 * 60 * nanosecond_per_second.

Inductive rule_error :=
| UnknownCounter (name counter : string)
| NoLimit (name : string)
| BadOp (name op : string)
| NoTarget (name : string)
| BadWebhook (name url : string)
| CodeNotApplicable (name : string)
| BadFilter (name : string) (e : expression_error)
| NoFilterAllowed (name counter : string).

(** The direction of a rule: the configured one, or the counter's. *)
Definition parse_op (op : string) (default_op : Op) : option Op :=
  if String.eqb op "" then Some default_op
  else if String.eqb op "below" || String.eqb op "<" then Some Below
  else if String.eqb op "above" || String.eqb op ">" then Some Above
  else None.

Definition check_filter (scope : Scope) (name counter filter : string) : res rule_error unit :=
  if String.eqb filter "" then Ok tt
  else
    let check (r : res expression_error SQLFragment) :=
      match r with Ok _ => Ok tt | Err e => Err (BadFilter name e) end in
    match scope with
    | ScopeStreams => check (BuildWhere filter "qmark")
    | ScopeCalls => check (BuildSipCallWhere filter "qmark")
    | _ => Err (NoFilterAllowed name counter)
    end.

Definition NewRule (c : AlarmConfig) : res rule_error Rule :=
  match mlookup (ac_Counter c) alarm_counters with
  | None => Err (UnknownCounter (ac_Name c) (ac_Counter c))
  | Some spec =>
      let name := trim_space (ac_Name c) in
      let name := if String.eqb name "" then ac_Counter c else name in
      let command := trim_space (ac_Command c) in
      let filter := trim_space (ac_Filter c) in
      let window := wrap64 (IntervalS c * nanosecond_per_second) in
      if negb (HasLimit c) then Err (NoLimit name)
      else match parse_op (ac_Op c) (cs_op spec) with
      | None => Err (BadOp name (ac_Op c))
      | Some op =>
          let window := if window <=? 0 then DefaultWindow else window in
          let minSamples := if ac_MinSamples c <=? 0 then 1 else ac_MinSamples c in
          if String.eqb command "" && String.eqb (ac_Webhook c) "" then Err (NoTarget name)
          else if negb (String.eqb (ac_Webhook c) "") &&
                  negb (has_prefix "http://" (ac_Webhook c)) &&
                  negb (has_prefix "https://" (ac_Webhook c))
          then Err (BadWebhook name (ac_Webhook c))
          else if negb (String.eqb (ac_Code c) "") && negb (String.eqb (ac_Counter c) "call_health")
          then Err (CodeNotApplicable name)
          else
            let? _ := check_filter (cs_scope spec) name (ac_Counter c) filter in
            Ok (MkRule name (ac_Counter c) op (ac_Limit c) window minSamples filter (ac_Code c)
                  command (ac_Webhook c) (ac_OnClear c) (cs_scope spec) (cs_unit spec))
      end
  end.

Definition Bad (r : Rule) (v : float64) : bool :=
  match ru_Op r with Above => fgt v (Limit r) | Below => flt v (Limit r) end.

(** * Snapshots *)

Record Snapshot := MkSnapshot {
  Streams : Z; SevanaStreams : Z; RFactor : float64; ss_SevanaMOS : float64;
  ss_NetworkMOS : float64; PacketLoss : float64; ss_Jitter : float64; ss_Duration : float64;
  FreeDisk : float64; SilentStreams : float64; Calls : Z; ss_CallHealth : float64;
  FailedCalls : float64; CaptureDrops : float64; CaptureKnown : bool
}.

(** [Rule.Value]: the counter, its samples, and whether it is measured. *)
Definition Value (r : Rule) (s : Snapshot) : float64 * Z * bool :=
  let streams v := (v, Streams s, 0 <? Streams s) in
  let sevana v := (v, SevanaStreams s, 0 <? SevanaStreams s) in
  let calls v := (v, Calls s, 0 <? Calls s) in
  let c := Counter r in
  if String.eqb c "r_factor" then sevana (RFactor s)
  else if String.eqb c "sevana_mos" then sevana (ss_SevanaMOS s)
  else if String.eqb c "network_mos" then streams (ss_NetworkMOS s)
  else if String.eqb c "packet_loss" then streams (PacketLoss s)
  else if String.eqb c "jitter" then streams (ss_Jitter s)
  else if String.eqb c "duration" then streams (ss_Duration s)
  else if String.eqb c "silent_streams" then sevana (SilentStreams s)
  else if String.eqb c "free_disk_space" then (FreeDisk s, 1, fge (FreeDisk s) fzero)
  else if String.eqb c "call_health" then calls (ss_CallHealth s)
  else if String.eqb c "failed_calls" then calls (FailedCalls s)
  else if String.eqb c "capture_drops" then (CaptureDrops s, 1, CaptureKnown s)
  else (fzero, 0, false).

Definition empty_snapshot : Snapshot :=
  MkSnapshot 0 0 fzero fzero fzero fzero fzero fzero (f64_of_Z (-1)) fzero 0 fzero fzero fzero false.

(** * The engine *)

Inductive Kind := Raised | Repeat | Cleared.
Definition kind_string (k : Kind) : string :=
  match k with Raised => "alarm" | Repeat => "repeat" | Cleared => "cleared" end.

Record Instance_ := MkInstance { in_ID : string; in_Name : string }.

Record Event := MkEvent {
  ev_Rule : Rule; ev_Kind : Kind; ev_Value : float64; ev_Samples : Z; ev_Snapshot : Snapshot;
  At : Z; ev_Instance : Instance_
}.

Record Status := MkStatus {
  st_Rule : Rule; st_Alarm : bool; st_Value : float64; st_Samples : Z; Measured : bool;
  LastCheck : Z; LastChange : Z; LastNotify : Z; LastError : string
}.

Record ruleState := MkRuleState { rs_rule : Rule; status : Status }.

(** [NewEngine]: the state of the rules. *)
Definition new_state (r : Rule) : ruleState :=
  MkRuleState r (MkStatus r false fzero 0 false zero_time zero_time zero_time "").
Definition NewEngine (rules : list Rule) : list ruleState := new_state <$> rules.

(** The body of [Tick]'s loop for one rule, with what [Measure] returned. *)
Definition check_rule (instance : Instance_) (now : Z) (m : res string Snapshot) (st : ruleState) :
    ruleState * option Event :=
  let r := rs_rule st in
  let s := status st in
  match m with
  | Err e =>
      (MkRuleState r (MkStatus (st_Rule s) (st_Alarm s) (st_Value s) (st_Samples s) false now
         (LastChange s) (LastNotify s) e), None)
  | Ok snap =>
      let '(v, n, ok) := Value r snap in
      let measured := ok && (MinSamples r <=? n) in
      let bad := Bad r v in
      let '(alarm, change, notify, kind) :=
        if negb measured then (st_Alarm s, LastChange s, LastNotify s, None)
        else if bad && negb (st_Alarm s) then (true, now, now, Some Raised)
        else if bad && (Window r <=? time_sub now (LastNotify s))
        then (st_Alarm s, LastChange s, now, Some Repeat)
        else if negb bad && st_Alarm s then (false, now, now, Some Cleared)
        else (st_Alarm s, LastChange s, LastNotify s, None) in
      (MkRuleState r (MkStatus (st_Rule s) alarm v n measured now change notify ""),
       (fun k => MkEvent r k v n snap now instance) <$> kind)
  end.

(** [Tick]: the rules in order; [measure] is the source. *)
Fixpoint Tick (instance : Instance_) (now : Z) (measure : Rule -> Z -> res string Snapshot)
    (sts : list ruleState) : list ruleState * list Event :=
  match sts with
  | [] => ([], [])
  | st :: sts =>
      let '(st, ev) := check_rule instance now (measure (rs_rule st) (now / 1000000)) st in
      let '(sts, evs) := Tick instance now measure sts in
      (st :: sts, option_list ev ++ evs)
  end.

Definition Statuses (sts : list ruleState) : list Status := status <$> sts.

(** One rule over a history of measurements: its state and its events. *)
Fixpoint run_rule (instance : Instance_) (h : list (Z * res string Snapshot)) (st : ruleState) :
    ruleState * list Event :=
  match h with
  | [] => (st, [])
  | (now, m) :: h =>
      let '(st, ev) := check_rule instance now m st in
      let '(st, evs) := run_rule instance h st in
      (st, option_list ev ++ evs)
  end.

(** * Notifications *)

(** [num]. *)
Definition num3 (v : float64) : string := format_fixed 3 v.

(** [strings.NewReplacer]: at each position the first of the pairs that
    matches. *)
Fixpoint match_pair (pairs : list (string * string)) (s : string) : option (nat * string) :=
  match pairs with
  | [] => None
  | (old, new) :: pairs =>
      if has_prefix old s then Some (String.length old, new) else match_pair pairs s
  end.

Fixpoint replacer_from (pairs : list (string * string)) (skip : nat) (s : string) : string :=
  match s with
  | EmptyString => ""
  | String c s' =>
      match skip with
      | S k => replacer_from pairs k s'
      | O => match match_pair pairs s with
             | Some (n, new) => new +:+ replacer_from pairs (n - 1) s'
             | None => String c (replacer_from pairs 0 s')
             end
      end
  end.
Definition replacer (pairs : list (string * string)) (s : string) : string := replacer_from pairs 0 s.

Definition placeholders (ev : Event) : list (string * string) :=
  let s := ev_Snapshot ev in
  [("$free_disk_space", if fge (FreeDisk s) fzero then num3 (FreeDisk s) else "");
   ("$r_factor", num3 (RFactor s));
   ("$sevana_mos", num3 (ss_SevanaMOS s));
   ("$network_mos", num3 (ss_NetworkMOS s));
   ("$packet_loss", num3 (PacketLoss s));
   ("$jitter", num3 (ss_Jitter s));
   ("$duration", num3 (ss_Duration s));
   ("$limit", num3 (Limit (ev_Rule ev)))].

(** [CommandLine]; [home] is the home directory, empty when there is none. *)
Definition CommandLine (home : string) (ev : Event) : string :=
  let line := replacer (placeholders ev) (Command (ev_Rule ev)) in
  if negb (String.eqb home "") && has_prefix "~/" line then home +:+ str_drop 1 line else line.

(** Whether [CommandNotifier.Notify] and [WebhookNotifier.Notify] queue the
    event (the queues are in [Notify]). *)
Definition command_wanted (ev : Event) : bool :=
  negb (String.eqb (Command (ev_Rule ev)) "" ||
        (match ev_Kind ev with Cleared => true | _ => false end && negb (OnClear (ev_Rule ev)))).
Definition webhook_wanted (ev : Event) : bool := negb (String.eqb (Webhook (ev_Rule ev)) "").

(** [int(d.Seconds())]. *)
Definition window_seconds (d : Z) : Z :=
  int64_of_f64 (fadd (f64_of_Z (Z.quot d nanosecond_per_second))
    (fdiv (f64_of_Z (Z.rem d nanosecond_per_second)) (f64_of_Z nanosecond_per_second))).

Definition Env (ev : Event) : list string :=
  let s := ev_Snapshot ev in
  let r := ev_Rule ev in
  ["VQ_ALARM_NAME=" +:+ ru_Name r;
   "VQ_ALARM_STATE=" +:+ kind_string (ev_Kind ev);
   "VQ_ALARM_COUNTER=" +:+ Counter r;
   "VQ_ALARM_VALUE=" +:+ num3 (ev_Value ev);
   "VQ_ALARM_OP=" +:+ op_String (ru_Op r);
   "VQ_ALARM_LIMIT=" +:+ num3 (Limit r);
   "VQ_ALARM_UNIT=" +:+ ru_Unit r;
   "VQ_ALARM_SAMPLES=" +:+ itoa (ev_Samples ev);
   "VQ_ALARM_WINDOW_S=" +:+ itoa (window_seconds (Window r));
   "VQ_ALARM_FILTER=" +:+ Filter r;
   "VQ_ALARM_CODE=" +:+ ru_Code r;
   "VQ_ALARM_TIME=" +:+ rfc3339 (At ev);
   "VQ_INSTANCE_ID=" +:+ in_ID (ev_Instance ev);
   "VQ_INSTANCE_NAME=" +:+ in_Name (ev_Instance ev);
   "VQ_STREAMS=" +:+ itoa (Streams s);
   "VQ_R_FACTOR=" +:+ num3 (RFactor s);
   "VQ_SEVANA_MOS=" +:+ num3 (ss_SevanaMOS s);
   "VQ_NETWORK_MOS=" +:+ num3 (ss_NetworkMOS s);
   "VQ_PACKET_LOSS=" +:+ num3 (PacketLoss s);
   "VQ_JITTER=" +:+ num3 (ss_Jitter s);
   "VQ_DURATION=" +:+ num3 (ss_Duration s)] ++
  (if fge (FreeDisk s) fzero then ["VQ_FREE_DISK_SPACE=" +:+ num3 (FreeDisk s)] else []).

(** [Payload]: the object of a webhook call, its members in the order of
    [json.Marshal], which sorts the keys of a map. *)
Definition Payload (ev : Event) : json :=
  let s := ev_Snapshot ev in
  let r := ev_Rule ev in
  JObject
    [("alarm", JString (ru_Name r));
     ("code", JString (ru_Code r));
     ("counter", JString (Counter r));
     ("filter", JString (Filter r));
     ("instance", JObject [("id", JString (in_ID (ev_Instance ev))); ("name", JString (in_Name (ev_Instance ev)))]);
     ("kpis", JObject
        ([("duration", JFloat (ss_Duration s))] ++
         (if fge (FreeDisk s) fzero then [("free_disk_space", JFloat (FreeDisk s))] else []) ++
         [("jitter", JFloat (ss_Jitter s));
          ("network_mos", JFloat (ss_NetworkMOS s));
          ("packet_loss", JFloat (PacketLoss s));
          ("r_factor", JFloat (RFactor s));
          ("sevana_mos", JFloat (ss_SevanaMOS s));
          ("sevana_streams", JInt (SevanaStreams s));
          ("streams", JInt (Streams s))]));
     ("limit", JFloat (Limit r));
     ("op", JString (op_String (ru_Op r)));
     ("samples", JInt (ev_Samples ev));
     ("state", JString (kind_string (ev_Kind ev)));
     ("time", JString (rfc3339 (At ev)));
     ("timestamp_ms", JInt (At ev / 1000000));
     ("unit", JString (ru_Unit r));
     ("value", JFloat (ev_Value ev));
     ("window_s", JInt (window_seconds (Window r)))].

(** [StoreNotifier.Notify]: the row of an event. *)
Definition store_event (new_id : list Z -> Z) (ev : Event) (d : database) : database :=
  set_alarm_events (rtpmon_alarm_events d ++
    [MkAlarmRow (new_id (a_id <$> rtpmon_alarm_events d)) (ru_Name (ev_Rule ev))
       (kind_string (ev_Kind ev)) (Counter (ev_Rule ev)) (op_String (ru_Op (ev_Rule ev)))
       (ev_Value ev) (Limit (ev_Rule ev)) (ev_Samples ev) (At ev / 1000000)]) d.

(** * The engine's guarantees *)

(** The verdict of one measurement: bad or good, when there were samples
    enough. *)
Definition verdict (r : Rule) (m : res string Snapshot) : option bool :=
  match m with
  | Err _ => None
  | Ok snap =>
      let '(v, n, ok) := Value r snap in
      if ok && (MinSamples r <=? n) then Some (Bad r v) else None
  end.

(** The notifications a rule may send, from a state - in alarm or not, and the
    time of its last notification - to a state. *)
Inductive protocol (r : Rule) : bool * Z -> list Event -> bool * Z -> Prop :=
| protocol_end st : protocol r st [] st
| protocol_raised last e es st :
    ev_Kind e = Raised -> ev_Rule e = r -> Bad r (ev_Value e) = true -> MinSamples r <= ev_Samples e ->
    protocol r (true, At e) es st -> protocol r (false, last) (e :: es) st
| protocol_repeat last e es st :
    ev_Kind e = Repeat -> ev_Rule e = r -> Bad r (ev_Value e) = true -> MinSamples r <= ev_Samples e ->
    Window r <= time_sub (At e) last ->
    protocol r (true, At e) es st -> protocol r (true, last) (e :: es) st
| protocol_cleared last e es st :
    ev_Kind e = Cleared -> ev_Rule e = r -> Bad r (ev_Value e) = false -> MinSamples r <= ev_Samples e ->
    protocol r (false, At e) es st -> protocol r (true, last) (e :: es) st.

Definition notify_state (st : Status) : bool * Z := (st_Alarm st, LastNotify st).

(** The engine over a history of ticks: the time and the source of each. *)
Definition history : Type := list (Z * (Rule -> Z -> res string Snapshot)).

Fixpoint run_engine (instance : Instance_) (h : history) (sts : list ruleState) :
    list ruleState * list Event :=
  match h with
  | [] => (sts, [])
  | (now, measure) :: h =>
      let '(sts, evs) := Tick instance now measure sts in
      let '(sts, evs') := run_engine instance h sts in
      (sts, evs ++ evs')
  end.

(** What the ticks of a history measure for one rule. *)
Definition measurements (r : Rule) (h : history) : list (Z * res string Snapshot) :=
  (fun '(now, measure) => (now, measure r (now / 1000000))) <$> h.

Definition last_verdict (r : Rule) (ms : list (res string Snapshot)) : bool :=
  default false (last (omap (verdict r) ms)).

Section engine.
Context (instance : Instance_).

(** One check, by the verdict of its measurement. *)
Lemma check_rule_spec now m st st' ev :
  check_rule instance now m st = (st', ev) ->
  let r := rs_rule st in
  rs_rule st' = r /\
  st_Alarm (status st') = default (st_Alarm (status st)) (verdict r m) /\
  match ev with
  | None => LastNotify (status st') = LastNotify (status st) /\
      (verdict r m = Some true ->
       st_Alarm (status st) = true /\ time_sub now (LastNotify (status st)) < Window r) /\
      (verdict r m = Some false -> st_Alarm (status st) = false)
  | Some e =>
      LastNotify (status st') = now /\ At e = now /\ ev_Rule e = r /\ ev_Instance e = instance /\
      MinSamples r <= ev_Samples e /\ verdict r m = Some (Bad r (ev_Value e)) /\
      match ev_Kind e with
      | Raised => st_Alarm (status st) = false /\ Bad r (ev_Value e) = true
      | Repeat => st_Alarm (status st) = true /\ Bad r (ev_Value e) = true /\
          Window r <= time_sub now (LastNotify (status st))
      | Cleared => st_Alarm (status st) = true /\ Bad r (ev_Value e) = false
      end
  end.
Proof.
  destruct st as [r [sr al v0 n0 me lc lch ln le]]. unfold check_rule, verdict. cbn [rs_rule status st_Alarm LastNotify LastChange].
  destruct m as [snap|e]; [|intros [= <- <-]; cbn; repeat split; done].
  destruct (Value r snap) as [[v n] ok]. cbn.
  destruct ok; cbn; [|intros [= <- <-]; cbn; repeat split; done].
  destruct (MinSamples r <=? n) eqn:Hn; cbn; [|intros [= <- <-]; cbn; repeat split; done].
  destruct (Bad r v) eqn:Hb, al; cbn; try destruct (Window r <=? time_sub now ln) eqn:Hw; cbn;
    intros [= <- <-]; cbn; zbool; repeat split; try done; rewrite ?Hb; try done; lia.
Qed.

Lemma run_rule_rule h st : rs_rule (run_rule instance h st).1 = rs_rule st.
Proof.
  revert st. induction h as [|[now m] h IH]; intros st; [done|]. cbn.
  destruct (check_rule instance now m st) as [st1 ev] eqn:E.
  specialize (IH st1). destruct (run_rule instance h st1) as [st2 evs]. cbn in *.
  apply check_rule_spec in E as [E _]. congruence.
Qed.

Lemma run_rule_protocol h st :
  protocol (rs_rule st) (notify_state (status st)) (run_rule instance h st).2
    (notify_state (status (run_rule instance h st).1)).
Proof.
  revert st. induction h as [|[now m] h IH]; intros st; [constructor|]. cbn.
  destruct (check_rule instance now m st) as [st1 ev] eqn:E.
  specialize (IH st1). destruct (run_rule instance h st1) as [st2 evs]. cbn in *.
  apply check_rule_spec in E as (Hr & Ha & Hev). rewrite Hr in IH. unfold notify_state in *.
  destruct ev as [e|]; cbn.
  - destruct Hev as (Hl & Hat & Her & _ & Hn & Hv & Hk). rewrite Hv in Ha. cbn in Ha.
    rewrite Ha, Hl, <- Hat in IH.
    destruct (ev_Kind e) eqn:Hkind; [destruct Hk as (-> & Hb)|destruct Hk as (-> & Hb & Hw)|destruct Hk as (-> & Hb)];
      rewrite Hb in IH; rewrite <- ?Hat in *; eauto using protocol.
  - destruct Hev as (Hl & Hbad & Hgood). rewrite Hl in IH.
    replace (st_Alarm (status st)) with (st_Alarm (status st1)); [done|].
    rewrite Ha. destruct (verdict (rs_rule st) m) as [[]|]; cbn; [|symmetry; auto|done].
    symmetry. by apply Hbad.
Qed.

Lemma run_rule_alarm h st :
  st_Alarm (status (run_rule instance h st).1) =
  default (st_Alarm (status st)) (last (omap (verdict (rs_rule st)) h.*2)).
Proof.
  revert st. induction h as [|[now m] h IH]; intros st; [done|].
  cbn [run_rule]. destruct (check_rule instance now m st) as [st1 ev] eqn:E.
  specialize (IH st1). destruct (run_rule instance h st1) as [st2 evs]. cbn [fst] in *.
  apply check_rule_spec in E as (Hr & Ha & _). rewrite IH, Hr, fmap_cons, omap_unfold. cbn [snd].
  rewrite last_app. destruct (last (omap (verdict (rs_rule st)) _)); [done|]. cbn [default]. rewrite Ha.
  by destruct (verdict (rs_rule st) m).
Qed.

(** The ticks treat the rules independently. *)
Lemma Tick_rules now measure sts :
  Tick instance now measure sts =
  ((fun st => (check_rule instance now (measure (rs_rule st) (now / 1000000)) st).1) <$> sts,
   omap (fun st => (check_rule instance now (measure (rs_rule st) (now / 1000000)) st).2) sts).
Proof.
  induction sts as [|st sts IH]; [done|]. cbn [Tick]. rewrite IH, fmap_cons, omap_unfold.
  by destruct (check_rule _ _ _ st).
Qed.

Lemma run_engine_rules h sts :
  (run_engine instance h sts).1 = (fun st => (run_rule instance (measurements (rs_rule st) h) st).1) <$> sts /\
  (run_engine instance h sts).2 ≡ₚ
    concat ((fun st => (run_rule instance (measurements (rs_rule st) h) st).2) <$> sts).
Proof.
  revert sts. induction h as [|[now measure] h IH]; intros sts.
  { cbn. split; [by rewrite list_fmap_id|]. by induction sts. }
  cbn [run_engine]. rewrite Tick_rules.
  set (step st := check_rule instance now (measure (rs_rule st) (now / 1000000)) st).
  destruct (IH ((fun st => (step st).1) <$> sts)) as [IH1 IH2].
  change (fun st : ruleState => (check_rule instance now (measure (rs_rule st) (now / 1000000)) st).1)
    with (fun st => (step st).1).
  change (fun st : ruleState => (check_rule instance now (measure (rs_rule st) (now / 1000000)) st).2)
    with (fun st => (step st).2).
  destruct (run_engine instance h _) as [sts2 evs2]. cbn [fst snd] in *. subst sts2.
  assert (Hstep : forall st, run_rule instance (measurements (rs_rule st) ((now, measure) :: h)) st =
    let r := run_rule instance (measurements (rs_rule (step st).1) h) (step st).1 in
    (r.1, option_list (step st).2 ++ r.2)).
  { intros st. cbn. fold (step st). destruct (step st) as [st1 ev] eqn:E.
    apply check_rule_spec in E as [E _]. cbn. rewrite E. by destruct (run_rule _ _ st1). }
  split.
  - rewrite <- list_fmap_compose. apply list_fmap_ext. intros i st _.
    unfold compose. rewrite Hstep. done.
  - rewrite IH2. clear IH IH2. induction sts as [|st sts IH]; [done|].
    rewrite !fmap_cons. cbn [concat]. rewrite omap_unfold, Hstep, <- IH. cbn [fst snd].
    solve_Permutation.
Qed.
End engine.

(** A rule in alarm is never silent for more than a window: when its last
    measurement is bad, a window has not passed since its last notification. *)
Lemma run_rule_not_overdue instance h now m st :
  verdict (rs_rule st) m = Some true -> 0 < Window (rs_rule st) ->
  time_sub now (LastNotify (status (run_rule instance (h ++ [(now, m)]) st).1)) < Window (rs_rule st).
Proof.
  intros Hv Hw. revert st Hv Hw. induction h as [|[t m'] h IH]; intros st Hv Hw; cbn.
  - destruct (check_rule instance now m st) as [st1 ev] eqn:E. cbn.
    apply check_rule_spec in E as (Hr & Ha & Hev). destruct ev as [e|].
    + destruct Hev as (-> & _). unfold time_sub, min_int64, max_int64. lia.
    + destruct Hev as (-> & Hbad & _). by apply Hbad.
  - destruct (check_rule instance t m' st) as [st1 ev] eqn:E.
    apply check_rule_spec in E as (Hr & _). specialize (IH st1). rewrite Hr in IH.
    specialize (IH Hv Hw). by destruct (run_rule instance (h ++ [(now, m)]) st1).
Qed.

(** C10. The engine over any history of ticks: whatever the source returns
    (errors included) and whatever the clock does, the notifications are the
    merge of one sequence per rule, and each rule's sequence follows the
    protocol from the initial to the final state of the rule - it opens with a
    raise, is never raised twice without a clear in between, repeats no sooner
    than a window after the notification before it, every event rests on at
    least [MinSamples] samples whose value is on the side of the limit its kind
    says, and no raise or clear is lost.  Nor is a reminder: when the last
    measurement is bad, less than a window has passed since a notification. *)
Theorem engine_notifications_follow_protocol instance rules h :
  let '(sts, evs) := run_engine instance h (NewEngine rules) in
  exists per_rule, evs ≡ₚ concat per_rule /\ length per_rule = length rules /\
    forall i r, rules !! i = Some r ->
      exists es st, per_rule !! i = Some es /\ Statuses sts !! i = Some st /\
        protocol r (false, zero_time) es (notify_state st) /\
        forall ms now m, measurements r h = ms ++ [(now, m)] -> verdict r m = Some true -> 0 < Window r ->
          time_sub now (LastNotify st) < Window r.
Proof.
  destruct (run_engine_rules instance h (NewEngine rules)) as [Hs Hp].
  destruct (run_engine _ _ _) as [sts evs]. cbn [fst snd] in *. subst sts. eexists. split; [exact Hp|].
  split; [unfold NewEngine; by rewrite !length_fmap|].
  intros i r Hi. unfold Statuses, NewEngine. rewrite !list_lookup_fmap, Hi. cbn [fmap option_fmap option_map].
  eexists _, _. split; [done|]. split; [done|]. split.
  - apply (run_rule_protocol instance (measurements r h) (new_state r)).
  - intros ms now m Hm Hv Hw. cbn [rs_rule new_state]. rewrite Hm.
    by apply (run_rule_not_overdue instance ms now m (new_state r)).
Qed.

(** C11. After any history of ticks a rule is in alarm exactly when the last of
    its measurements that had enough samples was on the alarm side of its
    limit (and not in alarm before the first such measurement): failed and
    thinly sampled measurements neither raise nor clear it, and no rule
    affects another. *)
Theorem engine_alarm_is_last_verdict instance rules h i r :
  rules !! i = Some r ->
  exists st, Statuses (run_engine instance h (NewEngine rules)).1 !! i = Some st /\
    st_Alarm st = last_verdict r (measurements r h).*2.
Proof.
  intros Hi. destruct (run_engine_rules instance h (NewEngine rules)) as [Hs _].
  rewrite Hs. unfold Statuses, NewEngine. rewrite !list_lookup_fmap, Hi. cbn.
  eexists. split; [done|]. by rewrite run_rule_alarm.
Qed.

(** * The command line *)

(** The bytes [strconv.FormatFloat] writes. *)
Definition number_byte (c : ascii) : bool :=
  decimal_digit c || contains_byte c "+-.NaInf".

Lemma number_byte_digits s : str_forall decimal_digit s = true -> str_forall number_byte s = true.
Proof. apply str_forall_impl. intros c Hc. unfold number_byte. by rewrite Hc. Qed.

Lemma itoa_number z : str_forall number_byte (itoa z) = true.
Proof.
  unfold itoa, format_int. destruct (z <? 0) eqn:Hz; zbool.
  - change (number_byte "-" && str_forall number_byte (format_uint 10 (- z)) = true).
    apply number_byte_digits, format_uint_digits. lia.
  - apply number_byte_digits, format_uint_digits. lia.
Qed.

Lemma pad_left_number n s : str_forall number_byte s = true -> str_forall number_byte (pad_left n s) = true.
Proof.
  intros Hs. unfold pad_left. rewrite str_forall_app, Hs, andb_true_r.
  generalize (n - String.length s)%nat. intros k. induction k as [|k IH]; [done|]. exact IH.
Qed.

Lemma format_fixed_number prec f : str_forall number_byte (format_fixed prec f) = true.
Proof.
  assert (Hpos : forall d x, str_forall number_byte (positional d x) = true).
  { intros d x. unfold positional. destruct (0 <=? x); [apply itoa_number|].
    rewrite !str_forall_app, itoa_number. cbn [andb str_forall]. apply pad_left_number, itoa_number. }
  destruct f as [[]|[]| |[] m e]; try reflexivity; cbn [format_fixed];
    rewrite str_forall_app, Hpos; reflexivity.
Qed.

(** A part of a template: a byte of it, or a placeholder with its text. *)
Inductive segment := Literal (c : ascii) | Fill (name value : string).

Definition source_text (g : segment) : string :=
  match g with Literal c => String c "" | Fill name _ => name end.
Definition filled_text (g : segment) : string :=
  match g with Literal c => String c "" | Fill _ value => value end.

(** The parts of a template: placeholders are taken from the left, and no
    literal byte starts one. *)
Inductive template (pairs : list (string * string)) : string -> list segment -> Prop :=
| template_nil : template pairs "" []
| template_literal c s gs :
    match_pair pairs (String c s) = None -> template pairs s gs ->
    template pairs (String c s) (Literal c :: gs)
| template_fill name value s gs :
    (name, value) ∈ pairs -> template pairs s gs ->
    template pairs (name +:+ s) (Fill name value :: gs).

Lemma has_prefix_split p s : has_prefix p s = true -> s = p +:+ str_drop (String.length p) s.
Proof.
  revert s. induction p as [|a p IH]; intros s; [done|]. destruct s as [|b s]; [done|].
  cbn. destruct (Ascii.eqb_spec a b) as [->|]; [|done]. cbn. intros H. f_equal. by apply IH.
Qed.

Lemma match_pair_Some pairs s n new :
  match_pair pairs s = Some (n, new) ->
  exists name, (name, new) ∈ pairs /\ n = String.length name /\ s = name +:+ str_drop n s.
Proof.
  induction pairs as [|[old v] pairs IH]; cbn; [done|].
  destruct (has_prefix old s) eqn:E.
  - intros [= <- <-]. exists old. split; [set_solver|]. split; [done|]. by apply has_prefix_split.
  - intros (name & ? & ?)%IH. exists name. split; [set_solver|done].
Qed.

Lemma replacer_from_skip pairs k s : replacer_from pairs k s = replacer_from pairs 0 (str_drop k s).
Proof.
  revert k. induction s as [|c s IH]; intros [|k]; try done. cbn. apply IH.
Qed.

Lemma replacer_template pairs s :
  (forall p, p ∈ pairs -> p.1 <> "") ->
  exists gs, template pairs s gs /\ replacer pairs s = join "" (filled_text <$> gs).
Proof.
  intros Hne. unfold replacer.
  induction s as [s IH] using (induction_ltof1 _ String.length); unfold ltof in IH.
  destruct s as [|c s]; [exists []; split; [constructor|done]|].
  cbn [replacer_from]. destruct (match_pair pairs (String c s)) as [[n new]|] eqn:E.
  - destruct (match_pair_Some _ _ _ _ E) as (name & Hin & -> & Hs).
    assert (String.length name <> 0)%nat as Hlen.
    { specialize (Hne _ Hin). cbn in Hne. by destruct name. }
    rewrite replacer_from_skip.
    replace (str_drop (String.length name - 1) s) with (str_drop (String.length name) (String c s)).
    2: { destruct (String.length name) as [|k]; [done|]. cbn. f_equal. lia. }
    destruct (IH (str_drop (String.length name) (String c s))) as (gs & Ht & ->).
    { apply (f_equal String.length) in Hs. rewrite str_app_length in Hs. lia. }
    exists (Fill name new :: gs). split; [|by rewrite fmap_cons, join_empty_cons].
    rewrite Hs at 1. by constructor.
  - destruct (IH s) as (gs & Ht & ->); [cbn; lia|].
    exists (Literal c :: gs). split; [by constructor|by rewrite fmap_cons, join_empty_cons].
Qed.

(** C38. The shell line of an alarm is the configured command with each of the
    eight documented placeholders, found from the left, replaced by the text of
    a number - decimal digits, a sign, a point, [NaN] or [Inf], or nothing -
    and, at most, a leading [~/] expanded to the home directory: no byte of the
    alarm's name, its state or its filter reaches the shell. *)
Theorem CommandLine_inserts_numbers_only home ev :
  exists gs,
    template (placeholders ev) (Command (ev_Rule ev)) gs /\
    Forall (fun g => match g with
                     | Literal _ => True
                     | Fill name value => name ∈ (placeholders ev).*1 /\ str_forall number_byte value = true
                     end) gs /\
    let line := join "" (filled_text <$> gs) in
    CommandLine home ev = line \/
    exists rest, line = "~/" +:+ rest /\ CommandLine home ev = home +:+ "/" +:+ rest.
Proof.
  destruct (replacer_template (placeholders ev) (Command (ev_Rule ev))) as (gs & Ht & Hr).
  { unfold placeholders. intros p Hp. repeat (apply elem_of_cons in Hp as [->|Hp]; [done|]). by apply elem_of_nil in Hp. }
  exists gs. split; [done|]. split.
  - clear Hr. induction Ht as [|c s gs _ _ IH|name value s gs Hin _ IH]; constructor; try done.
    split; [by apply (list_elem_of_fmap_2' fst _ (name, value))|].
    unfold placeholders in Hin.
    repeat (apply elem_of_cons in Hin as [[= -> ->]|Hin]; [first [apply format_fixed_number|by case_match; [apply format_fixed_number|]]|]).
    by apply elem_of_nil in Hin.
  - cbn zeta. unfold CommandLine. rewrite Hr. destruct (negb (String.eqb home "")); [|by left].
    destruct (has_prefix "~/" _) eqn:E; [|by left]. right.
    apply has_prefix_split in E. cbn [andb]. cbn [String.length] in E.
    eexists. split; [exact E|]. rewrite E at 1. done.
Qed.

(** * Validation *)

(** The filter compiles for the tables of the scope. *)
Definition filter_compiles (scope : Scope) (f : string) : bool :=
  match scope with
  | ScopeStreams => is_ok (BuildWhere f "qmark")
  | ScopeCalls => is_ok (BuildSipCallWhere f "qmark")
  | ScopeHost | ScopeCapture => false
  end.

(** A usable alarm, as the user guide describes it. *)
Definition usable (c : AlarmConfig) : Prop :=
  HasLimit c = true /\
  ac_Op c ∈ ["";"below"; "<"; "above"; ">"] /\
  (trim_space (ac_Command c) <> "" \/ ac_Webhook c <> "") /\
  (ac_Webhook c <> "" -> has_prefix "http://" (ac_Webhook c) || has_prefix "https://" (ac_Webhook c) = true) /\
  (ac_Code c <> "" -> ac_Counter c = "call_health") /\
  exists spec, mlookup (ac_Counter c) alarm_counters = Some spec /\
    (trim_space (ac_Filter c) <> "" -> filter_compiles (cs_scope spec) (trim_space (ac_Filter c)) = true).

Lemma parse_op_Some op d : (exists o, parse_op op d = Some o) <-> op ∈ ["";"below"; "<"; "above"; ">"].
Proof.
  unfold parse_op. split.
  - intros [o Ho]. revert Ho.
    repeat (case_match; [intros _|]); rewrite ?orb_true_iff, ?String.eqb_eq in *; [| | |done];
      set_solver.
  - intros H. repeat (apply elem_of_cons in H as [->|H]; [by eexists|]). by apply elem_of_nil in H.
Qed.

Lemma check_filter_Ok scope name counter f :
  (exists u, check_filter scope name counter f = Ok u) <-> (f <> "" -> filter_compiles scope f = true).
Proof.
  unfold check_filter, filter_compiles. destruct (String.eqb_spec f "") as [->|Hf].
  - split; [done|]. by exists tt.
  - split.
    + intros [u Hu] _. by destruct scope; try done; case_match.
    + intros H. specialize (H Hf). destruct scope; try done; case_match; try done; by eexists.
Qed.

(** The accepting branch of [NewRule]. *)
Lemma NewRule_Ok c r :
  NewRule c = Ok r <->
  exists spec op, mlookup (ac_Counter c) alarm_counters = Some spec /\ HasLimit c = true /\
    parse_op (ac_Op c) (cs_op spec) = Some op /\
    String.eqb (trim_space (ac_Command c)) "" && String.eqb (ac_Webhook c) "" = false /\
    negb (String.eqb (ac_Webhook c) "") && negb (has_prefix "http://" (ac_Webhook c)) &&
      negb (has_prefix "https://" (ac_Webhook c)) = false /\
    negb (String.eqb (ac_Code c) "") && negb (String.eqb (ac_Counter c) "call_health") = false /\
    (trim_space (ac_Filter c) <> "" -> filter_compiles (cs_scope spec) (trim_space (ac_Filter c)) = true) /\
    r = MkRule (let name := trim_space (ac_Name c) in if String.eqb name "" then ac_Counter c else name)
          (ac_Counter c) op (ac_Limit c)
          (let w := wrap64 (IntervalS c * nanosecond_per_second) in if w <=? 0 then DefaultWindow else w)
          (if ac_MinSamples c <=? 0 then 1 else ac_MinSamples c)
          (trim_space (ac_Filter c)) (ac_Code c) (trim_space (ac_Command c)) (ac_Webhook c) (ac_OnClear c)
          (cs_scope spec) (cs_unit spec).
Proof.
  unfold NewRule. destruct (mlookup _ _) as [spec|]; [|naive_solver]. cbn zeta.
  destruct (HasLimit c); cbn [negb]; [|naive_solver].
  destruct (parse_op _ _) as [op|] eqn:Hop; [|split; [done|]; intros (s & o & [= <-] & _ & E & _); congruence].
  destruct (_ && String.eqb (ac_Webhook c) "") eqn:G1; [split; [done|]; intros (? & ? & _ & _ & _ & ? & _); congruence|].
  destruct (_ && negb (has_prefix "https://" _)) eqn:G2; [split; [done|]; intros (? & ? & _ & _ & _ & _ & ? & _); congruence|].
  destruct (_ && negb (String.eqb (ac_Counter c) _)) eqn:G3; [split; [done|]; intros (? & ? & _ & _ & _ & _ & _ & ? & _); congruence|].
  rewrite res_bind_Ok. split.
  - intros (u & Hf & [= <-]). exists spec, op. repeat split; try done.
    eapply check_filter_Ok; eauto.
  - intros (s & o & [= <-] & _ & Ho & _ & _ & _ & Hf & ->).
    rewrite Hop in Ho. injection Ho as <-.
    apply (check_filter_Ok (cs_scope spec) (let name := trim_space (ac_Name c) in if String.eqb name "" then ac_Counter c else name) (ac_Counter c)) in Hf as [u Hf].
    by exists u.
Qed.

(** An alarm is accepted exactly when it is usable: a known counter with a
    limit, a direction that is below or above, a command or an http(s) webhook,
    a code only for call_health, and a filter only where the counter has one
    and that compiles.  The rule is normalised: a name, a positive window (the
    interval when it fits in a duration, 15 minutes when there is none), at
    least one sample, and the scope, the unit and the default direction of its
    counter. *)
Theorem NewRule_accepts_usable c :
  ((exists r, NewRule c = Ok r) <-> usable c) /\
  forall r, NewRule c = Ok r ->
    ru_Name r <> "" /\ 0 < Window r /\ 1 <= MinSamples r /\ Counter r = ac_Counter c /\
    Limit r = ac_Limit c /\
    (0 < IntervalS c <= 9223372036 -> Window r = IntervalS c * nanosecond_per_second) /\
    (IntervalS c = 0 -> Window r = DefaultWindow) /\
    exists spec, mlookup (ac_Counter c) alarm_counters = Some spec /\
      ru_Scope r = cs_scope spec /\ ru_Unit r = cs_unit spec /\ (ac_Op c = "" -> ru_Op r = cs_op spec).
Proof.
  split; [split|].
  - intros [r (spec & op & Hs & Hl & Hop & G1 & G2 & G3 & Hf & _)%NewRule_Ok].
    rewrite andb_false_iff, !String.eqb_neq in G1.
    split; [done|]. split; [apply (parse_op_Some _ (cs_op spec)); eauto|]. split; [done|].
    split; [|split; [|by exists spec]].
    + intros Hw%String.eqb_neq. rewrite Hw in G2. by destruct (has_prefix "http://" _), (has_prefix "https://" _).
    + intros Hc%String.eqb_neq. rewrite Hc in G3. by destruct (String.eqb_spec (ac_Counter c) "call_health").
  - intros (Hl & Hop & Hn & Hw & Hc & spec & Hs & Hf).
    apply (parse_op_Some _ (cs_op spec)) in Hop as [op Hop].
    eexists. apply NewRule_Ok. exists spec, op. repeat split; try done.
    + rewrite andb_false_iff, !String.eqb_neq. done.
    + destruct (String.eqb_spec (ac_Webhook c) "") as [|Hne]; [done|]. apply Hw in Hne.
      by destruct (has_prefix "http://" _), (has_prefix "https://" _).
    + destruct (String.eqb_spec (ac_Code c) "") as [|Hne]; [done|]. by rewrite (Hc Hne).
  - intros r (spec & op & Hs & Hl & Hop & _ & _ & _ & _ & ->)%NewRule_Ok. cbn.
    repeat split; try done.
    + destruct (String.eqb_spec (trim_space (ac_Name c)) ""); [|done]. intros E. by rewrite E in Hs.
    + case_match; zbool; [done|lia].
    + case_match; zbool; lia.
    + intros Hi. rewrite wrap64_id by (unfold in_int64, min_int64, max_int64, nanosecond_per_second; lia).
      unfold nanosecond_per_second. case_match; zbool; lia.
    + intros ->. done.
    + exists spec. repeat split; try done. intros E. rewrite E in Hop. by injection Hop.
Qed.

(** * An example *)

Definition sample_alarm : AlarmConfig :=
  MkAlarmConfig "low MOS" "network_mos" "" (f_decimal false 36 (-1)) true 60 2 "src_ip == 10.0.0.1" ""
    "/opt/notify $network_mos" "" true.

Definition sample_rule : Rule :=
  MkRule "low MOS" "network_mos" Below (f_decimal false 36 (-1)) (60 * nanosecond_per_second) 2
    "src_ip == 10.0.0.1" "" "/opt/notify $network_mos" "" true ScopeStreams "MOS".

Definition sample_measure (mos : float64) (n : Z) (r : Rule) (now_ms : Z) : res string Snapshot :=
  Ok (MkSnapshot n 0 fzero fzero mos fzero fzero fzero fzero fzero 0 fzero fzero fzero false).

(** A bad value raises the rule, no traffic and a failed query keep it, the
    next minute repeats it. *)
Definition sample_history : history :=
  [(0, sample_measure (f64_of_Z 2) 5);
   (30 * nanosecond_per_second, sample_measure fzero 0);
   (40 * nanosecond_per_second, fun _ _ => Err "locked");
   (61 * nanosecond_per_second, sample_measure (f64_of_Z 3) 2)].

Example sample_rule_accepted : NewRule sample_alarm = Ok sample_rule.
Proof. vm_compute. reflexivity. Qed.

Lemma NewRule_accepts_usable_witness :
  NewRule sample_alarm = Ok sample_rule /\ 0 < Window sample_rule /\ usable sample_alarm.
Proof.
  assert (H : NewRule sample_alarm = Ok sample_rule) by (vm_compute; reflexivity).
  split; [exact H|]. split.
  - apply (proj2 (NewRule_accepts_usable sample_alarm) sample_rule H).
  - apply (proj1 (NewRule_accepts_usable sample_alarm)). by exists sample_rule.
Defined.

Lemma engine_alarm_is_last_verdict_witness :
  ev_Kind <$> (run_engine (MkInstance "i" "n") sample_history (NewEngine [sample_rule])).2 = [Raised; Repeat] /\
  exists st, Statuses (run_engine (MkInstance "i" "n") sample_history (NewEngine [sample_rule])).1 !! 0%nat = Some st /\
    st_Alarm st = true.
Proof.
  split; [vm_compute; reflexivity|].
  destruct (engine_alarm_is_last_verdict (MkInstance "i" "n") [sample_rule] sample_history 0 sample_rule eq_refl)
    as (st & Hst & Ha).
  exists st. split; [exact Hst|]. rewrite Ha. vm_compute. reflexivity.
Defined.
