(* ===== verification/Drops.v ===== *)
(** The capture-drop history of the alarms ([internal/alarm/drops.go]): the
    cumulative counters of vq-core, sampled at most every five seconds, carried
    across its restarts and pruned, and the theorem that the packets dropped
    within a window are counted with that resolution.

    Times are nanoseconds since the Unix epoch; the clock is an argument. *)

From S2P Require Import Prelude GoFloat Model.

Record dropSample := MkDropSample { ds_at : Z; ds_raw : Z; ds_total : Z }.

Record DropHistory := MkDropHistory { samples : list dropSample; keep : Z }.

Definition dropSpacing : Z := 5 * 1000000000.

Definition NewDropHistory (keep : Z) : DropHistory := MkDropHistory [] keep.

(** [drops]: the sum over the capture devices. *)
Definition drops (s : InstanceStatistics) : Z :=
  fold_left (fun n c => wrapu64 (n + wrapu64 (DroppedHwPacketCounter c + MbufAllocFailedCounter c)))
    (Capturers s) 0.

(** The sample of a note, after the newest one. *)
Definition next_sample (last : option dropSample) (now cur : Z) : dropSample :=
  match last with
  | Some l =>
      if ds_raw l <=? cur then MkDropSample now cur (wrapu64 (ds_total l + (cur - ds_raw l)))
      else MkDropSample now cur (wrapu64 (ds_total l + cur))
  | None => MkDropSample now cur 0
  end.

(** The newest sample is replaced until the spacing to the one before has
    passed. *)
Definition store_sample (samples : list dropSample) (s : dropSample) : list dropSample :=
  match rev samples with
  | _ :: prev :: _ =>
      if time_sub (ds_at s) (ds_at prev) <? dropSpacing
      then <[(length samples - 1)%nat := s]> samples else samples ++ [s]
  | _ => samples ++ [s]
  end.

(** Samples before the cutoff go, but the last of them. *)
Fixpoint prune (cutoff : Z) (samples : list dropSample) : list dropSample :=
  match samples with
  | s :: rest =>
      match rest with
      | s' :: _ => if ds_at s' <? cutoff then prune cutoff rest else samples
      | [] => samples
      end
  | [] => samples
  end.

Definition Note (now : Z) (s : InstanceStatistics) (h : DropHistory) : DropHistory :=
  let sample := next_sample (last (samples h)) now (drops s) in
  MkDropHistory (prune (now - keep h) (store_sample (samples h) sample)) (keep h).

(** The newest sample that is not after [from], or the first. *)
Fixpoint base_sample (from : Z) (base : dropSample) (samples : list dropSample) : dropSample :=
  match samples with
  | [] => base
  | s :: rest => if from <? ds_at s then base else base_sample from s rest
  end.

Definition Within (now window : Z) (h : DropHistory) : Z * bool :=
  match samples h, last (samples h) with
  | first :: _, Some last =>
      (wrapu64 (ds_total last - ds_total (base_sample (now - window) first (samples h))), true)
  | _, _ => (0, false)
  end.

(** * What the history counts *)

(** The packets dropped over consecutive readings of the counter, after the
    reading [prev]: a reading below the one before is a restart. *)
Fixpoint dropped (prev : Z) (readings : list Z) : Z :=
  match readings with
  | [] => 0
  | r :: rs => (if prev <=? r then r - prev else r) + dropped r rs
  end.

(** The notes of a history, without spacing and pruning. *)
Fixpoint points (last : option dropSample) (notes : list (Z * InstanceStatistics)) : list dropSample :=
  match notes with
  | [] => []
  | (t, s) :: notes => let p := next_sample last t (drops s) in p :: points (Some p) notes
  end.

Definition run_notes (keep : Z) (notes : list (Z * InstanceStatistics)) : DropHistory :=
  fold_left (fun h '(t, s) => Note t s h) notes (NewDropHistory keep).

(** The kept samples [ss] of the points [ps]: the same first and last, and
    each point between two samples is within the spacing of the first. *)
Inductive thinned : list dropSample -> list dropSample -> Prop :=
| thinned_last p : thinned [p] [p]
| thinned_cons p mid ss ps :
    Forall (fun q => ds_at q < ds_at p + dropSpacing) mid -> thinned ss ps ->
    thinned (p :: ss) (p :: mid ++ ps).

(** The state after a history: the points that are forgotten, and the others
    thinned; the oldest sample, once points are forgotten, is older than the
    longest window. *)
Definition tracks (keep now : Z) (ss ps : list dropSample) : Prop :=
  exists old rest, ps = old ++ rest /\ thinned ss rest /\
    (old = [] \/ exists s ss', ss = s :: ss' /\ ds_at s < now - keep).

Lemma points_app l notes notes' :
  points l (notes ++ notes') =
  points l notes ++ points (match last (points l notes) with Some p => Some p | None => l end) notes'.
Proof.
  revert l. induction notes as [|[t s] notes IH]; intros l; [done|].
  cbn [points app]. rewrite IH, last_cons. by destruct (last (points _ notes)).
Qed.

Lemma points_length l notes : length (points l notes) = length notes.
Proof. revert l. induction notes as [|[t s] notes IH]; intros l; cbn; [done|]. by rewrite IH. Qed.

Lemma next_sample_at l t c : ds_at (next_sample l t c) = t /\ ds_raw (next_sample l t c) = c.
Proof. unfold next_sample. by repeat case_match. Qed.

Lemma points_notes l notes :
  ds_at <$> points l notes = notes.*1 /\ ds_raw <$> points l notes = drops <$> notes.*2.
Proof.
  revert l. induction notes as [|[t s] notes IH]; intros l; [done|].
  cbn [points]. rewrite !fmap_cons. destruct (next_sample_at l t (drops s)) as [-> ->].
  destruct (IH (Some (next_sample l t (drops s)))) as [-> ->]. done.
Qed.

(** Along the points the totals count what was dropped. *)
Lemma points_total p notes q :
  last (points (Some p) notes) = Some q ->
  wrapu64 (ds_total q - ds_total p) = wrapu64 (dropped (ds_raw p) (drops <$> notes.*2)).
Proof.
  revert p. induction notes as [|[t s] notes IH]; intros p; [done|].
  cbn [points]. set (p' := next_sample (Some p) t (drops s)). rewrite !fmap_cons. cbn [dropped snd].
  assert (Hp' : ds_raw p' = drops s /\ wrapu64 (ds_total p' - ds_total p) =
    wrapu64 (if ds_raw p <=? drops s then drops s - ds_raw p else drops s)).
  { unfold p', next_sample. destruct (ds_raw p <=? drops s); cbn; (split; [done|]);
      rewrite <- Z.add_opp_r, wrapu64_add_l; f_equal; lia. }
  destruct Hp' as [Hr Ht]. rewrite last_cons. destruct (last (points (Some p') notes)) as [q'|] eqn:E.
  - intros [= <-]. apply IH in E. rewrite Hr in E. unfold wrapu64 in *.
    replace (ds_total q' - ds_total p) with ((ds_total q' - ds_total p') + (ds_total p' - ds_total p)) by lia.
    rewrite Z.add_mod, E, Ht, <- Z.add_mod by lia. f_equal. lia.
  - intros [= <-]. rewrite Ht. apply last_None in E. destruct notes as [|[??]]; [|done].
    cbn. by rewrite Z.add_0_r.
Qed.

Lemma points_split l notes pre k post :
  points l notes = pre ++ k :: post ->
  exists n1 t s n2, notes = n1 ++ (t, s) :: n2 /\ length n1 = length pre /\
    ds_at k = t /\ ds_raw k = drops s /\ post = points (Some k) n2.
Proof.
  revert l notes. induction pre as [|p pre IH]; intros l [|[t s] notes]; cbn [points app]; intros H; try done.
  - injection H as <- <-. exists [], t, s, notes. split_and!; try done; apply next_sample_at.
  - injection H as <- H. apply IH in H as (n1 & t' & s' & n2 & -> & Hlen & H).
    exists ((t, s) :: n1), t', s', n2. cbn. by rewrite Hlen.
Qed.

Lemma thinned_ends ss ps : thinned ss ps -> head ss = head ps /\ last ss = last ps /\ ss <> [].
Proof.
  induction 1 as [p|p mid ss ps _ H (Hh & Hl & Hne)]; [done|]. split; [done|]. split; [|done].
  rewrite (last_cons p (mid ++ ps)), last_app, last_cons, <- Hl.
  destruct (last ss) eqn:E; [done|]. by apply last_None in E.
Qed.

Lemma thinned_snoc ss ps p : thinned ss ps -> thinned (ss ++ [p]) (ps ++ [p]).
Proof.
  induction 1 as [q|q mid ss ps Hm _ IH].
  - apply (thinned_cons q [] [p] [p]); constructor.
  - cbn. rewrite <- app_assoc. by constructor.
Qed.

Lemma thinned_replace ss a b ps p :
  thinned (ss ++ [a; b]) ps -> ds_at b <= ds_at p < ds_at a + dropSpacing ->
  thinned (ss ++ [a; p]) (ps ++ [p]).
Proof.
  intros H Hp. revert ps H. induction ss as [|q ss IH]; intros ps H; cbn in *.
  - inversion_clear H as [|? mid ss' ps' Hm Ht]. inversion Ht as [|????? Hnil]; subst.
    + replace ((a :: mid ++ [b]) ++ [p]) with (a :: (mid ++ [b]) ++ [p]) by done.
      constructor; [|constructor]. apply Forall_app. split; [done|]. constructor; [lia|constructor].
    + inversion Hnil.
  - inversion H as [p0 Heq|p0 mid ss' ps' Hm Ht]; subst; [by destruct ss|].
    cbn. rewrite <- app_assoc. constructor; auto.
Qed.

Lemma thinned_prune cutoff ss ps :
  thinned ss ps ->
  exists old rest, ps = old ++ rest /\ thinned (prune cutoff ss) rest /\
    ((old = [] /\ prune cutoff ss = ss) \/ exists s ss', prune cutoff ss = s :: ss' /\ ds_at s < cutoff).
Proof.
  induction 1 as [p|p mid ss ps Hm Ht IH].
  { exists [], [p]. split_and!; [done|constructor|by left]. }
  destruct ss as [|s ss]; [by apply thinned_ends in Ht as (_ & _ & ?)|].
  change (prune cutoff (p :: s :: ss)) with
    (if ds_at s <? cutoff then prune cutoff (s :: ss) else p :: s :: ss).
  destruct (ds_at s <? cutoff) eqn:E; zbool.
  - destruct IH as (old & rest & -> & Hr & Hc). exists (p :: mid ++ old), rest.
    split_and!; [cbn; by rewrite <- app_assoc|done|]. right.
    destruct Hc as [[_ ->]|Hc]; [by exists s, ss|done].
  - exists [], (p :: mid ++ ps). split_and!; [done|by constructor|by left].
Qed.

(** One more sample, in place or appended. *)
Lemma thinned_store ss ps p :
  thinned ss ps -> (forall q, q ∈ ss -> ds_at q <= ds_at p) ->
  thinned (store_sample ss p) (ps ++ [p]) /\ head (store_sample ss p) = head ss.
Proof.
  intros Ht Hle. unfold store_sample. destruct (rev ss) as [|b [|a l]] eqn:E.
  - apply (f_equal (@rev _)) in E. rewrite rev_involutive in E. subst. by apply thinned_ends in Ht as (_ & _ & ?).
  - apply (f_equal (@rev _)) in E. rewrite rev_involutive in E. subst. split; [by apply thinned_snoc|done].
  - apply (f_equal (@rev _)) in E. rewrite rev_involutive in E. cbn in E. rewrite <- app_assoc in E. cbn in E.
    subst ss. destruct (time_sub _ _ <? dropSpacing) eqn:Hs; zbool.
    + rewrite length_app, Nat.add_comm, insert_app_r_alt by (cbn; lia). cbn [length].
      replace (2 + length (rev l) - 1 - length (rev l))%nat with 1%nat by lia. cbn [insert list_insert].
      split; [|by destruct (rev l)]. apply (thinned_replace _ _ b); [done|].
      split; [apply Hle; set_solver|]. unfold time_sub, dropSpacing, min_int64, max_int64 in *. lia.
    + split; [by apply thinned_snoc|]. by destruct (rev l).
Qed.

Lemma tracks_note keep now t ss ps p :
  tracks keep now ss ps -> now <= t -> ds_at p = t -> (forall q, q ∈ ps -> ds_at q <= t) ->
  tracks keep t (prune (t - keep) (store_sample ss p)) (ps ++ [p]).
Proof.
  intros (old & rest & -> & Ht & Hold) Hn Hp Hle.
  assert (Hsub : forall ss rest, thinned ss rest -> forall q, q ∈ ss -> q ∈ rest).
  { clear. induction 1; set_solver. }
  destruct (thinned_store ss rest p Ht) as [Hs Hh].
  { intros q Hq. rewrite Hp. apply Hle, elem_of_app. right. eauto. }
  destruct (thinned_prune (t - keep) _ _ Hs) as (old' & rest' & Heq & Hr & Hc).
  exists (old ++ old'), rest'. split; [by rewrite <- !app_assoc, <- Heq|]. split; [done|].
  destruct Hc as [[-> ->]|Hc]; [|by right].
  destruct Hold as [->|(s & ss' & -> & Hlt)]; [by left|]. right. cbn in Hh.
  destruct (store_sample _ p) as [|s' ss'']; [done|]. injection Hh as ->. exists s, ss''. split; [done|lia].
Qed.

Lemma run_notes_keep keep notes : Drops.keep (run_notes keep notes) = keep.
Proof.
  unfold run_notes. rewrite <- (rev_involutive notes), <- fold_left_rev_right.
  rewrite rev_involutive. induction (rev notes) as [|[t s] l IH]; [done|]. exact IH.
Qed.

Lemma run_notes_snoc keep notes t s :
  run_notes keep (notes ++ [(t, s)]) = Note t s (run_notes keep notes).
Proof. unfold run_notes. by rewrite fold_left_app. Qed.

(** Clocks that do not go back. *)
Definition in_order (notes : list (Z * InstanceStatistics)) (now : Z) : Prop :=
  StronglySorted Z.le (notes.*1 ++ [now]).

Lemma run_notes_tracks keep notes now :
  in_order notes now -> notes <> [] ->
  tracks keep now (samples (run_notes keep notes)) (points None notes).
Proof.
  revert now. induction notes as [|[t s] notes IH] using rev_ind; [done|]. intros now Ho _.
  unfold in_order in Ho. rewrite fmap_app in Ho. cbn in Ho.
  assert (Hnow : t <= now).
  { rewrite <- app_assoc in Ho. apply StronglySorted_app_1_r in Ho. inversion_clear Ho. by inversion_clear H0. }
  apply StronglySorted_app_1_l in Ho.
  rewrite run_notes_snoc. unfold Note. rewrite run_notes_keep. cbn [samples].
  rewrite points_app. cbn [points].
  assert (Hmono : forall ss ps, tracks keep t ss ps -> tracks keep now ss ps).
  { intros ss ps (old & rest & ? & ? & [?|(q & l & ? & ?)]); exists old, rest; split_and!; try done; [by left|].
    right. exists q, l. split; [done|lia]. }
  destruct (decide (notes = [])) as [->|Hne].
  { exists [], [next_sample None t (drops s)]. split_and!; [done|constructor|by left]. }
  specialize (IH t Ho Hne). apply Hmono.
  replace (match last (points None notes) with Some p => Some p | None => None end)
    with (last (samples (run_notes keep notes))).
  - apply (tracks_note keep t); [done|lia|apply next_sample_at|].
    intros q Hq. assert (Hat : ds_at q ∈ notes.*1).
    { destruct (points_notes None notes) as [<- _]. by apply list_elem_of_fmap_2. }
    revert Hat Ho. clear. induction notes.*1 as [|z l IH]; [set_solver|]. cbn. intros Hin Ho.
    inversion_clear Ho as [|?? Hl Hall]. apply elem_of_cons in Hin as [->|Hin]; [|auto].
    rewrite Forall_forall in Hall. apply Hall. set_solver.
  - destruct IH as (old & rest & -> & Ht & _). pose proof (thinned_ends _ _ Ht) as (_ & -> & _).
    rewrite last_app. destruct (last rest) eqn:E; [done|]. apply last_None in E as ->. inversion Ht.
Qed.

Lemma base_sample_spec from b ss ps :
  thinned ss ps -> StronglySorted Z.le (ds_at <$> ps) ->
  (base_sample from b ss = b /\ forall q, q ∈ ps -> from < ds_at q) \/
  exists pre k post, ps = pre ++ k :: post /\ base_sample from b ss = k /\ ds_at k <= from /\
    forall q, q ∈ post -> ds_at q <= from -> ds_at q < ds_at k + dropSpacing.
Proof.
  intros Ht. revert b. induction Ht as [p|p mid ss ps Hm Ht IH]; intros b Hs; cbn [base_sample].
  - destruct (from <? ds_at p) eqn:E; zbool.
    + left. split; [done|]. intros q Hq. apply list_elem_of_singleton in Hq as ->. done.
    + right. exists [], p, []. split_and!; try done. intros q Hq. by apply elem_of_nil in Hq.
  - rewrite fmap_cons, fmap_app in Hs. inversion_clear Hs as [|?? Hs' Hall].
    destruct (from <? ds_at p) eqn:E; zbool.
    + left. split; [done|]. rewrite Forall_forall in Hall. intros q Hq.
      apply elem_of_cons in Hq as [->|Hq]; [done|].
      assert (ds_at p <= ds_at q); [|lia]. apply Hall. rewrite <- fmap_app. by apply list_elem_of_fmap_2.
    + right. apply StronglySorted_app_1_r in Hs'. destruct (IH p Hs') as [[-> Hgt]|(pre & k & post & -> & Hk & Hle & Hq)].
      * exists [], p, (mid ++ ps). split_and!; try done. intros q Hq Hle.
        apply elem_of_app in Hq as [Hq|Hq]; [|specialize (Hgt q Hq); lia].
        rewrite Forall_forall in Hm. auto.
      * exists (p :: mid ++ pre), k, post. split_and!; try done. cbn. by rewrite <- app_assoc.
Qed.

(** C37. The drops of a window: over any history of statistics with a clock
    that does not go back, [Within] is known exactly when some statistics have
    arrived, and then is the number of packets dropped - restarts of vq-core
    included, modulo 2^64 - after one of the notes: one that is not inside the
    window, or the first; every later note outside the window came less than
    the five second spacing after it. *)
Theorem Within_counts_window keep window notes now :
  in_order notes now -> window <= keep ->
  let '(n, ok) := Within now window (run_notes keep notes) in
  ok = negb (bool_decide (notes = [])) /\ 0 <= n < 2 ^ 64 /\
  (notes = [] -> n = 0) /\
  (notes <> [] -> exists before t s after, notes = before ++ (t, s) :: after /\
     n = wrapu64 (dropped (drops s) (drops <$> after.*2)) /\
     (before = [] \/ t <= now - window) /\
     forall t' s', (t', s') ∈ after -> t' <= now - window -> t' < t + dropSpacing).
Proof.
  intros Ho Hw. destruct (decide (notes = [])) as [->|Hne].
  { cbn. split_and!; try done. }
  rewrite bool_decide_false by done.
  pose proof (run_notes_tracks keep notes now Ho Hne) as (old & rest & Hps & Ht & Hold).
  pose proof (thinned_ends _ _ Ht) as (Hh & Hl & Hss).
  unfold Within. destruct (samples (run_notes keep notes)) as [|first ss] eqn:Es; [done|].
  destruct (last (first :: ss)) as [lst|] eqn:El; [|by apply last_None in El].
  assert (Hsort : StronglySorted Z.le (ds_at <$> rest)).
  { destruct (points_notes None notes) as [Hat _]. unfold in_order in Ho.
    rewrite <- Hat, Hps, fmap_app in Ho. apply StronglySorted_app_1_l in Ho. by apply StronglySorted_app_1_r in Ho. }
  assert (exists pre k post, rest = pre ++ k :: post /\ base_sample (now - window) first (first :: ss) = k /\
    ((old = [] /\ pre = []) \/ ds_at k <= now - window) /\
    forall q, q ∈ post -> ds_at q <= now - window -> ds_at q < ds_at k + dropSpacing)
    as (pre & k & post & -> & -> & Hk & Hpost).
  { destruct (base_sample_spec (now - window) first _ _ Ht Hsort) as [[-> Hgt]|(pre & k & post & -> & -> & Hle & Hp)].
    - destruct rest as [|r rest]; [done|]. injection Hh as <-. exists [], first, rest. split_and!; try done.
      + destruct Hold as [->|(? & ? & [= <- <-] & ?)]; [by left|right; lia].
      + intros q Hq Hle. specialize (Hgt q). rewrite elem_of_cons in Hgt. specialize (Hgt (or_intror Hq)). lia.
    - exists pre, k, post. split_and!; try done. by right. }
  rewrite app_assoc in Hps. apply points_split in Hps as (n1 & t & s & n2 & -> & Hlen & Hat & Hraw & ->).
  split_and!; try done; try apply wrapu64_range. intros _. exists n1, t, s, n2. split; [done|]. split.
  - rewrite <- Hraw. rewrite last_app, last_cons in Hl.
    destruct (last (points (Some k) n2)) as [q|] eqn:Eq; injection Hl as ->.
    + by apply points_total in Eq.
    + apply last_None in Eq. destruct n2 as [|[??]]; [|done]. cbn. by rewrite Z.sub_diag.
  - split.
    + rewrite <- Hat. destruct Hk as [[-> ->]|Hk]; [|by right]. left. by destruct n1.
    + intros t' s' Hin Hle. rewrite <- Hat.
      assert (Hq : t' ∈ ds_at <$> points (Some k) n2).
      { destruct (points_notes (Some k) n2) as [-> _]. by apply (list_elem_of_fmap_2' fst _ (t', s')). }
      apply list_elem_of_fmap in Hq as (q & -> & Hq). auto.
Qed.

(** ** An example: a restart inside the window *)

Definition sample_stats (d : Z) : InstanceStatistics :=
  MkInstanceStatistics "" "" "" "" 0 0 0 0 0 0
    [MkCaptureStats "eth0" 0 0 0 0 "" "" d 0 0] 0 0 0 0 0 0 0 0 fzero fzero fzero fzero fzero.

Definition sample_notes : list (Z * InstanceStatistics) :=
  [(0, sample_stats 10); (10000000000, sample_stats 30); (12000000000, sample_stats 35);
   (20000000000, sample_stats 4)].

Lemma Within_counts_window_witness :
  Within 21000000000 10000000000 (run_notes 60000000000 sample_notes) = (9, true) /\
  let '(n, ok) := Within 21000000000 10000000000 (run_notes 60000000000 sample_notes) in
  ok = negb (bool_decide (sample_notes = [])) /\ 0 <= n < 2 ^ 64.
Proof.
  split; [vm_compute; reflexivity|].
  assert (Ho : in_order sample_notes 21000000000).
  { unfold in_order. cbn. repeat constructor; lia. }
  pose proof (Within_counts_window 60000000000 10000000000 sample_notes 21000000000 Ho ltac:(lia)) as H.
  destruct (Within _ _ _). destruct H as (H1 & H2 & _). split; assumption.
Defined.
