(* ===== verification/Wav.v ===== *)
(** The audio export ([internal/api/wav.go]): stored WAV chunks concatenated
    into one canonical PCM file, and the theorem that a call recorded in
    canonical chunks is exported as the canonical file of its whole audio.

    Bytes are the characters of a string. *)

From S2P Require Import Prelude GoStrings.

Definition wavHeaderSize : nat := 44.

(** [binary.LittleEndian.Uint16] and [Uint32] at an offset. *)
Fixpoint le_value (s : string) : Z :=
  match s with EmptyString => 0 | String c s => code c + 256 * le_value s end.
Definition uint_at (i n : nat) (w : string) : Z := le_value (str_take n (str_drop i w)).

(** [AppendUint16] and [AppendUint32]. *)
Fixpoint le_bytes (n : nat) (v : Z) : string :=
  match n with O => "" | S n => String (chr (v `mod` 256)) (le_bytes n (v / 256)) end.
Definition appendU16 (b : string) (v : Z) : string := b +:+ le_bytes 2 v.
Definition appendU32 (b : string) (v : Z) : string := b +:+ le_bytes 4 v.

(** What the loop accumulates: the format of the first valid chunk, once its
    rate is known, and the samples. *)
Record wav_state := MkWavState { rate : Z; channels : Z; bits : Z; pcm : string }.

Definition add_chunk (st : wav_state) (w : string) : wav_state :=
  if (String.length w <=? wavHeaderSize)%nat || negb (String.eqb (str_take 4 w) "RIFF") then st
  else
    let st :=
      if rate st =? 0 then
        let ch := uint_at 22 2 w in
        let bp := uint_at 34 2 w in
        MkWavState (uint_at 24 4 w) (if ch =? 0 then 1 else ch) (if bp =? 0 then 16 else bp) (pcm st)
      else st in
    MkWavState (rate st) (channels st) (bits st) (pcm st +:+ str_drop wavHeaderSize w).

(** The output: a header for the format, and the samples. *)
Definition wav_file (rate channels bits : Z) (pcm : string) : string :=
  let blockAlign := wrapu16 (channels * bits) / 8 in
  let byteRate := wrapu32 (rate * blockAlign) in
  let dataBytes := wrapu32 (Z.of_nat (String.length pcm)) in
  let out := "RIFF" in
  let out := appendU32 out (wrapu32 (36 + dataBytes)) in
  let out := out +:+ "WAVE" in
  let out := out +:+ "fmt " in
  let out := appendU32 out 16 in
  let out := appendU16 out 1 in
  let out := appendU16 out channels in
  let out := appendU32 out rate in
  let out := appendU32 out byteRate in
  let out := appendU16 out blockAlign in
  let out := appendU16 out bits in
  let out := out +:+ "data" in
  let out := appendU32 out dataBytes in
  out +:+ pcm.

Definition ConcatWav (chunks : list string) : string :=
  let st := fold_left add_chunk chunks (MkWavState 0 1 16 "") in
  if String.eqb (pcm st) "" || (rate st =? 0) then ""
  else wav_file (rate st) (channels st) (bits st) (pcm st).

(** * Little-endian words *)

Lemma le_bytes_length n v : String.length (le_bytes n v) = n.
Proof. revert v. induction n as [|n IH]; intros v; cbn; [done|]. by rewrite IH. Qed.

Lemma le_value_bytes n v : 0 <= v < 256 ^ Z.of_nat n -> le_value (le_bytes n v) = v.
Proof.
  revert v. induction n as [|n IH]; intros v Hv; cbn; [lia|].
  rewrite code_chr by (apply Z.mod_pos_bound; lia).
  rewrite IH.
  - pose proof (Z.div_mod v 256). lia.
  - split; [apply Z.div_pos; lia|]. apply Z.div_lt_upper_bound; [lia|].
    rewrite Nat2Z.inj_succ, Z.pow_succ_r in Hv by lia. lia.
Qed.

(** A word inside a file. *)
Lemma uint_at_app pre n v post :
  0 <= v < 256 ^ Z.of_nat n -> uint_at (String.length pre) n (pre +:+ le_bytes n v +:+ post) = v.
Proof.
  intros Hv. unfold uint_at. rewrite str_drop_app.
  rewrite <- (le_bytes_length n v) at 1. rewrite str_take_app. by apply le_value_bytes.
Qed.

(** The header of a file, and its words. *)
Definition wav_header (rate channels bits dataBytes : Z) : string :=
  let blockAlign := wrapu16 (channels * bits) / 8 in
  "RIFF" +:+ le_bytes 4 (wrapu32 (36 + dataBytes)) +:+ "WAVEfmt " +:+ le_bytes 4 16 +:+ le_bytes 2 1 +:+
  le_bytes 2 channels +:+ le_bytes 4 rate +:+ le_bytes 4 (wrapu32 (rate * blockAlign)) +:+
  le_bytes 2 blockAlign +:+ le_bytes 2 bits +:+ "data" +:+ le_bytes 4 dataBytes.

Lemma wav_file_header rate channels bits pcm :
  wav_file rate channels bits pcm =
  wav_header rate channels bits (wrapu32 (Z.of_nat (String.length pcm))) +:+ pcm.
Proof.
  unfold wav_file, wav_header, appendU32, appendU16. cbn zeta. rewrite !str_app_assoc. done.
Qed.

Lemma wav_header_length rate channels bits n : String.length (wav_header rate channels bits n) = wavHeaderSize.
Proof. unfold wav_header. cbn zeta. rewrite !str_app_length, !le_bytes_length. done. Qed.

(** The format words and the sizes, read back from a file. *)
Definition u16 (z : Z) : Prop := 0 <= z < 2 ^ 16.
Definition u32 (z : Z) : Prop := 0 <= z < 2 ^ 32.

Lemma wav_header_fields r ch b n s :
  u32 r -> u16 ch -> u16 b -> u32 n ->
  let w := wav_header r ch b n +:+ s in
  uint_at 22 2 w = ch /\ uint_at 24 4 w = r /\ uint_at 34 2 w = b /\ uint_at 40 4 w = n /\
  uint_at 4 4 w = wrapu32 (36 + n) /\ str_take 4 w = "RIFF" /\ str_drop wavHeaderSize w = s.
Proof.
  unfold u16, u32. intros Hr Hch Hb Hn. cbn zeta.
  assert (Hw : 0 <= wrapu32 (36 + n) < 2 ^ 32) by (apply Z.mod_pos_bound; lia).
  split_and!; try reflexivity;
    try (match goal with |- uint_at _ ?k _ = ?v => change (le_value (le_bytes k v) = v) end;
         apply le_value_bytes; lia).
Qed.

(** A canonical chunk: with its format it adds exactly its samples, and the
    first one that has samples sets the format. *)
Lemma add_chunk_canonical st r ch b p :
  u32 r -> u16 ch -> u16 b -> r <> 0 -> ch <> 0 -> b <> 0 -> p <> "" ->
  st = MkWavState r ch b (pcm st) \/ rate st = 0 ->
  add_chunk st (wav_file r ch b p) = MkWavState r ch b (pcm st +:+ p).
Proof.
  intros Hr Hch Hb Hr0 Hch0 Hb0 Hp Hst. rewrite wav_file_header.
  set (n := wrapu32 _).
  assert (Hn : u32 n) by (apply Z.mod_pos_bound; lia).
  destruct (wav_header_fields r ch b n p Hr Hch Hb Hn) as (E1 & E2 & E3 & _ & _ & E4 & E5).
  unfold add_chunk. rewrite E1, E2, E3, E4, E5, str_app_length, wav_header_length.
  destruct (Nat.leb_spec (wavHeaderSize + String.length p) wavHeaderSize) as [Hlen|_].
  { destruct p; [done|]. cbn [String.length] in Hlen. lia. }
  cbn [negb orb String.eqb Ascii.eqb Bool.eqb].
  destruct (Z.eqb_spec ch 0), (Z.eqb_spec b 0); try done.
  destruct (Z.eqb_spec (rate st) 0) as [_|Hne]; [done|]. destruct Hst as [->|]; done.
Qed.

Lemma add_chunk_empty st r ch b : add_chunk st (wav_file r ch b "") = st.
Proof.
  unfold add_chunk. rewrite wav_file_header, str_app_length, wav_header_length. done.
Qed.

Lemma add_chunks_canonical st r ch b ps :
  u32 r -> u16 ch -> u16 b -> r <> 0 -> ch <> 0 -> b <> 0 ->
  st = MkWavState r ch b (pcm st) \/ rate st = 0 ->
  let st' := fold_left add_chunk (wav_file r ch b <$> ps) st in
  pcm st' = pcm st +:+ join "" ps /\
  (join "" ps = "" -> st' = st) /\
  (join "" ps <> "" -> st' = MkWavState r ch b (pcm st')).
Proof.
  intros Hr Hch Hb Hr0 Hch0 Hb0. revert st. induction ps as [|p ps IH]; intros st Hst; cbn zeta.
  { cbn. rewrite str_app_nil_r. done. }
  rewrite fmap_cons, join_empty_cons. cbn [fold_left].
  destruct (decide (p = "")) as [->|Hp].
  { rewrite add_chunk_empty. by apply IH. }
  rewrite add_chunk_canonical by done.
  destruct (IH (MkWavState r ch b (pcm st +:+ p))) as (H1 & H2 & H3); [by left|]. cbn zeta in *.
  rewrite H1. cbn [pcm]. rewrite str_app_assoc. split; [done|]. split; [by destruct p|]. intros _.
  destruct (decide (join "" ps = "")) as [E|E].
  - rewrite (H2 E). by rewrite E, str_app_nil_r.
  - rewrite (H3 E) at 1. by rewrite H1, <- str_app_assoc.
Qed.

(** C40. A call recorded in canonical chunks of one format is exported as the
    canonical file of the concatenated samples, empty when there are none; and
    a player reads from that file the format of the chunks, the sizes of the
    data and of the file (modulo 2^32) and the samples. *)
Theorem ConcatWav_canonical r ch b ps :
  u32 r -> u16 ch -> u16 b -> r <> 0 -> ch <> 0 -> b <> 0 ->
  let all := join "" ps in
  let w := ConcatWav (wav_file r ch b <$> ps) in
  w = (if String.eqb all "" then "" else wav_file r ch b all) /\
  (all <> "" ->
     uint_at 24 4 w = r /\ uint_at 22 2 w = ch /\ uint_at 34 2 w = b /\
     uint_at 40 4 w = wrapu32 (Z.of_nat (String.length all)) /\
     uint_at 4 4 w = wrapu32 (36 + Z.of_nat (String.length all)) /\
     String.length w = (44 + String.length all)%nat /\ str_drop 44 w = all).
Proof.
  intros Hr Hch Hb Hr0 Hch0 Hb0 all w.
  assert (Hw : w = (if String.eqb all "" then "" else wav_file r ch b all)).
  { unfold w, ConcatWav.
    destruct (add_chunks_canonical (MkWavState 0 1 16 "") r ch b ps) as (H1 & _ & H3); try done; [by right|].
    cbn zeta in *. fold all in H1, H3. cbn [pcm] in H1. change ("" +:+ all) with all in H1.
    rewrite H1. destruct (String.eqb_spec all "") as [|Hne]; [done|]. rewrite (H3 Hne). cbn [rate channels bits].
    destruct (Z.eqb_spec r 0); [done|]. done. }
  split; [done|]. intros Hne%String.eqb_neq. rewrite Hne in Hw. rewrite Hw, wav_file_header.
  assert (Hn : u32 (wrapu32 (Z.of_nat (String.length all)))) by (apply Z.mod_pos_bound; lia).
  destruct (wav_header_fields r ch b _ all Hr Hch Hb Hn) as (E1 & E2 & E3 & E4 & E5 & _ & E6).
  rewrite E1, E2, E3, E4, E5, str_app_length, wav_header_length. split_and!; try done.
  unfold wrapu32. rewrite Z.add_mod_idemp_r by lia. done.
Qed.

Lemma ConcatWav_canonical_witness :
  ConcatWav (wav_file 8000 1 16 <$> ["ab"; ""; "cdef"]) = wav_file 8000 1 16 "abcdef" /\
  uint_at 40 4 (ConcatWav (wav_file 8000 1 16 <$> ["ab"; ""; "cdef"])) = 6.
Proof.
  destruct (ConcatWav_canonical 8000 1 16 ["ab"; ""; "cdef"]) as [H1 H2];
    try (unfold u32, u16; lia); try lia.
  split; [exact H1|]. apply H2. vm_compute. discriminate.
Defined.
