(* ===== verification/Rows.v ===== *)
(** Rows of the read API ([internal/api/values.go]): maps of dynamic values, as
    the queries and the registry produce them, and their coercions. *)

From S2P Require Import Prelude GoFloat GoStrings GoTime Values.

(** Rounding a float to an integer, ties to even ([math.RoundToEven]); the
    sign of a zero is kept. *)
Definition round_to_even (f : float64) : float64 :=
  match f with
  | S754_finite s m e =>
      let n := round_div_even (f_num m e) (f_den e) in
      if n =? 0 then S754_zero s else f64_of_Z (if s then - n else n)
  | _ => f
  end.

Definition getStr (row : vmap) (key : string) : string :=
  match row !! key with
  | None | Some ANil => ""
  | Some (AString s) => s
  | Some v => fmt_v v
  end.

Definition toI64 (v : any) : Z :=
  match v with
  | ANil => 0
  | AInt64 z | AInt z | AInt32 z | AUint32 z => z
  | AUint64 z => wrap64 z
  | AFloat f => int64_of_f64 f
  | ABool b => if b then 1 else 0
  | AString s =>
      match atoi (trim_space s) with
      | Some n => n
      | None => match parse_float (trim_space s) with Some f => int64_of_f64 f | None => 0 end
      end
  | AStrings _ => 0
  end.

Definition getI64 (row : vmap) (key : string) : Z := toI64 (vget row key).

Definition toF64 (v : any) : float64 :=
  match v with
  | AFloat f => f
  | AInt64 z | AInt z | AUint32 z | AUint64 z => f64_of_Z z
  | AString s => default fzero (parse_float (trim_space s))
  | _ => fzero
  end.

Definition getF64 (row : vmap) (key : string) : float64 := toF64 (vget row key).

Definition getBool (row : vmap) (key : string) : bool :=
  match vget row key with
  | ABool b => b
  | AInt64 z | AInt z => negb (z =? 0)
  | AFloat f => negb (feq f fzero)
  | AString s => negb (String.eqb s "")
  | _ => false
  end.

Definition thousand : float64 := f64_of_Z 1000.

Definition round3 (v : float64) : float64 := fdiv (round_to_even (fmul v thousand)) thousand.

Definition hexOf (v : any) : string := format_int 16 (toI64 v).

Definition portString (port : any) : string :=
  match port with
  | ANil => "0"
  | AString s => s
  | _ => itoa (toI64 port)
  end.

Definition endpoint (ip : string) (port : any) : string := ip +:+ ":" +:+ portString port.

(** The local time zone: its offset from UTC, in milliseconds, at an
    instant. *)
Class LocalZone := { utc_offset_ms : Z -> Z }.

Definition startTimeLabel `{LocalZone} (ms : Z) : string := format_ms (ms + utc_offset_ms ms).

(** Examples of the coercions. *)
Example round3_half : round3 (f_decimal false 25 (-4)) = f_decimal false 2 (-3).
Proof. vm_compute. reflexivity. Qed.
Example round3_up : round3 (f_decimal false 41235 (-4)) = f_decimal false 4124 (-3).
Proof. vm_compute. reflexivity. Qed.
Example hexOf_ssrc : hexOf (AString "3735928559") = "deadbeef".
Proof. vm_compute. reflexivity. Qed.
Example toI64_float_text : toI64 (AString " 12.9 ") = 12.
Proof. vm_compute. reflexivity. Qed.
