(* ===== verification/Serialize.v ===== *)
(** The JSON objects of the read API ([internal/api/serialize.go]).

    A Go map under construction is an association list with unique keys;
    encoding sorts them, as [encoding/json] does.  A panic of the report
    parser is [None]: the thresholds the parser was configured with are an
    argument. *)

From S2P Require Import Prelude GoFloat GoStrings GoTime Values StableSort Model Json Rows.
From S2P Require Pvqa.

(** * Objects *)

Abbreviation object := (list (string * json)).

(** [m[k] = v] *)
Fixpoint jput (k : string) (v : json) (o : object) : object :=
  match o with
  | [] => [(k, v)]
  | (k', v') :: o => if String.eqb k k' then (k, v) :: o else (k', v') :: jput k v o
  end.

Definition jputs (fields o : object) : object := fold_left (fun o kv => jput kv.1 kv.2 o) fields o.

Definition jobject (o : object) : json := JObject (stable_sort (fun a b => str_lt a.1 b.1) o).

(** * Labels *)

Definition SipEventTypeLabel (t : Z) : string :=
  if t =? 1 then "start" else if t =? 2 then "end" else if t =? 3 then "reinvite"
  else if t =? 4 then "failed" else "unknown".

Definition SipDirectionLabel (d : Z) : string :=
  if d =? 1 then "caller_to_callee" else if d =? 2 then "callee_to_caller" else "unknown".

Definition SipReasonLabel (r : Z) : string :=
  if r =? 1 then "rejected" else if r =? 2 then "canceled" else if r =? 3 then "timeout" else "unknown".

Definition AgentEnvelope (agentID agentName : string) : object :=
  [("instance", jobject [("id", JString agentID); ("name", JString agentName)])].

(** * Streams *)

Section streams.
Context `{LocalZone} (thresholds : Pvqa.Thresholds).

Definition DefaultSilenceRatioThreshold : float64 := f_decimal false 8 (-1).

Definition detectorReports (row : vmap) : list string :=
  match row !! "detector_reports" with
  | Some (AStrings reports) => reports
  | _ => let text := getStr row "detector_report" in if String.eqb text "" then [] else [text]
  end.

Definition SilenceFields (row : vmap) (threshold : float64) : option object :=
  let sid := getI64 row "dtx_sid" in
  let count := getI64 row "dtx_count" in
  let total := getI64 row "dtx_total" in
  let ratio := if 0 <? total then fdiv (f64_of_Z (wrap64 (sid + count))) (f64_of_Z total) else fzero in
  let dtxSilent := (0 <? total) && fge ratio threshold in
  '(silentAudio, audioRatio) ← Pvqa.SilentStream thresholds (detectorReports row);
  let source := if dtxSilent && silentAudio then "dtx+audio" else if dtxSilent then "dtx"
                else if (silentAudio : bool) then "audio" else "" in
  Some [("dtx_sid", JInt sid); ("dtx_count", JInt count); ("dtx_total", JInt total);
        ("silence_ratio", JFloat (round3 ratio)); ("silent_audio_ratio", JFloat (round3 audioRatio));
        ("silence_suspected", JBool (dtxSilent || silentAudio)); ("silence_source", JString source)].

Definition detectorsJSON (d : Pvqa.Decomposition) : json :=
  JArray ((fun dc => jobject [("name", JString (Pvqa.Name dc)); ("counter", JInt (Pvqa.Count dc))]) <$>
          List.filter (fun dc => negb (String.eqb (Pvqa.Name dc) "")) (Pvqa.Detectors d)).

Definition seconds (ms : Z) : json := JFloat (fdiv (f64_of_Z ms) thousand).

Definition ReportRowToJSON (r : vmap) : option object :=
  let durationMs := wrap64 (getI64 r "end_timestamp" - getI64 r "start_timestamp") in
  let text := getStr r "detector_report" in
  decomp ← Pvqa.DecomposeWith [text] thresholds;
  Some [("source", JString (endpoint (getStr r "src_ip") (vget r "src_port")));
        ("destination", JString (endpoint (getStr r "dst_ip") (vget r "dst_port")));
        ("ssrc", JString (hexOf (vget r "ssrc")));
        ("stream_id", JString (getStr r "link_id"));
        ("codec", JString (getStr r "codec"));
        ("sevana_mos", JFloat (getF64 r "sevana_mos"));
        ("network_mos", JFloat (getF64 r "network_mos"));
        ("jitter", JFloat (round3 (getF64 r "jitter")));
        ("rtt_delay", JFloat (round3 (getF64 r "rtt_delay")));
        ("duration", seconds durationMs);
        ("rtp_packet_counter", JInt (getI64 r "rtp_packet_counter"));
        ("lost_packet_counter", JInt (getI64 r "lost_packet_counter"));
        ("illegal_packet_counter", JInt (getI64 r "illegal_packet_counter"));
        ("sevana_rfactor", JInt (Pvqa.RfactorPercents decomp));
        ("detectors", detectorsJSON decomp);
        ("detectors_report", JString text);
        ("sip_src", JString (getStr r "sip_source"));
        ("sip_dst", JString (getStr r "sip_destination"));
        ("sip_callid", JString (getStr r "sip_callid"));
        ("json_report", JString text)].

(** The chunks of a history: [prevEndMs] is the end of the chunk before. *)
Definition chunk (streamStartMs prevEndMs : Z) (r : vmap) : object :=
  [("link_id", JString (getStr r "link_id"));
   ("stream_end_time", JInt (getI64 r "end_timestamp"));
   ("start_time", seconds prevEndMs);
   ("end_time", seconds (wrap64 (getI64 r "end_timestamp" - streamStartMs)));
   ("sevana_mos", JFloat (getF64 r "sevana_mos"));
   ("network_mos", JFloat (getF64 r "network_mos"));
   ("jitter", JFloat (round3 (getF64 r "jitter")));
   ("sevana_rfactor", JFloat (getF64 r "sevana_rfactor"))].

Fixpoint history_chunks (streamStartMs prevEndMs : Z) (rows : list vmap) : list object :=
  match rows with
  | [] => []
  | r :: rows =>
      chunk streamStartMs prevEndMs r ::
      history_chunks streamStartMs (wrap64 (getI64 r "end_timestamp" - streamStartMs)) rows
  end.

(** The whole-stream fields, from the final row [s] or the last interval. *)
Definition history_summary (rows : list vmap) (s : vmap) (silenceThreshold : float64) : option object :=
  decomp ← Pvqa.DecomposeWith ((fun r => getStr r "detector_report") <$> rows) thresholds;
  let rfactor := if (0 <? length rows)%nat then Pvqa.RfactorPercents decomp else getI64 s "sevana_rfactor" in
  silence ← SilenceFields s silenceThreshold;
  Some ([("sevana_mos", JFloat (getF64 s "sevana_mos"));
         ("network_mos", JFloat (getF64 s "network_mos"));
         ("jitter", JFloat (round3 (getF64 s "jitter")));
         ("rtt_delay", JFloat (round3 (getF64 s "rtt_delay")));
         ("codec", JString (getStr s "codec"));
         ("rtp_packet_counter", JInt (getI64 s "rtp_packet_counter"));
         ("lost_packet_counter", JInt (getI64 s "lost_packet_counter"));
         ("source", JString (endpoint (getStr s "src_ip") (vget s "src_port")));
         ("destination", JString (endpoint (getStr s "dst_ip") (vget s "dst_port")));
         ("ssrc", JString (hexOf (vget s "ssrc")));
         ("sip_src", JString (getStr s "sip_source"));
         ("sip_dst", JString (getStr s "sip_destination"));
         ("sip_callid", JString (getStr s "sip_callid"));
         ("sevana_rfactor", JInt rfactor);
         ("detectors", detectorsJSON decomp);
         ("json_report", JString (getStr s "detector_report"))] ++ silence).

Definition StreamHistoryToJSON (rows : list vmap) (agentID agentName : string) (final : option vmap)
    (silenceThreshold : float64) : option object :=
  let streamStartMs := match rows with r :: _ => getI64 r "start_timestamp" | [] => 0 end in
  let result := jput "chunks" (JArray (jobject <$> history_chunks streamStartMs 0 rows))
                  (AgentEnvelope agentID agentName) in
  match final, last rows with
  | None, None => Some (jput "json_report" (JString "") result)
  | Some s, _ | None, Some s =>
      summary ← history_summary rows s silenceThreshold; Some (jputs summary result)
  end.

(** The fields a finished and an active stream share; the columns they are
    read from differ. *)
Definition stream_fields (r : vmap) (startMs durationMs : Z) (sip_src sip_dst : string) : object :=
  [("stream_id", JString (getStr r "link_id"));
   ("ref_id", JString (getStr r "link_id"));
   ("instance", jobject [("id", JString (getStr r "instance_id")); ("name", JString (getStr r "instance_name"))]);
   ("start_time", JString (startTimeLabel startMs));
   ("duration", seconds durationMs);
   ("duration_audio", JInt (getI64 r "duration_audio"));
   ("sevana_mos", JFloat (getF64 r "sevana_mos"));
   ("network_mos", JFloat (getF64 r "network_mos"));
   ("jitter", JFloat (round3 (getF64 r "jitter")));
   ("sevana_rfactor", JInt (getI64 r "sevana_rfactor"));
   ("source", JString (endpoint (getStr r "src_ip") (vget r "src_port")));
   ("destination", JString (endpoint (getStr r "dst_ip") (vget r "dst_port")));
   ("sip_src", JString sip_src);
   ("sip_dst", JString sip_dst);
   ("sip_callid", JString (getStr r "sip_callid"))].

Definition FinishedStreamRowToJSON (r : vmap) (silenceThreshold : float64) : option object :=
  out ← SilenceFields r silenceThreshold;
  Some (jputs (stream_fields r (getI64 r "start_timestamp")
    (wrap64 (getI64 r "end_timestamp" - getI64 r "start_timestamp"))
    (getStr r "sip_source") (getStr r "sip_destination")) out).

Definition ActiveRecordToJSON (r : vmap) (silenceThreshold : float64) : option object :=
  out ← SilenceFields r silenceThreshold;
  Some (jputs (stream_fields r (getI64 r "start_ms") (getI64 r "duration")
    (getStr r "sip_src") (getStr r "sip_dst")) out).
End streams.

(** * SIP calls and events *)

Definition SipCallSummaryToJSON (s : vmap) : object :=
  let established := getBool s "established" in
  let failed := getBool s "failed" in
  let outcome := if failed then "failed" else if established then "established" else "unknown" in
  [("call_id", JString (getStr s "call_id"));
   ("caller", JString (getStr s "caller"));
   ("callee", JString (getStr s "callee"));
   ("start_timestamp", JInt (getI64 s "start_timestamp"));
   ("end_timestamp", JInt (getI64 s "end_timestamp"));
   ("duration", JInt (getI64 s "duration"));
   ("reinvite_count", JInt (getI64 s "reinvite_count"));
   ("outcome", JString outcome)] ++
  (if established then [("setup_code", JInt (getI64 s "setup_code"))] else []) ++
  (if failed then
     [("response_code", JInt (getI64 s "response_code"));
      ("reason", JInt (getI64 s "reason"));
      ("reason_label", JString (SipReasonLabel (getI64 s "reason")))]
   else []).

Definition SipEventRowToJSON (r : vmap) : object :=
  let t := getI64 r "event_type" in
  [("id", JInt (getI64 r "id"));
   ("event_type", JInt t);
   ("event_type_label", JString (SipEventTypeLabel t));
   ("call_id", JString (getStr r "call_id"));
   ("timestamp", JInt (getI64 r "event_timestamp"))] ++
  (if t =? 1 then
     [("invite_timestamp", JInt (getI64 r "invite_timestamp"));
      ("setup_code", JInt (getI64 r "setup_code"));
      ("caller", JString (getStr r "caller"));
      ("callee", JString (getStr r "callee"));
      ("caller_ua", JString (getStr r "caller_ua"));
      ("callee_ua", JString (getStr r "callee_ua"));
      ("caller_codecs", JString (getStr r "caller_codecs"));
      ("callee_codecs", JString (getStr r "callee_codecs"))]
   else if t =? 2 then
     [("duration", JInt (getI64 r "duration"));
      ("bye_direction", JInt (getI64 r "bye_direction"));
      ("bye_direction_label", JString (SipDirectionLabel (getI64 r "bye_direction")));
      ("response_codes", JString (getStr r "response_codes"))]
   else if t =? 3 then
     [("direction", JInt (getI64 r "direction"));
      ("direction_label", JString (SipDirectionLabel (getI64 r "direction")));
      ("is_request", JBool (getBool r "is_request"));
      ("peer", JString (getStr r "caller"));
      ("peer_ua", JString (getStr r "caller_ua"));
      ("peer_codecs", JString (getStr r "caller_codecs"))]
   else if t =? 4 then
     [("invite_timestamp", JInt (getI64 r "invite_timestamp"));
      ("reason", JInt (getI64 r "reason"));
      ("reason_label", JString (SipReasonLabel (getI64 r "reason")));
      ("response_code", JInt (getI64 r "response_code"));
      ("reason_phrase", JString (getStr r "reason_phrase"));
      ("caller", JString (getStr r "caller"));
      ("callee", JString (getStr r "callee"))]
   else []).

(** * Summary *)

Definition WidgetStatsToJSON (s : vmap) : object :=
  [("stream_count", JInt (getI64 s "stream_count"));
   ("good_sevana_count", JInt (getI64 s "good_sevana_count"));
   ("good_network_count", JInt (getI64 s "good_network_count"));
   ("with_sevana_mos", JInt (getI64 s "with_sevana_mos"));
   ("avg", jobject
      [("sevana_mos", JFloat (getF64 s "sevana_mos"));
       ("network_mos", JFloat (getF64 s "network_mos"));
       ("rfactor", JFloat (getF64 s "rfactor"));
       ("duration", JFloat (getF64 s "duration"))])].

Definition capturerJSON (c : CaptureStats) : json :=
  jobject
    [("device", JString (Device c));
     ("src_port_range", JString (SrcPortRange c));
     ("dst_port_range", JString (DstPortRange c));
     ("packets_total", JInt (TotalPacketCounter c));
     ("packets_rtp", JInt (cap_RTPPacketCounter c));
     ("packets_sip", JInt (SipPacketCounter c));
     ("packets_truncated", JInt (TruncatedPacketCounter c));
     ("packets_dropped_hw", JInt (DroppedHwPacketCounter c));
     ("packets_erroneous", JInt (ErroneousPacketCounter c));
     ("mbuf_alloc_failed", JInt (MbufAllocFailedCounter c))].

Definition CoreStatsToJSON (s : InstanceStatistics) : object :=
  [("instance", jobject [("id", JString (is_ID s)); ("name", JString (is_Name s))]);
   ("capturers", JArray (capturerJSON <$> Capturers s));
   ("server_time", JString (ServerTime s));
   ("version", JString (Version s));
   ("uptime", JInt (UptimeSeconds s));
   ("pvqa_instance_counter", JInt (PvqaInstanceCounter s));
   ("pvqa_processed_seconds", JInt (PvqaProcessedSeconds s));
   ("active_decoder_counter", JInt (ActiveDecoderCounter s));
   ("active_audio_decoder_counter", JInt (ActiveAudioDecoderCounter s));
   ("total_decoder_counter", JInt (TotalDecoderCounter s));
   ("sip_call_counter", JInt (SipCallCounter s));
   ("resip_message_counter", JInt (ResipMessageCounter s));
   ("resip_sip_message_counter", JInt (ResipSipMessageCounter s));
   ("mem_allocated_bytes", JInt (MemAllocatedBytes s));
   ("mem_heap_size", JInt (MemHeapSize s));
   ("mem_pageheap_free_bytes", JInt (MemPageheapFreeBytes s));
   ("mem_alloc_count", JInt (MemAllocCount s));
   ("mem_free_count", JInt (MemFreeCount s));
   ("mem_allocs_per_sec", JFloat (MemAllocsPerSec s));
   ("mem_frees_per_sec", JFloat (MemFreesPerSec s));
   ("cpu_user_seconds", JFloat (CpuUserSeconds s));
   ("cpu_system_seconds", JFloat (CpuSystemSeconds s));
   ("cpu_usage_percent", JFloat (CpuUsagePercent s))].

(** * The chunks of a history *)

(** A field of an object. *)
Definition field (k : string) (o : object) : json := default JNull (mlookup k o).

(** Consecutive intervals: each starts where the one before ended. *)
Fixpoint consecutive (rows : list vmap) : Prop :=
  match rows with
  | r :: (r' :: _) as tail => getI64 r' "start_timestamp" = getI64 r "end_timestamp" /\ consecutive tail
  | _ => True
  end.

Lemma chunk_extent base prev r :
  field "start_time" (chunk base prev r) = seconds prev /\
  field "end_time" (chunk base prev r) = seconds (wrap64 (getI64 r "end_timestamp" - base)).
Proof. done. Qed.

Lemma history_chunks_spec base prev rows :
  length (history_chunks base prev rows) = length rows /\
  forall i c, history_chunks base prev rows !! i = Some c ->
    exists r, rows !! i = Some r /\
      field "end_time" c = seconds (wrap64 (getI64 r "end_timestamp" - base)) /\
      field "start_time" c = seconds (match i with O => prev | S i => wrap64 (getI64 (default ∅ (rows !! i)) "end_timestamp" - base) end) /\
      field "stream_end_time" c = JInt (getI64 r "end_timestamp").
Proof.
  revert prev. induction rows as [|r rows IH]; intros prev; [done|]. cbn [history_chunks length].
  destruct (IH (wrap64 (getI64 r "end_timestamp" - base))) as [Hl Hi]. split; [by rewrite Hl|].
  intros [|i] c; cbn [lookup list_lookup].
  - intros [= <-]. by exists r.
  - intros Hc. destruct (Hi i c Hc) as (r' & Hr & He & Hs & Ht). exists r'. split_and!; [done|done| |done].
    rewrite Hs. by destruct i.
Qed.

(** The history of a stream shows its intervals as they were: one chunk
    per interval, in order, each ending at the interval's end and starting
    where the chunk before it ended - the first at zero - counted from the
    stream's start.  When the intervals follow one another without gaps, every
    chunk extends exactly over its own interval. *)
Theorem history_chunks_are_intervals base r rows (Hbase : getI64 r "start_timestamp" = base)
    (Hrange : Forall (fun r => in_int64 (getI64 r "end_timestamp" - base)) (r :: rows)) :
  let chunks := history_chunks base 0 (r :: rows) in
  length chunks = length (r :: rows) /\
  (forall i c, chunks !! i = Some c ->
     exists r', (r :: rows) !! i = Some r' /\ field "end_time" c = seconds (getI64 r' "end_timestamp" - base)) /\
  (forall i c c', chunks !! i = Some c -> chunks !! S i = Some c' -> field "start_time" c' = field "end_time" c) /\
  (consecutive (r :: rows) -> forall i c, chunks !! i = Some c ->
     exists r', (r :: rows) !! i = Some r' /\ field "start_time" c = seconds (getI64 r' "start_timestamp" - base)).
Proof.
  cbn zeta. destruct (history_chunks_spec base 0 (r :: rows)) as [Hl Hi].
  assert (forall i r', (r :: rows) !! i = Some r' ->
    wrap64 (getI64 r' "end_timestamp" - base) = getI64 r' "end_timestamp" - base) as Hw.
  { intros i r' Hr. apply wrap64_id. exact (proj1 (Forall_lookup _ _) Hrange i r' Hr). }
  split; [done|]. split; [|split].
  - intros i c Hc. destruct (Hi i c Hc) as (r' & Hr & He & _). exists r'. split; [done|]. by rewrite He, (Hw i).
  - intros i c c' Hc Hc'. destruct (Hi i c Hc) as (r1 & Hr1 & He & _). destruct (Hi (S i) c' Hc') as (r2 & Hr2 & _ & Hs & _).
    by rewrite Hs, He, Hr1.
  - intros Hcons i c Hc. destruct (Hi i c Hc) as (r' & Hr & _ & Hs & _). exists r'. split; [done|]. rewrite Hs.
    destruct i as [|i]; [injection Hr as <-; by rewrite Hbase, Z.sub_diag|].
    destruct (lookup_lt_is_Some_2 (r :: rows) i) as [r1 Hr1]; [apply lookup_lt_Some in Hr; lia|].
    rewrite Hr1. cbn [default]. rewrite (Hw i) by done. do 2 f_equal.
    clear -Hcons Hr Hr1. revert i Hr Hr1. generalize (r :: rows) as l, Hcons. clear.
    induction l as [|a l IH]; intros Hc i Hr Hr1; [done|]. destruct l as [|b l]; [by destruct i|].
    cbn [consecutive] in Hc. destruct Hc as [Hab Hc]. destruct i as [|i].
    + cbn in Hr, Hr1. by simplify_eq.
    + exact (IH Hc i Hr Hr1).
Qed.

(** Two intervals of a stream that starts at second 10. *)
Lemma history_chunks_are_intervals_witness :
  let interval a b : vmap := list_to_map [("start_timestamp", AInt64 a); ("end_timestamp", AInt64 b)] in
  let rows := [interval 10000 15000; interval 15000 19500] in
  consecutive rows /\
  map (fun c => (field "start_time" c, field "end_time" c)) (history_chunks 10000 0 rows) =
    [(JFloat fzero, JFloat (f64_of_Z 5)); (JFloat (f64_of_Z 5), JFloat (f_decimal false 95 (-1)))] /\
  length (history_chunks 10000 0 rows) = 2%nat.
Proof.
  intros interval rows. split; [by vm_compute|]. split; [by vm_compute|].
  refine (proj1 (history_chunks_are_intervals 10000 (interval 10000 15000) [interval 15000 19500] _ _)).
  - by vm_compute.
  - repeat constructor; by vm_compute.
Defined.
