(* ===== verification/Csv.v ===== *)
(** The CSV export ([internal/api/csv.go]) and Go's [encoding/csv] writer with
    CRLF line ends; the theorems that a CSV reader gets the table back, and
    that every detector count stands under its own header. *)

From S2P Require Import Prelude GoFloat GoStrings GoTime Values Rows.
From S2P Require Pvqa.

(** * encoding/csv *)

Definition special_byte (c : ascii) : bool :=
  (code c =? 10) || (code c =? 13) || (code c =? 34) || (code c =? 44).

(** [Writer.fieldNeedsQuotes]. *)
Definition fieldNeedsQuotes (field : string) : bool :=
  match field with
  | EmptyString => false
  | _ =>
      String.eqb field "\." || negb (str_forall (fun c => negb (special_byte c)) field) ||
      match strip_any space_encodings field with Some _ => true | None => false end
  end.

(** The bytes of a quoted field: quotes doubled, CR dropped, LF as CRLF. *)
Definition quoted_byte (c : ascii) : string :=
  if code c =? 34 then bytes [34; 34]
  else if code c =? 13 then ""
  else if code c =? 10 then bytes [13; 10]
  else String c "".

Fixpoint quoted_bytes (s : string) : string :=
  match s with EmptyString => "" | String c s => quoted_byte c +:+ quoted_bytes s end.

Definition write_field (field : string) : string :=
  if fieldNeedsQuotes field then bytes [34] +:+ quoted_bytes field +:+ bytes [34] else field.

Definition crlf : string := bytes [13; 10].

Definition write_record (record : list string) : string := join "," (write_field <$> record) +:+ crlf.

Definition write_all (records : list (list string)) : string := join "" (write_record <$> records).

(** * The export *)

Definition BasicHeaders : list string :=
  ["Source"; "Destination"; "SSRC"; "DB_ID"; "Time_Start"; "Length";
   "Sevana_MOS"; "Sevana_Rfactor"; "Network_MOS"; "Jitter";
   "Rtp_Received"; "Rtp_Lost"; "Call_ID"; "SIP_source"; "SIP_dest"].

Definition ExportLimit : Z := 1000000.

Definition fmtCSVTs (ms : Z) : string := format_ms ms.
Definition fmtNum (v : float64) (ndigits : Z) : string := format_fixed ndigits v.

Definition basicFromActive (rec : vmap) : list string :=
  [endpoint (getStr rec "src_ip") (vget rec "src_port");
   endpoint (getStr rec "dst_ip") (vget rec "dst_port");
   getStr rec "ssrc";
   getStr rec "link_id";
   fmtCSVTs (getI64 rec "start_ms");
   fmtNum (fdiv (f64_of_Z (getI64 rec "duration")) thousand) 3;
   fmtNum (getF64 rec "sevana_mos") 2;
   itoa (getI64 rec "sevana_rfactor");
   fmtNum (getF64 rec "network_mos") 2;
   fmtNum (getF64 rec "jitter") 2;
   itoa (getI64 rec "rtp_packet_counter");
   itoa (getI64 rec "lost_packet_counter");
   getStr rec "sip_callid";
   getStr rec "sip_src";
   getStr rec "sip_dst"].

Definition BasicFromFinished (row : vmap) : list string :=
  let durationS := fdiv (f64_of_Z (wrap64 (getI64 row "end_timestamp" - getI64 row "start_timestamp"))) thousand in
  [endpoint (getStr row "src_ip") (vget row "src_port");
   endpoint (getStr row "dst_ip") (vget row "dst_port");
   itoa (getI64 row "ssrc");
   getStr row "link_id";
   fmtCSVTs (getI64 row "start_timestamp");
   fmtNum durationS 3;
   fmtNum (getF64 row "sevana_mos") 2;
   itoa (getI64 row "sevana_rfactor");
   fmtNum (getF64 row "network_mos") 2;
   fmtNum (getF64 row "jitter") 2;
   itoa (getI64 row "rtp_packet_counter");
   itoa (getI64 row "lost_packet_counter");
   getStr row "sip_callid";
   getStr row "sip_source";
   getStr row "sip_destination"].

Record csvStream := MkCsvStream { basic : list string; csv_detectors : list Pvqa.DetectorCount }.

(** The detector columns: names in first-seen order and the index by name. *)
Definition add_name (st : list string * gmap string nat) (dc : Pvqa.DetectorCount) : list string * gmap string nat :=
  match st.2 !! Pvqa.Name dc with
  | Some _ => st
  | None => (st.1 ++ [Pvqa.Name dc], <[Pvqa.Name dc := length st.1]> st.2)
  end.

Definition detector_columns (streams : list csvStream) : list string * gmap string nat :=
  fold_left add_name (streams ≫= csv_detectors) ([], ∅).

(** The detector cells of a stream: each count at the column of its name. *)
Definition detector_cells (names : list string) (column : gmap string nat) (ds : list Pvqa.DetectorCount) : list string :=
  fold_left (fun det dc => <[default 0%nat (column !! Pvqa.Name dc) := itoa (Pvqa.Count dc)]> det) ds
    (replicate (length names) "").

Definition csv_table (streams : list csvStream) (detailed : bool) : list (list string) :=
  let '(names, column) := if detailed then detector_columns streams else ([], ∅) in
  (BasicHeaders ++ names) ::
  ((fun s => if detailed then basic s ++ detector_cells names column (csv_detectors s) else basic s) <$> streams).

Definition renderCSV (streams : list csvStream) (detailed : bool) : string :=
  write_all (csv_table streams detailed).

(** [ActiveCSV]; [None] is a panic of the report parser. *)
Definition ActiveCSV (thresholds : Pvqa.Thresholds) (records : list vmap) (detailed : bool) : option string :=
  out ← mapM (fun rec =>
    if detailed then
      let texts := match rec !! "detector_reports" with Some (AStrings l) => l | _ => [] end in
      d ← Pvqa.DecomposeWith texts thresholds;
      Some (MkCsvStream (basicFromActive rec) (Pvqa.Detectors d))
    else Some (MkCsvStream (basicFromActive rec) [])) records;
  Some (renderCSV out detailed).

(** * A reader

    RFC 4180: fields separated by commas, records ended by CRLF, a quoted
    field may hold anything with quotes doubled. *)

Inductive mode := FieldStart | InPlain | InQuotes | QuoteSeen | CRSeen.

Record reader := MkReader { rd_mode : mode; rd_field : string; rd_record : list string; rd_done : list (list string) }.

Definition end_field (r : reader) : list string := rd_record r ++ [rd_field r].

Definition read_byte (r : reader) (c : ascii) : option reader :=
  let z := code c in
  let push := rd_field r +:+ String c "" in
  match rd_mode r with
  | CRSeen => if z =? 10 then Some (MkReader FieldStart "" [] (rd_done r ++ [end_field r])) else None
  | InQuotes =>
      if z =? 34 then Some (MkReader QuoteSeen (rd_field r) (rd_record r) (rd_done r))
      else Some (MkReader InQuotes push (rd_record r) (rd_done r))
  | m =>
      if z =? 44 then Some (MkReader FieldStart "" (end_field r) (rd_done r))
      else if z =? 13 then Some (MkReader CRSeen (rd_field r) (rd_record r) (rd_done r))
      else if z =? 34 then
        match m with
        | FieldStart => Some (MkReader InQuotes "" (rd_record r) (rd_done r))
        | QuoteSeen => Some (MkReader InQuotes push (rd_record r) (rd_done r))
        | _ => None
        end
      else match m with
           | QuoteSeen => None
           | _ => Some (MkReader InPlain push (rd_record r) (rd_done r))
           end
  end.

Fixpoint read_bytes (r : reader) (s : string) : option reader :=
  match s with
  | EmptyString => Some r
  | String c s => r ← read_byte r c; read_bytes r s
  end.

Definition csv_read (s : string) : option (list (list string)) :=
  r ← read_bytes (MkReader FieldStart "" [] []) s;
  match rd_mode r, rd_record r with FieldStart, [] => Some (rd_done r) | _, _ => None end.

(** * The export reads back *)

(** A field as it reads back: without CR, with LF as CRLF; other text is
    unchanged. *)
Fixpoint csv_text (s : string) : string :=
  match s with
  | EmptyString => ""
  | String c s =>
      (if code c =? 13 then "" else if code c =? 10 then crlf else String c "") +:+ csv_text s
  end.

Lemma csv_text_plain s : str_forall (fun c => negb (special_byte c)) s = true -> csv_text s = s.
Proof.
  induction s as [|c s IH]; [done|]. cbn. rewrite andb_true_iff. unfold special_byte at 1. intros [Hc Hs].
  replace (code c =? 13) with false by lia. replace (code c =? 10) with false by lia. cbn. by rewrite IH.
Qed.

Lemma read_bytes_app r s t : read_bytes r (s +:+ t) = r ← read_bytes r s; read_bytes r t.
Proof. revert r. induction s as [|c s IH]; intros r; [done|]. cbn. destruct (read_byte r c); [apply IH|done]. Qed.

(** The modes after a complete field. *)
Definition field_over (m : mode) : Prop := m = FieldStart \/ m = InPlain \/ m = QuoteSeen.

Lemma read_plain s : forall m x rec fin, m = FieldStart \/ m = InPlain ->
  str_forall (fun c => negb (special_byte c)) s = true ->
  exists m', field_over m' /\ read_bytes (MkReader m x rec fin) s = Some (MkReader m' (x +:+ s) rec fin).
Proof.
  induction s as [|c s IH]; intros m x rec fin Hm Hs.
  { exists m. split; [unfold field_over; tauto|]. cbn. by rewrite str_app_nil_r. }
  cbn in Hs. apply andb_true_iff in Hs as [Hc Hs]. unfold special_byte in Hc.
  destruct (IH InPlain (x +:+ String c "") rec fin (or_intror eq_refl) Hs) as (m' & Ho & Hr).
  exists m'. split; [done|]. cbn [read_bytes]. unfold read_byte. cbn [rd_mode rd_field rd_record rd_done].
  replace (code c =? 44) with false by lia. replace (code c =? 13) with false by lia.
  replace (code c =? 34) with false by lia.
  destruct Hm as [-> | ->]; cbn [mbind option_bind]; rewrite Hr, str_app_assoc; done.
Qed.

Lemma read_quoted s x rec fin :
  read_bytes (MkReader InQuotes x rec fin) (quoted_bytes s) = Some (MkReader InQuotes (x +:+ csv_text s) rec fin).
Proof.
  revert x. induction s as [|c s IH]; intros x; cbn [quoted_bytes csv_text]; [by rewrite str_app_nil_r|].
  rewrite read_bytes_app. unfold quoted_byte.
  destruct (Z.eqb_spec (code c) 34) as [E|].
  { replace (code c =? 13) with false by lia. replace (code c =? 10) with false by lia.
    assert (c = "034"%char) as -> by (by rewrite <- (chr_code c), E).
    change (read_bytes _ (bytes [34; 34])) with (Some (MkReader InQuotes (x +:+ bytes [34]) rec fin)).
    cbn [mbind option_bind]. by rewrite IH, str_app_assoc. }
  destruct (Z.eqb_spec (code c) 13); [cbn; apply IH|].
  destruct (Z.eqb_spec (code c) 10).
  { change (read_bytes _ (bytes [13; 10])) with (Some (MkReader InQuotes ((x +:+ bytes [13]) +:+ bytes [10]) rec fin)).
    cbn [mbind option_bind]. by rewrite IH, !str_app_assoc. }
  cbn [read_bytes]. unfold read_byte. cbn [rd_mode rd_field rd_record rd_done].
  replace (code c =? 34) with false by lia. cbn [mbind option_bind]. by rewrite IH, str_app_assoc.
Qed.

Lemma not_quoted_plain f : fieldNeedsQuotes f = false -> str_forall (fun c => negb (special_byte c)) f = true.
Proof.
  destruct f as [|c f]; [done|]. unfold fieldNeedsQuotes. rewrite !orb_false_iff, negb_false_iff. by intros [[_ ?] _].
Qed.

Lemma read_field f rec fin :
  exists m, field_over m /\
    read_bytes (MkReader FieldStart "" rec fin) (write_field f) = Some (MkReader m (csv_text f) rec fin).
Proof.
  unfold write_field. destruct (fieldNeedsQuotes f) eqn:Hq.
  - exists QuoteSeen. split; [unfold field_over; tauto|].
    change (bytes [34] +:+ quoted_bytes f +:+ bytes [34]) with (String "034" (quoted_bytes f +:+ bytes [34])).
    cbn [read_bytes]. change (read_byte _ "034") with (Some (MkReader InQuotes "" rec fin)). cbn [mbind option_bind].
    by rewrite read_bytes_app, read_quoted.
  - apply not_quoted_plain in Hq. rewrite (csv_text_plain f Hq).
    apply (read_plain f FieldStart "" rec fin); [by left|done].
Qed.

Lemma read_separator m x rec fin c : field_over m -> (c = ","%char \/ c = "013"%char) ->
  read_byte (MkReader m x rec fin) c =
    Some (if Ascii.eqb c "," then MkReader FieldStart "" (rec ++ [x]) fin else MkReader CRSeen x rec fin).
Proof. by intros [->|[->| ->]] [->| ->]. Qed.

Lemma read_record_fields l rec fin : l <> [] ->
  read_bytes (MkReader FieldStart "" rec fin) (join "," (write_field <$> l) +:+ crlf) =
    Some (MkReader FieldStart "" [] (fin ++ [rec ++ (csv_text <$> l)])).
Proof.
  revert rec. induction l as [|f l IH]; intros rec Hl; [done|]. rewrite fmap_cons.
  destruct (read_field f rec fin) as (m & Hm & Hr). destruct l as [|f2 l].
  - cbn [join fmap list_fmap]. rewrite read_bytes_app, Hr. cbn [mbind option_bind]. unfold crlf.
    change (bytes [13; 10]) with (String "013" (bytes [10])). cbn [read_bytes].
    rewrite (read_separator m) by tauto. cbn. done.
  - change (join "," (write_field f :: (write_field <$> f2 :: l))) with
      (write_field f +:+ String "," (join "," (write_field <$> f2 :: l))).
    rewrite str_app_assoc, read_bytes_app, Hr. cbn [mbind option_bind].
    change (String "," ?x +:+ ?y) with (String "," (x +:+ y)). cbn [read_bytes].
    rewrite (read_separator m) by tauto. cbn [Ascii.eqb Bool.eqb mbind option_bind].
    rewrite IH by done. rewrite <- app_assoc. done.
Qed.

(** Reading what the writer wrote. *)
Lemma csv_read_write (records : list (list string)) : Forall (fun r => r <> []) records ->
  csv_read (write_all records) = Some ((fun r : list string => csv_text <$> r) <$> records).
Proof.
  intros Hr. unfold csv_read, write_all.
  enough (forall fin, read_bytes (MkReader FieldStart "" [] fin) (join "" (write_record <$> records)) =
    Some (MkReader FieldStart "" [] (fin ++ ((fun r : list string => csv_text <$> r) <$> records)))) as -> by done.
  induction Hr as [|r l Hr _ IH]; intros fin; [by rewrite app_nil_r|].
  rewrite fmap_cons, join_empty_cons, read_bytes_app. change (write_record r) with (join "," (write_field <$> r) +:+ crlf).
  rewrite read_record_fields by done. cbn [mbind option_bind app]. rewrite IH, <- app_assoc. done.
Qed.

(** * Counts under their headers *)

(** The names so far are distinct and the index inverts them. *)
Definition columns_ok (st : list string * gmap string nat) : Prop :=
  NoDup st.1 /\ forall n i, st.2 !! n = Some i <-> st.1 !! i = Some n.

Lemma columns_ok_mem st n : columns_ok st -> st.2 !! n = None <-> n ∉ st.1.
Proof.
  intros [_ Hi]. rewrite eq_None_not_Some. split; intros Hn Hin; apply Hn.
  - apply list_elem_of_lookup in Hin as [i Hl]. exists i. by apply Hi.
  - destruct Hin as [i Hl]. apply Hi in Hl. by eapply list_elem_of_lookup_2.
Qed.

Lemma add_name_ok st dc : columns_ok st -> columns_ok (add_name st dc) /\
  forall n, n ∈ (add_name st dc).1 <-> n ∈ st.1 \/ n = Pvqa.Name dc.
Proof.
  intros Hok. pose proof (columns_ok_mem st (Pvqa.Name dc) Hok) as Hmem. destruct Hok as [Hnd Hi].
  unfold add_name. destruct (st.2 !! Pvqa.Name dc) as [i|] eqn:E.
  - split; [done|]. intros n. split; [by left|]. intros [?| ->]; [done|].
    apply Hi in E. by eapply list_elem_of_lookup_2.
  - destruct Hmem as [Hmem _]. specialize (Hmem eq_refl). split; [split; cbn [fst snd]|].
    + apply NoDup_app. split_and!; [done|set_solver|apply NoDup_singleton].
    + intros n i. destruct (decide (n = Pvqa.Name dc)) as [->|Hne].
      * rewrite lookup_insert_eq. split; [intros [= <-]; by rewrite lookup_app_r, Nat.sub_diag by lia|].
        intros Hl. apply lookup_app_Some in Hl as [Hl|[Hle Hl]]; [by apply list_elem_of_lookup_2 in Hl|].
        apply lookup_lt_Some in Hl. cbn in Hl. f_equal. lia.
      * rewrite lookup_insert_ne by done. rewrite Hi. split; intros Hl.
        -- by apply lookup_app_l_Some.
        -- apply lookup_app_Some in Hl as [Hl|[Hle Hl]]; [done|].
           apply list_lookup_singleton_Some in Hl as [_ Hl]. congruence.
    + intros n. cbn. rewrite elem_of_app, list_elem_of_singleton. done.
Qed.

Lemma detector_columns_ok streams : columns_ok (detector_columns streams) /\
  forall n, n ∈ (detector_columns streams).1 <-> n ∈ Pvqa.Name <$> (streams ≫= csv_detectors).
Proof.
  unfold detector_columns. generalize (streams ≫= csv_detectors) as ds.
  assert (columns_ok ([], ∅)) as H0.
  { split; [constructor|]. intros n i. cbn. by rewrite lookup_empty. }
  enough (forall ds st, columns_ok st -> columns_ok (fold_left add_name ds st) /\
    forall n, n ∈ (fold_left add_name ds st).1 <-> n ∈ st.1 \/ n ∈ Pvqa.Name <$> ds) as H.
  { intros ds. destruct (H ds ([], ∅) H0) as [Hok Hn]. split; [done|]. intros n. rewrite Hn. cbn. set_solver. }
  clear. induction ds as [|dc ds IH]; intros st Hok; [split; [done|]; cbn; set_solver|].
  destruct (add_name_ok st dc Hok) as [Hok1 Hn1]. destruct (IH _ Hok1) as [Hok2 Hn2]. split; [done|].
  intros n. cbn [fold_left]. rewrite Hn2, Hn1, fmap_cons, elem_of_cons. tauto.
Qed.

(** The count a stream has for a detector, if it ran it. *)
Definition count_of (n : string) (ds : list Pvqa.DetectorCount) : option Z :=
  mlookup n ((fun dc => (Pvqa.Name dc, Pvqa.Count dc)) <$> ds).

Lemma detector_cells_lookup names column ds j n :
  columns_ok (names, column) -> NoDup (Pvqa.Name <$> ds) ->
  (forall dc, dc ∈ ds -> Pvqa.Name dc ∈ names) -> names !! j = Some n ->
  detector_cells names column ds !! j = Some (match count_of n ds with Some c => itoa c | None => "" end).
Proof.
  intros Hok Hnd Hin Hj. unfold detector_cells.
  assert (replicate (length names) "" !! j = Some "") as H0 by (apply lookup_replicate_2; by eapply lookup_lt_Some).
  enough (forall det v, det !! j = Some v ->
    fold_left (fun det dc => <[default 0%nat (column !! Pvqa.Name dc) := itoa (Pvqa.Count dc)]> det) ds det !! j =
      Some (match count_of n ds with Some c => itoa c | None => v end)) as H by (by apply H).
  clear H0. induction ds as [|dc ds IH]; intros det v Hv; [done|].
  rewrite fmap_cons in Hnd. apply NoDup_cons in Hnd as [Hfresh Hnd].
  cbn [fold_left]. unfold count_of. rewrite fmap_cons, mlookup_cons. fold (count_of n ds).
  destruct (proj2 Hok (Pvqa.Name dc) j) as [Hi1 Hi2]. cbn [fst snd] in Hi1, Hi2.
  destruct (String.eqb_spec n (Pvqa.Name dc)) as [->|Hne].
  - rewrite (Hi2 Hj). cbn [default].
    rewrite (IH Hnd ltac:(set_solver) _ (itoa (Pvqa.Count dc))) by (apply list_lookup_insert_eq; by eapply lookup_lt_Some).
    enough (count_of (Pvqa.Name dc) ds = None) as -> by done.
    clear -Hfresh. unfold count_of. destruct (mlookup _ _) as [c|] eqn:E; [|done]. exfalso. apply Hfresh.
    apply mlookup_Some_elem, list_elem_of_fmap in E as (dc' & [= -> _] & Hd). by apply list_elem_of_fmap_2.
  - apply IH; [done|set_solver|]. rewrite list_lookup_insert_ne; [done|]. intros E.
    assert (Pvqa.Name dc ∈ names) as Hc by set_solver. apply list_elem_of_lookup in Hc as [i Hi].
    pose proof (proj2 (proj2 Hok _ _) Hi) as Hci. cbn in Hci. rewrite Hci in E. cbn in E. congruence.
Qed.

Lemma detector_cells_length names column ds : length (detector_cells names column ds) = length names.
Proof.
  unfold detector_cells. enough (forall det, length (fold_left (fun det dc =>
    <[default 0%nat (column !! Pvqa.Name dc) := itoa (Pvqa.Count dc)]> det) ds det) = length det) as ->
    by apply length_replicate.
  induction ds as [|dc ds IH]; intros det; [done|]. cbn. by rewrite IH, length_insert.
Qed.

(** C18. A CSV reader gets the whole export back, cell by cell; every row has
    the header's width; and in a detailed export each stream's detector counts
    stand under the header of that detector, whatever detectors the other
    streams ran and in whatever order: a detector the stream did not run is an
    empty cell.  (Cells read back without CR and with LF as CRLF.) *)
Theorem csv_counts_under_headers streams :
  Forall (fun s => length (basic s) = length BasicHeaders /\ NoDup (Pvqa.Name <$> csv_detectors s)) streams ->
  exists names rows,
    csv_read (renderCSV streams true) =
      Some ((csv_text <$> BasicHeaders ++ names) :: ((fun row : list string => csv_text <$> row) <$> rows)) /\
    NoDup names /\
    (forall n, n ∈ names <-> exists s, s ∈ streams /\ n ∈ Pvqa.Name <$> csv_detectors s) /\
    Forall2 (fun s row =>
      length row = length (BasicHeaders ++ names) /\ take (length BasicHeaders) row = basic s /\
      forall j n, names !! j = Some n ->
        row !! (length BasicHeaders + j)%nat =
          Some (match count_of n (csv_detectors s) with Some c => itoa c | None => "" end)) streams rows.
Proof.
  intros Hs. destruct (detector_columns_ok streams) as [Hok Hn].
  unfold renderCSV, csv_table. destruct (detector_columns streams) as [names column]. cbn [fst snd] in *.
  eexists names, _. split; [|split; [apply Hok|split]].
  - rewrite csv_read_write, fmap_cons; [done|]. constructor; [done|]. apply Forall_fmap.
    eapply Forall_impl; [exact Hs|]. intros s [Hl _]. unfold compose. intros E. apply (f_equal length) in E.
    rewrite length_app, Hl in E. cbn in E. lia.
  - intros n. rewrite Hn, list_elem_of_fmap. split.
    + intros (dc & -> & Hd). apply list_elem_of_bind in Hd as (s & Hd & Hs'). exists s. split; [done|]. by apply list_elem_of_fmap_2.
    + intros (s & Hs' & Hd). apply list_elem_of_fmap in Hd as (dc & -> & Hd). exists dc. split; [done|].
      apply list_elem_of_bind. eauto.
  - apply Forall2_fmap_r, Forall_Forall2_diag, Forall_forall. intros s Hin.
    rewrite Forall_forall in Hs. destruct (Hs s Hin) as [Hl Hnd]. unfold compose.
    rewrite !length_app, detector_cells_length, Hl. split_and!; [done|by apply take_app_length'|].
    intros j n Hj. rewrite <- Hl, lookup_app_r, Nat.add_sub' by lia.
    apply detector_cells_lookup; [done|done| |done].
    intros dc Hdc. apply Hn, list_elem_of_fmap_2, list_elem_of_bind. eauto.
Qed.

(** Two streams analysed under different configurations. *)
Lemma csv_counts_under_headers_witness :
  let dc n c := Pvqa.MkDetectorCount n c in
  let cells x := [x; "b"; "c"; "d"; "e"; "f"; "g"; "h"; "i"; "j"; "k"; "l"; "m"; "n"; "o"] in
  let streams := [MkCsvStream (cells "say ,hi") [dc "Noise" 3; dc "Echo" 1];
                  MkCsvStream (cells " x") [dc "Echo" 7; dc "Clip" 2]] in
  Forall (fun s => length (basic s) = length BasicHeaders /\ NoDup (Pvqa.Name <$> csv_detectors s)) streams /\
  exists names rows,
    csv_read (renderCSV streams true) =
      Some ((csv_text <$> BasicHeaders ++ names) :: ((fun row : list string => csv_text <$> row) <$> rows)) /\
    Forall2 (fun s row => forall j n, names !! j = Some n ->
        row !! (15 + j)%nat =
          Some (match count_of n (csv_detectors s) with Some c => itoa c | None => "" end)) streams rows.
Proof.
  intros dc cells streams.
  assert (Forall (fun s => length (basic s) = length BasicHeaders /\ NoDup (Pvqa.Name <$> csv_detectors s)) streams) as Hs.
  { repeat constructor; cbn; set_solver. }
  split; [exact Hs|]. destruct (csv_counts_under_headers streams Hs) as (names & rows & Hr & _ & _ & Hf).
  exists names, rows. split; [exact Hr|]. eapply Forall2_impl; [exact Hf|]. by intros s row (_ & _ & H).
Defined.

(** The text of a small export. *)
Example renderCSV_quotes :
  write_record ["a,b"; "say " +:+ bytes [34] +:+ "hi" +:+ bytes [34]; " x"; ""] =
    bytes [34] +:+ "a,b" +:+ bytes [34; 44; 34] +:+ "say " +:+ bytes [34; 34] +:+ "hi" +:+ bytes [34; 34; 34; 44; 34] +:+
    " x" +:+ bytes [34; 44] +:+ crlf.
Proof. vm_compute. reflexivity. Qed.
