(* ===== verification/Queries.v ===== *)
(** The read queries of the API ([internal/api/queries.go]): their SQL text with
    the arguments bound to it, and what the code makes of the rows.

    The database executes the text; it is a parameter, the class [Engine].
    The theorems are about what is handed to it: every query binds exactly as
    many arguments as it has markers, and the text never depends on what a
    user typed. *)

From S2P Require Import Prelude GoFloat GoStrings Utf8 Values Rows Json JsonParse Model Expression FilterEval FilterSQL Transport.
From S2P Require Writer.

(** * The database *)

Record statement := Stmt { sql : string; args : list any }.

Inductive query_error := ExprError (e : expression_error) | DBError (msg : string).

(** What the driver answers: the rows of a query, and the number a counting
    query yields. *)
Class Engine := {
  run_rows : statement -> string + list vmap;
  run_count : statement -> string + Z
}.

Abbreviation qres := (res query_error).

Definition of_sum {A} (r : string + A) : qres A :=
  match r with inl e => Err (DBError e) | inr a => Ok a end.

Definition of_fres {A} (r : fres A) : qres A :=
  match r with Err e => Err (ExprError e) | Ok a => Ok a end.

(** * SIP events and calls *)

Definition sipEventColumns : string :=
  "id, event_type, call_id, event_timestamp, invite_timestamp," +:+
  " caller, callee, caller_ua, callee_ua, caller_codecs, callee_codecs," +:+
  " setup_code, bye_direction, duration, response_codes," +:+
  " reason, response_code, reason_phrase, direction, is_request".

(** A condition with its argument, if the bound is given. *)
Definition bound (text : string) (v : option any) : list (string * any) :=
  match v with Some a => [(text, a)] | None => [] end.

Definition nonempty_string (s : string) : option any :=
  if String.eqb s "" then None else Some (AString s).

Definition sipEventWhere (eventType startMs endMs : option Z) (callID : string) : statement :=
  let conds := bound "event_type = ?" (AInt64 <$> eventType) ++
               bound "event_timestamp >= ?" (AInt64 <$> startMs) ++
               bound "event_timestamp <= ?" (AInt64 <$> endMs) ++
               bound "call_id = ?" (nonempty_string callID) in
  Stmt (if (length conds =? 0)%nat then "" else " where " +:+ join " and " conds.*1 +:+ " ") conds.*2.

Definition sipCallAggregate (cond : string) : string :=
  "select call_id," +:+
  " max(case when event_type in (1,4) then caller end) as caller," +:+
  " max(case when event_type in (1,4) then callee end) as callee," +:+
  " max(case when event_type=1 then event_timestamp end) as start_timestamp," +:+
  " max(case when event_type in (2,4) then event_timestamp end) as end_timestamp," +:+
  " max(case when event_type=1 then setup_code end) as setup_code," +:+
  " max(case when event_type=4 then response_code end) as response_code," +:+
  " max(case when event_type=4 then reason end) as reason," +:+
  " max(duration) as duration," +:+
  " sum(case when event_type=3 then 1 else 0 end) as reinvite_count," +:+
  " max(case when event_type=1 then 1 else 0 end) as established," +:+
  " max(case when event_type=4 then 1 else 0 end) as failed," +:+
  " max(event_timestamp) as last_ts" +:+
  " from rtpmon_sip_events" +:+ cond +:+
  " group by call_id".

Definition sipCallFilter (expr : string) : qres statement :=
  if String.eqb (trim_space expr) "" then Ok (Stmt "" [])
  else let? frag := of_fres (BuildSipCallWhere expr "qmark") in
       Ok (Stmt (" where " +:+ Text frag) (Params frag)).

Definition call_list_stmt (startMs endMs : option Z) (limit offset : Z) (callID expr : string) : qres statement :=
  let w := sipEventWhere None startMs endMs callID in
  let? c := sipCallFilter expr in
  Ok (Stmt ("select * from (" +:+ sipCallAggregate (sql w) +:+ ") c" +:+ sql c +:+
            " order by c.last_ts desc limit ? offset ?")
           (args w ++ args c ++ [AInt limit; AInt offset])).

Definition call_count_stmt (startMs endMs : option Z) (callID expr : string) : qres statement :=
  let w := sipEventWhere None startMs endMs callID in
  let? c := sipCallFilter expr in
  Ok (if String.eqb (sql c) ""
      then Stmt ("select count(distinct call_id) from rtpmon_sip_events" +:+ sql w) (args w)
      else Stmt ("select count(*) from (" +:+ sipCallAggregate (sql w) +:+ ") c" +:+ sql c) (args w ++ args c)).

(** [r[k] = v] for several keys. *)
Definition set_keys (f : vmap -> string -> any) (keys : list string) (r : vmap) : vmap :=
  fold_left (fun r k => <[k := f r k]> r) keys r.

Definition int_key (r : vmap) (k : string) : any := AInt64 (getI64 r k).
Definition trimmed_key (r : vmap) (k : string) : any := AString (trim_space (getStr r k)).

Definition normalize_call (r : vmap) : vmap :=
  set_keys trimmed_key ["caller"; "callee"]
    (set_keys int_key ["start_timestamp"; "end_timestamp"; "duration"; "setup_code"; "response_code"; "reason"; "reinvite_count"] r).

Definition normalizeSipRows (rows : list vmap) : list vmap :=
  (fun r =>
     let r := set_keys int_key ["invite_timestamp"; "setup_code"; "bye_direction"; "duration"; "reason"; "response_code"; "direction"] r in
     let r := set_keys trimmed_key ["call_id"; "caller"; "callee"; "caller_ua"; "callee_ua"; "caller_codecs"; "callee_codecs"; "response_codes"; "reason_phrase"] r in
     <["is_request" := ABool (getBool r "is_request")]> r) <$> rows.

(** "in (?,?,...)" over a nonempty list *)
Definition in_list (n : nat) : string := "in (?" +:+ repeat_str ",?" (n - 1) +:+ ")".

Definition stream_mos_stmt (callIDs : list string) : statement :=
  Stmt ("select s.sip_callid as call_id, s.stream_id as stream_id," +:+
        " max(t.sevana_mos) as sevana_mos, max(t.network_mos) as network_mos" +:+
        " from rtpmon_streams s join rtpmon_statistics t on t.stream_id = s.stream_id" +:+
        " where s.sip_callid " +:+ in_list (length callIDs) +:+
        " group by s.stream_id order by s.stream_id") (AString <$> callIDs).

Definition call_health_stmt (callIDs : list string) : statement :=
  Stmt ("select call_id, event_timestamp, stream_count, warnings from rtpmon_call_health" +:+
        " where call_id " +:+ in_list (length callIDs) +:+ " order by id") (AString <$> callIDs).

Definition call_events_stmt (callID : string) : statement :=
  Stmt ("select " +:+ sipEventColumns +:+ " from rtpmon_sip_events where call_id = ? order by event_timestamp, id")
    [AString callID].

Definition sip_events_stmt (eventType startMs endMs : option Z) (limit offset : Z) : statement :=
  let w := sipEventWhere eventType startMs endMs "" in
  Stmt ("select " +:+ sipEventColumns +:+ " from rtpmon_sip_events" +:+ sql w +:+
        " order by event_timestamp desc, id desc limit ? offset ?") (args w ++ [AInt limit; AInt offset]).

Definition sip_event_count_stmt (eventType startMs endMs : option Z) : statement :=
  let w := sipEventWhere eventType startMs endMs "" in
  Stmt ("select count(id) from rtpmon_sip_events" +:+ sql w) (args w).

(** * Call health *)

Record CallStreamMos := MkCallStreamMos { cm_StreamID : Z; cm_SevanaMos : float64; cm_NetworkMos : float64 }.

(** [out[id] = append(out[id], x)] along the rows. *)
Definition group_mos (rows : list vmap) : gmap string (list CallStreamMos) :=
  fold_left (fun (out : gmap string (list CallStreamMos)) r =>
    let id := getStr r "call_id" in
    <[id := default [] (out !! id) ++
        [MkCallStreamMos (getI64 r "stream_id") (getF64 r "sevana_mos") (getF64 r "network_mos")]]> out) rows ∅.

Record health := MkHealth { he_Timestamp : Z; he_StreamCount : Z; he_Warnings : list CallHealthWarning }.

(** ** Decoding a warning: the struct tags of [model.CallHealthWarning]

    A key matches its field exactly or up to Unicode case; a value of the
    wrong type leaves the field as it is and makes the call return an error. *)
Definition fold_key (k : string) : string :=
  str_map ascii_lower (replace_all (replace_all k (bytes [197; 191]) "s") (bytes [226; 132; 170]) "k").

Definition key_is (name k : string) : bool := String.eqb k name || String.eqb (fold_key k) name.

Definition decode_string (old : string) (v : jval) : string * bool :=
  match v with VStr s => (s, true) | VNull => (old, true) | _ => (old, false) end.

Definition decode_strings (v : jval) (old : list string) : list string * bool :=
  match v with
  | VNull => ([], true)
  | VArr l => ((fun v => (decode_string "" v).1) <$> l, forallb (fun v => (decode_string "" v).2) l)
  | _ => (old, false)
  end.

Definition decode_member (acc : CallHealthWarning * bool) (kv : string * jval) : CallHealthWarning * bool :=
  let '(w, ok) := acc in
  let '(k, v) := kv in
  if key_is "code" k then
    let '(x, b) := decode_string (Code w) v in (MkCallHealthWarning x (Tag w) (Explanation w) (StreamIDs w), ok && b)
  else if key_is "tag" k then
    let '(x, b) := decode_string (Tag w) v in (MkCallHealthWarning (Code w) x (Explanation w) (StreamIDs w), ok && b)
  else if key_is "explanation" k then
    let '(x, b) := decode_string (Explanation w) v in (MkCallHealthWarning (Code w) (Tag w) x (StreamIDs w), ok && b)
  else if key_is "stream_ids" k then
    let '(x, b) := decode_strings v (StreamIDs w) in (MkCallHealthWarning (Code w) (Tag w) (Explanation w) x, ok && b)
  else acc.

Definition zero_warning : CallHealthWarning := MkCallHealthWarning "" "" "" [].

Definition decode_warning (v : jval) : CallHealthWarning * bool :=
  match v with
  | VObj l => fold_left decode_member l (zero_warning, true)
  | VNull => (zero_warning, true)
  | _ => (zero_warning, false)
  end.

(** [json.Unmarshal] into a [[]CallHealthWarning]: what it stores, and whether
    it succeeds. *)
Definition decode_warnings (text : string) : list CallHealthWarning * bool :=
  match unmarshal text with
  | Some (VArr l) => ((fun v => (decode_warning v).1) <$> l, forallb (fun v => (decode_warning v).2) l)
  | Some VNull => ([], true)
  | _ => ([], false)
  end.

Definition health_of_row (r : vmap) : health :=
  let '(ws, ok) := decode_warnings (getStr r "warnings") in
  MkHealth (getI64 r "event_timestamp") (getI64 r "stream_count") (if (ok : bool) then ws else []).

(** Later rows win. *)
Definition health_of_rows (rows : list vmap) : gmap string health :=
  fold_left (fun (out : gmap string health) r => <[getStr r "call_id" := health_of_row r]> out) rows ∅.

(** * Streams *)

Definition widgetStatsQuery : string :=
  "select count(stream_id) as stream_count," +:+
  " avg(sevana_rfactor) as rfactor," +:+
  " avg(case when sevana_mos > 0.0001 then sevana_mos else null end) as sevana_mos," +:+
  " avg(network_mos) as network_mos," +:+
  " avg(duration_audio) as duration," +:+
  " sum(case when sevana_mos >= ? then 1 else 0 end) as good_sevana_count," +:+
  " sum(case when network_mos >= ? then 1 else 0 end) as good_network_count," +:+
  " sum(case when sevana_mos > 0.0001 then 1 else 0 end) as with_sevana_mos" +:+
  " from rtpmon_statistics where end_timestamp > ?".

Definition widget_stmt (seconds : Z) (goodMos : float64) (nowMs : Z) : statement :=
  Stmt widgetStatsQuery [AFloat goodMos; AFloat goodMos; AInt64 (wrap64 (nowMs - wrap64 (seconds * 1000)))].

Definition widget_row (r : vmap) : vmap := list_to_map
  [("stream_count", AInt64 (getI64 r "stream_count"));
   ("rfactor", AFloat (getF64 r "rfactor"));
   ("sevana_mos", AFloat (getF64 r "sevana_mos"));
   ("network_mos", AFloat (getF64 r "network_mos"));
   ("duration", AFloat (fdiv (getF64 r "duration") thousand));
   ("good_sevana_count", AInt64 (getI64 r "good_sevana_count"));
   ("good_network_count", AInt64 (getI64 r "good_network_count"));
   ("with_sevana_mos", AInt64 (getI64 r "with_sevana_mos"))].

Definition reportCols (table : string) : string :=
  table +:+ ".start_timestamp, " +:+ table +:+ ".end_timestamp, " +:+
  table +:+ ".rtp_packet_counter, " +:+ table +:+ ".illegal_packet_counter, " +:+ table +:+ ".lost_packet_counter, " +:+
  table +:+ ".sevana_mos, " +:+ table +:+ ".sevana_rfactor, " +:+ table +:+ ".network_mos, " +:+ table +:+ ".jitter, " +:+
  table +:+ ".codec, " +:+ table +:+ ".detector_report, " +:+ table +:+ ".rtt_delay, " +:+ table +:+ ".duration_audio, " +:+
  table +:+ ".dtx_sid, " +:+ table +:+ ".dtx_count, " +:+ table +:+ ".dtx_total, " +:+
  "rtpmon_streams.sip_source, rtpmon_streams.sip_destination, rtpmon_streams.sip_callid, " +:+
  "rtpmon_streams.src_ip, rtpmon_streams.src_port, rtpmon_streams.dst_ip, " +:+
  "rtpmon_streams.dst_port, rtpmon_streams.ssrc, rtpmon_streams.link_id".

Definition streamJoin (table : string) : string :=
  " from " +:+ table +:+ " inner join rtpmon_streams on rtpmon_streams.stream_id = " +:+ table +:+ ".stream_id".

Definition final_stmt (linkID : string) : statement :=
  Stmt ("select " +:+ reportCols "rtpmon_statistics" +:+ streamJoin "rtpmon_statistics" +:+
        " where rtpmon_statistics.link_id = ? order by rtpmon_statistics.end_timestamp desc limit 1") [AString linkID].

Definition history_stmt (linkID : string) : statement :=
  Stmt ("select " +:+ reportCols "rtpmon_intervals" +:+ streamJoin "rtpmon_intervals" +:+
        " where rtpmon_intervals.link_id = ? order by rtpmon_intervals.start_timestamp") [AString linkID].

Definition report_stmt (linkID : string) (finishTimestamp : Z) : statement :=
  Stmt ("select " +:+ reportCols "rtpmon_intervals" +:+ streamJoin "rtpmon_intervals" +:+
        " where rtpmon_intervals.link_id = ? and rtpmon_intervals.end_timestamp = ?" +:+
        " order by rtpmon_intervals.start_timestamp limit 1") [AString linkID; AInt64 finishTimestamp].

Definition finishedBase : string :=
  " from rtpmon_statistics" +:+
  " inner join rtpmon_streams on rtpmon_streams.stream_id = rtpmon_statistics.stream_id" +:+
  " inner join rtpmon_instances on rtpmon_streams.agent_id = rtpmon_instances.id".

(** [finishedWhere]: the conditions in order, each with its arguments. *)
Definition finishedWhere (flt : SearchFilter) : qres statement :=
  let interval := match FilterInterval flt with
                  | Some d => [("rtpmon_statistics.start_timestamp >= ?", [AInt64 (wrap64 (StartSeconds d * 1000))]);
                               ("rtpmon_statistics.end_timestamp < ?", [AInt64 (wrap64 (EndSeconds d * 1000))])]
                  | None => []
                  end in
  let call := if String.eqb (SIPCallID flt) "" then []
              else [("rtpmon_streams.sip_callid = ?", [AString (SIPCallID flt)])] in
  let? expr := if String.eqb (Transport.Expression flt) "" then Ok []
               else let? frag := of_fres (BuildWhere (Transport.Expression flt) "qmark") in
                    Ok [(Text frag, Params frag)] in
  let conds := interval ++ call ++ expr in
  Ok (Stmt (if (length conds =? 0)%nat then "" else " where " +:+ join " and " conds.*1) (concat conds.*2)).

Definition finished_stmt (flt : SearchFilter) : qres statement :=
  let cols := reportCols "rtpmon_statistics" +:+
    ", rtpmon_instances.agent_id as instance_id, rtpmon_instances.agent_name as instance_name" in
  let? w := finishedWhere flt in
  let order := BuildOrderBy (SortField flt) (Descending flt) in
  let offset := if PageOffset flt <? 0 then 0 else PageOffset flt in
  Ok (Stmt ("select " +:+ cols +:+ finishedBase +:+ sql w +:+ " order by " +:+ order +:+ " limit ? offset ?")
           (args w ++ [AInt (MaxCount flt); AInt offset])).

Definition finished_count_stmt (flt : SearchFilter) : qres statement :=
  let? w := finishedWhere flt in
  Ok (Stmt ("select count(*)" +:+ finishedBase +:+ sql w) (args w)).

(** * The operations *)

Section operations.
Context `{Engine}.

Definition GetAgentList : qres (list vmap) :=
  of_sum (run_rows (Stmt "select agent_id, agent_name from rtpmon_instances" [])).

Definition GetSipCallList (startMs endMs : option Z) (limit offset : Z) (callID expr : string) : qres (list vmap) :=
  let? s := call_list_stmt startMs endMs limit offset callID expr in
  let? rows := of_sum (run_rows s) in
  Ok (normalize_call <$> rows).

Definition GetSipCallCount (startMs endMs : option Z) (callID expr : string) : qres Z :=
  let? s := call_count_stmt startMs endMs callID expr in of_sum (run_count s).

Definition GetSipCallStreamMos (callIDs : list string) : qres (gmap string (list CallStreamMos)) :=
  match callIDs with
  | [] => Ok ∅
  | _ => let? rows := of_sum (run_rows (stream_mos_stmt callIDs)) in Ok (group_mos rows)
  end.

Definition GetCallHealth (callIDs : list string) : qres (gmap string health) :=
  match callIDs with
  | [] => Ok ∅
  | _ => let? rows := of_sum (run_rows (call_health_stmt callIDs)) in Ok (health_of_rows rows)
  end.

Definition GetSipCallEvents (callID : string) : qres (list vmap) :=
  let? rows := of_sum (run_rows (call_events_stmt callID)) in Ok (normalizeSipRows rows).

Definition GetSipEvents (eventType startMs endMs : option Z) (limit offset : Z) : qres (list vmap) :=
  let? rows := of_sum (run_rows (sip_events_stmt eventType startMs endMs limit offset)) in Ok (normalizeSipRows rows).

Definition GetSipEventCount (eventType startMs endMs : option Z) : qres Z :=
  of_sum (run_count (sip_event_count_stmt eventType startMs endMs)).

(** A chunk that does not decode is skipped. *)
Definition decode_chunk (row : vmap) : option string :=
  match row !! "audio_wav" with
  | Some (AString encoded) => if String.eqb encoded "" then None else b64_decode StdEncoding encoded
  | _ => None
  end.

Definition audio_stmt (linkID : string) : statement :=
  Stmt ("select rtpmon_audio.audio_wav from rtpmon_audio" +:+
        " inner join rtpmon_streams on rtpmon_streams.stream_id = rtpmon_audio.stream_id" +:+
        " where rtpmon_streams.link_id = ?" +:+
        " order by rtpmon_audio.start_timestamp, rtpmon_audio.id") [AString linkID].

Definition GetStreamAudioChunks (linkID : string) : qres (list string) :=
  let? rows := of_sum (run_rows (audio_stmt linkID)) in Ok (omap decode_chunk rows).

(** [rows[0]] of an aggregate; [None] is the index panic of an engine that
    answers an aggregate without a row. *)
Definition FindWidgetStats (seconds : Z) (goodMos : float64) (nowMs : Z) : option (qres vmap) :=
  match run_rows (widget_stmt seconds goodMos nowMs) with
  | inl e => Some (Err (DBError e))
  | inr (r :: _) => Some (Ok (widget_row r))
  | inr [] => None
  end.

Definition GetStreamFinal (linkID : string) : qres (option vmap) :=
  let? rows := of_sum (run_rows (final_stmt linkID)) in Ok (head rows).

Definition GetStreamHistory (linkID : string) : qres (list vmap) := of_sum (run_rows (history_stmt linkID)).

Definition GetReport (linkID : string) (finishTimestamp : Z) : qres (option vmap) :=
  let? rows := of_sum (run_rows (report_stmt linkID finishTimestamp)) in Ok (head rows).

Definition GetFinishedStreams (flt : SearchFilter) : qres (list vmap) :=
  let? s := finished_stmt flt in of_sum (run_rows s).

Definition GetFinishedStreamCount (flt : SearchFilter) : qres Z :=
  let? s := finished_count_stmt flt in of_sum (run_count s).
End operations.

(** * Markers and arguments *)

Lemma Ok_inj {A} (a b : A) : (Ok a : qres A) = Ok b -> a = b.
Proof. by intros [=]. Qed.

Definition balanced (s : statement) : Prop := count_byte "?" (sql s) = length (args s).

Lemma count_join (l : list string) :
  count_byte "?" (join " and " l) = foldr Nat.add 0%nat (count_byte "?" <$> l).
Proof.
  induction l as [|x [|y l] IH]; [done|cbn; lia|].
  change (join " and " (x :: y :: l)) with (x +:+ " and " +:+ join " and " (y :: l)).
  rewrite !count_byte_app, IH, !fmap_cons. cbn. lia.
Qed.

Lemma sipEventWhere_balanced t lo hi id : balanced (sipEventWhere t lo hi id).
Proof.
  unfold sipEventWhere, balanced. cbn [sql args].
  assert (forall text v, count_byte "?" text = 1%nat ->
    foldr Nat.add 0%nat (count_byte "?" <$> (bound text v).*1) = length (bound text v).*2) as Hb.
  { intros text [v|] Ht; cbn; lia. }
  set (conds := bound "event_type = ?" _ ++ _).
  assert (foldr Nat.add 0%nat (count_byte "?" <$> conds.*1) = length conds.*2) as Hc.
  { unfold conds. rewrite !fmap_app, !foldr_app. destruct t, lo, hi, (nonempty_string id); done. }
  destruct (Nat.eqb_spec (length conds) 0) as [E|].
  - apply nil_length_inv in E. by rewrite E.
  - rewrite !count_byte_app, count_join, Hc. cbn. lia.
Qed.

(** A compiled filter binds its literals, one per marker. *)
Lemma frag_balanced nameMap expr f : nameMap ∈ nameMaps -> (let? n := Parse expr in ToSQL n nameMap "qmark") = Ok f ->
  count_byte "?" (Text f) = length (Params f).
Proof.
  intros Hnm Hf. apply res_bind_Ok in Hf as (n & _ & Hf). eapply ToSQL_qmark_count; [|exact Hf].
  by apply nameMaps_unmarked.
Qed.

Lemma BuildOrderBy_unmarked field desc : count_byte "?" (BuildOrderBy field desc) = 0%nat.
Proof.
  unfold BuildOrderBy. rewrite !count_byte_app.
  assert (forall c, c ∈ SortColumns.*2 -> count_byte "?" c = 0%nat) as Hc.
  { intros c. unfold SortColumns. cbn. rewrite !elem_of_cons, elem_of_nil.
    intros Hin. repeat (destruct Hin as [->|Hin]; [reflexivity|]). done. }
  destruct (mlookup field SortColumns) as [c|] eqn:E.
  - rewrite Hc by (apply mlookup_Some_elem in E; apply list_elem_of_fmap; by eexists (_, _)).
    by destruct desc.
  - rewrite Hc by (cbn; set_solver). by destruct desc.
Qed.

Lemma finishedWhere_balanced flt w : finishedWhere flt = Ok w -> balanced w.
Proof.
  unfold finishedWhere, balanced. set (interval := match FilterInterval flt with Some _ => _ | None => _ end).
  set (call := if String.eqb (SIPCallID flt) "" then _ else _). intros Hw.
  apply res_bind_Ok in Hw as (expr & He & Hw). apply Ok_inj in Hw as <-. cbn [sql args].
  set (conds := interval ++ call ++ expr).
  assert (Forall (fun c => count_byte "?" c.1 = length c.2) conds) as Hc.
  { unfold conds. rewrite !Forall_app. split_and!.
    - unfold interval. destruct (FilterInterval flt); repeat constructor.
    - unfold call. destruct (String.eqb _ _); repeat constructor.
    - destruct (String.eqb (Transport.Expression flt) ""); [apply Ok_inj in He as <-; constructor|].
      apply res_bind_Ok in He as (f & Hf & He). apply Ok_inj in He as <-. repeat constructor. cbn.
      unfold of_fres in Hf. destruct (BuildWhere _ _) as [f'|] eqn:E; [|done]. apply Ok_inj in Hf as <-.
      by eapply (frag_balanced SQLNameMap); [left|exact E]. }
  clearbody conds. destruct (Nat.eqb_spec (length conds) 0) as [E|].
  - apply nil_length_inv in E. by rewrite E.
  - rewrite count_byte_app, count_join. change (count_byte "?" " where ") with 0%nat. cbn [Nat.add].
    clear -Hc. induction Hc as [|c l Hc _ IH]; [done|]. rewrite !fmap_cons. cbn [foldr concat].
    by rewrite length_app, <- Hc, IH.
Qed.

Lemma sipCallFilter_balanced expr s : sipCallFilter expr = Ok s -> balanced s.
Proof.
  unfold sipCallFilter. destruct (String.eqb _ _); [by intros <-%Ok_inj|]. intros Hs.
  apply res_bind_Ok in Hs as (f & Hf & Hs). apply Ok_inj in Hs as <-. unfold balanced. cbn [sql args].
  rewrite count_byte_app. change (count_byte "?" " where ") with 0%nat. cbn [Nat.add].
  unfold of_fres in Hf. destruct (BuildSipCallWhere _ _) as [f'|] eqn:E; [|done]. apply Ok_inj in Hf as <-.
  eapply (frag_balanced SipCallNameMap); [|exact E]. right. left.
Qed.

Lemma in_list_count n : (0 < n)%nat -> count_byte "?" (in_list n) = n.
Proof.
  intros Hn. unfold in_list. rewrite !count_byte_app. cbn [count_byte].
  assert (forall k, count_byte "?" (repeat_str ",?" k) = k) as Hk.
  { induction k as [|k IH]; [done|]. cbn [repeat_str]. rewrite count_byte_app, IH. done. }
  rewrite Hk. cbn. lia.
Qed.

Lemma aggregate_count cond : count_byte "?" (sipCallAggregate cond) = count_byte "?" cond.
Proof. unfold sipCallAggregate. rewrite !count_byte_app. cbn. lia. Qed.

Lemma reportCols_count t : t = "rtpmon_statistics" \/ t = "rtpmon_intervals" ->
  count_byte "?" (reportCols t) = 0%nat /\ count_byte "?" (streamJoin t) = 0%nat.
Proof. by intros [->| ->]. Qed.

Ltac count := unfold balanced, stream_mos_stmt, call_health_stmt, sip_events_stmt, sip_event_count_stmt,
    call_events_stmt, audio_stmt, final_stmt, history_stmt, report_stmt; cbn [sql args]; rewrite ?length_app, ?length_fmap, ?count_byte_app;
  repeat match goal with
  | H : balanced _ |- _ => unfold balanced in H; rewrite <- H; clear H
  end.

(** C13. Every query of the API hands the database exactly as many arguments
    as its text has markers: whatever bounds, ids, paging and filter
    expressions a request combines, no marker is left unbound and no argument
    shifts to another marker. *)
Theorem queries_bind_all :
  (forall lo hi limit offset id expr s, call_list_stmt lo hi limit offset id expr = Ok s -> balanced s) /\
  (forall lo hi id expr s, call_count_stmt lo hi id expr = Ok s -> balanced s) /\
  (forall ids, ids <> [] -> balanced (stream_mos_stmt ids) /\ balanced (call_health_stmt ids)) /\
  (forall t lo hi limit offset, balanced (sip_events_stmt t lo hi limit offset) /\ balanced (sip_event_count_stmt t lo hi)) /\
  (forall id t, balanced (call_events_stmt id) /\ balanced (audio_stmt id) /\ balanced (final_stmt id) /\
     balanced (history_stmt id) /\ balanced (report_stmt id t)) /\
  (forall seconds mos now, balanced (widget_stmt seconds mos now)) /\
  (forall flt s, finished_stmt flt = Ok s -> balanced s) /\
  (forall flt s, finished_count_stmt flt = Ok s -> balanced s).
Proof.
  split_and!.
  - intros lo hi limit offset id expr s Hs. pose proof (sipEventWhere_balanced None lo hi id) as Hw.
    apply res_bind_Ok in Hs as (c & Hc & Hs). apply sipCallFilter_balanced in Hc. apply Ok_inj in Hs as <-. count.
    rewrite aggregate_count. cbn. lia.
  - intros lo hi id expr s Hs. pose proof (sipEventWhere_balanced None lo hi id) as Hw.
    apply res_bind_Ok in Hs as (c & Hc & Hs). apply sipCallFilter_balanced in Hc. apply Ok_inj in Hs as <-.
    destruct (String.eqb_spec (sql c) "") as [E|]; count; rewrite ?aggregate_count; cbn; lia.
  - intros ids Hids. assert (0 < length ids)%nat by (destruct ids; [done|cbn; lia]).
    split; count; rewrite in_list_count by done; cbn; lia.
  - intros t lo hi limit offset. pose proof (sipEventWhere_balanced t lo hi "") as Hw. split; count; cbn; lia.
  - intros id t. split_and!; count; rewrite ?(proj1 (reportCols_count _ (or_introl eq_refl))),
      ?(proj1 (reportCols_count _ (or_intror eq_refl))); reflexivity.
  - done.
  - intros flt s Hs. apply res_bind_Ok in Hs as (w & Hw & Hs). apply finishedWhere_balanced in Hw. apply Ok_inj in Hs as <-.
    count. rewrite BuildOrderBy_unmarked, (proj1 (reportCols_count _ (or_introl eq_refl))). cbn. lia.
  - intros flt s Hs. apply res_bind_Ok in Hs as (w & Hw & Hs). apply finishedWhere_balanced in Hw. apply Ok_inj in Hs as <-.
    count. cbn. lia.
Qed.

(** * User text *)

(** Two filter expressions that differ in their string literals at most. *)
Definition same_but_literals (e e' : string) : Prop :=
  (trim_space e = "" <-> trim_space e' = "") /\ (e = "" <-> e' = "") /\
  (e <> "" -> exists n n', Parse e = Ok n /\ Parse e' = Ok n' /\ erase n = erase n').

(** Two requests that differ in values only: the same bounds are given, and a
    call id is given in both or in none. *)
Definition same_given {A B} (a : option A) (b : option B) : Prop := is_Some a <-> is_Some b.

Lemma compiled_text nameMap n n' f f' : erase n = erase n' ->
  ToSQL n nameMap "qmark" = Ok f -> ToSQL n' nameMap "qmark" = Ok f' -> Text f = Text f'.
Proof.
  intros He Hf Hf'. rewrite ToSQL_erase in Hf, Hf'. rewrite He in Hf.
  apply res_bind_Ok in Hf as (g & Hg & Hf). apply res_bind_Ok in Hf' as (g' & Hg' & Hf').
  rewrite Hg in Hg'. by simplify_eq.
Qed.

Lemma of_fres_Ok {A} (r : fres A) a : of_fres r = Ok a -> r = Ok a.
Proof. destruct r; [|done]. by intros [= ->]. Qed.

Lemma fragment_text nameMap e e' f f' : e <> "" -> same_but_literals e e' ->
  (let? n := Parse e in ToSQL n nameMap "qmark") = Ok f ->
  (let? n := Parse e' in ToSQL n nameMap "qmark") = Ok f' -> Text f = Text f'.
Proof.
  intros Hne (_ & _ & Hs) Hf Hf'. destruct (Hs Hne) as (n & n' & Hn & Hn' & He).
  rewrite Hn in Hf. rewrite Hn' in Hf'. by eapply compiled_text.
Qed.

Lemma sipCallFilter_text e e' s s' : same_but_literals e e' ->
  sipCallFilter e = Ok s -> sipCallFilter e' = Ok s' -> sql s = sql s'.
Proof.
  intros Hs. unfold sipCallFilter.
  destruct (String.eqb_spec (trim_space e) "") as [Hb|Hb], (String.eqb_spec (trim_space e') "") as [Hb'|Hb'];
    [|exfalso; by apply Hb', Hs|exfalso; by apply Hb, Hs|].
  - by intros <-%Ok_inj <-%Ok_inj.
  - intros Hf Hf'. apply res_bind_Ok in Hf as (f & Hf%of_fres_Ok & <-%Ok_inj).
    apply res_bind_Ok in Hf' as (f' & Hf'%of_fres_Ok & <-%Ok_inj). cbn [sql]. f_equal.
    apply (fragment_text SipCallNameMap e e'); [|done|done|done]. intros ->. by apply Hb.
Qed.

Lemma bound_text {A} text (f : A -> any) v v' : same_given v v' ->
  (bound text (f <$> v)).*1 = (bound text (f <$> v')).*1.
Proof.
  intros [H1 H2]. destruct v, v'; try done; [by destruct H1 as [? ?]|by destruct H2 as [? ?]].
Qed.

Lemma sipEventWhere_text t t' lo lo' hi hi' id id' :
  same_given t t' -> same_given lo lo' -> same_given hi hi' -> (id = "" <-> id' = "") ->
  sql (sipEventWhere t lo hi id) = sql (sipEventWhere t' lo' hi' id').
Proof.
  intros Ht Hlo Hhi Hid. unfold sipEventWhere. cbn [sql].
  set (c1 := bound "event_type = ?" (AInt64 <$> t) ++ _). set (c2 := bound "event_type = ?" (AInt64 <$> t') ++ _).
  assert (c1.*1 = c2.*1) as E.
  { unfold c1, c2. rewrite !fmap_app, (bound_text _ AInt64 _ _ Ht), (bound_text _ AInt64 _ _ Hlo), (bound_text _ AInt64 _ _ Hhi).
    do 3 f_equal. unfold nonempty_string. destruct (String.eqb_spec id ""), (String.eqb_spec id' ""); try done; tauto. }
  rewrite E. apply (f_equal length) in E. rewrite !length_fmap in E. by rewrite E.
Qed.

Lemma finishedWhere_text flt flt' w w' :
  same_given (FilterInterval flt) (FilterInterval flt') -> (SIPCallID flt = "" <-> SIPCallID flt' = "") ->
  same_but_literals (Transport.Expression flt) (Transport.Expression flt') ->
  finishedWhere flt = Ok w -> finishedWhere flt' = Ok w' -> sql w = sql w'.
Proof.
  intros Hi Hc He Hw Hw'.
  apply res_bind_Ok in Hw as (x & Hx & <-%Ok_inj). apply res_bind_Ok in Hw' as (x' & Hx' & <-%Ok_inj). cbn [sql].
  match goal with |- (if (length ?a =? 0)%nat then _ else _) = (if (length ?b =? 0)%nat then _ else _) =>
    assert (a.*1 = b.*1) as E; [|rewrite E; apply (f_equal length) in E; rewrite !length_fmap in E; by rewrite E] end.
  rewrite !fmap_app. f_equal; [|f_equal].
  - destruct (FilterInterval flt), (FilterInterval flt'); try done;
      [by destruct (proj1 Hi ltac:(eauto))|by destruct (proj2 Hi ltac:(eauto))].
  - destruct (String.eqb_spec (SIPCallID flt) ""), (String.eqb_spec (SIPCallID flt') ""); try done; tauto.
  - destruct (String.eqb_spec (Transport.Expression flt) "") as [E1|E1],
      (String.eqb_spec (Transport.Expression flt') "") as [E2|E2];
      [|exfalso; by apply E2, He|exfalso; by apply E1, He|].
    + by rewrite <- (Ok_inj _ _ Hx), <- (Ok_inj _ _ Hx').
    + apply res_bind_Ok in Hx as (f & Hf%of_fres_Ok & <-%Ok_inj).
      apply res_bind_Ok in Hx' as (f' & Hf'%of_fres_Ok & <-%Ok_inj). cbn. f_equal.
      by apply (fragment_text SQLNameMap (Transport.Expression flt) (Transport.Expression flt')).
Qed.

Lemma sort_text field field' desc : mlookup field SortColumns = mlookup field' SortColumns ->
  BuildOrderBy field desc = BuildOrderBy field' desc.
Proof. unfold BuildOrderBy. by intros ->. Qed.

(** The two searches over finished streams agree on what their text may depend
    on. *)
Record alike (flt flt' : SearchFilter) : Prop := {
  alike_sort : mlookup (SortField flt) SortColumns = mlookup (SortField flt') SortColumns;
  alike_order : Descending flt = Descending flt';
  alike_interval : same_given (FilterInterval flt) (FilterInterval flt');
  alike_call : SIPCallID flt = "" <-> SIPCallID flt' = "";
  alike_filter : same_but_literals (Transport.Expression flt) (Transport.Expression flt')
}.

(** C14. What a user types does not shape the SQL text of the dashboard's
    queries.  The dates, the call ids, the paging and the string literals of a
    filter are bound as arguments: two searches for finished streams, or for SIP
    calls or events, and their counts, have the same text when they give the same
    kinds of bounds, name the same sort column and have filters that differ in
    their string literals at most; the text of a lookup by ids depends on how
    many there are, that of the other lookups on nothing.  The rest of a filter
    does reach the text, as a [filter_text]: markers, whitelisted columns,
    operators, and the filter's numbers, printed with number bytes only. *)
Theorem queries_hide_user_text :
  (forall flt flt' s s', alike flt flt' ->
     finished_stmt flt = Ok s -> finished_stmt flt' = Ok s' -> sql s = sql s') /\
  (forall flt flt' s s', alike flt flt' ->
     finished_count_stmt flt = Ok s -> finished_count_stmt flt' = Ok s' -> sql s = sql s') /\
  (forall lo lo' hi hi' limit limit' offset offset' id id' e e' s s',
     same_given lo lo' -> same_given hi hi' -> (id = "" <-> id' = "") -> same_but_literals e e' ->
     call_list_stmt lo hi limit offset id e = Ok s -> call_list_stmt lo' hi' limit' offset' id' e' = Ok s' ->
     sql s = sql s') /\
  (forall lo lo' hi hi' id id' e e' s s',
     same_given lo lo' -> same_given hi hi' -> (id = "" <-> id' = "") -> same_but_literals e e' ->
     call_count_stmt lo hi id e = Ok s -> call_count_stmt lo' hi' id' e' = Ok s' -> sql s = sql s') /\
  (forall t t' lo lo' hi hi' limit limit' offset offset',
     same_given t t' -> same_given lo lo' -> same_given hi hi' ->
     sql (sip_events_stmt t lo hi limit offset) = sql (sip_events_stmt t' lo' hi' limit' offset') /\
     sql (sip_event_count_stmt t lo hi) = sql (sip_event_count_stmt t' lo' hi')) /\
  (forall ids ids', length ids = length ids' ->
     sql (stream_mos_stmt ids) = sql (stream_mos_stmt ids') /\ sql (call_health_stmt ids) = sql (call_health_stmt ids')) /\
  (forall id id' t t', sql (call_events_stmt id) = sql (call_events_stmt id') /\ sql (audio_stmt id) = sql (audio_stmt id') /\
     sql (final_stmt id) = sql (final_stmt id') /\ sql (history_stmt id) = sql (history_stmt id') /\
     sql (report_stmt id t) = sql (report_stmt id' t')) /\
  (forall seconds seconds' mos mos' now now', sql (widget_stmt seconds mos now) = sql (widget_stmt seconds' mos' now')) /\
  (forall e f, BuildWhere e "qmark" = Ok f -> filter_text SQLNameMap (Text f)) /\
  (forall e f, BuildSipCallWhere e "qmark" = Ok f -> filter_text SipCallNameMap (Text f)).
Proof.
  split; [|split; [|split; [|split; [|split; [|split; [|split; [|split; [|split]]]]]]]].
  - intros flt flt' s s' [Hsort Hdesc Hi Hc He] Hs Hs'.
    apply res_bind_Ok in Hs as (w & Hw & <-%Ok_inj). apply res_bind_Ok in Hs' as (w' & Hw' & <-%Ok_inj). cbn [sql].
    rewrite Hdesc, (sort_text _ _ _ Hsort). by rewrite (finishedWhere_text _ _ _ _ Hi Hc He Hw Hw').
  - intros flt flt' s s' [_ _ Hi Hc He] Hs Hs'.
    apply res_bind_Ok in Hs as (w & Hw & <-%Ok_inj). apply res_bind_Ok in Hs' as (w' & Hw' & <-%Ok_inj). cbn [sql].
    by rewrite (finishedWhere_text _ _ _ _ Hi Hc He Hw Hw').
  - intros lo lo' hi hi' limit limit' offset offset' id id' e e' s s' Hlo Hhi Hid He Hs Hs'.
    apply res_bind_Ok in Hs as (c & Hw & <-%Ok_inj). apply res_bind_Ok in Hs' as (c' & Hw' & <-%Ok_inj). cbn [sql].
    rewrite (sipCallFilter_text _ _ _ _ He Hw Hw').
    by rewrite (sipEventWhere_text None None lo lo' hi hi' id id').
  - intros lo lo' hi hi' id id' e e' s s' Hlo Hhi Hid He Hs Hs'.
    apply res_bind_Ok in Hs as (c & Hw & <-%Ok_inj). apply res_bind_Ok in Hs' as (c' & Hw' & <-%Ok_inj).
    rewrite (sipCallFilter_text _ _ _ _ He Hw Hw'), (sipEventWhere_text None None lo lo' hi hi' id id') by done.
    by destruct (String.eqb _ _).
  - intros t t' lo lo' hi hi' limit limit' offset offset' Ht Hlo Hhi. unfold sip_events_stmt, sip_event_count_stmt. cbn [sql].
    by rewrite (sipEventWhere_text t t' lo lo' hi hi' "" "").
  - intros ids ids' Hids. unfold stream_mos_stmt, call_health_stmt. cbn [sql]. by rewrite Hids.
  - done.
  - done.
  - intros e f Hf. apply res_bind_Ok in Hf as (n & _ & Hf). by eapply ToSQL_text.
  - intros e f Hf. apply res_bind_Ok in Hf as (n & _ & Hf). by eapply ToSQL_text.
Qed.

Lemma queries_bind_all_witness :
  balanced (Stmt ("select * from (" +:+ sipCallAggregate " where event_timestamp >= ? and call_id = ? " +:+
    ") c where (c.caller = ?) order by c.last_ts desc limit ? offset ?")
    [AInt64 5; AString "c1"; AString "alice'; drop table rtpmon_streams"; AInt 50; AInt 0]).
Proof.
  apply (proj1 queries_bind_all (Some 5) None 50 0 "c1"
    ("caller == " +:+ bytes [34] +:+ "alice'; drop table rtpmon_streams" +:+ bytes [34])).
  vm_compute. reflexivity.
Defined.

Lemma queries_hide_user_text_witness :
  let f1 := MkSearchFilter 0 50 "sevana_mos" true "src_ip == 10.0.0.1" (Some (MkDateInterval 1 2)) "call-1" in
  let f2 := MkSearchFilter 100 20 "sevana_mos" true "src_ip == 192.168.1.9" (Some (MkDateInterval 7 9)) "x' or 1=1" in
  exists s1 s2, finished_stmt f1 = Ok s1 /\ finished_stmt f2 = Ok s2 /\ sql s1 = sql s2 /\
    args s1 = [AInt64 1000; AInt64 2000; AString "call-1"; AString "10.0.0.1"; AInt 50; AInt 0].
Proof.
  intros f1 f2.
  assert (same_but_literals (Transport.Expression f1) (Transport.Expression f2)) as He.
  { split_and!; [done|done|]. intros _. eexists _, _. split; [vm_compute; reflexivity|].
    split; [vm_compute; reflexivity|]. vm_compute. reflexivity. }
  destruct (finished_stmt f1) as [s1|] eqn:E1; [|vm_compute in E1; discriminate].
  destruct (finished_stmt f2) as [s2|] eqn:E2; [|vm_compute in E2; discriminate].
  exists s1, s2. split; [done|]. split; [done|]. split.
  - apply (proj1 queries_hide_user_text f1 f2); [by split|done|done].
  - vm_compute in E1. injection E1 as <-. reflexivity.
Defined.

(** * Call verdicts *)

Definition sane_warning (w : CallHealthWarning) : Prop :=
  utf8_valid (Code w) = true /\ utf8_valid (Tag w) = true /\ utf8_valid (Explanation w) = true /\
  Forall (fun s => utf8_valid s = true) (StreamIDs w).

(** The row [AddCallHealth] writes for a verdict. *)
Definition health_row (e : CallHealth) : vmap := list_to_map
  [("call_id", AString (ch_CallID e)); ("event_timestamp", AInt64 (ch_Timestamp e));
   ("stream_count", AInt64 (StreamCount e));
   ("warnings", AString (default "" (marshal (JArray (Writer.warning_json <$> Warnings e)))))].

Lemma sanitize_list l : Forall (fun s => utf8_valid s = true) l -> (fun s => sanitize s) <$> l = l.
Proof. induction 1 as [|s l Hs _ IH]; [done|]. by rewrite fmap_cons, IH, sanitize_valid. Qed.

Lemma decode_strings_back l old :
  decode_strings (VArr (VStr <$> l)) old = (l, true).
Proof.
  cbn. f_equal.
  - rewrite <- list_fmap_compose. induction l as [|s l IH]; [done|]. by rewrite fmap_cons, IH.
  - induction l as [|s l IH]; [done|]. done.
Qed.

Lemma decode_warning_back w : sane_warning w -> decode_warning (to_val (Writer.warning_json w)) = (w, true).
Proof.
  intros (Hc & Ht & He & Hs). unfold Writer.warning_json. cbn [to_val].
  assert (to_val <$> (JString <$> StreamIDs w) = VStr <$> StreamIDs w) as E.
  { rewrite <- list_fmap_compose. rewrite <- (sanitize_list (StreamIDs w) Hs) at 2.
    by rewrite <- list_fmap_compose. }
  rewrite !fmap_cons. cbn [to_val]. change (fmap to_val (JString <$> StreamIDs w)) with (to_val <$> (JString <$> StreamIDs w)).
  rewrite E, !sanitize_valid by done.
  change (decode_warning (VObj ?l)) with (fold_left decode_member l (zero_warning, true)). cbn [fold_left fmap list_fmap].
  change (decode_member (zero_warning, true) ("code", VStr (Code w))) with (MkCallHealthWarning (Code w) "" "" [], true).
  change (decode_member (MkCallHealthWarning (Code w) "" "" [], true) ("tag", VStr (Tag w)))
    with (MkCallHealthWarning (Code w) (Tag w) "" [], true).
  change (decode_member (MkCallHealthWarning (Code w) (Tag w) "" [], true) ("explanation", VStr (Explanation w)))
    with (MkCallHealthWarning (Code w) (Tag w) (Explanation w) [], true).
  change (decode_member (MkCallHealthWarning (Code w) (Tag w) (Explanation w) [], true) ("stream_ids", ?v))
    with (let '(x, b) := decode_strings v [] in (MkCallHealthWarning (Code w) (Tag w) (Explanation w) x, true && b)).
  rewrite decode_strings_back. by destruct w.
Qed.

Lemma warnings_text ws : exists t, marshal (JArray (Writer.warning_json <$> ws)) = Some t.
Proof.
  rewrite marshal_array. enough (exists ts, mapM marshal (Writer.warning_json <$> ws) = Some ts) as [ts ->] by (by eexists).
  induction ws as [|w ws [ts IH]]; [by eexists|]. rewrite fmap_cons. cbn [mapM].
  assert (exists t, marshal (Writer.warning_json w) = Some t) as [t ->].
  { unfold Writer.warning_json. rewrite marshal_object. cbn [mapM]. unfold member_text. cbn [fst snd].
    rewrite marshal_array. assert (forall l, exists ts, mapM marshal (JString <$> l) = Some ts) as Hl.
    { intros l. induction l as [|s l [ts' IHl]]; [by eexists|]. rewrite fmap_cons. cbn [mapM].
      rewrite IHl. by eexists. }
    destruct (Hl (StreamIDs w)) as [ts' ->]. by eexists. }
  rewrite IH. by eexists.
Qed.

(** What is stored reads back. *)
Lemma decode_warnings_back ws : Forall sane_warning ws ->
  decode_warnings (default "" (marshal (JArray (Writer.warning_json <$> ws)))) = (ws, true).
Proof.
  intros Hs. destruct (warnings_text ws) as [t Ht]. rewrite Ht. change (default "" (Some t)) with t. unfold decode_warnings.
  rewrite (unmarshal_marshal _ _ Ht).
  - cbn [to_val]. change (fmap to_val (Writer.warning_json <$> ws)) with (to_val <$> (Writer.warning_json <$> ws)).
    clear t Ht. induction Hs as [|w l Hw _ IH]; [done|]. rewrite !fmap_cons. cbn [forallb].
    rewrite decode_warning_back by done. cbn [fst snd andb].
    f_equal; [f_equal; exact (f_equal fst IH)|exact (f_equal snd IH)].
  - cbn. apply forallb_forall. intros x Hx. apply list_elem_of_In, list_elem_of_fmap in Hx as (w & -> & _).
    cbn. induction (StreamIDs w); [done|]. cbn in *. done.
  - etrans; [|apply (proj1 (Nat.leb_le 3 max_depth)); vm_compute; reflexivity].
    cbn [nesting]. apply le_n_S.
    assert (forall l : list json, Forall (fun j => (nesting j <= 2)%nat) l -> (foldr Nat.max 0 (nesting <$> l) <= 2)%nat) as Hm.
    { induction 1 as [|j l Hj _ IH]; [cbn; lia|]. rewrite fmap_cons. cbn [foldr]. lia. }
    apply Hm, Forall_fmap, Forall_true. intros w. unfold Writer.warning_json, compose. cbn.
    enough (foldr Nat.max 0%nat (nesting <$> (JString <$> StreamIDs w)) = 0%nat) as -> by lia.
    induction (StreamIDs w) as [|x l IH]; [done|]. by rewrite !fmap_cons.
Qed.

Lemma health_row_back e : Forall sane_warning (Warnings e) ->
  getStr (health_row e) "call_id" = ch_CallID e /\
  health_of_row (health_row e) = MkHealth (ch_Timestamp e) (StreamCount e) (Warnings e).
Proof.
  intros Hs. unfold health_of_row.
  assert (getStr (health_row e) "warnings" =
    default "" (marshal (JArray (Writer.warning_json <$> Warnings e)))) as ->.
  { unfold getStr, health_row. by rewrite list_to_map_mlookup. }
  rewrite decode_warnings_back by done. unfold getStr, getI64, vget, health_row.
  rewrite !list_to_map_mlookup. done.
Qed.

(** The latest verdict of a call in a history. *)
Definition latest_verdict (id : string) (evs : list CallHealth) : option CallHealth :=
  last (List.filter (fun e => String.eqb (ch_CallID e) id) evs).

(** C19. A call shows the latest verdict recorded for it: of the rows the
    writer stored for a history of verdicts, in order, the API returns for
    each call the time, the stream count and the warnings of its last one,
    every warning with its code, tag, explanation and stream ids intact; a
    call without a verdict has none. *)
Theorem verdicts_read_back evs id : Forall (fun e => Forall sane_warning (Warnings e)) evs ->
  health_of_rows (health_row <$> evs) !! id =
    (fun e => MkHealth (ch_Timestamp e) (StreamCount e) (Warnings e)) <$> latest_verdict id evs.
Proof.
  intros Hs. unfold health_of_rows, latest_verdict.
  induction evs as [|e evs IH] using rev_ind; [done|].
  apply Forall_app in Hs as [Hs He]. apply Forall_cons_1 in He as [He _]. specialize (IH Hs).
  destruct (health_row_back e He) as [Hid Hrow].
  rewrite fmap_app, fold_left_app. cbn [fold_left fmap list_fmap]. rewrite Hid, Hrow, List.filter_app. cbn [List.filter].
  destruct (String.eqb_spec (ch_CallID e) id) as [<-|Hne].
  - by rewrite lookup_insert_eq, last_snoc.
  - by rewrite lookup_insert_ne, IH, app_nil_r by done.
Qed.

Lemma verdicts_read_back_witness :
  let w := MkCallHealthWarning "one_way_audio" "ONE WAY" "no audio from <callee> & co" ["s1"; "s2"] in
  let evs := [MkCallHealth "c1" 1000 2 [w]; MkCallHealth "c2" 1500 1 []; MkCallHealth "c1" 2000 2 []] in
  health_of_rows (health_row <$> evs) !! "c1" = Some (MkHealth 2000 2 []).
Proof.
  intros w evs. rewrite (verdicts_read_back evs "c1"); [reflexivity|]. repeat constructor.
Defined.
