(* ===== verification/Api.v ===== *)
(** The read API ([internal/api/app.go]): the handlers as functions of the
    request's query parameters, the state they read - registry, snapshot and
    database - and, for the track list, the control connection and the store
    they change.

    A panic of a handler is [None]; the HTTP server recovers it.  The text of
    an error is a parameter. *)

From S2P Require Import Prelude GoFloat GoStrings Values Model Json Rows Serialize Queries Csv Transport Stats Registry Store Writer WriterInv Workers.
From S2P Require Wav Pvqa.

(** * Requests and responses *)

(** [r.URL.Query()]: the parameters in order; [Get] reads the first. *)
Abbreviation params := (list (string * string)).

Definition qget (q : params) (key : string) : string := default "" (mlookup key q).

Inductive response :=
| RJson (status : Z) (body : json)
| RCsv (content filename : string)
| RWav (linkID wav : string).

Definition writeJSON (status : Z) (body : object) : response := RJson status (jobject body).
Definition httpError (status : Z) (detail : string) : response := writeJSON status [("detail", JString detail)].

Definition farFutureSeconds : Z := 2 ^ 40.

Definition queryIntOpt (q : params) (key : string) : option Z :=
  let v := qget q key in if String.eqb v "" then None else atoi v.

Definition queryFloatOpt (q : params) (key : string) : option float64 :=
  let v := qget q key in if String.eqb v "" then None else parse_float v.

Section api.
Context `{UnicodeTables} `{LocalZone} `{Engine} (error_text : query_error -> string).

Definition queryBool (q : params) (key : string) : bool :=
  existsb (String.eqb (to_lower (qget q key))) ["true"; "1"; "yes"; "on"].

Definition firstNonEmptyQ (q : params) (keys : list string) : string :=
  default "" (head (List.filter (fun v => negb (String.eqb v "")) (qget q <$> keys))).

Definition optOr (p : option Z) (def : Z) : Z := default def p.

(** * Dependencies *)

Record Deps := MkDeps {
  AgentID : string; AgentName : string;
  GoodMosThreshold : float64; SilenceRatioThreshold : float64; MaxStreams : Z; dep_Version : string;
  dep_Registry : option registry; dep_Snapshot : option snapshot; dep_Thresholds : Pvqa.Thresholds
}.

Definition envelope (d : Deps) : object := AgentEnvelope (AgentID d) (AgentName d).

Definition snapshotJSON (d : Deps) : option object :=
  s ← dep_Snapshot d; stats ← snapshot_Get s; Some (CoreStatsToJSON stats).

Definition activeCount (d : Deps) : Z := match dep_Registry d with None => 0 | Some r => ActiveCount r end.

Definition activeRecords (d : Deps) : list vmap :=
  match dep_Registry d with None => [] | Some r => SnapshotRecords r end.

(** * Plain handlers *)

(** A database error answers 503. *)
Definition or503 {A} (r : qres A) (k : A -> response) : response :=
  match r with Err e => httpError 503 (error_text e) | Ok a => k a end.

Definition instanceList : response :=
  or503 GetAgentList (fun rows =>
    RJson 200 (JArray ((fun r => jobject [("id", JString (getStr r "agent_id")); ("name", JString (getStr r "agent_name"))]) <$> rows))).

Definition serverStats (d : Deps) : response :=
  let body := [("id", JString (AgentID d)); ("name", JString (AgentName d))] in
  writeJSON 200 (jputs (default [] (snapshotJSON d)) body).

Definition version (d : Deps) : response := writeJSON 200 [("version", JString (dep_Version d))].

(** [now1] and [now2] are the clock at its two queries. *)
Definition summary (d : Deps) (now1 now2 : Z) : option response :=
  let snap := snapshotJSON d in
  let live := [("active_streams", JInt (activeCount d))] ++
              match dep_Registry d with
              | Some r => [("session_started", JInt (started r)); ("session_finished", JInt (finished r))]
              | None => []
              end in
  let body := envelope d ++
    [("core", jobject (default [] snap)); ("core_available", JBool (bool_decide (is_Some snap))); ("live", jobject live)] in
  oneH ← FindWidgetStats 3600 (GoodMosThreshold d) now1;
  match oneH with
  | Err e => Some (httpError 503 (error_text e))
  | Ok oneH =>
      dayH ← FindWidgetStats 86400 (GoodMosThreshold d) now2;
      Some (or503 dayH (fun dayH =>
        writeJSON 200 (body ++
          [("historical", jobject
             [("good_mos_threshold", JFloat (GoodMosThreshold d));
              ("1h", jobject (WidgetStatsToJSON oneH)); ("24h", jobject (WidgetStatsToJSON dayH))])])))
  end.

(** The paging of the SIP lists. *)
Definition page_limit (d : Deps) (q : params) : Z :=
  let limit := optOr (queryIntOpt q "limit") 0 in if limit <=? 0 then MaxStreams d else limit.
Definition page_offset (q : params) : Z :=
  let offset := optOr (queryIntOpt q "offset") 0 in if offset <? 0 then 0 else offset.

Definition CallHealthToJSON (h : option health) : json :=
  match h with
  | None => JNull
  | Some h => jobject [("timestamp", JInt (he_Timestamp h)); ("stream_count", JInt (he_StreamCount h));
                       ("warnings", JArray (Writer.warning_json <$> he_Warnings h))]
  end.

Definition sipCalls (d : Deps) (q : params) : response :=
  let limit := page_limit d q in
  let offset := page_offset q in
  let callID := qget q "call_id" in
  let start := queryIntOpt q "start_timestamp" in
  let stop := queryIntOpt q "end_timestamp" in
  let expr := qget q "filter" in
  match GetSipCallCount start stop callID expr with
  | Err (ExprError e) =>
      writeJSON 200 (envelope d ++ [("total_calls_count", JInt 0); ("calls", JArray []);
                                    ("error", JString (error_text (ExprError e)))])
  | Err e => httpError 503 (error_text e)
  | Ok count =>
      or503 (GetSipCallList start stop limit offset callID expr) (fun rows =>
      or503 (GetCallHealth ((fun s => getStr s "call_id") <$> rows)) (fun health =>
        writeJSON 200 (envelope d ++
          [("total_calls_count", JInt count);
           ("calls", JArray ((fun s => jobject (SipCallSummaryToJSON s ++
              [("health", CallHealthToJSON (health !! getStr s "call_id"))])) <$> rows))])))
  end.

Definition sipCall (d : Deps) (q : params) : response :=
  let callID := qget q "call_id" in
  if String.eqb callID "" then httpError 422 "call_id is required"
  else
    or503 (GetSipCallEvents callID) (fun events =>
    or503 (GetCallHealth [callID]) (fun health =>
      writeJSON 200 (envelope d ++
        [("call_id", JString callID); ("events", JArray ((fun e => jobject (SipEventRowToJSON e)) <$> events));
         ("event_count", JInt (Z.of_nat (length events)));
         ("health", CallHealthToJSON (health !! callID))]))).

Definition sipEvents (d : Deps) (q : params) : response :=
  let eventType := queryIntOpt q "type" in
  let start := queryIntOpt q "start_timestamp" in
  let stop := queryIntOpt q "end_timestamp" in
  or503 (GetSipEventCount eventType start stop) (fun count =>
  or503 (GetSipEvents eventType start stop (page_limit d q) (page_offset q)) (fun rows =>
    writeJSON 200 (envelope d ++
      [("total_events_count", JInt count);
       ("events", JArray ((fun e => jobject (SipEventRowToJSON e)) <$> rows))]))).

Definition audio (q : params) : response :=
  let linkID := qget q "link_id" in
  if String.eqb linkID "" then httpError 422 "link_id is required"
  else
    or503 (GetStreamAudioChunks linkID) (fun chunks =>
      let wav := Wav.ConcatWav chunks in
      if String.eqb wav "" then httpError 404 "No audio stored for this stream." else RWav linkID wav).

Definition streamHistory (d : Deps) (q : params) : option response :=
  let sid := firstNonEmptyQ q ["stream_id"; "id"] in
  if String.eqb sid "" then Some (httpError 503 "Param stream_id is required.")
  else
    match GetStreamHistory sid with
    | Err e => Some (httpError 503 (error_text e))
    | Ok rows =>
        match GetStreamFinal sid with
        | Err e => Some (httpError 503 (error_text e))
        | Ok final =>
            match rows, final with
            | [], None => Some (httpError 404 "Stream not found.")
            | _, _ =>
                body ← StreamHistoryToJSON (dep_Thresholds d) rows (AgentID d) (AgentName d) final (SilenceRatioThreshold d);
                Some (writeJSON 200 body)
            end
        end
    end.

Definition report (d : Deps) (q : params) : option response :=
  let sid := firstNonEmptyQ q ["stream_id"; "id"] in
  let ts := match queryFloatOpt q "timestamp" with Some t => Some t | None => queryFloatOpt q "time" end in
  match ts with
  | Some t =>
      if String.eqb sid "" then Some (httpError 503 "Params stream_id and timestamp are required.")
      else
        match GetReport sid (int64_of_f64 t) with
        | Err e => Some (httpError 503 (error_text e))
        | Ok None => Some (httpError 404 "Report not found.")
        | Ok (Some row) => body ← ReportRowToJSON (dep_Thresholds d) row; Some (writeJSON 200 body)
        end
  | None => Some (httpError 503 "Params stream_id and timestamp are required.")
  end.


(** * The CSV downloads *)

Definition ExportFilter (flt : SearchFilter) : SearchFilter :=
  MkSearchFilter 0 ExportLimit (SortField flt) (Descending flt) (Transport.Expression flt)
    (FilterInterval flt) (Transport.SIPCallID flt).

Definition history_detectors (thresholds : Pvqa.Thresholds) (row : vmap) : option (qres (list Pvqa.DetectorCount)) :=
  match GetStreamHistory (getStr row "link_id") with
  | Err e => Some (Err e)
  | Ok history =>
      d ← Pvqa.DecomposeWith ((fun h => getStr h "detector_report") <$> history) thresholds;
      Some (Ok (Pvqa.Detectors d))
  end.

(** The rows in order; the first database error ends the export. *)
Fixpoint export_rows (thresholds : Pvqa.Thresholds) (detailed : bool) (rows : list vmap) : option (qres (list csvStream)) :=
  match rows with
  | [] => Some (Ok [])
  | row :: rows =>
      detectors ← (if detailed then history_detectors thresholds row else Some (Ok []));
      match detectors with
      | Err e => Some (Err e)
      | Ok ds =>
          out ← export_rows thresholds detailed rows;
          Some (let? streams := out in Ok (MkCsvStream (BasicFromFinished row) ds :: streams))
      end
  end.

Definition FinishedCSV (thresholds : Pvqa.Thresholds) (flt : SearchFilter) (detailed : bool) : option (qres string) :=
  match GetFinishedStreams (ExportFilter flt) with
  | Err e => Some (Err e)
  | Ok rows =>
      out ← export_rows thresholds detailed rows;
      Some (let? streams := out in Ok (renderCSV streams detailed))
  end.

(** * The stream lists *)

(** The image, or the default filter when there is none. *)
Definition image_filter (image : string) : SearchFilter :=
  if String.eqb image "" then NewSearchFilter else ParseSearchFilter image.

Definition statsFilter (d : Deps) (image : string) (start stop : option Z) (sipCallID : string) : SearchFilter :=
  let f := image_filter image in
  MkSearchFilter (PageOffset f) (if MaxCount f <=? 0 then MaxStreams d else MaxCount f)
    (SortField f) (Descending f) (Transport.Expression f)
    (match start, stop with
     | None, None => FilterInterval f
     | _, _ => Some (MkDateInterval (default 0 start) (default farFutureSeconds stop))
     end)
    (if String.eqb sipCallID "" then Transport.SIPCallID f else sipCallID).

Definition streams_json (l : list object) : json := jobject [("streams", JArray (jobject <$> l))].

(** The fields of the active list. *)
Definition active_fields (d : Deps) (q : params) : option object :=
  let mem := statsFilter d (qget q "mem_filter") (queryIntOpt q "mem_start_timestamp")
    (queryIntOpt q "mem_end_timestamp") (qget q "sip_callid") in
  '(page, total) ← PaginateActive (activeRecords d) mem;
  let counted := [("available_active_streams_count", JInt total)] in
  if queryBool q "show_active" then
    streams ← mapM (fun rec => ActiveRecordToJSON (dep_Thresholds d) rec (SilenceRatioThreshold d)) page;
    Some (counted ++ [("total_active_streams_count", JInt (activeCount d)); ("active_streams", streams_json streams)])
  else Some counted.

(** The fields of the finished list: an error - a bad filter too - is part of
    the body. *)
Definition finished_fields (d : Deps) (q : params) : option object :=
  let dbf := statsFilter d (qget q "db_filter") (queryIntOpt q "db_start_timestamp")
    (queryIntOpt q "db_end_timestamp") (qget q "sip_callid") in
  let shown := queryBool q "show_finished" in
  match GetFinishedStreamCount dbf with
  | Err e =>
      Some ([("available_finished_streams_count", JInt 0)] ++
            (if shown then [("finished_streams", streams_json [])] else []) ++
            [("error", JString (error_text e))])
  | Ok count =>
      let counted := [("available_finished_streams_count", JInt count)] in
      if shown then
        let total := match GetFinishedStreamCount NewSearchFilter with Ok n => n | Err _ => 0 end in
        let counted := counted ++ [("total_finished_streams_count", JInt total)] in
        match GetFinishedStreams dbf with
        | Err e => Some (counted ++ [("finished_streams", streams_json []); ("error", JString (error_text e))])
        | Ok rows =>
            streams ← mapM (fun row => FinishedStreamRowToJSON (dep_Thresholds d) row (SilenceRatioThreshold d)) rows;
            Some (counted ++ [("finished_streams", streams_json streams)])
        end
      else Some counted
  end.

Definition stats (d : Deps) (q : params) : option response :=
  if queryBool q "download_db" then
    csv ← FinishedCSV (dep_Thresholds d) (image_filter (qget q "db_filter")) (queryBool q "show_detectors");
    Some (or503 csv (fun csv => RCsv csv "vq-db-finished.csv"))
  else if queryBool q "download_active" then
    csv ← ActiveCSV (dep_Thresholds d) (activeRecords d) true;
    Some (RCsv csv "vq-db-active.csv")
  else
    active ← (if queryBool q "show_active" || queryBool q "mem_show_count" then active_fields d q else Some []);
    finished ← (if queryBool q "show_finished" || queryBool q "db_show_count" then finished_fields d q else Some []);
    Some (writeJSON 200 (envelope d ++ active ++ finished)).

(** * The track list *)

Section control.
Context {C : Type} `{!Control C}.

(** The patterns of a request: every [pattern] parameter that is not empty. *)
Definition track_patterns (q : params) : list string :=
  List.filter nonempty (snd <$> List.filter (fun kv => String.eqb kv.1 "pattern") q).

Definition is_query (op : TrackOp) : bool := match op with TrackQuery => true | _ => false end.

(** A slice of strings: the client leaves an empty one nil, which encodes as
    [null]. *)
Definition strings_json (l : list string) : json :=
  match l with [] => JNull | _ => JArray (JString <$> l) end.

Definition ack_body (ack : TrackAck) : object :=
  [("ok", JBool (ack_OK ack)); ("affected_streams", JInt (AffectedStreams ack));
   ("current", strings_json (Current ack))] ++
  (if String.eqb (ack_Error ack) "" then [] else [("error", JString (ack_Error ack))]).

(** [persist]: whether a track store is configured; [w] is its database.  A
    failing [Save] is logged only. *)
Definition track (persist : bool) (op : TrackOp) (require : bool) (q : params) (control : option C) (w : writer)
    : response * option C * writer :=
  match control with
  | None => (httpError 503 "track-list control is not configured", None, w)
  | Some c =>
      let patterns := track_patterns q in
      if require && bool_decide (patterns = []) then
        (httpError 400 "at least one 'pattern' parameter is required", Some c, w)
      else
        let '(ack, c) := Send op patterns c in
        if negb (TransportOK ack) then
          (httpError 503 (if String.eqb (ack_Error ack) "" then "vq-core control socket unreachable" else ack_Error ack),
           Some c, w)
        else
          let w := if negb (is_query op) && ack_OK ack && persist then (Save (Current ack) w).2 else w in
          (writeJSON 200 (ack_body ack), Some c, w)
  end.

(** The routes [/track], [/track/add], [/track/remove], [/track/replace]. *)
Definition track_route (op : TrackOp) : bool := match op with TrackAdd | TrackRemove => true | _ => false end.
End control.

(** * The alarms *)

Record AlarmView := MkAlarmView { Configured : bool; av_Rules : list json; av_Events : list json; av_Error : string }.

Definition alarms_limit (q : params) : Z :=
  let limit := optOr (queryIntOpt q "limit") 50 in if (limit <=? 0) || (1000 <? limit) then 50 else limit.

Definition alarms (d : Deps) (view : option (Z -> AlarmView)) (q : params) : response :=
  let v := match view with Some f => f (alarms_limit q) | None => MkAlarmView false [] [] "" end in
  writeJSON 200 (envelope d ++
    [("configured", JBool (Configured v)); ("rules", JArray (av_Rules v)); ("events", JArray (av_Events v))] ++
    (if String.eqb (av_Error v) "" then [] else [("error", JString (av_Error v))])).
End api.

(** * A track list survives *)

Section track_theorems.
Context {C : Type} `{!Control C} `{!HonestControl C}.

(** C16. Changing the track list.  When the engine accepts a change, the answer
    shows the engine's list.  If [Save] then succeeds, that list without its empty
    patterns is what the database has: whatever faults come later, a [Load] that
    succeeds returns it, and an engine that restarted without a list has exactly
    it after a sync that reports success - a list that was cleared, or has
    duplicates, included.  An engine that kept a list of its own gets the same
    patterns if neither list has duplicates, and keeps its own if the stored one
    is empty.  If [Save] fails, the database keeps what it had, although the
    answer is the same.  In every other case - a query, a refusal, an engine out
    of reach, a missing pattern - the database is not touched. *)
Theorem track_survives_restart op require q (c : C) w :
  let ack := (Send op (track_patterns q) c).1 in
  let accepted := negb (require && bool_decide (track_patterns q = [])) && TransportOK ack && ack_OK ack && negb (is_query op) in
  let '(r, _, w') := track true op require q (Some c) w in
  (accepted = false -> w' = w) /\
  (accepted = true ->
   r = writeJSON 200 (ack_body ack) /\
   match (Save (Current ack) w).1 with
   | Err _ => tables (db w') = tables (db w)
   | Ok _ =>
       Forall (fun p => utf8_valid p = true) (Current ack) ->
       forall store w'', Load w' = (Ok store, w'') ->
         store = List.filter nonempty (Current ack) /\
         forall engine engine', accepts store -> SyncOnce (Ok store) engine = (true, engine') ->
           (tracked engine = [] -> tracked engine' = store) /\
           (store <> [] -> NoDup store -> NoDup (tracked engine) -> tracked engine' ≡ₚ store) /\
           (store = [] -> engine' = engine)
   end).
Proof using.
  intros ack accepted. unfold track, accepted. destruct (require && bool_decide _); [done|].
  unfold ack in *. destruct (Send op (track_patterns q) c) as [a c1]. cbn [fst negb andb].
  destruct (TransportOK a); [|done]. cbn [negb andb]. destruct (ack_OK a); [|by rewrite !andb_false_r].
  destruct (negb (is_query op)); cbn [andb]; [|done].
  split; [done|]. intros _. split; [done|]. destruct (Save (Current a) w) as [[[]|e] w1] eqn:ES; cbn [fst snd].
  - intros Hv store w'' HL. split; [by apply (Load_Save _ _ _ _ _ Hv ES HL)|]. intros engine engine' Hacc Hsync. split; [|split].
    + intros Hc. by apply (SyncOnce_restarted store engine).
    + intros Hne Hd He. by apply (SyncOnce_synced store engine).
    + intros ->. by injection Hsync as <-.
  - by eapply Save_Err.
Qed.
End track_theorems.

#[local] Existing Instance sample_control.
#[local] Existing Instance sample_honest.

(** Adding a pattern that is there already to a running engine, which restarts
    with an empty list. *)
Lemma track_survives_restart_witness :
  let q := [("pattern", "sip:a"); ("pattern", "")] in
  let w := fresh_writer 0 [] [None; Some (SqliteError 5)] in
  let '(_, _, w') := track true TrackAdd true q (Some (MkEngine true ["sip:a"])) w in
  (Load w').1 = Ok ["sip:a"; "sip:a"] /\
  (SyncOnce (Ok ["sip:a"; "sip:a"]) (MkEngine true [])).1 = true /\
  tracked (SyncOnce (Ok ["sip:a"; "sip:a"]) (MkEngine true [])).2 = ["sip:a"; "sip:a"].
Proof.
  intros q w. pose proof (track_survives_restart TrackAdd true q (MkEngine true ["sip:a"]) w) as Ht.
  assert ((Load (track true TrackAdd true q (Some (MkEngine true ["sip:a"])) w).2).1 = Ok ["sip:a"; "sip:a"]) as HL
    by (vm_compute; reflexivity).
  destruct (track _ _ _ _ _ _) as [[r c'] w']. cbn [snd] in HL. destruct Ht as [_ Ht].
  destruct (Ht eq_refl) as [_ Hs]. split; [done|]. split; [reflexivity|].
  assert ((Save (Current (Send TrackAdd (track_patterns q) (MkEngine true ["sip:a"])).1) w).1 = Ok tt) as E1
    by (vm_compute; reflexivity).
  rewrite E1 in Hs. destruct (Load w') as [st w''] eqn:E. cbn [fst] in HL. subst st.
  destruct (Hs ltac:(repeat constructor) _ _ eq_refl) as [_ He].
  by apply (He (MkEngine true []) (MkEngine true ["sip:a"; "sip:a"]) I).
Defined.

(** * The rows of the lists *)

Section rows.
Context `{LocalZone} (thresholds : Pvqa.Thresholds).

Lemma field_jput k k' v o : field k (jput k' v o) = if String.eqb k k' then v else field k o.
Proof using.
  unfold field. induction o as [|[n x] o IH]; cbn [jput].
  - rewrite mlookup_cons. by destruct (String.eqb k k').
  - destruct (String.eqb_spec k' n) as [->|Hn]; rewrite !mlookup_cons.
    + by destruct (String.eqb k n).
    + destruct (String.eqb_spec k n) as [->|]; [|apply IH].
      destruct (String.eqb_spec n k'); [congruence|done].
Qed.

Lemma field_jputs k fs o : field k (jputs fs o) = default (field k o) (mlookup k (rev fs)).
Proof using.
  revert o. induction fs as [|[n x] fs IH] using rev_ind; intros o; [done|].
  unfold jputs. rewrite fold_left_app. cbn [fold_left fst snd]. rewrite field_jput, rev_app_distr. cbn [rev app].
  rewrite mlookup_cons. destruct (String.eqb k n); [done|]. apply IH.
Qed.

Lemma sum_u64_nonneg f l : 0 <= sum_u64 f l.
Proof using.
  unfold sum_u64. enough (forall a, 0 <= a -> 0 <= fold_left (fun acc rp => wrapu64 (acc + f rp)) l a) as Hf by by apply Hf.
  induction l as [|x l IH]; intros a Ha; [done|]. apply IH. apply wrapu64_range.
Qed.

(** The values a column of an active stream can hold, as shown. *)
Definition shown (v : any) : json :=
  match v with AString s => JString s | AInt64 n => JInt n | AFloat f => JFloat f | _ => JNull end.

Definition plain_columns : list string :=
  ["sevana_mos"; "network_mos"; "sevana_rfactor"; "duration_audio"; "sip_src"; "sip_dst"; "sip_callid"].

Ltac read_column Hk := unfold getI64, getF64, getStr, vget; rewrite ?Hk; mlookup_red.

Ltac eval_field :=
  rewrite field_jputs; cbv beta iota delta [stream_fields rev app]; unfold field; mlookup_red; cbv beta iota delta [default from_option id].

(** What a row shows, by the columns of its record. *)
Lemma active_row_fields rec t o : ActiveRecordToJSON thresholds rec t = Some o ->
  let sid := getI64 rec "dtx_sid" in
  let count := getI64 rec "dtx_count" in
  let total := getI64 rec "dtx_total" in
  let ratio := if 0 <? total then fdiv (f64_of_Z (wrap64 (sid + count))) (f64_of_Z total) else fzero in
  (forall k, k ∈ ["sevana_mos"; "network_mos"] -> field k o = JFloat (getF64 rec k)) /\
  (forall k, k ∈ ["sevana_rfactor"; "duration_audio"] -> field k o = JInt (getI64 rec k)) /\
  (forall k, k ∈ ["sip_src"; "sip_dst"; "sip_callid"] -> field k o = JString (getStr rec k)) /\
  field "jitter" o = JFloat (round3 (getF64 rec "jitter")) /\
  field "duration" o = seconds (getI64 rec "duration") /\
  field "silence_ratio" o = JFloat (round3 ratio) /\
  (0 <? total = true -> fge ratio t = true -> field "silence_suspected" o = JBool true).
Proof using.
  intros Ho sid count total ratio. unfold ActiveRecordToJSON, SilenceFields in Ho. fold sid count total in Ho. cbv zeta in Ho.
  fold ratio in Ho.
  destruct (Pvqa.SilentStream _ _) as [[silent audio]|]; [|done]. cbn [mbind option_bind] in Ho. apply Some_inj in Ho.
  subst o. split_and!; intros.
  all: repeat match goal with Hk : _ ∈ _ |- _ => apply elem_of_cons in Hk as [->|Hk] || (by apply elem_of_nil in Hk) end.
  all: eval_field; try done.
  match goal with Ht : (0 <? total) = true, Hge : fge ratio t = true |- _ => by rewrite Ht, Hge end.
Qed.

End rows.

(** A muted stream: 60 of 64 packets are silence. *)
Definition muted_report : StreamReport :=
  MkStreamReport (sample_id 7 "a") 1000 6000 1000 64 0 0 (Some (f64_of_Z 1)) None 80 (f_decimal false 12345 (-4)) "AMR"
    fzero "" 5000 0 0 20 40 64 false "" "call-1" "sip:a" "sip:b".
Definition muted_entry : entry := MkEntry (sample_id 7 "a") [muted_report] 0 6000.

#[local] Instance utc_zone : LocalZone := {| utc_offset_ms _ := 0 |}.

