(* ===== verification/Static.v ===== *)
(** The static frontend of the API ([internal/api/app.go]): which file of the
    static directory a request gets, the base-href rewriting of the index page
    behind a reverse proxy, and the redirect to the dashboard; with Go's
    [path/filepath] on Unix and the checks of [http.ServeFile] on the path.

    The file system and the working directory are parameters.  [stat] and
    [read_file] follow symbolic links, as [os.Stat] and [os.ReadFile] do: the
    theorems are about the path that is opened, and a link below the root that
    leads out of it is followed.  The file itself - ranges, content types, a file
    that vanishes after [os.Stat] - is left to [http.ServeFile]. *)

From S2P Require Import Prelude GoFloat GoStrings.

(** * path/filepath *)

Definition slash : ascii := "/"%char.

(** One element against the elements kept so far, innermost first. *)
Definition clean_step (rooted : bool) (out : list string) (e : string) : list string :=
  if String.eqb e "" || String.eqb e "." then out
  else if String.eqb e ".." then
    match out with
    | x :: rest => if String.eqb x ".." then e :: out else rest
    | [] => if rooted then [] else [e]
    end
  else e :: out.

Definition is_abs (p : string) : bool := has_prefix "/" p.

Definition Clean (p : string) : string :=
  let rooted := is_abs p in
  let elems := rev (fold_left (clean_step rooted) (split_byte slash p) []) in
  let body := join "/" elems in
  if rooted then "/" +:+ body else if String.eqb body "" then "." else body.

(** From the first element that is not empty. *)
Fixpoint Join (elems : list string) : string :=
  match elems with
  | [] => ""
  | e :: rest => if String.eqb e "" then Join rest else Clean (join "/" elems)
  end.

(** * Handlers *)

(** [SMoved] is the 301 of [http.ServeFile]; [SRedirect] a 302. *)
Inductive static_response :=
| SFile (path : string)
| SIndex (html : string)
| SNotFound
| SBadRequest
| SMoved (location : string)
| SRedirect (location : string).

(** [http.ServeFile]: a path with an element "..", whatever file it stands for,
    and one that ends in the name of the index page, are not served. *)
Definition containsDotDot (v : string) : bool :=
  existsb (String.eqb "..") (concat (split_byte "092"%char <$> split_byte slash v)).

Definition localRedirect (query location : string) : static_response :=
  SMoved (if String.eqb query "" then location else location +:+ "?" +:+ query).

Definition ServeFile (url_path query name : string) : static_response :=
  if containsDotDot url_path then SBadRequest
  else if has_suffix "/index.html" url_path then localRedirect query "./"
  else SFile name.

(** [strings.TrimRight(s, "/")]. *)
Fixpoint trim_slashes (s : string) : string :=
  match s with
  | EmptyString => ""
  | String c s =>
      match trim_slashes s with
      | EmptyString => if Ascii.eqb c slash then "" else String c ""
      | t => String c t
      end
  end.

(** [safePrefixRe]: a slash, then only characters of paths. *)
Definition prefix_byte (c : ascii) : bool :=
  in_range 65 90 c || in_range 97 122 c || in_range 48 57 c ||
  (code c =? 46) || (code c =? 95) || (code c =? 126) || (code c =? 47) || (code c =? 45).

Definition safe_prefix (p : string) : bool :=
  match p with String c rest => Ascii.eqb c slash && str_forall prefix_byte rest | EmptyString => false end.

(** The text of the base element, for a given address. *)
Definition base_open : string := "<base href=" +:+ bytes [34].
Definition base_close : string := bytes [34] +:+ ">".
Definition base_element (href : string) : string := base_open +:+ href +:+ base_close.

(** A match of [baseHrefRe] at the front: what follows it. *)
Definition match_base (s : string) : option string :=
  if has_prefix base_open s then
    let rest := (span (fun c => negb (Ascii.eqb c dquote)) (str_drop (String.length base_open) s)).2 in
    if has_prefix base_close rest then Some (str_drop (String.length base_close) rest) else None
  else None.

(** The leftmost match replaced; later ones stay. *)
Fixpoint replace_base (new s : string) : string :=
  match match_base s with
  | Some t => new +:+ t
  | None => match s with EmptyString => "" | String c s => String c (replace_base new s) end
  end.

Definition index_html (forwarded html : string) : string :=
  let prefix := trim_slashes forwarded in
  if negb (String.eqb prefix "") && safe_prefix prefix then replace_base (base_element (prefix +:+ "/")) html else html.

Definition redirectToUI (forwarded : string) : static_response :=
  let prefix := trim_slashes forwarded in
  let prefix := if negb (String.eqb prefix "") && negb (safe_prefix prefix) then "" else prefix in
  SRedirect (prefix +:+ "/ui/summary").

(** * The rewritten index *)

Lemma has_prefix_app p s : has_prefix p s = true -> s = p +:+ str_drop (String.length p) s.
Proof.
  revert s. induction p as [|a p IH]; intros s Hp; [done|]. destruct s as [|b s]; [done|].
  cbn in Hp. apply andb_true_iff in Hp as [E Hp]. apply Ascii.eqb_eq in E as ->. cbn. by rewrite <- IH.
Qed.

(** What [baseHrefRe] matches: a base element whose address has no quote. *)
Definition quoteless (href : string) : Prop := contains_byte dquote href = false.

Lemma quoteless_forall s : str_forall (fun c => negb (Ascii.eqb c dquote)) s = negb (contains_byte dquote s).
Proof. induction s as [|c s IH]; simpl in *; [done|]. rewrite IH. by destruct (Ascii.eqb c dquote). Qed.

Lemma match_base_Some s t : match_base s = Some t -> exists href, quoteless href /\ s = base_element href +:+ t.
Proof.
  unfold match_base. destruct (has_prefix base_open s) eqn:Ho; [|done]. apply has_prefix_app in Ho.
  destruct (span _ _) as [href rest] eqn:Es. pose proof (span_forall _ _ _ _ Es) as Hq. apply span_split in Es. cbn [snd].
  destruct (has_prefix base_close rest) eqn:Hc; [|done]. apply has_prefix_app in Hc. intros [= <-].
  exists href. split; [by rewrite quoteless_forall, negb_true_iff in Hq|].
  rewrite Ho, Es, Hc at 1. unfold base_element. by rewrite !str_app_assoc.
Qed.

Lemma match_base_element href t : quoteless href -> match_base (base_element href +:+ t) = Some t.
Proof.
  intros Hq. unfold base_element. rewrite !str_app_assoc.
  change (match_base (base_open +:+ ?x)) with
    (let rest := (span (fun c => negb (Ascii.eqb c dquote)) x).2 in
     if has_prefix base_close rest then Some (str_drop (String.length base_close) rest) else None).
  rewrite span_all; [done|by rewrite quoteless_forall, Hq|done].
Qed.

(** The page [s] with a base element between [a] and [b], the first one. *)
Definition first_base (s a href b : string) : Prop :=
  quoteless href /\ s = a +:+ base_element href +:+ b /\
  forall a' href' b', quoteless href' -> s = a' +:+ base_element href' +:+ b' ->
    (String.length a <= String.length a')%nat.
Definition no_base (s : string) : Prop :=
  forall a href b, quoteless href -> s <> a +:+ base_element href +:+ b.

Lemma replace_base_spec new s :
  (no_base s /\ replace_base new s = s) \/
  exists a href b, first_base s a href b /\ replace_base new s = a +:+ new +:+ b.
Proof.
  induction s as [|c s IH]; [left; split; [|done]; by intros [|? ?] href b _|]. cbn [replace_base].
  destruct (match_base (String c s)) as [t|] eqn:E.
  { right. apply match_base_Some in E as (href & Hq & E). exists "", href, t. split; [|done].
    split; [done|]. split; [done|]. intros a' href' b' _ _. apply Nat.le_0_l. }
  assert (forall a href b, quoteless href -> String c s = a +:+ base_element href +:+ b ->
    exists a', a = String c a' /\ s = a' +:+ base_element href +:+ b) as Hinv.
  { intros [|x a] href b Hq Hs; [|injection Hs as -> ->; by exists a].
    rewrite Hs in E. change ("" +:+ ?x) with x in E. by rewrite match_base_element in E. }
  destruct IH as [[Hn ->]|(a & href & b & (Hq & Hs & Hmin) & ->)].
  - left. split; [|done]. intros a href b Hq Hs. destruct (Hinv a href b Hq Hs) as (a' & _ & Hs'). by apply (Hn a' href b).
  - right. exists (String c a), href, b. split; [|done]. split; [done|]. split; [by rewrite Hs|].
    intros a0 href' b' Hq' Hs'. destruct (Hinv a0 href' b' Hq' Hs') as (a' & -> & Hs''). cbn.
    apply le_n_S. by eapply Hmin.
Qed.

(** The page behind the proxy of the header [forwarded]: its prefix, if it is a
    path of safe characters, is the address of the first base element. *)
Definition rebased (forwarded page html : string) : Prop :=
  let prefix := trim_slashes forwarded in
  if negb (String.eqb prefix "") && safe_prefix prefix
  then (no_base page /\ html = page) \/
       exists a href b, first_base page a href b /\ html = a +:+ base_element (prefix +:+ "/") +:+ b
  else html = page.

Lemma index_html_spec forwarded page : rebased forwarded page (index_html forwarded page).
Proof. unfold rebased, index_html. case_match; [apply replace_base_spec|done]. Qed.

Section static.
(** [os.Getwd], [os.Stat] (whether it is a directory) and [os.ReadFile]. *)
Context (getwd : option string) (stat : string -> option bool) (read_file : string -> option string).

Definition Abs (p : string) : option string :=
  if is_abs p then Some (Clean p) else wd ← getwd; Some (Join [wd; p]).

Definition is_file (p : string) : bool := match stat p with Some dir => negb dir | None => false end.

Definition serveIndex (forwarded index : string) : static_response :=
  match read_file index with
  | None => SNotFound
  | Some html => SIndex (index_html forwarded html)
  end.

(** The file a path names, when it lies inside the root. *)
Definition candidate (root url_path : string) : option string :=
  let fullPath := trim_prefix "/" url_path in
  let rootAbs := default "" (Abs root) in
  if String.eqb fullPath "" then None
  else
    c ← Abs (Join [root; fullPath]);
    if has_prefix (rootAbs +:+ "/") c && is_file c then Some c else None.

Definition serveStatic (root url_path query forwarded : string) : static_response :=
  match candidate root url_path with
  | Some c => ServeFile url_path query c
  | None =>
      let index := Join [root; "index.html"] in
      if is_file index then serveIndex forwarded index else SNotFound
  end.

(** * No path leaves the root *)

(** An element that names a file or directory of its parent. *)
Definition plain (e : string) : bool :=
  negb (String.eqb e "") && negb (String.eqb e ".") && negb (String.eqb e "..") && negb (contains_byte slash e).

Lemma clean_step_plain out e : Forall (fun x => plain x = true) out -> contains_byte slash e = false ->
  Forall (fun x => plain x = true) (clean_step true out e).
Proof using.
  intros Ho He. unfold clean_step. destruct (String.eqb e "") eqn:E1; [done|]. destruct (String.eqb e ".") eqn:E2; [done|].
  destruct (String.eqb e "..") eqn:E3; cbn [orb].
  - destruct out as [|x rest]; [done|]. apply Forall_cons in Ho as [Hx Hr]. destruct (String.eqb x "..") eqn:E4; [|done].
    apply String.eqb_eq in E4. by subst.
  - constructor; [|done]. unfold plain. by rewrite E1, E2, E3, He.
Qed.

Lemma Clean_abs p : is_abs p = true ->
  exists l, Clean p = "/" +:+ join "/" l /\ Forall (fun e => plain e = true) l.
Proof using.
  intros Hp. unfold Clean. rewrite Hp. eexists. split; [done|]. apply Forall_rev.
  pose proof (split_parts slash p) as Hs. revert Hs. generalize (split_byte slash p). intros l.
  enough (forall out, Forall (fun e => plain e = true) out -> Forall (fun e => contains_byte slash e = false) l ->
    Forall (fun e => plain e = true) (fold_left (clean_step true) l out)) as Hg by by apply Hg.
  induction l as [|e l IH]; intros out Ho Hl; [done|]. apply Forall_cons in Hl as [He Hl]. cbn.
  apply IH; [by apply clean_step_plain|done].
Qed.

Lemma plain_no_slash e : plain e = true -> contains_byte slash e = false.
Proof using. unfold plain. rewrite !andb_true_iff, !negb_true_iff. by intros [_ ?]. Qed.

Lemma split_plain l : l <> [] -> Forall (fun e => plain e = true) l -> split_byte slash (join "/" l) = l.
Proof using. intros Hn Hl. apply (split_join slash); [done|]. eapply Forall_impl; [done|]. apply plain_no_slash. Qed.

Lemma plain_cons e l : Forall (fun e => plain e = true) (e :: l) -> exists c s, join "/" (e :: l) = String c s /\ c <> slash.
Proof using.
  intros [He _]%Forall_cons. unfold plain in He. destruct e as [|c e]; [done|]. exists c.
  assert (c <> slash) as Hc by (intros ->; by rewrite !andb_true_iff in He; destruct He as [_ He]).
  destruct l; [by exists e|]. eexists. by split.
Qed.

(** The elements below a directory, of a cleaned path inside it. *)
Lemma inside root c :
  (exists l, root = "/" +:+ join "/" l /\ Forall (fun e => plain e = true) l) ->
  (exists l, c = "/" +:+ join "/" l /\ Forall (fun e => plain e = true) l) ->
  has_prefix (root +:+ "/") c = true ->
  exists rest, rest <> [] /\ Forall (fun e => plain e = true) rest /\ c = root +:+ "/" +:+ join "/" rest.
Proof using.
  intros (m & -> & Hm) (l & -> & Hl) Hp. apply has_prefix_app in Hp as Ht. revert Ht. generalize (str_drop (String.length (("/" +:+ join "/" m) +:+ "/")) ("/" +:+ join "/" l)). intros t Ht. rewrite !str_app_assoc in Ht.
  injection Ht as Ht. destruct m as [|e m].
  { destruct l as [|f l]; [done|]. destruct (plain_cons f l Hl) as (c & s & E & Hc). rewrite E in Ht. by injection Ht as ->. }
  assert (l <> []) as Hn by (intros ->; by destruct (plain_cons e m Hm) as (c & s & E & _); rewrite E in Ht).
  change (join "/" l = join "/" (e :: m) +:+ String slash t) in Ht.
  pose proof (f_equal (split_byte slash) Ht) as Hs. rewrite split_app, !split_plain in Hs by done.
  subst l. apply Forall_app in Hl as [_ Hl]. exists (split_byte slash t). split_and!; [|done|].
  - destruct t as [|x t]; [done|]. cbn. repeat case_match; done.
  - rewrite Ht, !str_app_assoc. do 2 f_equal. change (String slash t = String slash (join "/" (split_byte slash t))).
    f_equal. symmetry. clear. induction t as [|x t IH]; [done|]. cbn.
    destruct (Ascii.eqb_spec x slash) as [->|]; destruct (split_byte slash t) as [|y ys] eqn:E; cbn in *; subst; try done.
    all: destruct ys; done.
Qed.

Context (getwd_abs : forall wd, getwd = Some wd -> is_abs wd = true).

Lemma is_abs_app p t : is_abs p = true -> is_abs (p +:+ t) = true.
Proof using. destruct p as [|c p]; [done|]. cbn. by destruct (Ascii.eqb c slash). Qed.

Lemma Abs_clean p c : Abs p = Some c -> exists l, c = "/" +:+ join "/" l /\ Forall (fun e => plain e = true) l.
Proof using getwd_abs.
  unfold Abs. destruct (is_abs p) eqn:E; [intros [= <-]; by apply Clean_abs|].
  destruct getwd as [wd|] eqn:Ew; [|done]. intros [= <-]. specialize (getwd_abs wd eq_refl).
  unfold Join. destruct (String.eqb_spec wd "") as [->|_]; [done|]. apply Clean_abs. by apply is_abs_app.
Qed.

(** A relative path stays relative. *)
Lemma Clean_rel p : is_abs p = false -> is_abs (Clean p) = false.
Proof using.
  intros Hp. unfold Clean. rewrite Hp.
  assert (Forall (fun e => e <> "" /\ contains_byte slash e = false)
    (rev (fold_left (clean_step false) (split_byte slash p) []))) as Hl.
  { apply Forall_rev. generalize (split_parts slash p). generalize (split_byte slash p). intros l.
    enough (forall out, Forall (fun e => e <> "" /\ contains_byte slash e = false) out ->
      Forall (fun e => contains_byte slash e = false) l ->
      Forall (fun e => e <> "" /\ contains_byte slash e = false) (fold_left (clean_step false) l out)) as Hg by by apply Hg.
    induction l as [|e l IH]; intros out Ho Hl; [done|]. apply Forall_cons in Hl as [He Hl]. cbn. apply IH; [|done].
    unfold clean_step. destruct (String.eqb_spec e ""); [done|]. destruct (String.eqb e "."); [done|]. cbn [orb].
    destruct (String.eqb e ".."); [|by constructor]. destruct out as [|x rest]; [by constructor|].
    destruct (String.eqb x ".."); [by constructor|by apply Forall_cons in Ho as [_ Hr]]. }
  destruct (String.eqb_spec (join "/" (rev (fold_left (clean_step false) (split_byte slash p) []))) "") as [_|Hne]; [done|].
  destruct Hl as [|e l [He Hs] _]; [done|]. destruct e as [|c e]; [done|]. cbn in Hs. apply orb_false_iff in Hs as [Hs _].
  rewrite Ascii.eqb_sym in Hs. unfold is_abs. change "/" with (String slash "").
  destruct l; cbn [join has_prefix String.append]; by rewrite Hs.
Qed.

Lemma Join_rel root p : root <> "" -> is_abs root = false -> is_abs (Join [root; p]) = false.
Proof using.
  intros Hr Ha. unfold Join. destruct (String.eqb_spec root ""); [done|]. apply Clean_rel.
  destruct root as [|c root]; [done|]. unfold is_abs in *. cbn [has_prefix join String.append] in *.
  by destruct (Ascii.eqb "/" c).
Qed.

(** C15. No request leaves the static directory.  Whatever path a request
    names - dots, doubled slashes, absolute parts - the file it gets lies
    strictly below the configured root, reached by names alone, is a regular
    file, and its path has no element ".."; the only redirect is to the directory
    of a request for an index page.  The page served in place of a file that is
    not there is the root's own index: as it is, but for the address of its first
    base element, which becomes the forwarded prefix with a slash when that is a
    slash and path characters. *)
Theorem serveStatic_stays_inside root url_path query forwarded : root <> "" ->
  match serveStatic root url_path query forwarded with
  | SFile c =>
      (exists rest, rest <> [] /\ Forall (fun e => plain e = true) rest /\
         Some c = (fun r => r +:+ "/" +:+ join "/" rest) <$> Abs root) /\
      stat c = Some false /\ containsDotDot url_path = false
  | SIndex html => exists page, read_file (Join [root; "index.html"]) = Some page /\ rebased forwarded page html
  | SMoved location => has_suffix "/index.html" url_path = true /\ (location = "./" \/ location = "./?" +:+ query)
  | SBadRequest => containsDotDot url_path = true
  | SNotFound => True
  | SRedirect _ => False
  end.
Proof using getwd_abs.
  intros Hroot. unfold serveStatic. destruct (candidate root url_path) as [c|] eqn:Ec.
  - unfold candidate in Ec. destruct (String.eqb_spec (trim_prefix "/" url_path) "") as [|Hf]; [done|].
    destruct (Abs (Join [root; _])) as [c'|] eqn:Ea; [|done]. cbn [mbind option_bind] in Ec.
    destruct (has_prefix _ c') eqn:Hp; [|done]. destruct (is_file c') eqn:Hfile; [|done]. injection Ec as <-.
    unfold ServeFile. destruct (containsDotDot url_path); [done|].
    destruct (has_suffix _ url_path); [unfold localRedirect; case_match; split; auto|]. split; [|split; [|done]].
    2: { unfold is_file in Hfile. by destruct (stat _) as [[]|]. }
    destruct (Abs root) as [rootAbs|] eqn:Er.
    + destruct (inside rootAbs c' (Abs_clean _ _ Er) (Abs_clean _ _ Ea) Hp) as (rest & Hn & Hpl & ->).
      by exists rest.
    + exfalso. unfold Abs in Er, Ea. destruct (is_abs root) eqn:E; [done|]. destruct getwd; [done|].
      rewrite Join_rel in Ea by done. done.
  - destruct (is_file (Join [root; "index.html"])); [|done]. unfold serveIndex.
    destruct (read_file _) as [page|] eqn:Ep; [|done]. exists page. split; [done|]. apply index_html_spec.
Qed.
End static.

(** A file; a request for it with its directory's ".."; a traversal attempt, which
    gets the index as it is seen below a reverse proxy, in which only the first
    base element changes; and a request for the index by name. *)
Lemma serveStatic_stays_inside_witness :
  let stat p := if String.eqb p "/srv/www/app.js" || String.eqb p "/srv/www/index.html" || String.eqb p "/etc/passwd"
    then Some false else None in
  let page := "x" +:+ base_element "/" +:+ "y" +:+ base_element "/z" in
  let read_file p := if String.eqb p "/srv/www/index.html" then Some page else None in
  let serve := serveStatic (Some "/srv") stat read_file in
  serve "www" "/js/../app.js" "" "" = SBadRequest /\ serve "/srv/www" "/index.html" "a=1" "" = SMoved "./?a=1" /\
  serve "/srv/www" "/../../etc/passwd" "" "/vq/" = SIndex ("x" +:+ base_element "/vq/" +:+ "y" +:+ base_element "/z") /\
  serve "www" "/.//./app.js" "" "" = SFile "/srv/www/app.js" /\
  (exists rest, rest <> [] /\ Forall (fun e => plain e = true) rest /\ "/srv/www/app.js" = "/srv/www" +:+ "/" +:+ join "/" rest) /\
  rebased "/vq/" page ("x" +:+ base_element "/vq/" +:+ "y" +:+ base_element "/z").
Proof.
  intros stat page read_file serve.
  assert (serve "/srv/www" "/../../etc/passwd" "" "/vq/" = SIndex ("x" +:+ base_element "/vq/" +:+ "y" +:+ base_element "/z")) as Ei
    by (by vm_compute).
  assert (serve "www" "/.//./app.js" "" "" = SFile "/srv/www/app.js") as Ef by (by vm_compute).
  split; [by vm_compute|]. split; [by vm_compute|]. split; [exact Ei|]. split; [exact Ef|].
  assert (forall wd, Some "/srv" = Some wd -> is_abs wd = true) as Hwd by (by intros wd [= <-]). split.
  - pose proof (serveStatic_stays_inside (Some "/srv") stat read_file Hwd "www" "/.//./app.js" "" "" ltac:(done)) as Hs.
    unfold serve in Ef. rewrite Ef in Hs. destruct Hs as [(rest & Hn & Hp & Hc) _]. exists rest. split_and!; [done|done|].
    by injection Hc as ->.
  - pose proof (serveStatic_stays_inside (Some "/srv") stat read_file Hwd "/srv/www" "/../../etc/passwd" "" "/vq/" ltac:(done)) as Hs.
    unfold serve in Ei. rewrite Ei in Hs. destruct Hs as (page' & Hr & Hb). vm_compute in Hr. injection Hr as <-. exact Hb.
Defined.
