(* ===== verification/AlarmSource.v ===== *)
(** The measurements behind the alarms ([internal/alarm/source.go]): the window
    statistics of the finished streams, the share of silent streams with its
    cache, the failed and the unhealthy calls, the capture drops and the free
    disk space.

    The database and [statfs] are parameters.  The theorems: an accepted rule
    only fails to measure when the database does, the cache of silent streams
    is invisible, and the unhealthy calls are those whose shown verdict has the
    warning. *)

From S2P Require Import Prelude GoFloat GoStrings Values Json JsonParse Rows Model Expression FilterSQL Queries Alarm.
From S2P Require Drops Pvqa Writer.

(** * The database *)

(** [QueryRow]: the columns of the row, if there is one.  [Query]: the rows that
    arrive, and the error that ends them early. *)
Class AlarmDB := {
  query_row : statement -> string + option (list any);
  query_rows : statement -> string + (list vmap * option string)
}.

Inductive measure_error :=
| FilterError (e : expression_error)
| DatabaseError (msg : string)
| NotCallCounter (counter : string).

Abbreviation mres := (res measure_error).

Definition of_filter {A} (r : fres A) : mres A := match r with Ok a => Ok a | Err e => Err (FilterError e) end.
Definition of_db {A} (r : string + A) : mres A := match r with inl e => Err (DatabaseError e) | inr a => Ok a end.

(** [Row.Scan] into [sql.NullInt64] and [sql.NullFloat64]: NULL is zero, another
    type goes through its text. *)
Definition scan_error : measure_error := DatabaseError "sql: Scan error".
Definition column (row : list any) (i : nat) : any := default ANil (row !! i).

Definition null_i64 (v : any) : mres Z :=
  match v with
  | ANil => Ok 0
  | AInt64 z => Ok z
  | v => match atoi (fmt_v v) with Some z => Ok z | None => Err scan_error end
  end.

Definition null_f64 (v : any) : mres float64 :=
  match v with
  | ANil => Ok fzero
  | AFloat f => Ok f
  | AInt64 z => Ok (f64_of_Z z)
  | v => match parse_float (fmt_v v) with Some f => Ok f | None => Err scan_error end
  end.

Definition null_string (v : any) : string := match v with ANil => "" | AString t => t | v => fmt_v v end.

(** The row a query must have. *)
Definition the_row (r : string + option (list any)) : mres (list any) :=
  match r with
  | inl e => Err (DatabaseError e)
  | inr None => Err (DatabaseError "sql: no rows in result set")
  | inr (Some row) => Ok row
  end.

(** * Statements *)

Definition streamKPIs : string :=
  "select count(*) as n," +:+
  " sum(case when rtpmon_statistics.sevana_mos > 0.0001 then 1 else 0 end) as n_sev," +:+
  " avg(case when rtpmon_statistics.sevana_mos > 0.0001 then rtpmon_statistics.sevana_rfactor end) as r_factor," +:+
  " avg(case when rtpmon_statistics.sevana_mos > 0.0001 then rtpmon_statistics.sevana_mos end) as sevana_mos," +:+
  " avg(rtpmon_statistics.network_mos) as network_mos," +:+
  " sum(rtpmon_statistics.lost_packet_counter) as lost," +:+
  " sum(rtpmon_statistics.rtp_packet_counter) as rtp," +:+
  " avg(rtpmon_statistics.jitter) as jitter," +:+
  " avg((rtpmon_statistics.end_timestamp - rtpmon_statistics.start_timestamp) / 1000.0) as duration" +:+
  " from rtpmon_statistics" +:+
  " inner join rtpmon_streams on rtpmon_streams.stream_id = rtpmon_statistics.stream_id" +:+
  " inner join rtpmon_instances on rtpmon_streams.agent_id = rtpmon_instances.id" +:+
  " where rtpmon_statistics.end_timestamp > ?".

Definition streamsFrom : string :=
  " from rtpmon_statistics" +:+
  " inner join rtpmon_streams on rtpmon_streams.stream_id = rtpmon_statistics.stream_id" +:+
  " inner join rtpmon_instances on rtpmon_streams.agent_id = rtpmon_instances.id" +:+
  " where rtpmon_statistics.end_timestamp > ? and rtpmon_statistics.sevana_mos > 0.0001".

(** [streamFilter] *)
Definition streamFilter (expr : string) : mres statement :=
  if String.eqb (trim_space expr) "" then Ok (Stmt "" [])
  else let? frag := of_filter (BuildWhere expr "qmark") in
       Ok (Stmt (" and (" +:+ Text frag +:+ ")") (Params frag)).

(** [callFilter] *)
Definition callFilter (expr : string) : mres statement :=
  if String.eqb (trim_space expr) "" then Ok (Stmt "" [])
  else let? frag := of_filter (BuildSipCallWhere expr "qmark") in
       Ok (Stmt (" where (" +:+ Text frag +:+ ")") (Params frag)).

Definition kpi_stmt (fromMs : Z) (cond : statement) : statement :=
  Stmt (streamKPIs +:+ sql cond) (AInt64 fromMs :: args cond).

Definition silent_stmt (fromMs : Z) (cond : statement) : statement :=
  Stmt ("select rtpmon_statistics.stream_id" +:+ streamsFrom +:+ sql cond) (AInt64 fromMs :: args cond).

Definition report_of_stmt (id : Z) : statement :=
  Stmt "select detector_report from rtpmon_statistics where stream_id = ?" [AInt64 id].

Definition failed_calls_stmt (fromMs : Z) (cond : statement) : statement :=
  let agg := sipCallAggregate (" where call_id in (select call_id from rtpmon_sip_events" +:+
    " where event_timestamp > ? and event_type in (1, 4))") in
  let wh := " where (c.established = 1 or c.failed = 1)" +:+
    (if String.eqb (sql cond) "" then "" else " and" +:+ trim_prefix " where" (sql cond)) in
  Stmt ("select count(*), sum(case when c.failed = 1 then 1 else 0 end) from (" +:+ agg +:+ ") c" +:+ wh)
    (AInt64 fromMs :: args cond).

Definition verdicts_stmt (fromMs : Z) (cond : statement) : statement :=
  let query := "select h.call_id, h.warnings from rtpmon_call_health h where h.event_timestamp > ?" in
  if String.eqb (sql cond) "" then Stmt (query +:+ " order by h.id") [AInt64 fromMs]
  else
    let agg := sipCallAggregate " where call_id in (select call_id from rtpmon_call_health where event_timestamp > ?)" in
    Stmt (query +:+ " and h.call_id in (select c.call_id from (" +:+ agg +:+ ") c" +:+ sql cond +:+ ")" +:+
          " order by h.id")
      ([AInt64 fromMs] ++ [AInt64 fromMs] ++ args cond).

(** * The source *)

(** [DBSource]: its cache holds which streams of the last window are silent. *)
Record DBSource := MkDBSource { DiskPath : string; source_Drops : option Drops.DropHistory; silent : gmap Z bool }.

(** The zero snapshot, the disk unknown. *)
Definition minus_one : float64 := f64_of_Z (-1).
Definition empty_snapshot : Snapshot :=
  MkSnapshot 0 0 fzero fzero fzero fzero fzero fzero minus_one fzero 0 fzero fzero fzero false.

(** Assignments to the fields of a snapshot. *)
Definition with_calls (s : Snapshot) (calls : Z) (health failed : float64) : Snapshot :=
  MkSnapshot (Streams s) (SevanaStreams s) (RFactor s) (ss_SevanaMOS s) (ss_NetworkMOS s) (PacketLoss s) (ss_Jitter s)
    (ss_Duration s) (FreeDisk s) (SilentStreams s) calls health failed (CaptureDrops s) (CaptureKnown s).
Definition with_disk (s : Snapshot) (disk : float64) : Snapshot :=
  MkSnapshot (Streams s) (SevanaStreams s) (RFactor s) (ss_SevanaMOS s) (ss_NetworkMOS s) (PacketLoss s) (ss_Jitter s)
    (ss_Duration s) disk (SilentStreams s) (Calls s) (ss_CallHealth s) (FailedCalls s) (CaptureDrops s) (CaptureKnown s).
Definition with_capture (s : Snapshot) (n : float64) (known : bool) : Snapshot :=
  MkSnapshot (Streams s) (SevanaStreams s) (RFactor s) (ss_SevanaMOS s) (ss_NetworkMOS s) (PacketLoss s) (ss_Jitter s)
    (ss_Duration s) (FreeDisk s) (SilentStreams s) (Calls s) (ss_CallHealth s) (FailedCalls s) n known.
Definition with_silent (s : Snapshot) (share : float64) (n : Z) : Snapshot :=
  MkSnapshot (Streams s) n (RFactor s) (ss_SevanaMOS s) (ss_NetworkMOS s) (PacketLoss s) (ss_Jitter s)
    (ss_Duration s) (FreeDisk s) share (Calls s) (ss_CallHealth s) (FailedCalls s) (CaptureDrops s) (CaptureKnown s).

Definition hundred : float64 := f64_of_Z 100.

(** [100 * float64(a) / float64(b)] *)
Definition percent (a b : Z) : float64 := fdiv (fmul hundred (f64_of_Z a)) (f64_of_Z b).

Section source.
Context `{UnicodeTables} `{AlarmDB} (thresholds : Pvqa.Thresholds) (statfs : string -> option (Z * Z)).

Definition freeDiskShare (path : string) : float64 :=
  if String.eqb (trim_space path) "" then minus_one
  else match statfs path with
       | Some (avail, blocks) => if blocks =? 0 then minus_one else fdiv (f64_of_Z avail) (f64_of_Z blocks)
       | None => minus_one
       end.

(** Whether the report of a stream is silent; [None] is the parser's panic. *)
Definition read_silent (id : Z) : option (mres bool) :=
  match query_row (report_of_stmt id) with
  | inl e => Some (Err (DatabaseError e))
  | inr row =>
      let report := match row with Some row => null_string (column row 0) | None => "" end in
      '(v, _) ← Pvqa.SilentStream thresholds [report];
      Some (Ok v)
  end.

(** The loop over the streams of the window: each is looked up in the cache,
    or read. *)
Fixpoint count_silent (cache : gmap Z bool) (ids : list Z) (keep : gmap Z bool) (n : Z)
    : option (mres (gmap Z bool * Z)) :=
  match ids with
  | [] => Some (Ok (keep, n))
  | id :: ids =>
      v ← match cache !! id with Some v => Some (Ok v) | None => read_silent id end;
      match v with
      | Err e => Some (Err e)
      | Ok v => count_silent cache ids (<[id := v]> keep) (if (v : bool) then n + 1 else n)
      end
  end.

(** [measureSilent]: the share and the number of streams, and the new cache.
    An error that ends the rows early is not looked at. *)
Definition measureSilent (fromMs : Z) (expr : string) (cache : gmap Z bool)
    : option (mres (float64 * Z) * gmap Z bool) :=
  match streamFilter expr with
  | Err e => Some (Err e, cache)
  | Ok cond =>
      match query_rows (silent_stmt fromMs cond) with
      | inl e => Some (Err (DatabaseError e), cache)
      | inr (rows, _) =>
          let ids := (fun r => getI64 r "stream_id") <$> rows in
          out ← count_silent cache ids ∅ 0;
          match out with
          | Err e => Some (Err e, cache)
          | Ok (keep, n) =>
              let share := if (0 <? length ids)%nat then percent n (Z.of_nat (length ids)) else fzero in
              Some (Ok (share, Z.of_nat (length ids)), keep)
          end
      end
  end.

(** The codes of a stored verdict, as far as they decode. *)
Definition decode_code (v : jval) : string :=
  match v with
  | VObj l => fold_left (fun c kv => if key_is "code" kv.1 then (decode_string c kv.2).1 else c) l ""
  | _ => ""
  end.

Definition decode_codes (text : string) : list string :=
  match unmarshal text with Some (VArr l) => decode_code <$> l | _ => [] end.

Definition bad_verdict (code text : string) : bool :=
  existsb (fun c => String.eqb code "" || String.eqb c code) (decode_codes text).

(** A NULL does not scan into a string. *)
Definition scan_string (r : vmap) (key : string) : option string :=
  match vget r key with ANil => None | _ => Some (getStr r key) end.

Fixpoint scan_verdicts (code : string) (rows : list vmap) (latest : gmap string bool) : mres (gmap string bool) :=
  match rows with
  | [] => Ok latest
  | r :: rows =>
      match scan_string r "call_id", scan_string r "warnings" with
      | Some id, Some text => scan_verdicts code rows (<[id := bad_verdict code text]> latest)
      | _, _ => Err (DatabaseError "converting NULL to string is unsupported")
      end
  end.

(** The calls of the map, and the bad ones. *)
Definition count_bad (latest : gmap string bool) : Z := Z.of_nat (length (List.filter snd (map_to_list latest))).

(** [measureCalls]: the fields it sets. *)
Definition measureCalls (r : Rule) (fromMs : Z) (snap : Snapshot) : mres Snapshot :=
  let? cond := callFilter (Filter r) in
  if String.eqb (Counter r) "failed_calls" then
    let? row := the_row (query_row (failed_calls_stmt fromMs cond)) in
    let? n := null_i64 (column row 0) in
    let? failed := null_i64 (column row 1) in
    Ok (with_calls snap n (ss_CallHealth snap) (if 0 <? n then percent failed n else FailedCalls snap))
  else if String.eqb (Counter r) "call_health" then
    let? (rows, broken) := of_db (query_rows (verdicts_stmt fromMs cond)) in
    let? latest := scan_verdicts (ru_Code r) rows ∅ in
    match broken with
    | Some e => Err (DatabaseError e)
    | None =>
        let n := Z.of_nat (size latest) in
        Ok (with_calls snap n (if 0 <? n then percent (count_bad latest) n else ss_CallHealth snap) (FailedCalls snap))
    end
  else Err (NotCallCounter (Counter r)).

(** The window statistics of the streams. *)
Definition measureKPIs (r : Rule) (fromMs : Z) (snap : Snapshot) : mres Snapshot :=
  let? cond := streamFilter (Filter r) in
  let? row := the_row (query_row (kpi_stmt fromMs cond)) in
  let? n := null_i64 (column row 0) in
  let? nSev := null_i64 (column row 1) in
  let? rf := null_f64 (column row 2) in
  let? sev := null_f64 (column row 3) in
  let? net := null_f64 (column row 4) in
  let? lost := null_f64 (column row 5) in
  let? rtp := null_f64 (column row 6) in
  let? jit := null_f64 (column row 7) in
  let? dur := null_f64 (column row 8) in
  let expected := fadd rtp lost in
  let loss := if fgt expected fzero then fdiv (fmul hundred lost) expected else PacketLoss snap in
  Ok (MkSnapshot n nSev rf sev net loss jit dur (FreeDisk snap) (SilentStreams snap) (Calls snap)
        (ss_CallHealth snap) (FailedCalls snap) (CaptureDrops snap) (CaptureKnown snap)).

(** [DBSource.Measure]; [now] is the clock of the drop history, in
    nanoseconds.  [None] is the report parser's panic. *)
Definition Measure (r : Rule) (nowMs now : Z) (s : DBSource) : option (mres Snapshot * DBSource) :=
  let snap := empty_snapshot in
  let fromMs := wrap64 (nowMs - Z.quot (Window r) 1000000) in
  match ru_Scope r with
  | ScopeHost => Some (Ok (with_disk snap (freeDiskShare (DiskPath s))), s)
  | ScopeCapture =>
      Some (Ok (match source_Drops s with
                | Some h => let '(n, ok) := Drops.Within now (Window r) h in with_capture snap (f64_of_Z n) ok
                | None => snap
                end), s)
  | ScopeCalls => Some (measureCalls r fromMs snap, s)
  | ScopeStreams =>
      match measureKPIs r fromMs snap with
      | Err e => Some (Err e, s)
      | Ok snap =>
          if String.eqb (Counter r) "silent_streams" then
            '(out, cache) ← measureSilent fromMs (Filter r) (silent s);
            Some (let? (share, n) := out in Ok (with_silent snap share n),
                  MkDBSource (DiskPath s) (source_Drops s) cache)
          else Some (Ok snap, s)
      end
  end.

(** * An accepted rule measures *)

Lemma streamFilter_ok expr e : (expr <> "" -> is_ok (BuildWhere expr "qmark") = true) -> streamFilter expr <> Err e.
Proof using.
  intros Hc. unfold streamFilter. destruct (String.eqb_spec expr "") as [->|Hn]; [done|]. specialize (Hc Hn).
  destruct (String.eqb _ _); [done|]. by destruct (BuildWhere expr "qmark").
Qed.

Lemma callFilter_ok expr e : (expr <> "" -> is_ok (BuildSipCallWhere expr "qmark") = true) -> callFilter expr <> Err e.
Proof using.
  intros Hc. unfold callFilter. destruct (String.eqb_spec expr "") as [->|Hn]; [done|]. specialize (Hc Hn).
  destruct (String.eqb _ _); [done|]. by destruct (BuildSipCallWhere expr "qmark").
Qed.

Definition db_fault (e : measure_error) : Prop := exists msg, e = DatabaseError msg.

Lemma scan_fault v e : null_i64 v = Err e \/ null_f64 v = Err e -> db_fault e.
Proof using.
  unfold null_i64, null_f64, scan_error. intros [Hv|Hv]; repeat case_match; simplify_eq; by eexists.
Qed.

Lemma the_row_fault r e : the_row r = Err e -> db_fault e.
Proof using. unfold the_row. intros Hr. repeat case_match; simplify_eq; by eexists. Qed.

Lemma scan_verdicts_fault code rows latest e : scan_verdicts code rows latest = Err e -> db_fault e.
Proof using.
  revert latest. induction rows as [|r rows IH]; intros latest; [done|]. cbn.
  repeat case_match; try apply IH; intros [= <-]; by eexists.
Qed.

Ltac fault := repeat match goal with
  | Hf : res_bind _ _ = Err _ |- _ => apply res_bind_Err in Hf as [Hf|(? & _ & Hf)]
  end.

Lemma measureKPIs_fault r fromMs snap e : (forall e, streamFilter (Filter r) <> Err e) ->
  measureKPIs r fromMs snap = Err e -> db_fault e.
Proof using.
  intros Hs Hm. unfold measureKPIs in Hm. fault; try done; [by apply Hs in Hm|by eapply the_row_fault|..];
    by eapply scan_fault; eauto.
Qed.

Lemma measureCalls_fault r fromMs snap e : (forall e, callFilter (Filter r) <> Err e) ->
  Counter r = "failed_calls" \/ Counter r = "call_health" -> measureCalls r fromMs snap = Err e -> db_fault e.
Proof using.
  intros Hs Hc Hm. unfold measureCalls in Hm. fault; [by apply Hs in Hm|].
  destruct Hc as [Hc|Hc]; rewrite Hc in Hm; cbn [String.eqb Ascii.eqb Bool.eqb] in Hm.
  - fault; [by eapply the_row_fault|by eapply scan_fault; eauto..|done].
  - apply res_bind_Err in Hm as [Hm|([rows broken] & _ & Hm)].
    { unfold of_db in Hm. case_match; [|done]. simplify_eq. by eexists. }
    fault; [by eapply scan_verdicts_fault|]. destruct broken; [|done]. injection Hm as <-. by eexists.
Qed.

Lemma count_silent_fault cache ids keep n e : count_silent cache ids keep n = Some (Err e) -> db_fault e.
Proof using.
  revert keep n. induction ids as [|id ids IH]; intros keep n; [done|]. cbn [count_silent].
  destruct (match cache !! id with Some v => Some (Ok v) | None => read_silent id end) as [[v|e']|] eqn:Ev; [|..]; cbn [mbind option_bind]; [apply IH| |done].
  intros [= ->]. destruct (cache !! id); [done|]. unfold read_silent in Ev.
  destruct (query_row _); [injection Ev as <-; by eexists|]. by destruct (Pvqa.SilentStream _ _) as [[]|].
Qed.

Lemma measureSilent_fault fromMs expr cache e cache' : (forall e, streamFilter expr <> Err e) ->
  measureSilent fromMs expr cache = Some (Err e, cache') -> db_fault e /\ cache' = cache.
Proof using.
  intros Hs. unfold measureSilent. destruct (streamFilter expr) as [cond|e'] eqn:Ef; [|by destruct (Hs e')].
  destruct (query_rows _) as [m|[rows broken]]; [intros [= <- <-]; split; [by eexists|done]|].
  destruct (count_silent _ _ _ _) as [[[keep n]|e']|] eqn:Ec; cbn [mbind option_bind]; [done| |done].
  intros [= <- <-]. split; [by eapply count_silent_fault|done].
Qed.

(** A configured alarm that was accepted only fails to measure because the
    database failed: never for its filter, its counter or its scope - and a
    failed measurement leaves the source as it was. *)
Theorem accepted_rules_measure c r nowMs now s e s' : NewRule c = Ok r ->
  Measure r nowMs now s = Some (Err e, s') -> db_fault e /\ s' = s.
Proof using.
  intros (spec & op & Hspec & _ & _ & _ & _ & _ & Hf & Hr)%NewRule_Ok Hm.
  assert (ru_Scope r = cs_scope spec) as Hscope by (rewrite Hr; done).
  assert (Filter r = trim_space (ac_Filter c)) as Hfil by (rewrite Hr; done).
  assert (Counter r = ac_Counter c) as Hcnt by (rewrite Hr; done). clear Hr.
  unfold Measure in Hm. rewrite Hscope in Hm. destruct (cs_scope spec) eqn:Esc; [| |done|].
  - assert (forall e, streamFilter (Filter r) <> Err e) as Hs by (intros ?; apply streamFilter_ok; by rewrite Hfil).
    destruct (measureKPIs _ _ _) as [snap|e'] eqn:Ek; [|injection Hm as <- <-; split; [by eapply measureKPIs_fault|done]].
    destruct (String.eqb _ _); [|done].
    destruct (measureSilent _ _ _) as [[out cache]|] eqn:Eo; [|done]. cbn [mbind option_bind] in Hm.
    destruct out as [[share n]|e']; [done|]. injection Hm as <- <-.
    destruct (measureSilent_fault _ _ _ _ _ Hs Eo) as [? ->]. split; [done|by destruct s].
  - injection Hm as Hm <-. split; [|done]. eapply measureCalls_fault; [|..|exact Hm].
    + intros ?. apply callFilter_ok. by rewrite Hfil.
    + rewrite Hcnt. clear -Hspec Esc. apply mlookup_Some_elem in Hspec. unfold alarm_counters in Hspec.
      repeat (apply elem_of_cons in Hspec as [Hspec|Hspec]; [injection Hspec as -> ->; auto; done|]). by apply elem_of_nil in Hspec.
  - by destruct (source_Drops s) as [h|]; [destruct (Drops.Within _ _ _)|].
Qed.

(** * The cache is invisible *)

(** The cache holds what reading the reports would yield. *)
Definition coherent (cache : gmap Z bool) : Prop := forall id v, cache !! id = Some v -> read_silent id = Some (Ok v).

(** Without a cache: every report of the window is read. *)
Fixpoint read_all (ids : list Z) : option (mres (list bool)) :=
  match ids with
  | [] => Some (Ok [])
  | id :: ids =>
      v ← read_silent id;
      match v with
      | Err e => Some (Err e)
      | Ok v => vs ← read_all ids; Some (let? vs := vs in Ok (v :: vs))
      end
  end.

Definition trues (vs : list bool) : Z := Z.of_nat (length (List.filter id vs)).

Lemma count_silent_read cache ids keep n : coherent cache -> coherent keep ->
  match count_silent cache ids keep n with
  | Some (Ok (keep', n')) =>
      coherent keep' /\ (forall x, is_Some (keep' !! x) <-> is_Some (keep !! x) \/ x ∈ ids) /\
      exists vs, read_all ids = Some (Ok vs) /\ n' = n + trues vs
  | Some (Err e) => read_all ids = Some (Err e)
  | None => read_all ids = None
  end.
Proof using.
  intros Hc. revert keep n. induction ids as [|x ids IH]; intros keep n Hk.
  - cbn. split; [done|]. split; [set_solver|]. exists []. split; [done|]. unfold trues. cbn. lia.
  - cbn [count_silent read_all].
    assert (match cache !! x with Some v => Some (Ok v) | None => read_silent x end = read_silent x) as ->
      by (destruct (cache !! x) as [v|] eqn:E; [by rewrite (Hc x v E)|done]).
    destruct (read_silent x) as [[v|e]|] eqn:Er; cbn [mbind option_bind]; [|done|done].
    assert (coherent (<[x := v]> keep)) as Hk'.
    { intros y w. destruct (decide (y = x)) as [->|Hne]; [rewrite lookup_insert_eq; intros [= <-]; done|].
      rewrite lookup_insert_ne by done. apply Hk. }
    specialize (IH (<[x := v]> keep) (if v then n + 1 else n) Hk').
    destruct (count_silent _ _ _ _) as [[[keep' n']|e]|]; [|by rewrite IH..].
    destruct IH as (H1 & H2 & vs & -> & ->). split; [done|]. split.
    + intros y. rewrite H2, elem_of_cons. destruct (decide (y = x)) as [->|Hne].
      * rewrite lookup_insert_eq. split; [intros _; by right; left|intros _; by left].
      * rewrite lookup_insert_ne by done. tauto.
    + exists (v :: vs). split; [done|]. unfold trues. destruct v; cbn; lia.
Qed.

(** C30. The cache of silent streams is invisible.  A measurement with a cache
    that agrees with the stored reports yields exactly what reading every
    report of the window yields - the share of silent streams and their
    number - and leaves a cache that agrees, of the streams of this window
    only, so it does not grow; a failing measurement keeps the old one. *)
Theorem silent_cache_invisible fromMs expr cache cond rows broken : coherent cache ->
  streamFilter expr = Ok cond -> query_rows (silent_stmt fromMs cond) = inr (rows, broken) ->
  let ids := (fun r => getI64 r "stream_id") <$> rows in
  let n := Z.of_nat (length ids) in
  match read_all ids with
  | Some (Ok vs) =>
      exists cache', measureSilent fromMs expr cache =
        Some (Ok (if (0 <? length ids)%nat then percent (trues vs) n else fzero, n), cache') /\
        coherent cache' /\ forall id, is_Some (cache' !! id) <-> id ∈ ids
  | Some (Err e) => measureSilent fromMs expr cache = Some (Err e, cache)
  | None => measureSilent fromMs expr cache = None
  end.
Proof using.
  intros Hc Hf Hq ids n. unfold measureSilent. rewrite Hf, Hq. fold ids.
  assert (coherent ∅) as He by (intros x v; by rewrite lookup_empty).
  pose proof (count_silent_read cache ids ∅ 0 Hc He) as Hs.
  destruct (count_silent cache ids ∅ 0) as [[[keep n']|e]|]; [|by rewrite Hs..].
  destruct Hs as (H1 & H2 & vs & -> & ->). exists keep. split; [done|]. split; [done|].
  intros x. rewrite H2, lookup_empty. split; [intros [[? ?]|?]; done|by right].
Qed.

(** * The unhealthy calls are those shown so *)

Lemma decode_code_warning v : decode_code v = Code (decode_warning v).1.
Proof using.
  unfold decode_code, decode_warning. destruct v as [| | | | |l]; try done.
  enough (forall acc : CallHealthWarning * bool, fold_left (fun c kv => if key_is "code" kv.1 then (decode_string c kv.2).1 else c) l (Code acc.1) =
    Code (fold_left decode_member l acc).1) as Hg by apply (Hg (zero_warning, true)).
  induction l as [|[k v] l IH]; intros [w ok]; [done|]. cbn [fold_left fst snd]. rewrite <- IH. f_equal.
  unfold decode_member. destruct (key_is "code" k) eqn:E1; [by destruct (decode_string (Code w) v)|].
  destruct (key_is "tag" k); [by destruct (decode_string _ _)|]. destruct (key_is "explanation" k); [by destruct (decode_string _ _)|].
  destruct (key_is "stream_ids" k); [by destruct (decode_strings _ _)|done].
Qed.

Lemma decode_codes_warnings text : decode_codes text = Code <$> (decode_warnings text).1.
Proof using.
  unfold decode_codes, decode_warnings. destruct (unmarshal text) as [v|]; [|done]. destruct v; try done. cbn.
  rewrite <- list_fmap_compose. apply list_fmap_ext. intros i x _. apply decode_code_warning.
Qed.

(** Whether a warning of a shown verdict matches the code of a rule. *)
Definition has_warning (code : string) (h : health) : bool :=
  existsb (fun w => String.eqb code "" || String.eqb (Code w) code) (he_Warnings h).

Lemma health_row_columns e : Forall sane_warning (Warnings e) ->
  scan_string (health_row e) "call_id" = Some (ch_CallID e) /\
  exists text, scan_string (health_row e) "warnings" = Some text /\ decode_codes text = Code <$> Warnings e.
Proof using.
  intros Hs. pose proof (decode_warnings_back (Warnings e) Hs) as Hd.
  unfold scan_string, vget, getStr, health_row. rewrite !list_to_map_mlookup.
  split; [done|]. exists (default "" (marshal (JArray (Writer.warning_json <$> Warnings e)))). split; [done|].
  by rewrite decode_codes_warnings, Hd.
Qed.

Lemma scan_verdicts_shown code evs latest shown : Forall (fun e => Forall sane_warning (Warnings e)) evs ->
  latest = has_warning code <$> shown ->
  scan_verdicts code (health_row <$> evs) latest =
    Ok (has_warning code <$> fold_left (fun (out : gmap string health) r => <[getStr r "call_id" := health_of_row r]> out) (health_row <$> evs) shown).
Proof using.
  intros Hs. revert latest shown. induction Hs as [|e evs He Hs IH]; intros latest shown ->; [done|].
  rewrite fmap_cons. cbn [scan_verdicts fold_left].
  destruct (health_row_columns e He) as (Hid & text & Ht & Hc). destruct (health_row_back e He) as [Hid' Hrow].
  rewrite Hid, Ht, Hid', Hrow. apply IH. rewrite fmap_insert. f_equal.
  unfold bad_verdict, has_warning. rewrite Hc. cbn [he_Warnings]. clear.
  induction (Warnings e) as [|w l IHl]; [done|]. rewrite fmap_cons. cbn [existsb]. by rewrite IHl.
Qed.

(** C31. The alarm on unhealthy calls counts the calls the dashboard shows as
    unhealthy.  For the verdicts recorded in the window, it counts every call
    once, by its latest verdict, and as bad exactly when that verdict - as the
    call list shows it - has a warning, of the rule's code when it has one. *)
Theorem call_alarm_counts_shown_verdicts r fromMs snap cond evs :
  Counter r = "call_health" -> callFilter (Filter r) = Ok cond ->
  query_rows (verdicts_stmt fromMs cond) = inr (health_row <$> evs, None) ->
  Forall (fun e => Forall sane_warning (Warnings e)) evs ->
  let shown := health_of_rows (health_row <$> evs) in
  exists bad : list string,
    NoDup bad /\
    (forall id, id ∈ bad <-> exists h, shown !! id = Some h /\ has_warning (ru_Code r) h = true) /\
    measureCalls r fromMs snap =
      Ok (with_calls snap (Z.of_nat (size shown))
            (if 0 <? Z.of_nat (size shown) then percent (Z.of_nat (length bad)) (Z.of_nat (size shown)) else ss_CallHealth snap)
            (FailedCalls snap)).
Proof using.
  intros Hcnt Hf Hq Hs shown. unfold measureCalls. rewrite Hf, Hcnt. cbn [res_bind String.eqb Ascii.eqb Bool.eqb].
  rewrite Hq. cbn [of_db res_bind]. rewrite (scan_verdicts_shown _ evs ∅ ∅ Hs) by (by rewrite fmap_empty).
  cbn [res_bind]. change (fold_left _ (health_row <$> evs) ∅) with shown. rewrite map_size_fmap.
  exists (List.filter snd (map_to_list (has_warning (ru_Code r) <$> shown))).*1. split; [|split].
  - apply NoDup_fst_filter, NoDup_fst_map_to_list.
  - intros x. rewrite list_elem_of_fmap. split.
    + intros ([k b] & -> & Hin). apply elem_of_filter_bool in Hin as [Hin Hb]. cbn in Hb. subst b.
      apply elem_of_map_to_list in Hin. apply lookup_fmap_Some in Hin as (h & Hh & Hl). by exists h.
    + intros (h & Hl & Hh). exists (x, true). split; [done|]. apply elem_of_filter_bool. split; [|done].
      apply elem_of_map_to_list. by rewrite lookup_fmap, Hl, <- Hh.
  - unfold count_bad. by rewrite length_fmap.
Qed.
End source.

(** * The properties at concrete inputs *)

#[local] Existing Instance ascii_tables.

(** A database with two verdicts of one call and one of another, three streams
    of which the reports of 2 and 3 are read, and a broken statistics query. *)
Definition sample_verdicts : list CallHealth :=
  [MkCallHealth "c1" 1000 2 [MkCallHealthWarning "one_way_audio" "ONE WAY" "" ["s1"]];
   MkCallHealth "c2" 1500 1 [MkCallHealthWarning "noise" "" "" []]; MkCallHealth "c1" 2000 2 []].

#[local] Instance sample_db : AlarmDB := {|
  query_row s := if has_prefix "select detector_report" (sql s) then inr None else inl "database is locked";
  query_rows s :=
    if has_prefix "select h.call_id" (sql s) then inr (health_row <$> sample_verdicts, None)
    else inr ((fun i => list_to_map [("stream_id", AInt64 i)]) <$> [1; 2; 3; 2], None)
|}.

Definition sample_rule (counter code : string) : Rule :=
  match NewRule (MkAlarmConfig "" counter "" (f64_of_Z 5) true 0 0 "" code "notify" "" false) with
  | Ok r => r
  | Err _ => MkRule "" "" Above fzero 0 0 "" "" "" "" false ScopeHost ""
  end.

Lemma accepted_rules_measure_witness :
  let s := MkDBSource "" None ∅ in
  Measure ∅ (fun _ => None) (sample_rule "jitter" "") 5000 0 s = Some (Err (DatabaseError "database is locked"), s) /\
  db_fault (DatabaseError "database is locked").
Proof.
  intros s. split; [reflexivity|].
  refine (proj1 (accepted_rules_measure ∅ (fun _ => None)
    (MkAlarmConfig "" "jitter" "" (f64_of_Z 5) true 0 0 "" "" "notify" "" false) (sample_rule "jitter" "") 5000 0 s _ s _ _));
    reflexivity.
Defined.

Lemma silent_cache_invisible_witness :
  let cache : gmap Z bool := {[ 1 := false ]} in
  coherent ∅ cache /\
  exists cache', measureSilent ∅ 1000 "" cache = Some (Ok (fzero, 4), cache') /\
    forall id, is_Some (cache' !! id) <-> id ∈ [1; 2; 3; 2].
Proof.
  intros cache. assert (coherent ∅ cache) as Hc by (intros id v [<- <-]%lookup_singleton_Some; reflexivity).
  split; [done|].
  destruct (silent_cache_invisible ∅ 1000 "" cache (Stmt "" [])
    ((fun i => list_to_map [("stream_id", AInt64 i)]) <$> [1; 2; 3; 2]) None Hc eq_refl eq_refl) as (cache' & Hm & _ & Hd).
  exists cache'. split; [exact Hm|]. exact Hd.
Defined.

Lemma call_alarm_counts_shown_verdicts_witness :
  exists bad : list string, "c2" ∈ bad /\ "c1" ∉ bad /\
    measureCalls (sample_rule "call_health" "noise") 500 empty_snapshot =
      Ok (with_calls empty_snapshot 2 (percent (Z.of_nat (length bad)) 2) fzero).
Proof.
  destruct (call_alarm_counts_shown_verdicts (sample_rule "call_health" "noise") 500 empty_snapshot (Stmt "" []) sample_verdicts)
    as (bad & Hnd & Hb & Hm); [reflexivity|reflexivity|reflexivity|by repeat constructor|].
  assert (Z.of_nat (size (health_of_rows (health_row <$> sample_verdicts))) = 2) as E by (vm_compute; reflexivity).
  rewrite E in Hm. exists bad. split_and!; [| |exact Hm].
  - apply Hb. exists (MkHealth 1500 1 [MkCallHealthWarning "noise" "" "" []]). split; vm_compute; reflexivity.
  - rewrite Hb. intros (h & Hl & Hh).
    apply (f_equal (fun o => match o with Some h => has_warning "noise" h | None => false end)) in Hl.
    change (ru_Code (sample_rule "call_health" "noise")) with "noise" in Hh. rewrite Hh in Hl. vm_compute in Hl. discriminate.
Defined.
