(* ===== verification/Config.v ===== *)
(** The configuration ([internal/config/config.go]): the typed settings read from
    the decoded YAML document vq-db shares with vq-core, and the detector
    thresholds.  The YAML decoder is a parameter; its values are [yaml]. *)

From S2P Require Import Prelude GoFloat GoStrings StableSort Values Alarm.
From S2P Require Pvqa.

(** * Documents *)

(** What the decoder puts into an [any].  [YOther] is any other value - a large
    unsigned number, a timestamp, a mapping whose keys are not strings - with
    its text. *)
Inductive yaml :=
| YNull
| YBool (b : bool)
| YInt (z : Z)
| YFloat (f : float64)
| YStr (s : string)
| YSeq (l : list yaml)
| YMap (m : list (string * yaml))
| YOther (text : string).

(** [fmt.Sprintf("%v", v)] *)
Fixpoint yaml_text (v : yaml) : string :=
  match v with
  | YNull => "<nil>"
  | YBool b => fmt_v (ABool b)
  | YInt z => itoa z
  | YFloat f => fmt_v (AFloat f)
  | YStr s => s
  | YSeq l => "[" +:+ join " " (yaml_text <$> l) +:+ "]"
  | YMap m =>
      let entries := (fun kv => (kv.1, yaml_text kv.2)) <$> m in
      "map[" +:+ join " " ((fun kv => kv.1 +:+ ":" +:+ kv.2) <$> stable_sort (fun a b => str_lt a.1 b.1) entries) +:+ "]"
  | YOther text => text
  end.

Definition map_get (m : list (string * yaml)) (k : string) : yaml := default YNull (mlookup k m).

(** [nestedGet]: [YNull] when a step is missing. *)
Fixpoint nestedGet (doc : yaml) (keys : list string) : yaml :=
  match keys with
  | [] => doc
  | k :: keys =>
      match doc with
      | YMap m => match map_get m k with YNull => YNull | v => nestedGet v keys end
      | _ => YNull
      end
  end.

(** * Scalars *)

Definition asInt (v : yaml) (def : Z) : Z :=
  match v with
  | YInt z => z
  | YFloat f => int64_of_f64 f
  | YStr s => default def (atoi (trim_space s))
  | _ => def
  end.

Definition asFloat (v : yaml) (def : float64) : float64 :=
  match v with
  | YInt z => f64_of_Z z
  | YFloat f => f
  | YStr s => default def (parse_float (trim_space s))
  | _ => def
  end.

Definition asString (v : yaml) : string :=
  match v with YNull => "" | YStr s => s | v => yaml_text v end.

Definition asBool (v : yaml) (def : bool) : bool := match v with YBool b => b | _ => def end.

Definition asStringSlice (v : yaml) : list string :=
  match v with
  | YStr s => if String.eqb s "" then [] else [s]
  | YSeq l => List.filter (fun s => negb (String.eqb s "")) (asString <$> l)
  | _ => []
  end.

(** * Durations *)

(** The blanks of a regular expression. *)
Definition re_space (c : ascii) : bool := in_range 9 10 c || in_range 12 13 c || (code c =? 32).

Definition unitSeconds : list (string * float64) :=
  [("ms", f_decimal false 1 (-3)); ("s", f64_of_Z 1); ("m", f64_of_Z 60); ("h", f64_of_Z 3600); ("d", f64_of_Z 86400)].

(** [durationRe]: the number and the unit in lower case, empty if there is
    none. *)
Definition match_duration (text : string) : option (string * string) :=
  let '(_, s) := span re_space text in
  let '(digits, s) := span decimal_digit s in
  if String.eqb digits "" then None
  else
    let '(_, s) := span re_space s in
    let '(unit, s) := span (fun c => negb (re_space c)) s in
    let '(_, s) := span re_space s in
    let unit := str_map ascii_lower unit in
    if String.eqb s "" && (String.eqb unit "" || bool_decide (is_Some (mlookup unit unitSeconds)))
    then Some (digits, unit) else None.

Definition ParseDurationSeconds (v : yaml) : Z :=
  match v with
  | YNull => 0
  | YInt z => z
  | YFloat f => int64_of_f64 f
  | v =>
      match match_duration (yaml_text v) with
      | None => 0
      | Some (digits, unit) =>
          match atoi digits with
          | None => 0
          | Some qty =>
              let unit := if String.eqb unit "" then "s" else unit in
              int64_of_f64 (fmul (f64_of_Z qty) (default fzero (mlookup unit unitSeconds)))
          end
      end
  end.

(** * The configuration *)

Definition DefaultZeroMQPort : Z := 9125.
Definition DefaultZeroMQControlPort : Z := 9127.
Definition DefaultDashboardPort : Z := 9126.

Record Config := MkConfig {
  ZeroMQPort : Z; ZeroMQControlPort : Z; TrackResyncIntervalS : Z; GhostStreamTimeoutS : Z;
  AgentID : string; AgentName : string;
  DashboardHost : string; DashboardPort : Z; DashboardRoot : string; MaxStreams : Z;
  GoodMosThreshold : float64; SilenceRatioThreshold : float64; SevanaMos : string; PvqaConfig : string;
  DBEngine : string; DBConnection : string; RecordsLifetimeS : Z; AudioLifetimeS : Z; CSVPath : string;
  RecordsLimit : Z; StoreSipFilter : list string; Alarms : list AlarmConfig;
  LogLevel : string; LogFile : string; LogConsole : bool; Pidfile : string
}.

Definition HasDatabase (c : Config) : bool :=
  negb (String.eqb (DBEngine c) "") && negb (String.eqb (DBConnection c) "").

Definition defaults : Config :=
  MkConfig DefaultZeroMQPort DefaultZeroMQControlPort 60 120 "" ""
    "0.0.0.0" DefaultDashboardPort "" 50 (f_decimal false 36 (-1)) (f_decimal false 8 (-1)) "auto" ""
    "" "" 0 0 "" 0 [] [] "info" "" false "".

Section config.
Context `{UnicodeTables}.

Definition sevanaMosMode (v : yaml) : string :=
  let t := to_lower (trim_space (asString v)) in
  if existsb (String.eqb t) ["true"; "yes"; "on"; "show"] then "on"
  else if existsb (String.eqb t) ["false"; "no"; "off"; "hide"] then "off"
  else "auto".

Definition pvqaFlag (v : yaml) : bool :=
  match v with
  | YBool b => b
  | YStr s => existsb (String.eqb (to_lower (trim_space s))) ["yes"; "true"; "on"; "1"]
  | YInt z => negb (z =? 0)
  | _ => false
  end.

(** One entry of the alarm list. *)
Definition parse_alarm (m : list (string * yaml)) : AlarmConfig :=
  let get := map_get m in
  let '(limit, has) := match get "limit" with YNull => (fzero, false) | v => (asFloat v fzero, true) end in
  MkAlarmConfig (asString (get "name")) (trim_space (asString (get "counter")))
    (to_lower (trim_space (asString (get "op")))) limit has (ParseDurationSeconds (get "interval"))
    (asInt (get "min-samples") 0) (asString (get "filter")) (trim_space (asString (get "code")))
    (asString (get "command")) (trim_space (asString (get "webhook"))) (asBool (get "on-clear") false).

Definition parseAlarms (v : yaml) : list AlarmConfig :=
  match v with
  | YSeq l => omap (fun item => match item with YMap m => Some (parse_alarm m) | _ => None end) l
  | _ => []
  end.

Definition parse (doc : yaml) : Config :=
  let get := nestedGet doc in
  MkConfig
    (asInt (get ["server"; "zeromq-port"]) DefaultZeroMQPort)
    (asInt (get ["server"; "zeromq-control-port"]) DefaultZeroMQControlPort)
    (asInt (get ["server"; "track-resync-interval"]) (TrackResyncIntervalS defaults))
    (match get ["server"; "ghost-stream-timeout"] with
     | YNull => GhostStreamTimeoutS defaults
     | v => ParseDurationSeconds v
     end)
    (asString (get ["server"; "instance"; "id"]))
    (asString (get ["server"; "instance"; "name"]))
    (let v := asString (get ["dashboard"; "host"]) in if String.eqb v "" then DashboardHost defaults else v)
    (asInt (get ["dashboard"; "port"]) DefaultDashboardPort)
    (asString (get ["dashboard"; "root"]))
    (asInt (get ["dashboard"; "max-streams"]) 50)
    (asFloat (get ["dashboard"; "good-mos-threshold"]) (f_decimal false 36 (-1)))
    (asFloat (get ["dashboard"; "silence-ratio-threshold"]) (f_decimal false 8 (-1)))
    (sevanaMosMode (get ["dashboard"; "sevana-mos"]))
    (asString (get ["pvqa"; "config"]))
    (asString (get ["database"; "engine"]))
    (asString (get ["database"; "connection"]))
    (ParseDurationSeconds (get ["database"; "records-lifetime"]))
    (ParseDurationSeconds (get ["database"; "audio-lifetime"]))
    (asString (get ["database"; "csv"]))
    (asInt (get ["database"; "records-limit"]) 0)
    (asStringSlice (get ["database"; "store-sip-filter"]))
    (parseAlarms (get ["alarm"]))
    (match get ["logging"; "level"] with YNull => LogLevel defaults | v => asString v end)
    (asString (get ["logging"; "db"]))
    (asBool (get ["logging"; "console"]) false)
    (asString (get ["server"; "pidfile-db"])).

(** * Files *)

Inductive load_error := ReadError (path : string) | YamlError (path : string) | NoThresholds (path : string).

Section files.
Context (read_file : string -> option string) (unmarshal_yaml : string -> option yaml)
  (unmarshal_detectors : string -> option (list (list (string * yaml)))).

Definition Load (path : string) : res load_error Config :=
  match read_file path with
  | None => Err (ReadError path)
  | Some data => match unmarshal_yaml data with None => Err (YamlError path) | Some doc => Ok (parse doc) end
  end.

(** A detector of pvqa.cfg that has a name and a threshold. *)
Definition threshold_of (d : list (string * yaml)) : option (string * Pvqa.Detector) :=
  let name := asString (map_get d "Name") in
  match mlookup "IntThresh" d with
  | Some v => if String.eqb name "" then None
              else Some (name, Pvqa.MkDetector (asFloat v fzero) (pvqaFlag (map_get d "PVQA-Flag")))
  | None => None
  end.

(** Later entries of a name win. *)
Definition LoadDetectorThresholds (path : string) : res load_error Pvqa.Thresholds :=
  match read_file path with
  | None => Err (ReadError path)
  | Some data =>
      match unmarshal_detectors data with
      | None => Err (YamlError path)
      | Some ds =>
          let out := fold_left (fun (m : Pvqa.Thresholds) d => <[d.1 := d.2]> m) (omap threshold_of ds) ∅ in
          if bool_decide (out = ∅) then Err (NoThresholds path) else Ok out
      end
  end.
End files.
End config.

(** * What the configuration depends on *)

Definition known_paths : list (list string) :=
  [["server"; "zeromq-port"]; ["server"; "zeromq-control-port"]; ["server"; "track-resync-interval"];
   ["server"; "ghost-stream-timeout"]; ["server"; "instance"; "id"]; ["server"; "instance"; "name"];
   ["server"; "pidfile-db"]; ["dashboard"; "host"]; ["dashboard"; "port"]; ["dashboard"; "root"];
   ["dashboard"; "max-streams"]; ["dashboard"; "good-mos-threshold"]; ["dashboard"; "silence-ratio-threshold"];
   ["dashboard"; "sevana-mos"]; ["pvqa"; "config"]; ["database"; "engine"]; ["database"; "connection"];
   ["database"; "records-lifetime"]; ["database"; "audio-lifetime"]; ["database"; "csv"];
   ["database"; "records-limit"]; ["database"; "store-sip-filter"]; ["alarm"]; ["logging"; "level"];
   ["logging"; "db"]; ["logging"; "console"]].

(** A document with the settings of a configuration under their keys. *)
Definition alarm_document (a : AlarmConfig) : yaml :=
  YMap ([("name", YStr (ac_Name a)); ("counter", YStr (ac_Counter a)); ("op", YStr (ac_Op a));
         ("interval", YInt (IntervalS a)); ("min-samples", YInt (ac_MinSamples a)); ("filter", YStr (ac_Filter a));
         ("code", YStr (ac_Code a)); ("command", YStr (ac_Command a)); ("webhook", YStr (ac_Webhook a));
         ("on-clear", YBool (ac_OnClear a))] ++
        (if HasLimit a then [("limit", YFloat (ac_Limit a))] else [])).

Definition document (c : Config) : yaml :=
  YMap
    [("server", YMap
        [("zeromq-port", YInt (ZeroMQPort c)); ("zeromq-control-port", YInt (ZeroMQControlPort c));
         ("track-resync-interval", YInt (TrackResyncIntervalS c)); ("ghost-stream-timeout", YInt (GhostStreamTimeoutS c));
         ("instance", YMap [("id", YStr (AgentID c)); ("name", YStr (AgentName c))]); ("pidfile-db", YStr (Pidfile c))]);
     ("dashboard", YMap
        [("host", YStr (DashboardHost c)); ("port", YInt (DashboardPort c)); ("root", YStr (DashboardRoot c));
         ("max-streams", YInt (MaxStreams c)); ("good-mos-threshold", YFloat (GoodMosThreshold c));
         ("silence-ratio-threshold", YFloat (SilenceRatioThreshold c)); ("sevana-mos", YStr (SevanaMos c))]);
     ("pvqa", YMap [("config", YStr (PvqaConfig c))]);
     ("database", YMap
        [("engine", YStr (DBEngine c)); ("connection", YStr (DBConnection c)); ("records-lifetime", YInt (RecordsLifetimeS c));
         ("audio-lifetime", YInt (AudioLifetimeS c)); ("csv", YStr (CSVPath c)); ("records-limit", YInt (RecordsLimit c));
         ("store-sip-filter", YSeq (YStr <$> StoreSipFilter c))]);
     ("alarm", YSeq (alarm_document <$> Alarms c));
     ("logging", YMap [("level", YStr (LogLevel c)); ("db", YStr (LogFile c)); ("console", YBool (LogConsole c))])].

Section properties.
Context `{UnicodeTables}.

(** A configured alarm as the reader normalises it. *)
Definition normal_alarm (a : AlarmConfig) : Prop :=
  trim_space (ac_Counter a) = ac_Counter a /\ to_lower (trim_space (ac_Op a)) = ac_Op a /\
  trim_space (ac_Code a) = ac_Code a /\ trim_space (ac_Webhook a) = ac_Webhook a /\
  (HasLimit a = false -> ac_Limit a = fzero).

Definition normal (c : Config) : Prop :=
  DashboardHost c <> "" /\ SevanaMos c ∈ ["auto"; "on"; "off"] /\
  Forall (fun s => s <> "") (StoreSipFilter c) /\ Forall normal_alarm (Alarms c).

Lemma alarm_roundtrip a : normal_alarm a ->
  (match alarm_document a with YMap m => Some (parse_alarm m) | _ => None end) = Some a.
Proof using.
  intros (Hc & Ho & Hd & Hw & Hl). unfold alarm_document. f_equal. unfold parse_alarm, map_get.
  destruct a as [name counter op limit has interval samples flt cd cmd web clr].
  cbn [ac_Name ac_Counter ac_Op ac_Limit HasLimit IntervalS ac_MinSamples ac_Filter ac_Code ac_Command ac_Webhook ac_OnClear] in *.
  destruct has; cbn [app]; mlookup_red; cbn [default from_option id asString asInt asBool asFloat ParseDurationSeconds];
    rewrite Hc, Ho, Hd, Hw; [done|by rewrite Hl].
Qed.

Lemma alarms_roundtrip l : Forall normal_alarm l -> parseAlarms (YSeq (alarm_document <$> l)) = l.
Proof using.
  intros Hl. unfold parseAlarms. induction Hl as [|a l Ha _ IH]; [done|].
  rewrite fmap_cons, omap_unfold, (alarm_roundtrip a Ha), IH. done.
Qed.

(** The configuration is read from its own keys and no others.  Two
    documents that agree on those keys configure the daemon alike, whatever
    else they hold for vq-core; a document without them - or none at all -
    gives the defaults; and every setting round-trips: reading a document that
    holds a configuration under its keys gives that configuration, alarms
    included. *)
Theorem parse_reads_its_keys :
  (forall doc doc', (forall p, p ∈ known_paths -> nestedGet doc p = nestedGet doc' p) -> parse doc = parse doc') /\
  (forall doc, (forall p, p ∈ known_paths -> nestedGet doc p = YNull) -> parse doc = defaults) /\
  (forall c, normal c -> parse (document c) = c).
Proof using.
  split_and!.
  - intros doc doc' Hp. unfold parse.
    repeat match goal with |- context [nestedGet doc ?p] => rewrite (Hp p) by in_list end. done.
  - intros doc Hp. unfold parse.
    repeat match goal with |- context [nestedGet doc ?p] => rewrite (Hp p) by in_list end. reflexivity.
  - intros c (Hhost & Hmos & Hsip & Hal). destruct c as [? ? ? ? ? ? host ? ? ? ? ? mos ? ? ? ? ? ? ? sip al ? ? ? ?].
    cbn [DashboardHost SevanaMos StoreSipFilter Alarms] in *. unfold parse. f_equal; try reflexivity.
    + change (asString (nestedGet _ _)) with host. by apply String.eqb_neq in Hhost as ->.
    + change (nestedGet _ _) with (YStr mos).
      repeat (apply elem_of_cons in Hmos as [->|Hmos]; [reflexivity|]). by apply elem_of_nil in Hmos.
    + change (nestedGet _ _) with (YSeq (YStr <$> sip)). cbn [asStringSlice]. rewrite <- list_fmap_compose.
      rewrite (list_fmap_ext _ id), list_fmap_id by done. apply filter_all. intros x Hx. rewrite Forall_forall in Hsip.
      by apply negb_true_iff, String.eqb_neq, Hsip.
    + change (nestedGet _ _) with (YSeq (alarm_document <$> al)). by apply alarms_roundtrip.
Qed.
End properties.

(** * The properties at a concrete input *)

#[local] Existing Instance ascii_tables.

Definition sample_config : Config :=
  MkConfig 9125 9127 60 300 "1" "probe" "127.0.0.1" 9126 "/srv/www" 100 (f_decimal false 38 (-1)) (f_decimal false 8 (-1))
    "on" "" "sqlite3" "db=:memory:" 604800 86400 "" 1000 ["+372"; "sip:a@b"]
    [MkAlarmConfig "bad MOS" "sevana_mos" "below" (f_decimal false 32 (-1)) true 900 5 "" "" "notify $sevana_mos" "" true;
     MkAlarmConfig "" "jitter" "" fzero false 0 0 "duration > 5" "" "" "https://hooks" false]
    "debug" "" true "".

Lemma parse_reads_its_keys_witness :
  normal sample_config /\ parse (document sample_config) = sample_config /\
  parse (YMap [("core", YMap [("threads", YInt 4)]); ("server", YNull)]) = defaults.
Proof.
  destruct parse_reads_its_keys as (_ & Hd & Hr).
  assert (normal sample_config) as Hn.
  { split; [discriminate|]. split; [in_list|]. split; [repeat constructor; discriminate|].
    repeat constructor; discriminate. }
  split; [exact Hn|]. split; [exact (Hr _ Hn)|]. apply Hd. intros p Hp.
  repeat (apply elem_of_cons in Hp as [->|Hp]; [reflexivity|]). by apply elem_of_nil in Hp.
Defined.
