(* ===== verification/Translate.v ===== *)
(** From bus messages to domain events ([internal/translate/translate.go]): the
    priority of the payloads, the fields of every event and the text of
    addresses, with Go's [net.IP.String].

    The messages are those of [internal/proto/capturemessage.proto], as the
    generated getters show them: a scalar that is not set is its zero value, a
    sub-message is an [option], and a getter on a missing one answers zero.
    Parsing the wire format is the library's. *)

From S2P Require Import Prelude GoFloat GoStrings Model.

(** * Messages *)

Record pb_IpAddress := MkPbIp { Family : Z; Ip : string; Port : Z }.
Record pb_StreamId := MkPbStreamId { Src : option pb_IpAddress; pb_Dst : option pb_IpAddress; Ssrc : Z; Uuid : string }.
(** A float32 of a message is the float64 it converts to. *)
Record pb_MetricStats := MkPbMetric { Current : float64 }.
Record pb_CaptureStats := MkPbCapture {
  pc_Device : string; pc_TotalPacketCounter : Z; pc_RtpPacketCounter : Z; pc_SipPacketCounter : Z;
  pc_TruncatedPacketCounter : Z; pc_SrcPortRange : string; pc_DstPortRange : string; pc_DroppedHwPacketCounter : Z;
  pc_ErroneousPacketCounter : Z; pc_MbufAllocFailedCounter : Z
}.
Record pb_SipInfo := MkPbSipInfo { si_CallId : string; Peer1 : string; Peer2 : string }.
Record pb_DtxInfo := MkPbDtxInfo { CountSid : Z; CountDtx : Z; CountTotal : Z }.
Record pb_Stream := MkPbStream {
  ps_StreamId : option pb_StreamId; ps_RtpPacketCounter : Z; RtpIllegalPacketCounter : Z; RtpLostPacketCounter : Z;
  Codecname : string; StartTimestamp : Z; FinishTimestamp : Z; StartTimestampStream : Z; ps_DurationAudio : float64;
  ps_SevanaRfactor : float64; IntervalReport : string; ps_Sip : option pb_SipInfo; ps_DtxInfo : option pb_DtxInfo;
  ps_Jitter : option pb_MetricStats; ps_Rtt : option pb_MetricStats; MosNetwork : option pb_MetricStats;
  MosSevana : option pb_MetricStats
}.
Record pb_StreamStart := MkPbStreamStart { ss_StreamId : option pb_StreamId }.
Record pb_StreamFinish := MkPbStreamFinish { Report : option pb_Stream }.
Record pb_StreamAudio := MkPbAudio {
  pa_StreamId : option pb_StreamId; pa_Wav : string; pa_StartTimestamp : Z; pa_FinishTimestamp : Z
}.
Record pb_InstanceStatistics := MkPbStats {
  pi_Id : string; pi_Name : string; pi_ServerTime : string; pi_Version : string; pi_UptimeSeconds : Z;
  pi_PvqaInstanceCounter : Z; pi_PvqaProcessedSeconds : Z; pi_ActiveDecoderCounter : Z;
  pi_ActiveAudioDecoderCounter : Z; pi_TotalDecoderCounter : Z; pi_Capturers : list pb_CaptureStats;
  pi_SipCallCounter : Z; pi_ResipMessageCounter : Z; pi_ResipSipMessageCounter : Z; pi_MemAllocatedBytes : Z;
  pi_MemHeapSize : Z; pi_MemPageheapFreeBytes : Z; pi_MemAllocCount : Z; pi_MemFreeCount : Z;
  pi_MemAllocsPerSec : float64; pi_MemFreesPerSec : float64; pi_CpuUserSeconds : float64;
  pi_CpuSystemSeconds : float64; pi_CpuUsagePercent : float64
}.
Record pb_SipPeer := MkPbPeer { pp_Aor : string; pp_UserAgent : string; pp_Codecs : string; pp_Ssrc : Z }.
Record pb_SipCallStart := MkPbCallStart {
  pcs_CallId : string; pcs_Timestamp : Z; pcs_InviteTimestamp : Z; pcs_SetupCode : Z;
  pcs_Caller : option pb_SipPeer; pcs_Callee : option pb_SipPeer
}.
Record pb_SipCallEnd := MkPbCallEnd {
  pce_CallId : string; pce_Timestamp : Z; pce_Duration : Z; pce_ByeDirection : Z; pce_ResponseCodes : list Z; pce_HasBye : bool
}.
Record pb_SipReinvite := MkPbReinvite {
  pr_CallId : string; pr_Timestamp : Z; pr_IsRequest : bool; pr_Direction : Z; pr_UpdatedPeer : option pb_SipPeer;
  pr_RawMessage : string
}.
Record pb_SipCallFailed := MkPbCallFailed {
  pcf_CallId : string; pcf_Timestamp : Z; pcf_InviteTimestamp : Z; pcf_Reason : Z; pcf_ResponseCode : Z;
  pcf_ReasonPhrase : string; pcf_Caller : option pb_SipPeer; pcf_Callee : option pb_SipPeer
}.
Record pb_Warning := MkPbWarning { pw_Code : Z; pw_Tag : string; pw_Explanation : string; pw_StreamIds : list string }.
Record pb_CallHealth := MkPbHealth { ph_CallId : string; ph_Timestamp : Z; ph_StreamCount : Z; ph_Warnings : list pb_Warning }.
Record pb_EspSaEvent := MkPbEsp {
  pe_Spis : list Z; pe_Dst : option pb_IpAddress; pe_EncAlg : string; pe_AuthAlg : string; pe_Source : Z; pe_EncKey : string
}.
Record pb_Event := MkPbEvent {
  StreamStart : option pb_StreamStart; pbe_StreamReport : option pb_Stream; pbe_StreamFinish : option pb_StreamFinish;
  pbe_StreamAudio : option pb_StreamAudio; InstanceStats : option pb_InstanceStatistics;
  pbe_SipCallStart : option pb_SipCallStart; pbe_SipCallEnd : option pb_SipCallEnd; pbe_SipReinvite : option pb_SipReinvite;
  pbe_SipCallFailed : option pb_SipCallFailed; pbe_CallHealth : option pb_CallHealth; pbe_EspSaEvent : option pb_EspSaEvent
}.

(** The zero messages the getters answer from. *)
Definition no_ip : pb_IpAddress := MkPbIp 0 "" 0.
Definition no_stream_id : pb_StreamId := MkPbStreamId None None 0 "".
Definition no_metric : pb_MetricStats := MkPbMetric fzero.
Definition no_stream : pb_Stream :=
  MkPbStream None 0 0 0 "" 0 0 0 fzero fzero "" None None None None None None.
Definition no_peer : pb_SipPeer := MkPbPeer "" "" "" 0.
Definition no_sip : pb_SipInfo := MkPbSipInfo "" "" "".
Definition no_dtx : pb_DtxInfo := MkPbDtxInfo 0 0 0.

(** * Addresses *)

Definition IpAddress_IPv6 : Z := 1.

(** [copy(make([]byte, n), raw)] *)
Definition copy_into (n : nat) (raw : string) : list Z :=
  let raw := code <$> String.list_ascii_of_string raw in
  take n raw ++ replicate (n - length raw) 0.

Definition dotted (bs : list Z) : string := join "." (itoa <$> bs).

(** The 16-bit groups of an address. *)
Fixpoint groups_of (bs : list Z) : list Z :=
  match bs with h :: l :: bs => h * 256 + l :: groups_of bs | _ => [] end.

(** The number of zero groups at the front. *)
Fixpoint zero_run (gs : list Z) : nat :=
  match gs with g :: gs => if g =? 0 then S (zero_run gs) else O | [] => O end.

(** The longest run of zero groups, the first of its length: where it starts
    and how long it is.  [best] is the best run found before position [i]. *)
Fixpoint longest_run (i : nat) (best : nat * nat) (gs : list Z) : nat * nat :=
  match gs with
  | [] => best
  | _ :: gs' =>
      let n := zero_run gs in
      longest_run (S i) (if (best.2 <? n)%nat then (i, n) else best) gs'
  end.

Definition hex_group (g : Z) : string := format_uint 16 g.

(** [netip.Addr.String] of an IPv6 address: a run of at least two zero groups
    is left out. *)
Definition colons (gs : list Z) : string :=
  let '(start, n) := longest_run 0 (0%nat, 0%nat) gs in
  if (n <? 2)%nat then join ":" (hex_group <$> gs)
  else join ":" (hex_group <$> take start gs) +:+ "::" +:+ join ":" (hex_group <$> drop (start + n) gs).

(** [net.IP.To4]: an IPv4 address in IPv6 form. *)
Definition to4 (bs : list Z) : option (list Z) :=
  if bool_decide (take 12 bs = replicate 10 0 ++ [255; 255]) then Some (drop 12 bs) else None.

(** [net.IP.String] of 4 or 16 bytes. *)
Definition IP_String (bs : list Z) : string :=
  if (length bs =? 4)%nat then dotted bs
  else match to4 bs with Some v4 => dotted v4 | None => colons (groups_of bs) end.

Definition ipString (msg : option pb_IpAddress) : string :=
  let msg := default no_ip msg in
  IP_String (copy_into (if Family msg =? IpAddress_IPv6 then 16 else 4) (Ip msg)).

(** * Events *)

Definition streamID (msg : option pb_StreamId) : MediaStreamId :=
  let msg := default no_stream_id msg in
  MkMediaStreamId (ipString (Src msg)) (Port (default no_ip (Src msg))) (ipString (pb_Dst msg))
    (Port (default no_ip (pb_Dst msg))) (Ssrc msg) (Uuid msg).

Definition captureStats (c : pb_CaptureStats) : CaptureStats :=
  MkCaptureStats (pc_Device c) (pc_TotalPacketCounter c) (pc_RtpPacketCounter c) (pc_SipPacketCounter c)
    (pc_TruncatedPacketCounter c) (pc_SrcPortRange c) (pc_DstPortRange c) (pc_DroppedHwPacketCounter c)
    (pc_ErroneousPacketCounter c) (pc_MbufAllocFailedCounter c).

Definition peer (msg : option pb_SipPeer) : SipPeer :=
  let p := default no_peer msg in MkSipPeer (pp_Aor p) (pp_UserAgent p) (pp_Codecs p) (pp_Ssrc p).

Definition current (m : option pb_MetricStats) : float64 := Current (default no_metric m).

Definition streamReport (msg : option pb_Stream) (full : bool) : StreamReport :=
  let m := default no_stream msg in
  let dtx := default no_dtx (ps_DtxInfo m) in
  let sip := default no_sip (ps_Sip m) in
  {| StreamID := streamID (ps_StreamId m);
     StartMs := wrap64 (StartTimestamp m);
     EndMs := wrap64 (FinishTimestamp m);
     StartStreamMs := wrap64 (StartTimestampStream m);
     RTPPacketCounter := ps_RtpPacketCounter m;
     IllegalPacketCounter := RtpIllegalPacketCounter m;
     LostPacketCounter := RtpLostPacketCounter m;
     SevanaMOS := Some (current (MosSevana m));
     NetworkMOS := Some (current (MosNetwork m));
     SevanaRfactor := int64_of_f64 (ps_SevanaRfactor m);
     Jitter := current (ps_Jitter m);
     Codec := Codecname m;
     RTTDelay := current (ps_Rtt m);
     DetectorReport := IntervalReport m;
     DurationAudio := int64_of_f64 (ps_DurationAudio m);
     AmrNbSwitchCounter := 0;
     AmrWbSwitchCounter := 0;
     DtxSid := CountSid dtx;
     DtxCount := CountDtx dtx;
     DtxTotal := CountTotal dtx;
     FullReport := full;
     UserReport := "";
     SipCallID := si_CallId sip;
     SipPeerA := Peer1 sip;
     SipPeerB := Peer2 sip |}.

(** [CallHealth_Code.String]: the name, or the number of an unknown code. *)
Definition code_names : list (Z * string) :=
  [(0, "CODE_UNSPECIFIED"); (1, "CODE_NO_RTP"); (2, "CODE_ONE_WAY_AUDIO"); (3, "CODE_CODEC_ASYM");
   (4, "CODE_PTIME_ASYM"); (5, "CODE_PAYLOAD_ASYM"); (6, "CODE_DURATION_ASYM"); (7, "CODE_LATE_MEDIA");
   (8, "CODE_ONE_SIDED_SILENCE")].

Definition code_String (c : Z) : string :=
  match List.find (fun kv => kv.1 =? c) code_names with Some (_, s) => s | None => itoa c end.

Definition instanceStats (s : pb_InstanceStatistics) : InstanceStatistics :=
  {| is_ID := pi_Id s; is_Name := pi_Name s; ServerTime := pi_ServerTime s; Version := pi_Version s;
     UptimeSeconds := pi_UptimeSeconds s; PvqaInstanceCounter := pi_PvqaInstanceCounter s;
     PvqaProcessedSeconds := pi_PvqaProcessedSeconds s; ActiveDecoderCounter := pi_ActiveDecoderCounter s;
     ActiveAudioDecoderCounter := pi_ActiveAudioDecoderCounter s; TotalDecoderCounter := pi_TotalDecoderCounter s;
     Capturers := captureStats <$> pi_Capturers s; SipCallCounter := pi_SipCallCounter s;
     ResipMessageCounter := pi_ResipMessageCounter s; ResipSipMessageCounter := pi_ResipSipMessageCounter s;
     MemAllocatedBytes := pi_MemAllocatedBytes s; MemHeapSize := pi_MemHeapSize s;
     MemPageheapFreeBytes := pi_MemPageheapFreeBytes s; MemAllocCount := pi_MemAllocCount s;
     MemFreeCount := pi_MemFreeCount s; MemAllocsPerSec := pi_MemAllocsPerSec s; MemFreesPerSec := pi_MemFreesPerSec s;
     CpuUserSeconds := pi_CpuUserSeconds s; CpuSystemSeconds := pi_CpuSystemSeconds s;
     CpuUsagePercent := pi_CpuUsagePercent s |}.

Section decode.
Context `{UnicodeTables}.

Definition warning (w : pb_Warning) : CallHealthWarning :=
  MkCallHealthWarning (to_lower (trim_prefix "CODE_" (code_String (pw_Code w)))) (pw_Tag w) (pw_Explanation w) (pw_StreamIds w).

(** The first payload that is present, in this order. *)
Definition DecodeEvent (e : pb_Event) : option domain_event :=
  match StreamStart e with Some s => Some (EStream (streamID (ss_StreamId s))) | None =>
  match pbe_StreamReport e with Some s => Some (EReport (streamReport (Some s) false)) | None =>
  match pbe_StreamFinish e with Some s => Some (EReport (streamReport (Report s) true)) | None =>
  match pbe_StreamAudio e with
  | Some a => Some (EAudio (MkStreamAudio (streamID (pa_StreamId a)) (pa_Wav a) (wrap64 (pa_StartTimestamp a)) (wrap64 (pa_FinishTimestamp a))))
  | None =>
  match InstanceStats e with Some s => Some (EStats (instanceStats s)) | None =>
  match pbe_SipCallStart e with
  | Some s => Some (ECallStart (MkSipCallStart (pcs_CallId s) (wrap64 (pcs_Timestamp s)) (wrap64 (pcs_InviteTimestamp s))
                (pcs_SetupCode s) (peer (pcs_Caller s)) (peer (pcs_Callee s))))
  | None =>
  match pbe_SipCallEnd e with
  | Some s => Some (ECallEnd (MkSipCallEnd (pce_CallId s) (wrap64 (pce_Timestamp s)) (wrap64 (pce_Duration s))
                (pce_ByeDirection s) (pce_ResponseCodes s) (pce_HasBye s)))
  | None =>
  match pbe_SipReinvite e with
  | Some s => Some (EReinvite (MkSipReinvite (pr_CallId s) (wrap64 (pr_Timestamp s)) (pr_IsRequest s) (pr_Direction s)
                (peer (pr_UpdatedPeer s)) (pr_RawMessage s)))
  | None =>
  match pbe_SipCallFailed e with
  | Some s => Some (ECallFailed (MkSipCallFailed (pcf_CallId s) (wrap64 (pcf_Timestamp s)) (wrap64 (pcf_InviteTimestamp s))
                (pcf_Reason s) (pcf_ResponseCode s) (pcf_ReasonPhrase s) (peer (pcf_Caller s)) (peer (pcf_Callee s))))
  | None =>
  match pbe_CallHealth e with
  | Some h => Some (EHealth (MkCallHealth (ph_CallId h) (wrap64 (ph_Timestamp h)) (ph_StreamCount h) (warning <$> ph_Warnings h)))
  | None =>
  match pbe_EspSaEvent e with
  | Some s => Some (EEspSa (MkEspSaEvent (pe_Spis s) (ipString (pe_Dst s)) (pe_EncAlg s) (pe_AuthAlg s) (pe_Source s)
                (negb (String.eqb (pe_EncKey s) ""))))
  | None => None
  end end end end end end end end end end end.

(** [DecodeBytes]; [unmarshal_event] is the library's parser. *)
Definition DecodeBytes (unmarshal_event : string -> option pb_Event) (data : string) : option (option domain_event) :=
  DecodeEvent <$> unmarshal_event data.
End decode.

(** * Addresses read back *)

Definition parse_v4 (s : string) : option (list Z) := mapM atoi (split_byte "." s).

(** The first double colon. *)
Fixpoint cut_colons (s : string) : option (string * string) :=
  match s with
  | String a (String b t as s') =>
      if Ascii.eqb a ":" && Ascii.eqb b ":" then Some ("", t)
      else '(x, y) ← cut_colons s'; Some (String a x, y)
  | _ => None
  end.

Definition hex_groups (s : string) : option (list Z) :=
  if String.eqb s "" then Some [] else mapM (parse_unsigned 16) (split_byte ":" s).

Definition parse_v6 (s : string) : option (list Z) :=
  match cut_colons s with
  | None => hex_groups s
  | Some (x, y) => a ← hex_groups x; b ← hex_groups y; Some (a ++ replicate (8 - length a - length b) 0 ++ b)
  end.

Definition bytes_of (gs : list Z) : list Z := gs ≫= fun g => [g / 256; g `mod` 256].

Definition parse_ip (s : string) : option (list Z) :=
  if contains_byte ":" s then bytes_of <$> parse_v6 s else parse_v4 s.

Definition is_byte (z : Z) : Prop := 0 <= z < 256.

(** ** IPv4 *)

Lemma itoa_digits z : 0 <= z -> str_forall decimal_digit (itoa z) = true.
Proof. intros Hz. unfold itoa, format_int. destruct (Z.ltb_spec z 0); [lia|]. by apply format_uint_digits. Qed.

Lemma mapM_inverse {A B} (f : A -> B) (g : B -> option A) (P : A -> Prop) l :
  (forall x, P x -> g (f x) = Some x) -> Forall P l -> mapM g (f <$> l) = Some l.
Proof.
  intros Hg. induction 1 as [|x l Hx _ IH]; [done|]. rewrite fmap_cons. cbn [mapM]. by rewrite Hg, IH.
Qed.

Lemma parse_v4_dotted bs : bs <> [] -> Forall is_byte bs -> parse_v4 (dotted bs) = Some bs.
Proof.
  intros Hn Hb. unfold parse_v4, dotted. rewrite (split_join ".").
  - apply (mapM_inverse itoa atoi is_byte); [|done]. intros x Hx. apply atoi_itoa.
    unfold is_byte, in_int64, min_int64, max_int64 in *. lia.
  - by destruct bs.
  - apply Forall_fmap. eapply Forall_impl; [exact Hb|]. intros x Hx.
    apply (contains_forall "." decimal_digit); [apply itoa_digits; unfold is_byte in Hx; lia|done].
Qed.

Lemma dotted_no_colon bs : Forall is_byte bs -> contains_byte ":" (dotted bs) = false.
Proof.
  intros Hb. apply (contains_forall ":" (fun c => decimal_digit c || Ascii.eqb c ".")); [|done].
  unfold dotted. induction Hb as [|x l Hx _ IH]; [done|].
  assert (str_forall (fun c => decimal_digit c || Ascii.eqb c ".") (itoa x) = true) as Hi.
  { eapply str_forall_impl; [|apply itoa_digits; unfold is_byte in Hx; lia]. intros c. cbn. by intros ->. }
  rewrite fmap_cons. destruct l as [|y l]; [done|].
  change (join "." (itoa x :: (itoa <$> y :: l))) with (itoa x +:+ String "." (join "." (itoa <$> y :: l))).
  rewrite str_forall_app, Hi. cbn [str_forall andb]. by rewrite IH.
Qed.

(** ** IPv6 *)

Definition group_ok (g : Z) : Prop := 0 <= g < 65536.

Definition hex_byte (c : ascii) : bool := in_range 48 57 c || in_range 97 102 c.

Lemma hex_group_bytes g : 0 <= g -> str_forall hex_byte (hex_group g) = true.
Proof.
  intros Hg. apply digits_fuel_forall; [lia|done| |done]. intros d Hd. revert d Hd.
  apply (range_decide (fun d => hex_byte (digit_char d) = true) 0 16). vm_compute. reflexivity.
Qed.

Lemma hex_group_plain g : group_ok g -> contains_byte ":" (hex_group g) = false /\ hex_group g <> "".
Proof.
  intros Hg. unfold group_ok in Hg. split.
  - apply (contains_forall ":" hex_byte); [apply hex_group_bytes; lia|done].
  - destruct (format_uint_cons 16 g) as (c & s & E). unfold hex_group. by rewrite E.
Qed.

Lemma hex_groups_join gs : Forall group_ok gs -> hex_groups (join ":" (hex_group <$> gs)) = Some gs.
Proof.
  intros Hg. destruct gs as [|g gs]; [done|]. unfold hex_groups.
  assert (join ":" (hex_group <$> g :: gs) <> "") as Hne.
  { apply Forall_cons_1 in Hg as [Hg _]. destruct (hex_group_plain g Hg) as [_ Hp]. rewrite fmap_cons.
    destruct (hex_group g) as [|c t]; [done|]. by destruct (hex_group <$> gs). }
  apply String.eqb_neq in Hne as ->. rewrite (split_join ":").
  - apply (mapM_inverse hex_group (parse_unsigned 16) group_ok); [|done]. intros x Hx. unfold group_ok in Hx.
    apply parse_unsigned_format; lia.
  - done.
  - apply Forall_fmap. eapply Forall_impl; [exact Hg|]. intros x Hx. by apply hex_group_plain.
Qed.

Definition in_front (e : string) (r : string * string) : string * string := (e +:+ r.1, r.2).

Lemma cut_colons_plain e s : contains_byte ":" e = false -> cut_colons (e +:+ s) = in_front e <$> cut_colons s.
Proof.
  induction e as [|a e IH]; intros He; [change ("" +:+ s) with s; by destruct (cut_colons s) as [[]|]|].
  cbn [contains_byte] in He. apply orb_false_iff in He as [Ha He]. specialize (IH He).
  change (String a e +:+ s) with (String a (e +:+ s)). cbn [cut_colons]. rewrite IH, Ha.
  destruct (e +:+ s) as [|b t] eqn:E.
  - destruct e, s; try done.
  - cbn [andb]. by destruct (cut_colons s) as [[]|].
Qed.

Lemma cut_colons_one c t : Ascii.eqb c ":" = false ->
  cut_colons (String ":" (String c t)) = in_front ":" <$> cut_colons (String c t).
Proof.
  intros Hc. change (cut_colons (String ":" (String c t))) with
    (if Ascii.eqb ":" ":" && Ascii.eqb c ":" then Some ("", t)
     else '(x, y) ← cut_colons (String c t); Some (String ":" x, y)).
  rewrite Hc, andb_false_r. by destruct (cut_colons (String c t)) as [[]|].
Qed.

Lemma hex_join_cons g gs s : group_ok g -> exists c t,
  join ":" (hex_group <$> g :: gs) +:+ s = String c t /\ Ascii.eqb c ":" = false.
Proof.
  intros Hg. destruct (hex_group_plain g Hg) as [Hc Hn]. rewrite fmap_cons.
  destruct (hex_group g) as [|c e]; [done|]. cbn in Hc. apply orb_false_iff in Hc as [Hc _].
  exists c. destruct (hex_group <$> gs); eexists; split; done.
Qed.

Lemma cut_colons_join gs s : gs <> [] -> Forall group_ok gs ->
  cut_colons (join ":" (hex_group <$> gs) +:+ s) = in_front (join ":" (hex_group <$> gs)) <$> cut_colons s.
Proof.
  induction gs as [|g gs IH]; [done|]. intros _ Hg. pose proof Hg as [Hg1 Hg2]%Forall_cons.
  destruct (hex_group_plain g Hg1) as [Hc Hn]. destruct gs as [|g' gs].
  { by apply cut_colons_plain. }
  change (join ":" (hex_group <$> g :: g' :: gs)) with (hex_group g +:+ String ":" (join ":" (hex_group <$> g' :: gs))).
  rewrite str_app_assoc, cut_colons_plain by done.
  change (String ":" ?x +:+ s) with (String ":" (x +:+ s)).
  pose proof Hg2 as [Hg' _]%Forall_cons.
  destruct (hex_join_cons g' gs s Hg') as (c & t & E & Hcc). rewrite E, cut_colons_one by done. rewrite <- E, IH by done.
  destruct (cut_colons s) as [[x y]|]; [|done]. cbn [fmap option_fmap option_map]. unfold in_front. cbn [fst snd].
  by rewrite !str_app_assoc.
Qed.

Lemma zero_run_spec gs : (zero_run gs <= length gs)%nat /\ take (zero_run gs) gs = replicate (zero_run gs) 0.
Proof.
  induction gs as [|g gs [IH1 IH2]]; [done|]. cbn. destruct (Z.eqb_spec g 0) as [->|]; [|cbn; split; [lia|done]].
  cbn. rewrite IH2. split; [lia|done].
Qed.

(** A run of zeros of [gs]. *)
Definition is_run (gs : list Z) (r : nat * nat) : Prop :=
  (r.1 + r.2 <= length gs)%nat /\ take r.2 (drop r.1 gs) = replicate r.2 0.

Lemma longest_run_is gs pre best : is_run (pre ++ gs) best -> is_run (pre ++ gs) (longest_run (length pre) best gs).
Proof.
  revert pre best. induction gs as [|g gs IH]; intros pre best Hb; [done|]. cbn [longest_run].
  replace (pre ++ g :: gs) with ((pre ++ [g]) ++ gs) in * by (by rewrite <- app_assoc).
  replace (S (length pre)) with (length (pre ++ [g])) by (rewrite length_app; cbn; lia). apply IH.
  destruct (best.2 <? zero_run (g :: gs))%nat; [|done].
  destruct (zero_run_spec (g :: gs)) as [Hl Ht]. rewrite <- app_assoc. unfold is_run. cbn [fst snd app].
  rewrite length_app, drop_app_length. cbn [length] in *. split; [lia|done].
Qed.

Lemma colons_split gs start n : longest_run 0 (0%nat, 0%nat) gs = (start, n) ->
  gs = take start gs ++ replicate n 0 ++ drop (start + n) gs /\ (start + n <= length gs)%nat.
Proof.
  intros E. pose proof (longest_run_is gs [] (0%nat, 0%nat)) as Hr. cbn [app length] in Hr. rewrite E in Hr.
  destruct Hr as [Hl Ht]; [split; cbn; [lia|done]|]. cbn [fst snd] in *. split; [|done].
  rewrite <- Ht, <- drop_drop. by rewrite take_drop, take_drop.
Qed.

Lemma parse_v6_colons gs : length gs = 8%nat -> Forall group_ok gs -> parse_v6 (colons gs) = Some gs.
Proof.
  intros Hl Hg. unfold colons. destruct (longest_run 0 (0%nat, 0%nat) gs) as [start n] eqn:E.
  destruct (colons_split gs start n E) as [Hs Hle]. destruct (n <? 2)%nat.
  - unfold parse_v6. rewrite <- (str_app_nil_r (join ":" _)), cut_colons_join by (done || by destruct gs).
    cbn [cut_colons fmap option_fmap option_map]. rewrite str_app_nil_r. by apply hex_groups_join.
  - set (a := take start gs) in *. set (b := drop (start + n) gs) in *.
    assert (Forall group_ok a /\ Forall group_ok b) as [Ha Hb] by (split; [by apply Forall_take|by apply Forall_drop]).
    assert (length a = start) as La by (unfold a; rewrite length_take; lia).
    assert (length b = 8 - start - n)%nat as Lb by (unfold b; rewrite length_drop; lia).
    assert (cut_colons (join ":" (hex_group <$> a) +:+ "::" +:+ join ":" (hex_group <$> b)) =
      Some (join ":" (hex_group <$> a), join ":" (hex_group <$> b))) as Ec.
    { destruct a as [|g a]; [done|]. rewrite cut_colons_join by done. cbn. unfold in_front. cbn. by rewrite str_app_nil_r. }
    unfold parse_v6. rewrite Ec, !hex_groups_join by done. cbn [mbind option_bind]. rewrite La, Lb.
    replace (8 - start - (8 - start - n))%nat with n by lia. by rewrite <- Hs.
Qed.

Lemma groups_of_spec n bs : length bs = (2 * n)%nat -> Forall is_byte bs ->
  length (groups_of bs) = n /\ Forall group_ok (groups_of bs) /\ bytes_of (groups_of bs) = bs.
Proof.
  revert bs. induction n as [|n IH]; intros bs Hl Hb; [by destruct bs|].
  destruct bs as [|h [|l bs]]; cbn in Hl; [lia|lia|]. apply Forall_cons in Hb as [Hh Hb]. apply Forall_cons in Hb as [Hlo Hb].
  destruct (IH bs ltac:(lia) Hb) as (H1 & H2 & H3). cbn [groups_of length]. unfold is_byte in *.
  split; [by rewrite H1|]. split; [constructor; [unfold group_ok; lia|done]|].
  unfold bytes_of in *. cbn. rewrite H3. f_equal; [|f_equal].
  - rewrite Z.div_add_l by lia. rewrite Z.div_small by lia. lia.
  - rewrite Z.add_comm, Z_mod_plus_full, Z.mod_small by lia. done.
Qed.

Lemma colons_has_colon gs : length gs = 8%nat -> contains_byte ":" (colons gs) = true.
Proof.
  intros Hl. assert (forall s t, contains_byte ":" (s +:+ String ":" t) = true) as Hc.
  { intros s t. induction s as [|a s IH]; [done|]. cbn. by rewrite IH, orb_true_r. }
  unfold colons. destruct (longest_run _ _ _) as [start n]. destruct (n <? 2)%nat; [|apply Hc].
  destruct gs as [|g [|g' gs]]; [done|done|]. apply Hc.
Qed.

(** An address that reads back: four bytes of IPv4, or sixteen of IPv6 that are
    not an IPv4 address in disguise. *)
Definition proper_ip (a : pb_IpAddress) : Prop :=
  (Family a = 0 /\ String.length (Ip a) = 4%nat) \/
  (Family a = 1 /\ String.length (Ip a) = 16%nat /\ to4 (code <$> String.list_ascii_of_string (Ip a)) = None).

Lemma list_ascii_length s : length (String.list_ascii_of_string s) = String.length s.
Proof. induction s as [|a s IH]; [done|]. cbn. by rewrite IH. Qed.

Lemma codes_are_bytes s : Forall is_byte (code <$> String.list_ascii_of_string s).
Proof. apply Forall_fmap, Forall_true. intros c. apply code_range. Qed.

Lemma copy_whole n s : String.length s = n -> copy_into n s = code <$> String.list_ascii_of_string s.
Proof.
  intros Hl. unfold copy_into. rewrite length_fmap, list_ascii_length, Hl, Nat.sub_diag. cbn [replicate].
  rewrite app_nil_r. apply take_ge. by rewrite length_fmap, list_ascii_length, Hl.
Qed.

Lemma ipString_back a : proper_ip a -> parse_ip (ipString (Some a)) = Some (code <$> String.list_ascii_of_string (Ip a)).
Proof.
  intros Hp. unfold ipString, IP_String. cbn [default from_option id]. change (default no_ip (Some a)) with a.
  pose proof (codes_are_bytes (Ip a)) as Hb. destruct Hp as [[-> Hl]|(-> & Hl & H4)]; cbn [Z.eqb IpAddress_IPv6].
  - change (0 =? IpAddress_IPv6) with false. cbn iota. rewrite (copy_whole 4) by done.
    rewrite length_fmap, list_ascii_length, Hl. cbn [Nat.eqb]. unfold parse_ip. rewrite dotted_no_colon by done.
    apply parse_v4_dotted; [|done]. by destruct (Ip a).
  - change (1 =? IpAddress_IPv6) with true. cbn iota. rewrite (copy_whole 16) by done.
    rewrite length_fmap, list_ascii_length, Hl. cbn [Nat.eqb]. rewrite H4.
    destruct (groups_of_spec 8 (code <$> String.list_ascii_of_string (Ip a))) as (Hg1 & Hg2 & Hg3);
      [by rewrite length_fmap, list_ascii_length, Hl|done|].
    unfold parse_ip. rewrite colons_has_colon, parse_v6_colons by done. cbn [fmap option_fmap option_map]. by rewrite Hg3.
Qed.

Lemma ipString_inj a b : proper_ip a -> proper_ip b -> ipString (Some a) = ipString (Some b) -> Family a = Family b /\ Ip a = Ip b.
Proof.
  intros Ha Hb E. pose proof (ipString_back a Ha) as Ea. rewrite E, (ipString_back b Hb) in Ea. injection Ea as Ea.
  assert (Ip a = Ip b) as Hi.
  { rewrite <- (String.string_of_list_ascii_of_string (Ip a)), <- (String.string_of_list_ascii_of_string (Ip b)). f_equal.
    apply (list_fmap_eq_inj code) in Ea; [done|]. intros x y Hxy. by rewrite <- (chr_code x), <- (chr_code y), Hxy. }
  split; [|done]. destruct Ha as [[-> Hl]|(-> & Hl & _)], Hb as [[-> Hm]|(-> & Hm & _)]; try done; rewrite Hi in Hl; lia.
Qed.

(** C29. The identity of a stream survives the translation.  Two stream ids of
    the bus, with well-formed addresses, become the same key of the registry
    and of the writer exactly when they are the same: their source and
    destination addresses - IPv4 or IPv6, shortened or not - ports, SSRC and
    uuid.  The text of an address reads back as its bytes. *)
Theorem streamID_identifies a b sa da sb db :
  Src a = Some sa -> pb_Dst a = Some da -> Src b = Some sb -> pb_Dst b = Some db ->
  Forall proper_ip [sa; da; sb; db] ->
  (streamID (Some a) = streamID (Some b) <->
   (Family sa, Ip sa, Port sa, (Family da, Ip da, Port da), Ssrc a, Uuid a) =
   (Family sb, Ip sb, Port sb, (Family db, Ip db, Port db), Ssrc b, Uuid b)) /\
  parse_ip (SrcIP (streamID (Some a))) = Some (code <$> String.list_ascii_of_string (Ip sa)) /\
  parse_ip (DstIP (streamID (Some a))) = Some (code <$> String.list_ascii_of_string (Ip da)).
Proof.
  intros E1 E2 E3 E4 HP. rewrite !Forall_cons in HP. destruct HP as (P1 & P2 & P3 & P4 & _).
  assert (forall m (x y : pb_IpAddress), Src m = Some x -> pb_Dst m = Some y ->
    streamID (Some m) = MkMediaStreamId (ipString (Some x)) (Port x) (ipString (Some y)) (Port y) (Ssrc m) (Uuid m)) as Hs.
  { intros m x y Hx Hy. unfold streamID. cbn [default from_option id]. change (default no_stream_id (Some m)) with m.
    by rewrite Hx, Hy. }
  rewrite (Hs a sa da), (Hs b sb db) by done. cbn [SrcIP DstIP]. split; [split|split; by apply ipString_back].
  - intros [= Ei Ep Ej Eq Er Eu]. apply ipString_inj in Ei as [-> ->]; [|done|done].
    apply ipString_inj in Ej as [-> ->]; [|done|done]. by rewrite Ep, Eq, Er, Eu.
  - intros [= Ef Ei Ep Eg Ej Eq Er Eu]. destruct sa, sb, da, db. cbn in Ef, Ei, Ep, Eg, Ej, Eq. subst. by rewrite Er, Eu.
Qed.

Lemma streamID_identifies_witness :
  let v4 b := MkPbIp 0 (bytes [10; 0; 0; b]) 4000 in
  let v6 := MkPbIp 1 (bytes [32; 1; 13; 184; 0; 0; 0; 0; 0; 0; 0; 0; 0; 0; 0; 1]) 5000 in
  let a := MkPbStreamId (Some (v4 1)) (Some v6) 7 "u" in
  let b := MkPbStreamId (Some (v4 2)) (Some v6) 7 "u" in
  streamID (Some a) = MkMediaStreamId "10.0.0.1" 4000 "2001:db8::1" 5000 7 "u" /\ streamID (Some a) <> streamID (Some b).
Proof.
  intros v4 v6 a b. split; [vm_compute; reflexivity|].
  assert (proper_ip (v4 1) /\ proper_ip (v4 2) /\ proper_ip v6) as (P1 & P2 & P6).
  { split_and!; [left|left|right]; repeat split; vm_compute; reflexivity. }
  destruct (streamID_identifies a b (v4 1) v6 (v4 2) v6 eq_refl eq_refl eq_refl eq_refl) as [Hi _].
  - exact (Forall_cons_2 _ _ _ P1 (Forall_cons_2 _ _ _ P6 (Forall_cons_2 _ _ _ P2 (Forall_cons_2 _ _ _ P6 (Forall_nil_2 _))))).
  - intros E. apply Hi in E. apply (f_equal (fun p => match p with (_, i, _, _, _, _) => i end)) in E. discriminate.
Defined.
