(* ===== verification/Dsn.v ===== *)
(** Connection settings ([internal/db/dsn.go], [internal/db/open.go]): the
    SOCI-style connection string, its translation into a driver and a data
    source name, and the description of a connection for the log.

    The theorems: a written connection string reads back, and the description
    of a server connection never depends on the password. *)

From S2P Require Import Prelude GoFloat GoStrings.

(** * SOCI connection strings *)

Definition soci_space (c : ascii) : bool := in_range 9 13 c || (code c =? 32).

Definition quote : ascii := "'"%char.

(** The value at the front and what follows it. *)
Definition soci_value (s : string) : string * string :=
  match s with
  | String q t =>
      if Ascii.eqb q quote || Ascii.eqb q dquote
      then match cut_byte q t with Some (v, rest) => (v, rest) | None => (t, "") end
      else span (fun c => negb (soci_space c)) s
  | EmptyString => ("", "")
  end.

Fixpoint soci_loop (fuel : nat) (s : string) (params : gmap string string) : gmap string string :=
  match fuel with
  | O => params
  | S fuel =>
      match (span soci_space s).2 with
      | EmptyString => params
      | s =>
          match cut_byte "=" s with
          | None => params
          | Some (key, rest) =>
              let '(value, rest) := soci_value rest in
              soci_loop fuel rest (<[trim_space key := value]> params)
          end
      end
  end.

(** Each round of the loop passes an equals sign. *)
Definition parseSOCI (connection : string) : gmap string string := soci_loop (S (String.length connection)) connection ∅.

(** [params["k"]] *)
Definition param (params : gmap string string) (k : string) : string := default "" (params !! k).

(** * Data source names *)

Definition DriverSQLite : string := "sqlite".
Definition DriverPostgres : string := "pgx".
Definition DriverMySQL : string := "mysql".

Definition sqliteEngines : list string := ["sqlite3"; "sqlite"].
Definition postgresEngines : list string := ["postgresql"; "postgres"; "pgsql"].
Definition mysqlEngines : list string := ["mysql"].

Definition firstNonEmpty (vals : list string) : string :=
  default "" (head (List.filter (fun v => negb (String.eqb v "")) vals)).

(** The path of a SQLite database, and the parts of a server's address. *)
Definition sqlite_path (params : gmap string string) (connection : string) : string :=
  firstNonEmpty [param params "db"; param params "dbname"; trim_space connection].
Definition server_db (params : gmap string string) : string := firstNonEmpty [param params "dbname"; param params "db"].
Definition server_addr (params : gmap string string) : string :=
  let host := firstNonEmpty [param params "host"; "localhost"] in
  if String.eqb (param params "port") "" then host else host +:+ ":" +:+ param params "port".
Definition server_cred (params : gmap string string) : string :=
  let auth := if String.eqb (param params "password") "" then param params "user"
              else param params "user" +:+ ":" +:+ param params "password" in
  if String.eqb auth "" then "" else auth +:+ "@".

Section dsn.
Context `{UnicodeTables}.

Definition is_engine (engines : list string) (engine : string) : bool :=
  bool_decide (to_lower (trim_space engine) ∈ engines).

(** [SOCIToDSN]: the driver and its data source name; [None] is an unsupported
    engine. *)
Definition SOCIToDSN (engine connection : string) : option (string * string) :=
  let params := parseSOCI connection in
  if is_engine sqliteEngines engine then
    let path := sqlite_path params connection in
    Some (DriverSQLite, if String.eqb path "" || String.eqb path ":memory:" then ":memory:" else path)
  else if is_engine postgresEngines engine then
    Some (DriverPostgres, "postgres://" +:+ server_cred params +:+ server_addr params +:+ "/" +:+ server_db params)
  else if is_engine mysqlEngines engine then
    Some (DriverMySQL, server_cred params +:+ "tcp(" +:+ server_addr params +:+ ")/" +:+ server_db params)
  else None.

Definition SafeConnDescription (engine connection : string) : string :=
  let params := parseSOCI connection in
  if is_engine sqliteEngines engine then
    let path := sqlite_path params connection in
    if String.eqb path "" || String.eqb path ":memory:" then ":memory:" else path
  else if is_engine postgresEngines engine || is_engine mysqlEngines engine then
    let user := param params "user" in
    (if String.eqb user "" then "" else user +:+ "@") +:+ server_addr params +:+ "/" +:+ server_db params
  else to_lower (trim_space engine).

(** * Opening *)

Definition sqliteParams (dsn : string) : string :=
  (if contains dsn "?" then "&" else "?") +:+
  "_pragma=busy_timeout(5000)&_pragma=journal_mode(WAL)&_txlock=immediate".

(** [Open] up to the driver: the data source name it opens and whether the
    pool is one connection. *)
Inductive open_error := UnsupportedEngine (engine : string) | NotCompiledIn (engine driver : string).

Definition Open (engine connection : string) : res open_error (string * bool) :=
  match SOCIToDSN engine connection with
  | None => Err (UnsupportedEngine engine)
  | Some (driver, dsn) =>
      if negb (String.eqb driver DriverSQLite) then Err (NotCompiledIn engine driver)
      else if String.eqb dsn ":memory:" then Ok ("file::memory:?cache=shared", true)
      else Ok (dsn +:+ sqliteParams dsn, false)
  end.
End dsn.

(** * Connection strings read back *)

(** A connection string with its values quoted. *)
Definition render_param (kv : string * string) : string := kv.1 +:+ "=" +:+ String quote (kv.2 +:+ String quote "").
Definition render_soci (params : list (string * string)) : string := join " " (render_param <$> params).

(** A key that is a word, and a value that can be quoted. *)
Definition word_byte (c : ascii) : bool := negb (soci_space c) && negb (Ascii.eqb c "=") && (code c <? 128).
Definition param_ok (kv : string * string) : Prop :=
  kv.1 <> "" /\ str_forall word_byte kv.1 = true /\ contains_byte quote kv.2 = false.

Lemma strip_none ps c s :
  forallb (fun p => match p with String a _ => negb (Ascii.eqb a c) | EmptyString => false end) ps = true ->
  strip_any ps (String c s) = None.
Proof.
  induction ps as [|p ps IH]; [done|]. cbn [forallb strip_any]. rewrite andb_true_iff. intros [Hp Hps].
  destruct p as [|a p]; [done|]. cbn [has_prefix]. apply negb_true_iff in Hp as ->. by apply IH.
Qed.

Lemma word_not_space c : word_byte c = true ->
  forallb (fun p => match p with String a _ => negb (Ascii.eqb a c) | EmptyString => false end) space_encodings = true /\
  forallb (fun p => match p with String a _ => negb (Ascii.eqb a c) | EmptyString => false end) (str_rev <$> space_encodings) = true.
Proof. destruct c as [[] [] [] [] [] [] [] []]; vm_compute; auto. Qed.

Lemma str_rev_involutive s : str_rev (str_rev s) = s.
Proof.
  unfold str_rev. by rewrite String.list_ascii_of_string_of_list_ascii, rev_involutive, String.string_of_list_ascii_of_string.
Qed.

Lemma str_forall_list p s : str_forall p s = forallb p (String.list_ascii_of_string s).
Proof. induction s as [|c s IH]; [done|]. cbn. by rewrite IH. Qed.

Lemma str_forall_rev p s : str_forall p (str_rev s) = str_forall p s.
Proof.
  rewrite !str_forall_list. unfold str_rev. rewrite String.list_ascii_of_string_of_list_ascii.
  induction (String.list_ascii_of_string s) as [|c l IH]; [done|]. cbn. rewrite forallb_app, IH. cbn. by rewrite andb_true_r, andb_comm.
Qed.

Lemma trim_word s : str_forall word_byte s = true -> trim_space s = s.
Proof.
  intros Hs. unfold trim_space, trim_left, trim_right.
  assert (forall fuel ps t, str_forall word_byte t = true ->
    (forall c, word_byte c = true -> forallb (fun p => match p with String a _ => negb (Ascii.eqb a c) | EmptyString => false end) ps = true) ->
    strip_any ps "" = None -> trim_fuel fuel ps t = t) as Ht.
  { intros [|fuel] ps t Hw Hps He; [done|]. cbn [trim_fuel]. destruct t as [|c t]; [by rewrite He|].
    cbn in Hw. apply andb_true_iff in Hw as [Hw _]. by rewrite strip_none by auto. }
  rewrite (Ht _ space_encodings) by (done || (intros c Hc; by apply word_not_space)).
  rewrite Ht; [apply str_rev_involutive|by rewrite str_forall_rev|intros c Hc; by apply word_not_space|done].
Qed.

Lemma word_no_equals k : str_forall word_byte k = true -> contains_byte "=" k = false.
Proof.
  induction k as [|c k IH]; [done|]. cbn. rewrite andb_true_iff. intros [Hc Hk]. rewrite IH by done.
  unfold word_byte in Hc. destruct (Ascii.eqb c "="); [|done]. by rewrite andb_false_r in Hc.
Qed.

(** One round of the loop. *)
Lemma soci_round fuel kv rest params sp : param_ok kv -> (sp = "" \/ sp = " ") ->
  soci_loop (S fuel) (sp +:+ render_param kv +:+ rest) params = soci_loop fuel rest (<[kv.1 := kv.2]> params).
Proof.
  destruct kv as [k v]. intros (Hn & Hk & Hv) Hsp. cbn [fst snd] in *. cbn [soci_loop].
  assert ((span soci_space (sp +:+ render_param (k, v) +:+ rest)).2 = render_param (k, v) +:+ rest) as ->.
  { unfold render_param. cbn [fst snd]. destruct k as [|c k]; [done|]. cbn in Hk. apply andb_true_iff in Hk as [Hc _].
    unfold word_byte in Hc. rewrite !andb_true_iff, negb_true_iff in Hc. destruct Hc as [[Hc _] _].
    assert (forall t, span soci_space (String c t) = ("", String c t)) as Hspan by (intros t; cbn; by rewrite Hc).
    destruct Hsp as [-> | ->].
    - rewrite !str_app_assoc. change ("" +:+ ?x) with x. change (String c k +:+ ?x) with (String c (k +:+ x)). by rewrite Hspan.
    - rewrite !str_app_assoc. change (" " +:+ ?x) with (String " " x). cbn [span]. change (String c k +:+ ?x) with (String c (k +:+ x)).
      change (soci_space " ") with true. cbn iota. by rewrite Hspan. }
  unfold render_param. cbn [fst snd]. rewrite !str_app_assoc.
  assert (exists c t, k +:+ "=" +:+ String quote (v +:+ String quote "") +:+ rest = String c t) as (c & t & E)
    by (destruct k; [done|by do 2 eexists]).
  rewrite E. rewrite <- E. change ("=" +:+ ?x) with (String "=" x). rewrite cut_byte_app by (by apply word_no_equals).
  change (String quote (v +:+ String quote "") +:+ rest) with (String quote ((v +:+ String quote "") +:+ rest)).
  unfold soci_value. rewrite Ascii.eqb_refl. cbn [orb]. rewrite str_app_assoc. change (String quote "" +:+ rest) with (String quote rest).
  rewrite cut_byte_app by done. by rewrite trim_word.
Qed.

Lemma soci_loop_render l fuel params : Forall param_ok l -> (length l < fuel)%nat ->
  soci_loop fuel (render_soci l) params = fold_left (fun (m : gmap string string) kv => <[kv.1 := kv.2]> m) l params /\
  soci_loop fuel (if (length l =? 0)%nat then "" else " " +:+ render_soci l) params =
    fold_left (fun (m : gmap string string) kv => <[kv.1 := kv.2]> m) l params.
Proof.
  intros Hl. revert fuel params. induction Hl as [|kv l Hkv Hl IH]; intros fuel params Hf.
  { destruct fuel; done. }
  destruct fuel as [|fuel]; cbn [length] in Hf; [lia|]. destruct (IH fuel (<[kv.1 := kv.2]> params) ltac:(lia)) as [_ Hr].
  assert (render_soci (kv :: l) = render_param kv +:+ (if (length l =? 0)%nat then "" else " " +:+ render_soci l)) as ->.
  { destruct l as [|kv2 l]; [by rewrite str_app_nil_r|done]. }
  split.
  - change (render_param kv +:+ ?x) with ("" +:+ render_param kv +:+ x).
    rewrite soci_round by (done || by left). exact Hr.
  - cbn [length Nat.eqb]. rewrite soci_round by (done || by right). exact Hr.
Qed.

Lemma render_length l : Forall param_ok l -> (length l <= String.length (render_soci l))%nat.
Proof.
  induction 1 as [|kv l [Hn _] Hl IH]; [done|]. assert (1 <= String.length (render_param kv))%nat as H1.
  { unfold render_param. destruct kv as [[|c k] v]; [done|]. cbn. lia. }
  destruct l as [|kv2 l]; [exact H1|].
  change (render_soci (kv :: kv2 :: l)) with (render_param kv +:+ String " " (render_soci (kv2 :: l))).
  rewrite str_app_length. change (String.length (String " " ?x)) with (S (String.length x)).
  change (length (kv :: kv2 :: l)) with (S (length (kv2 :: l))). lia.
Qed.

Lemma fold_insert_map (l : list (string * string)) (m : gmap string string) : NoDup l.*1 ->
  forall k, fold_left (fun (m : gmap string string) kv => <[kv.1 := kv.2]> m) l m !! k =
    match mlookup k l with Some v => Some v | None => m !! k end.
Proof.
  revert m. induction l as [|[k' v] l IH]; intros m; [done|]. rewrite fmap_cons, NoDup_cons. intros [Hk Hl] k.
  cbn [fold_left fst snd]. rewrite IH, mlookup_cons by done. destruct (String.eqb_spec k k') as [->|Hne].
  - rewrite lookup_insert_eq. destruct (mlookup k' l) as [w|] eqn:E; [|done]. exfalso. apply Hk.
    apply mlookup_Some_elem in E. apply list_elem_of_fmap. by exists (k', w).
  - by rewrite lookup_insert_ne.
Qed.

Lemma parse_render l : Forall param_ok l -> NoDup l.*1 -> forall k, parseSOCI (render_soci l) !! k = mlookup k l.
Proof.
  intros Hl Hd k. unfold parseSOCI. pose proof (render_length l Hl).
  rewrite (proj1 (soci_loop_render l (S (String.length (render_soci l))) ∅ Hl ltac:(lia))), fold_insert_map by done.
  destruct (mlookup k l); [done|apply lookup_empty].
Qed.

(** Connection strings.  A written connection string - words for keys,
    values in quotes, which may hold spaces, equals signs and anything but the
    quote - reads back as its settings.  And the description of a connection
    that goes to the log does not depend on the password: for a server, or a
    SQLite database with a [db] setting, changing it changes nothing. *)
Theorem connection_settings `{UnicodeTables} l l' p p' engine :
  Forall param_ok (l ++ ("password", p) :: l') -> contains_byte quote p' = false ->
  NoDup (l ++ ("password", p) :: l').*1 ->
  (forall k, parseSOCI (render_soci (l ++ ("password", p) :: l')) !! k = mlookup k (l ++ ("password", p) :: l')) /\
  (is_engine sqliteEngines engine = false \/ (exists v, mlookup "db" (l ++ l') = Some v /\ v <> "") ->
   SafeConnDescription engine (render_soci (l ++ ("password", p) :: l')) =
   SafeConnDescription engine (render_soci (l ++ ("password", p') :: l'))).
Proof.
  intros Hl Hp' Hd. split; [by apply parse_render|]. intros Hdb.
  assert (Forall param_ok (l ++ ("password", p') :: l')) as Hl'.
  { rewrite !Forall_app, !Forall_cons in Hl |- *. destruct Hl as (? & (? & ? & ?) & ?). by split_and!. }
  assert (NoDup (l ++ ("password", p') :: l').*1) as Hd' by (rewrite fmap_app in Hd |- *; done).
  assert (forall k, k <> "password" -> param (parseSOCI (render_soci (l ++ ("password", p') :: l'))) k =
    param (parseSOCI (render_soci (l ++ ("password", p) :: l'))) k) as Hk.
  { intros k Hk. unfold param. rewrite !parse_render by done. rewrite !mlookup_app, !mlookup_cons.
    by apply String.eqb_neq in Hk as ->. }
  unfold SafeConnDescription, server_addr, server_db. rewrite !Hk by done.
  destruct (is_engine sqliteEngines engine); [|done]. destruct Hdb as [?|(v & Hv & Hne)]; [done|].
  assert (param (parseSOCI (render_soci (l ++ ("password", p) :: l'))) "db" = v) as Ev.
  { unfold param. rewrite parse_render by done. rewrite mlookup_app, mlookup_cons. change (String.eqb "db" "password") with false. cbn iota.
    rewrite mlookup_app in Hv. by rewrite Hv. }
  unfold sqlite_path. rewrite !Hk, Ev by done. unfold firstNonEmpty. cbn [List.filter]. apply String.eqb_neq in Hne as ->. done.
Qed.

#[local] Existing Instance ascii_tables.

Lemma connection_settings_witness :
  let l := [("dbname", "vq"); ("host", "db.local"); ("user", "u")] in
  let l' := [("port", "5433")] in
  SafeConnDescription "postgresql" (render_soci (l ++ ("password", "s = cret") :: l')) = "u@db.local:5433/vq" /\
  SafeConnDescription "postgresql" (render_soci (l ++ ("password", "s = cret") :: l')) =
    SafeConnDescription "postgresql" (render_soci (l ++ ("password", "other") :: l')) /\
  SOCIToDSN "postgresql" (render_soci (l ++ ("password", "s = cret") :: l')) = Some ("pgx", "postgres://u:s = cret@db.local:5433/vq").
Proof.
  intros l l'. split; [vm_compute; reflexivity|]. split; [|vm_compute; reflexivity].
  refine (proj2 (connection_settings l l' "s = cret" "other" "postgresql" _ _ _) _).
  - repeat constructor; done.
  - reflexivity.
  - vm_compute. repeat constructor; set_solver.
  - left. vm_compute. reflexivity.
Defined.

(** A SQLite connection without a [db] setting is described by its text, with
    whatever it holds. *)
Lemma sqlite_description_is_raw :
  SafeConnDescription "sqlite3" "user=u password=secret" = "user=u password=secret".
Proof. vm_compute. reflexivity. Qed.
