(* ===== verification/Assembly.v ===== *)
(** The daemon put together ([cmd/vq-db/main.go]): which settings reach which
    component, the callback of the instance statistics, the alarm engine built
    from the configured rules, and the view of the alarms that the API and the
    dashboard show, with the stored events ([internal/alarm/store.go]).

    Starting goroutines, sockets and the HTTP server is not modelled. *)

From S2P Require Import Prelude GoFloat GoStrings GoTime StableSort Values Model Json Config Alarm.
From S2P Require Store Writer Registry Ingest Workers Cleanup Drops Static Dsn AlarmSource Api Serialize.

(** * Alarms *)

(** [time.Minute], and [alarmCheckEvery]. *)
Definition minute : Z := 60 * nanosecond_per_second.
Definition alarmCheckEvery : Z := 10 * nanosecond_per_second.

(** [filepath.Dir]: the path up to its last slash, cleaned. *)
Fixpoint dir_prefix (p : string) : string :=
  match p with
  | EmptyString => ""
  | String c t => if contains_byte Static.slash p then String c (dir_prefix t) else ""
  end.
Definition Dir (p : string) : string := Static.Clean (dir_prefix p).

(** [alarmSet]: the engine's rules and their source, which shares the drop
    history. *)
Record alarmSet := MkAlarmSet { engine : list ruleState; source : AlarmSource.DBSource }.

Definition longest_window (rules : list Rule) : Z := fold_left (fun longest r => Z.max longest (Window r)) rules 0.

Section assembly.
Context `{UnicodeTables}.

(** The rules that are accepted; the others are logged and skipped. *)
Definition accepted_rules (alarms : list AlarmConfig) : list Rule :=
  omap (fun c => match NewRule c with Ok r => Some r | Err _ => None end) alarms.

(** Where free disk space is measured: beside a SQLite file. *)
Definition disk_path (cfg : Config) : string :=
  match Dsn.SOCIToDSN (DBEngine cfg) (DBConnection cfg) with
  | Some (driver, dsn) =>
      if String.eqb driver Dsn.DriverSQLite && negb (String.eqb dsn ":memory:") then Dir dsn else ""
  | None => ""
  end.

Definition buildAlarms (cfg : Config) : option alarmSet :=
  match accepted_rules (Alarms cfg) with
  | [] => None
  | rules =>
      let drops := Drops.NewDropHistory (wrap64 (longest_window rules + minute)) in
      Some (MkAlarmSet (NewEngine rules) (AlarmSource.MkDBSource (disk_path cfg) (Some drops) ∅))
  end.

(** * The view of the alarms *)

Definition msOrZero (t : Z) : Z := if t =? zero_time then 0 else t / 1000000.

Definition state_label (st : Status) : string :=
  if st_Alarm st then "alarm" else if LastCheck st =? zero_time then "pending"
  else if Measured st then "ok" else "no data".

(** [int(r.Window.Seconds())] *)
Definition window_seconds (w : Z) : Z :=
  int64_of_f64 (fadd (f64_of_Z (Z.quot w nanosecond_per_second))
    (fdiv (f64_of_Z (Z.rem w nanosecond_per_second)) (f64_of_Z nanosecond_per_second))).

Definition configured (s : string) : json := JBool (negb (String.eqb s "")).

Definition rule_view (st : Status) : json :=
  let r := st_Rule st in
  Serialize.jobject
    [("name", JString (ru_Name r)); ("counter", JString (Counter r)); ("op", JString (op_String (ru_Op r)));
     ("limit", JFloat (Limit r)); ("unit", JString (ru_Unit r)); ("window_s", JInt (window_seconds (Window r)));
     ("min_samples", JInt (MinSamples r)); ("filter", JString (Filter r)); ("code", JString (ru_Code r));
     ("notify", Serialize.jobject
        [("command", configured (Command r)); ("webhook", configured (Webhook r)); ("on_clear", JBool (OnClear r))]);
     ("state", JString (state_label st)); ("value", JFloat (st_Value st)); ("samples", JInt (st_Samples st));
     ("measured", JBool (Measured st)); ("last_check_ms", JInt (msOrZero (LastCheck st)));
     ("last_change_ms", JInt (msOrZero (LastChange st))); ("error", JString (LastError st))].

(** [RecentEvents]: the newest rows first. *)
Definition RecentEvents (limit : Z) (d : Store.database) : list Store.alarm_row :=
  take (Z.to_nat limit) (stable_sort (fun a b => Store.a_id b <? Store.a_id a) (Store.rtpmon_alarm_events d)).

Definition event_view (e : Store.alarm_row) : json :=
  Serialize.jobject
    [("name", JString (Store.a_name e)); ("kind", JString (Store.a_kind e)); ("counter", JString (Store.a_counter e));
     ("op", JString (Store.a_op e)); ("value", JFloat (Store.a_value e)); ("limit", JFloat (Store.a_limit e));
     ("samples", JInt (Store.a_samples e)); ("timestamp_ms", JInt (Store.a_timestamp e))].

(** [alarmView]; [fault] is an error of the database. *)
Definition alarmView (set : option alarmSet) (fault : option string) (d : Store.database) (events : Z) : Api.AlarmView :=
  Api.MkAlarmView (bool_decide (is_Some set))
    (match set with Some s => rule_view <$> Statuses (engine s) | None => [] end)
    (match fault with Some _ => [] | None => event_view <$> RecentEvents events d end)
    (default "" fault).

(** * The components *)

(** What the statistics of an instance reach: the snapshot, the track worker's
    view of restarts, and the drop history. *)
Record stats_sinks := MkSinks {
  sk_snapshot : Registry.snapshot; sk_sync : option Workers.sync_state; sk_alarms : option alarmSet
}.

(** [NoteUptime] of the track worker, its two actions at once. *)
Definition noted (u : Z) (y : Workers.sync_state) : Workers.sync_state :=
  let back := Workers.uptime_back y u in
  Workers.MkSync (Some u) (back || Workers.y_kick y) (back || Workers.y_restarted y) (Workers.y_noter y) (Workers.y_worker y).

Definition note_drops (now : Z) (s : InstanceStatistics) (set : alarmSet) : alarmSet :=
  let src := source set in
  MkAlarmSet (engine set)
    (AlarmSource.MkDBSource (AlarmSource.DiskPath src) (Drops.Note now s <$> AlarmSource.source_Drops src) (AlarmSource.silent src)).

Definition onInstanceStats (now : Z) (s : InstanceStatistics) (k : stats_sinks) : stats_sinks :=
  MkSinks (Registry.snapshot_Set s (sk_snapshot k)) (noted (UptimeSeconds s) <$> sk_sync k) (note_drops now s <$> sk_alarms k).

(** The writer with its limits. *)
Definition new_writer (cfg : Config) (c : Store.conn) : Writer.writer :=
  let w := Writer.NewWriter c (AgentID cfg) (AgentName cfg) in
  let w := if 0 <? RecordsLimit cfg then Writer.SetRecordsLimit (RecordsLimit cfg) w else w in
  if bool_decide (StoreSipFilter cfg = []) then w else Writer.SetStoreSipFilter (StoreSipFilter cfg) w.

Definition new_daemon (cfg : Config) (control : bool) (w : Writer.writer) : @Ingest.daemon stats_sinks :=
  Ingest.MkDaemon w (Registry.NewActiveStreamRegistry (AgentID cfg) (AgentName cfg))
    (MkSinks Registry.NewInstanceSnapshot (if control then Some Workers.new_sync else None) (buildAlarms cfg))
    (if 0 <? GhostStreamTimeoutS cfg then Some (Ingest.NewGhostSweeper (GhostStreamTimeoutS cfg) 0) else None).

Definition new_cleanup (cfg : Config) : option Cleanup.CleanupWorker :=
  if (0 <? RecordsLifetimeS cfg) || (0 <? AudioLifetimeS cfg)
  then Some (Cleanup.NewCleanupWorker (RecordsLifetimeS cfg) (AudioLifetimeS cfg) 0) else None.

(** What the API reads. *)
Definition new_deps (cfg : Config) (version : string) (thresholds : Pvqa.Thresholds) (d : @Ingest.daemon stats_sinks) : Api.Deps :=
  Api.MkDeps (AgentID cfg) (AgentName cfg) (GoodMosThreshold cfg) (SilenceRatioThreshold cfg) (MaxStreams cfg) version
    (Some (Ingest.d_registry d)) (Some (sk_snapshot (Ingest.d_stats d))) thresholds.
End assembly.

(** * What the alarm view shows *)

(** Rules that differ at most in their command and webhook, each configured in
    both or in neither. *)
Definition same_but_targets (r r' : Rule) : Prop :=
  exists command webhook,
    r' = MkRule (ru_Name r) (Counter r) (ru_Op r) (Limit r) (Window r) (MinSamples r) (Filter r) (ru_Code r)
           command webhook (OnClear r) (ru_Scope r) (ru_Unit r) /\
    String.eqb command "" = String.eqb (Command r) "" /\ String.eqb webhook "" = String.eqb (Webhook r) "".

Definition same_status (st st' : Status) : Prop :=
  same_but_targets (st_Rule st) (st_Rule st') /\
  (st_Alarm st, st_Value st, st_Samples st, Measured st, LastCheck st, LastChange st, LastError st) =
  (st_Alarm st', st_Value st', st_Samples st', Measured st', LastCheck st', LastChange st', LastError st').

Lemma rule_view_same st st' : same_status st st' -> rule_view st = rule_view st'.
Proof.
  destruct st, st'. unfold same_status. cbn. intros [(command & webhook & -> & Hc & Hw) Hs]. injection Hs as -> -> -> -> -> -> ->.
  unfold rule_view, configured, state_label. cbn. by rewrite Hc, Hw.
Qed.

(** Rows in the order of their ids. *)
Definition ids_increase (rows : list Store.alarm_row) : Prop := StronglySorted Z.lt (Store.a_id <$> rows).

Lemma insert_newest x rows : Forall (fun y => Store.a_id y < Store.a_id x) rows ->
  StableSort.insert_last (fun a b => Store.a_id b <? Store.a_id a) x rows = rows ++ [x].
Proof.
  induction 1 as [|y rows Hy _ IH]; [done|]. cbn. apply Z.ltb_lt in Hy as ->. by rewrite IH.
Qed.

Lemma newest_first rows : ids_increase rows ->
  stable_sort (fun a b => Store.a_id b <? Store.a_id a) rows = rev rows.
Proof.
  unfold ids_increase, stable_sort. intros Hs. f_equal.
  induction rows as [|x rows IH] using rev_ind; [done|]. rewrite insert_all_snoc.
  rewrite fmap_app in Hs. rewrite IH by by eapply StronglySorted_app_1_l. apply insert_newest, Forall_forall. intros y Hy.
  apply (StronglySorted_app_1_elem_of Z.lt (Store.a_id <$> rows) [Store.a_id x]); [done| |by left].
  by apply list_elem_of_fmap_2.
Qed.

(** The view of the alarms keeps secrets and shows the news.  Rules that
    differ only in their command line or their webhook - both configured in
    the same rules - give the same view, so neither ever reaches a client; and
    the events shown are exactly the newest ones stored, the latest first. *)
Theorem alarm_view_hides_targets set set' fault d events :
  Forall2 same_status (Statuses (engine set)) (Statuses (engine set')) ->
  ids_increase (Store.rtpmon_alarm_events d) ->
  alarmView (Some set) fault d events = alarmView (Some set') fault d events /\
  (fault = None -> Api.av_Events (alarmView (Some set) fault d events) =
     take (Z.to_nat events) (rev (event_view <$> Store.rtpmon_alarm_events d))).
Proof.
  intros Hs Hi. split.
  - unfold alarmView. f_equal. induction Hs as [|st st' l l' Hst _ IH]; [done|].
    rewrite !fmap_cons, IH. f_equal. by apply rule_view_same.
  - intros ->. cbn. unfold RecentEvents. rewrite newest_first by done. rewrite fmap_take. f_equal. apply List.map_rev.
Qed.

(** * The alarms that run *)

Lemma longest_window_spec rules : 0 <= longest_window rules /\ Forall (fun r => Window r <= longest_window rules) rules.
Proof.
  unfold longest_window. assert (forall a, a <= fold_left (fun l r => Z.max l (Window r)) rules a /\
    Forall (fun r => Window r <= fold_left (fun l r => Z.max l (Window r)) rules a) rules) as Hm.
  { induction rules as [|r rules IH]; intros a; cbn [fold_left]; [split; [lia|constructor]|].
    destruct (IH (Z.max a (Window r))) as [H1 H2]. split; [lia|]. constructor; [lia|done]. }
  destruct (Hm 0) as [? ?]. done.
Qed.

(** The configured alarms.  The engine runs exactly the accepted rules, in
    the order of the configuration and in their initial state: a rejected one
    is skipped and changes nothing for the others, and there is no engine when
    none is accepted.  Every running rule is usable as configured, and the
    shared drop history keeps at least a minute more than the window of each,
    so that no rule measures over a truncated one. *)
Theorem buildAlarms_runs_accepted `{UnicodeTables} cfg :
  (buildAlarms cfg = None <-> forall c, c ∈ Alarms cfg -> exists e, NewRule c = Err e) /\
  (forall c l l', Alarms cfg = l ++ c :: l' -> (exists e, NewRule c = Err e) ->
     accepted_rules (Alarms cfg) = accepted_rules (l ++ l')) /\
  forall set, buildAlarms cfg = Some set ->
    rs_rule <$> engine set = accepted_rules (Alarms cfg) /\
    Forall (fun st => st = new_state (rs_rule st)) (engine set) /\
    (forall st, st ∈ engine set -> exists c, c ∈ Alarms cfg /\ NewRule c = Ok (rs_rule st)) /\
    (in_int64 (longest_window (accepted_rules (Alarms cfg)) + minute) ->
     exists h, AlarmSource.source_Drops (source set) = Some h /\
       forall st, st ∈ engine set -> Window (rs_rule st) + minute <= Drops.keep h).
Proof.
  assert (forall r, r ∈ accepted_rules (Alarms cfg) -> exists c, c ∈ Alarms cfg /\ NewRule c = Ok r) as Hacc.
  { intros r Hr. unfold accepted_rules in Hr. apply list_elem_of_omap in Hr as (c & Hc & Hcr).
    exists c. split; [done|]. destruct (NewRule c); [by injection Hcr as ->|done]. }
  split; [|split].
  - unfold buildAlarms, accepted_rules in *. split.
    + intros Hb c Hc. destruct (NewRule c) as [r|e] eqn:E; [|by eexists].
      assert (r ∈ omap (fun c => match NewRule c with Ok r => Some r | Err _ => None end) (Alarms cfg)) as Hr
        by (apply list_elem_of_omap; exists c; by rewrite E).
      destruct (omap _ (Alarms cfg)); [by apply elem_of_nil in Hr|done].
    + intros Hall. destruct (omap _ (Alarms cfg)) as [|r rules] eqn:E; [done|].
      destruct (Hacc r) as (c & Hc & Hr); [left|]. destruct (Hall c Hc) as [e He]. congruence.
  - intros c l l' -> [e He]. unfold accepted_rules. rewrite !omap_app. cbn. by rewrite He.
  - intros set Hb. unfold buildAlarms in Hb. destruct (accepted_rules (Alarms cfg)) as [|r rules] eqn:E; [done|].
    rewrite <- E in Hb, Hacc |- *. injection Hb as <-. cbn [engine source AlarmSource.source_Drops].
    assert (rs_rule <$> NewEngine (accepted_rules (Alarms cfg)) = accepted_rules (Alarms cfg)) as Hrules.
    { unfold NewEngine. rewrite <- list_fmap_compose. apply list_fmap_id. }
    split; [done|]. split; [|split].
    + unfold NewEngine. apply Forall_fmap, Forall_true. done.
    + intros st Hst. apply Hacc. rewrite <- Hrules. by apply list_elem_of_fmap_2.
    + intros Hw. eexists. split; [done|]. intros st Hst. unfold Drops.NewDropHistory. cbn [Drops.keep]. rewrite wrap64_id by done.
      destruct (longest_window_spec (accepted_rules (Alarms cfg))) as [_ Hl]. rewrite Forall_forall in Hl.
      assert (rs_rule st ∈ accepted_rules (Alarms cfg)) as Hin by (rewrite <- Hrules; by apply list_elem_of_fmap_2).
      specialize (Hl _ Hin). lia.
Qed.

(** * The properties at concrete inputs *)

#[local] Existing Instance ascii_tables.

Definition jitter_alarm (command : string) : AlarmConfig :=
  MkAlarmConfig "jitter" "jitter" "" (f64_of_Z 30) true 600 0 "" "" command "" false.

Definition with_alarms (alarms : list AlarmConfig) : Config :=
  MkConfig 9125 9127 60 120 "1" "probe" "" 9126 "" 50 fzero fzero "auto" "" "sqlite3" "db=/var/vq/vq.sqlite" 0 0 "" 0 []
    alarms "info" "" false "".

Lemma alarm_view_hides_targets_witness :
  match buildAlarms (with_alarms [jitter_alarm "curl -H 'token: 1'"]), buildAlarms (with_alarms [jitter_alarm "true"]) with
  | Some set, Some set' =>
      Statuses (engine set) <> Statuses (engine set') /\
      alarmView (Some set) None Store.empty_database 50 = alarmView (Some set') None Store.empty_database 50
  | _, _ => False
  end.
Proof.
  set (b := buildAlarms _). set (b' := buildAlarms _).
  destruct b as [set|] eqn:E; [|by vm_compute in E]. destruct b' as [set'|] eqn:E'; [|by vm_compute in E'].
  unfold b in E. unfold b' in E'. clear b b'.
  assert (Statuses (engine set) = Statuses (NewEngine (accepted_rules [jitter_alarm "curl -H 'token: 1'"]))) as Hs
    by (injection E as <-; reflexivity).
  assert (Statuses (engine set') = Statuses (NewEngine (accepted_rules [jitter_alarm "true"]))) as Hs'
    by (injection E' as <-; reflexivity).
  split.
  - rewrite Hs, Hs'. intros Heq. apply (f_equal (fun l => (fun st => Command (st_Rule st)) <$> l)) in Heq. vm_compute in Heq. done.
  - refine (proj1 (alarm_view_hides_targets set set' None Store.empty_database 50 _ _)).
    + rewrite Hs, Hs'. repeat constructor. by exists "true", "".
    + constructor.
Defined.

Lemma buildAlarms_runs_accepted_witness :
  let cfg := with_alarms [jitter_alarm "true"; MkAlarmConfig "" "jiter" "" fzero true 0 0 "" "" "true" "" false] in
  match buildAlarms cfg with
  | Some set =>
      rs_rule <$> engine set = accepted_rules [jitter_alarm "true"] /\
      AlarmSource.DiskPath (source set) = "/var/vq" /\
      exists h, AlarmSource.source_Drops (source set) = Some h /\ Drops.keep h = 660 * nanosecond_per_second
  | None => False
  end.
Proof.
  intros cfg. destruct (buildAlarms_runs_accepted cfg) as (_ & Hskip & Hrun).
  destruct (buildAlarms cfg) as [set|] eqn:E; [|by vm_compute in E].
  destruct (Hrun set eq_refl) as (Hr & _). split; [|split].
  - rewrite Hr. apply (Hskip (MkAlarmConfig "" "jiter" "" fzero true 0 0 "" "" "true" "" false) [jitter_alarm "true"] []); [done|].
    by eexists.
  - injection E as <-. vm_compute. reflexivity.
  - injection E as <-. eexists. split; [reflexivity|]. vm_compute. reflexivity.
Defined.
