(* ===== verification/Url.v ===== *)
(** Go's [net/url], as the dashboard uses it: query escaping, [url.Values] and
    the query of a request.

    [url.Values] is a list of keys and values: the values of one key are in
    order, as in Go; the order of different keys, which a Go map does not have,
    reaches no result. *)

From S2P Require Import Prelude GoFloat GoStrings StableSort.

Abbreviation values := (list (string * string)).

(** * Escaping *)

(** A byte that [QueryEscape] keeps. *)
Definition unreserved (c : ascii) : bool :=
  in_range 97 122 c || in_range 65 90 c || in_range 48 57 c ||
  (code c =? 45) || (code c =? 95) || (code c =? 46) || (code c =? 126).

Definition hex_upper (d : Z) : ascii := chr (if d <? 10 then 48 + d else 55 + d).

Fixpoint QueryEscape (s : string) : string :=
  match s with
  | EmptyString => ""
  | String c s =>
      if unreserved c then String c (QueryEscape s)
      else if code c =? 32 then String "+" (QueryEscape s)
      else String "%" (String (hex_upper (code c / 16)) (String (hex_upper (code c `mod` 16)) (QueryEscape s)))
  end.

(** The value of a hexadecimal digit of either case. *)
Definition unhex (c : ascii) : option Z :=
  if in_range 48 57 c then Some (code c - 48)
  else if in_range 97 102 c then Some (code c - 87)
  else if in_range 65 70 c then Some (code c - 55)
  else None.

(** [None] is the error of an escape that is cut short or not hexadecimal. *)
Fixpoint QueryUnescape (s : string) : option string :=
  match s with
  | EmptyString => Some ""
  | String c s =>
      if code c =? 37 then
        match s with
        | String h (String l s) =>
            h ← unhex h; l ← unhex l; t ← QueryUnescape s; Some (String (chr (h * 16 + l)) t)
        | _ => None
        end
      else t ← QueryUnescape s; Some (String (if code c =? 43 then " "%char else c) t)
  end.

(** * Values *)

(** [vals.Get(key)]: the first value, or the empty string. *)
Definition get (vals : values) (key : string) : string := default "" (mlookup key vals).

(** [vals.Set(key, value)]: in place of the values of the key. *)
Definition set (key value : string) (vals : values) : values :=
  List.filter (fun kv => negb (String.eqb kv.1 key)) vals ++ [(key, value)].

Definition encode_pair (kv : string * string) : string := QueryEscape kv.1 +:+ "=" +:+ QueryEscape kv.2.

Definition key_lt (a b : string * string) : bool := str_lt a.1 b.1.

(** [vals.Encode()]: sorted by key. *)
Definition Encode (vals : values) : string := join "&" (encode_pair <$> stable_sort key_lt vals).

(** One setting of a query; one that is malformed is left out. *)
Definition parse_pair (s : string) : option (string * string) :=
  if contains_byte ";" s || String.eqb s "" then None
  else
    let '(k, v) := default (s, "") (cut_byte "=" s) in
    k ← QueryUnescape k; v ← QueryUnescape v; Some (k, v).

(** [r.URL.Query()] of a raw query. *)
Definition ParseQuery (query : string) : values := omap parse_pair (split_byte "&" query).

(** The raw query of the address of a request: what follows the first question
    mark. *)
Definition raw_query (url : string) : string :=
  match cut_byte "?" url with Some (_, q) => q | None => "" end.

(** * What is encoded reads back *)

(** A byte of an encoded key or value. *)
Definition query_byte (c : ascii) : bool := unreserved c || (code c =? 43) || (code c =? 37).

Lemma unreserved_plain c : unreserved c = true -> (code c =? 37) = false /\ (code c =? 43) = false.
Proof. destruct c as [[] [] [] [] [] [] [] []]; vm_compute; auto. Qed.

Lemma hex_upper_facts d : 0 <= d < 16 -> unhex (hex_upper d) = Some d /\ query_byte (hex_upper d) = true.
Proof.
  intros Hd. assert (d ∈ seqZ 0 16) as Hs by (apply elem_of_seqZ; lia).
  revert Hs. clear Hd. vm_compute seqZ. intros Hs.
  repeat (apply elem_of_cons in Hs as [->|Hs]; [done|]). by apply elem_of_nil in Hs.
Qed.

Lemma byte_digits c : 0 <= code c / 16 < 16 /\ 0 <= code c `mod` 16 < 16 /\ chr (code c / 16 * 16 + code c `mod` 16) = c.
Proof.
  pose proof (code_range c). split; [split; [apply Z.div_pos; lia | apply Z.div_lt_upper_bound; lia]|].
  split; [apply Z.mod_pos_bound; lia|]. rewrite Z.mul_comm, <- Z.div_mod by lia. apply chr_code.
Qed.

Lemma unescape_escape s : QueryUnescape (QueryEscape s) = Some s.
Proof.
  induction s as [|c s IH]; [done|]. cbn [QueryEscape].
  destruct (unreserved c) eqn:Eu.
  - cbn [QueryUnescape]. destruct (unreserved_plain c Eu) as [-> ->]. by rewrite IH.
  - destruct (Z.eqb_spec (code c) 32) as [E|_].
    + cbn. rewrite IH. cbn. by rewrite <- (chr_code c), E.
    + destruct (byte_digits c) as (Hh & Hl & Hc). cbn.
      rewrite (proj1 (hex_upper_facts _ Hh)), (proj1 (hex_upper_facts _ Hl)), IH. cbn. by rewrite Hc.
Qed.

Lemma escape_bytes s : str_forall query_byte (QueryEscape s) = true.
Proof.
  induction s as [|c s IH]; [done|]. cbn [QueryEscape].
  destruct (unreserved c) eqn:Eu; [|destruct (code c =? 32)]; cbn [str_forall].
  - unfold query_byte at 1. by rewrite Eu, IH.
  - by rewrite IH.
  - destruct (byte_digits c) as (Hh & Hl & _). by rewrite (proj2 (hex_upper_facts _ Hh)), (proj2 (hex_upper_facts _ Hl)), IH.
Qed.

Lemma escape_free c s : query_byte c = false -> contains_byte c (QueryEscape s) = false.
Proof. intros Hc. eapply contains_forall; [apply escape_bytes|done]. Qed.

(** A setting in an encoded query: it has no separator of settings. *)
Lemma encode_pair_free kv : contains_byte "&" (encode_pair kv) = false.
Proof. unfold encode_pair. by rewrite !contains_byte_app, !escape_free. Qed.

Lemma parse_encode_pair kv : parse_pair (encode_pair kv) = Some kv.
Proof.
  unfold parse_pair. assert (contains_byte ";" (encode_pair kv) = false) as ->.
  { unfold encode_pair. by rewrite !contains_byte_app, !escape_free. }
  unfold encode_pair.
  assert (String.eqb (QueryEscape kv.1 +:+ "=" +:+ QueryEscape kv.2) "" = false) as -> by by destruct (QueryEscape kv.1).
  change ("=" +:+ ?x) with (String "=" x). rewrite cut_byte_app by by rewrite escape_free. cbn.
  rewrite !unescape_escape. cbn. by destruct kv.
Qed.

#[export] Instance key_lt_weak : StrictWeak key_lt (fun _ => True).
Proof.
  split; unfold key_lt.
  - intros x _. apply str_lt_irrefl.
  - intros x y _ _. apply str_lt_asym.
  - intros x y z _ _ _. apply str_lt_negtrans.
Qed.

(** What is encoded reads back, sorted by key. *)
Lemma parse_encode vals : ParseQuery (Encode vals) = stable_sort key_lt vals.
Proof.
  unfold ParseQuery, Encode. generalize (stable_sort key_lt vals) as l. clear vals. intros [|kv l]; [done|].
  rewrite split_join; [|done|].
  - generalize (kv :: l) as l'. clear kv l. induction l' as [|kv l IH]; [done|].
    cbn -[parse_pair encode_pair]. by rewrite parse_encode_pair, IH.
  - rewrite Forall_fmap. apply Forall_forall. intros x _. apply encode_pair_free.
Qed.

(** Sorting by key keeps what each key reads. *)
Lemma mlookup_sorted k (l : values) : mlookup k (stable_sort key_lt l) = mlookup k l.
Proof.
  rewrite <- (mlookup_filter_key k (stable_sort key_lt l)), (stable_sort_filter key_lt (fun _ => True)) by by apply Forall_forall.
  rewrite stable_sort_equivalent; [apply mlookup_filter_key|].
  intros x y [_ Hx]%elem_of_filter_bool [_ Hy]%elem_of_filter_bool. apply String.eqb_eq in Hx, Hy.
  unfold key_lt. rewrite Hx, Hy. apply str_lt_irrefl.
Qed.

Lemma get_encoded vals k : get (ParseQuery (Encode vals)) k = get vals k.
Proof. unfold get. by rewrite parse_encode, mlookup_sorted. Qed.

Lemma get_set k v k' vals : get (set k v vals) k' = if String.eqb k' k then v else get vals k'.
Proof.
  unfold get, set. rewrite mlookup_app, mlookup_cons. destruct (String.eqb_spec k' k) as [->|Hn].
  - rewrite <- mlookup_filter_key, filter_filter, filter_none; [done|].
    intros x _. by destruct (String.eqb x.1 k).
  - rewrite <- (mlookup_filter_key k' (List.filter _ _)), filter_filter, <- (mlookup_filter_key k' vals).
    assert (forall o : option string, match o with Some v => Some v | None => None end = o) as Ho by by intros [].
    rewrite Ho. f_equal. f_equal. apply List.filter_ext. intros x. cbn.
    destruct (String.eqb_spec x.1 k) as [E|]; [|done]. cbn. rewrite E. symmetry. apply String.eqb_neq. congruence.
Qed.

(** The query of an address is what was appended to a path without a question
    mark. *)
Lemma raw_query_app path q : contains_byte "?" path = false -> raw_query (path +:+ "?" +:+ q) = q.
Proof. intros Hp. unfold raw_query. change ("?" +:+ q) with (String "?" q). by rewrite cut_byte_app. Qed.

Lemma raw_query_none path : contains_byte "?" path = false -> raw_query path = "".
Proof.
  intros Hp. unfold raw_query. assert (cut_byte "?" path = None) as ->; [|done].
  induction path as [|c p IH]; [done|]. cbn in *. apply orb_false_iff in Hp as [-> Hp]. by rewrite IH.
Qed.
