(* ===== verification/Web.v ===== *)
(** The dashboard's envelope and formatting ([internal/web/app.go],
    [render.go]): the reverse-proxy prefix, which figures are shown, which block
    of a page an htmx request gets, and the functions the templates call.

    The values of a page are [json], as the read API builds them.  [html/template]
    itself - parsing, escaping, executing - is not modelled. *)

From S2P Require Import Prelude GoFloat GoStrings GoTime Model Json Serialize Registry.
From S2P Require Rows Static Api.

(** * Values *)

Definition toI64 (v : json) : Z :=
  match v with
  | JInt z => wrap64 z
  | JFloat f => int64_of_f64 f
  | JString s =>
      match atoi (trim_space s) with
      | Some n => n
      | None => match parse_float (trim_space s) with Some f => int64_of_f64 f | None => 0 end
      end
  | _ => 0
  end.

Definition toF64 (v : json) : float64 :=
  match v with
  | JFloat f => f
  | JInt z => f64_of_Z z
  | JString s => default fzero (parse_float (trim_space s))
  | _ => fzero
  end.

(** [fmt.Sprint]; a nested map prints with its keys sorted, as it is stored. *)
Fixpoint sprint (v : json) : string :=
  match v with
  | JNull => "<nil>"
  | JBool b => if b then "true" else "false"
  | JInt z => itoa z
  | JFloat f => Values.format_float_g f
  | JString s => s
  | JArray l => "[" +:+ join " " (sprint <$> l) +:+ "]"
  | JObject o => "map[" +:+ join " " ((fun kv => kv.1 +:+ ":" +:+ sprint kv.2) <$> o) +:+ "]"
  end.

Definition rawString (v : json) : string :=
  match v with
  | JNull => ""
  | JFloat f => format_float_f f
  | _ => sprint v
  end.

(** * MOS *)

Record mosPill := MkPill { Text : string; Band : string; pill_Label : string }.

Definition clamp_mos (f : float64) : float64 :=
  let c := if fis_nan f || flt f (f64_of_Z 1) then f64_of_Z 1 else f in
  if fgt c (f64_of_Z 5) then f64_of_Z 5 else c.

Definition mos_band (c : float64) : string * string :=
  if fge c (f_decimal false 43 (-1)) then ("excellent", "Excellent")
  else if fge c (f64_of_Z 4) then ("good", "Good")
  else if fge c (f_decimal false 36 (-1)) then ("fair", "Fair")
  else if fge c (f_decimal false 31 (-1)) then ("poor", "Poor")
  else ("bad", "Bad").

(** [None] is the pill that is not shown. *)
Definition mosView (v : json) (hideZero : bool) : option mosPill :=
  let f := toF64 v in
  if hideZero && feq f fzero then None
  else let '(band, label) := mos_band (clamp_mos f) in Some (MkPill (format_fixed 2 f) band label).

(** * Numbers *)

(** Digits with a comma before every group of three but the first. *)
Fixpoint group3 (first : bool) (s : string) : string :=
  match s with
  | EmptyString => ""
  | String c t =>
      let sep := negb first && (Z.of_nat (String.length s) `mod` 3 =? 0) in
      (if sep then "," else "") +:+ String c (group3 false t)
  end.

Definition fmtInt_of (n : Z) : string :=
  let s := itoa n in
  if has_prefix "-" s then "-" +:+ group3 true (str_drop 1 s) else group3 true s.

Definition fmtInt (v : json) : string := fmtInt_of (toI64 v).

Definition units : list string := ["B"; "KB"; "MB"; "GB"; "TB"].

(** Division by 1024 while it fits a unit; [i] is the unit's index. *)
Fixpoint scale (fuel i : nat) (f : float64) : nat * float64 :=
  match fuel with
  | O => (i, f)
  | S fuel => if fge f (f64_of_Z 1024) then scale fuel (S i) (fdiv f (f64_of_Z 1024)) else (i, f)
  end.

Definition fmtBytes (v : json) : string :=
  let f := toF64 v in
  if fle f fzero then "0 B"
  else
    let '(i, f) := scale (length units - 1) 0 f in
    let dec := if (i =? 0)%nat || fge f (f64_of_Z 100) then 0 else 1 in
    format_fixed dec f +:+ " " +:+ nth i units "".

Definition hundred : float64 := f64_of_Z 100.

Definition fmtPct (ratio : float64) : string :=
  let dec := if fge ratio (f_decimal false 1 (-1)) then 1 else 2 in
  format_fixed dec (fmul ratio hundred) +:+ "%".

Definition pct0 (v : json) : string := format_fixed 0 (fmul (toF64 v) hundred) +:+ "%".

Definition fmtFixed (prec : Z) (v : json) : string := format_fixed prec (toF64 v).

(** * Times *)

Definition fmtUptime (v : json) : string :=
  let sec := toI64 v in
  if sec <=? 0 then "0s"
  else
    let d := Z.quot sec 86400 in
    let h := Z.quot (Z.rem sec 86400) 3600 in
    let m := Z.quot (Z.rem sec 3600) 60 in
    let s := Z.rem sec 60 in
    let part cond n unit := if (cond : bool) then [itoa n +:+ unit] else [] in
    let parts := part (0 <? d) d "d" ++ part (0 <? h) h "h" ++ part ((d =? 0) && (0 <? m)) m "m" ++
                 part ((d =? 0) && (h =? 0)) s "s" in
    match parts with [] => "0s" | _ => join " " parts end.

Definition dash : string := "—".

Definition sipTime `{Rows.LocalZone} (v : json) : string :=
  let ms := toI64 v in
  if ms <=? 0 then dash
  else let secs := (ms + Rows.utc_offset_ms ms) / 1000 in date_text secs +:+ " " +:+ clock_text secs.

Definition sipDur (v : json) : string :=
  let ms := toI64 v in
  if ms <=? 0 then dash
  else
    let total := Z.quot ms 1000 in
    let h := Z.quot total 3600 in
    let m := Z.quot (Z.rem total 3600) 60 in
    let s := Z.rem total 60 in
    if 0 <? h then itoa h +:+ ":" +:+ p2 m +:+ ":" +:+ p2 s else itoa m +:+ ":" +:+ p2 s.

(** * Rows *)

(** [row[k].(string)], the empty string for another type. *)
Definition string_field (k : string) (row : object) : string :=
  match field k row with JString s => s | _ => "" end.

Definition silenceTip (row : object) : string :=
  let src := string_field "silence_source" row in
  let dtx := "DTX/SID frames " +:+ pct0 (field "silence_ratio" row) in
  let audio := "silent audio in " +:+ pct0 (field "silent_audio_ratio" row) +:+ " of intervals (PVQA SilentCall)" in
  if String.eqb src "dtx" then "Silence suspected: " +:+ dtx
  else if String.eqb src "audio" then "Silence suspected: " +:+ audio
  else if String.eqb src "dtx+audio" then "Silence suspected: " +:+ dtx +:+ ", " +:+ audio
  else "Silence suspected".

(** * Requests *)

(** [basePrefix], of the [X-Forwarded-Prefix] header. *)
Definition basePrefix (forwarded : string) : string :=
  let prefix := Static.trim_slashes forwarded in
  if String.eqb prefix "" || negb (Static.safe_prefix prefix) then "" else prefix.

(** The address given to [http.Redirect] by [RootRedirect] and
    [redirectToSummary]. *)
Definition redirectToSummary (forwarded : string) : string := basePrefix forwarded +:+ "/ui/summary".

(** The dependencies: those of the API and the dashboard's own. *)
Record App := MkApp { deps : Api.Deps; SevanaMos : string }.

Definition core_stats (a : App) : option InstanceStatistics :=
  s ← Api.dep_Snapshot (deps a); snapshot_Get s.

Definition showSevana (a : App) : bool :=
  if String.eqb (SevanaMos a) "on" then true
  else if String.eqb (SevanaMos a) "off" then false
  else match core_stats a with
       | Some s => negb (contains (Version s) "no PVQA")
       | None => true
       end.

(** The blocks a page defines: those of its own template and of the layout. *)
Definition layout_blocks : list string := ["layout.html"; "mos-pill"; "pager"; "content"].
Definition page_blocks : list (string * list string) :=
  [("summary.html", ["summary-body"; "hist-card"; "good-rate"]); ("core.html", ["core-body"]);
   ("streams.html", ["tbl-a"; "tbl-f"; "stream-card"; "stream-card-body"]); ("stream_detail.html", []);
   ("sip_calls.html", ["table"]); ("sip_call_detail.html", []); ("chunk_detail.html", ["chunk-inline"]);
   ("track.html", ["track-body"]); ("alarms.html", [])].

Definition has_block (page block : string) : bool :=
  existsb (String.eqb block) (page :: layout_blocks ++ default [] (mlookup page page_blocks)).

Record request := MkRequest {
  Forwarded : string; HXRequest : string; HXTarget : string; Path : string; RawQuery : string; form : list (string * string)
}.

(** The block [render] executes. *)
Definition render_block (r : request) (page : string) : string :=
  if String.eqb (HXRequest r) "true" then
    if negb (String.eqb (HXTarget r) "") && has_block page (HXTarget r) then HXTarget r else "content"
  else "layout.html".

(** The envelope of a page; [D] is what its template receives. *)
Record pageData {D : Type} := MkPageData {
  Base : string; page_Path : string; Query : string; Nav : string; Title : string; page_Version : string; Sevana : bool; Data : D
}.
Arguments pageData : clear implicits.

Definition envelope {D} (a : App) (r : request) (nav title : string) (data : D) : pageData D :=
  MkPageData D (basePrefix (Forwarded r)) (Path r) (if String.eqb (RawQuery r) "" then "" else "?" +:+ RawQuery r)
    nav title (Api.dep_Version (deps a)) (showSevana a) data.

Definition SelfURL {D} (p : pageData D) : string := Base p +:+ page_Path p +:+ Query p.

(** A response: a page with its status and block, or a redirect. *)
Inductive web_response (D : Type) :=
| Page (status : Z) (template block : string) (data : pageData D)
| ErrorPage (status : Z) (template block : string) (data : pageData string)
| Redirect (status : Z) (location : string).
Arguments Page {D} status template block data.
Arguments ErrorPage {D} status template block data.
Arguments Redirect {D} status location.

Definition render {D} (a : App) (r : request) (template nav title : string) (data : D) : web_response D :=
  Page 200 template (render_block r template) (envelope a r nav title data).

Definition renderError {D} (a : App) (r : request) (template : string) (status : Z) (msg : string) : web_response D :=
  ErrorPage status template (render_block r template) (envelope a r "" "Error" msg).

(** The cases of [render_test.go] and some more. *)
Example fmtInt_million : fmtInt (JInt 1234567) = "1,234,567".
Proof. reflexivity. Qed.
Example fmtInt_negative : (fmtInt (JInt (-100)), fmtInt (JInt (-1000)), fmtInt (JInt min_int64)) = ("-100", "-1,000", "-9,223,372,036,854,775,808").
Proof. vm_compute. reflexivity. Qed.
Example fmtBytes_kilo : (fmtBytes (JInt 1536), fmtBytes (JInt 0), fmtBytes (JInt 1023)) = ("1.5 KB", "0 B", "1023 B").
Proof. vm_compute. reflexivity. Qed.
Example fmtUptime_cases : (fmtUptime (JInt 90061), fmtUptime (JInt 303), fmtUptime (JInt 86400)) = ("1d 1h", "5m 3s", "1d").
Proof. vm_compute. reflexivity. Qed.
Example sipDur_cases : (sipDur (JInt 83000), sipDur (JInt 3723000), sipDur (JInt 0)) = ("1:23", "1:02:03", dash).
Proof. vm_compute. reflexivity. Qed.
Example fmtPct_cases : (fmtPct (f_decimal false 5 (-1)), fmtPct (f_decimal false 5 (-2))) = ("50.0%", "5.00%").
Proof. vm_compute. reflexivity. Qed.
Example mosView_raw : mosView (JFloat (f_decimal false 385 (-2))) false = Some (MkPill "3.85" "fair" "Fair").
Proof. vm_compute. reflexivity. Qed.

(** * Bands *)

(** The place of a band on the scale. *)
Definition band_index (band : string) : Z :=
  if String.eqb band "excellent" then 4 else if String.eqb band "good" then 3
  else if String.eqb band "fair" then 2 else if String.eqb band "poor" then 1 else 0.

Lemma fge_mono t x y : fle x y = true -> fge x t = true -> fge y t = true.
Proof. unfold fge. intros Hxy Ht. by apply (fle_trans t x y). Qed.

Lemma clamp_mono x y : fle x y = true -> fle (clamp_mos x) (clamp_mos y) = true.
Proof.
  intros Hxy. destruct (fle_nan _ _ Hxy) as [Hx Hy]. unfold clamp_mos. rewrite Hx, Hy. cbn [orb].
  set (one := f64_of_Z 1). set (five := f64_of_Z 5).
  assert (fis_nan one = false /\ fis_nan five = false) as [H1 H5] by done.
  assert (fle one five = true /\ fgt one five = false) as [H15 H51] by done.
  assert (forall z, fis_nan z = false -> flt z one = false -> fle one z = true) as Hlow
    by (intros z Hz E; by rewrite fle_flt, E).
  assert (forall z, fis_nan z = false -> fgt z five = false -> fle z five = true) as Hhigh
    by (intros z Hz E; rewrite fle_flt by done; by apply negb_true_iff).
  destruct (flt x one) eqn:Ex, (flt y one) eqn:Ey; rewrite ?H51.
  - by apply fle_refl.
  - destruct (fgt y five) eqn:E; [done|]. by apply Hlow.
  - exfalso. assert (fle one y = true) as E by (apply (fle_trans one x y); auto).
    rewrite fle_flt in E by done. by rewrite Ey in E.
  - destruct (fgt x five) eqn:Ex5, (fgt y five) eqn:Ey5.
    + by apply fle_refl.
    + apply (fle_trans five x y); [by apply flt_fle|done].
    + by apply Hhigh.
    + done.
Qed.

(** A higher MOS is never in a worse band. *)
Lemma mos_band_mono x y : fle x y = true ->
  band_index (mos_band (clamp_mos x)).1 <= band_index (mos_band (clamp_mos y)).1.
Proof.
  intros H%clamp_mono. revert H. generalize (clamp_mos x), (clamp_mos y). clear x y. intros x y H. unfold mos_band.
  repeat match goal with
  | |- context [if fge x ?t then _ else _] => destruct (fge x t) eqn:?
  | |- context [if fge y ?t then _ else _] => destruct (fge y t) eqn:?
  end; cbn; try lia; exfalso; eauto using fge_mono;
  match goal with Hx : fge x ?t = true, Hy : fge y ?t = false |- _ => by rewrite (fge_mono t x y H Hx) in Hy end.
Qed.
