(* ===== verification/Views.v ===== *)
(** The views of the dashboard ([internal/web/views.go]): the state of the two
    stream cards in the address, the links that change it, the pager, the
    detector tables and the timeline of a SIP call. *)

From S2P Require Import Prelude GoFloat GoStrings StableSort Json Serialize Url Transport Web.
From S2P Require Rows.

(** * The state of a card *)

Record streamsQuery := MkStreamsQuery { Sort : string; Dir : string; Offset : Z; Limit : Z; Filter : string }.

Definition defaultStreamsQuery : streamsQuery := MkStreamsQuery "start_time" "desc" 0 25 "".

Definition intParam (s : string) (def : Z) : Z :=
  if String.eqb s "" then def else default def (atoi s).

(** The bounds that [readStreamsQuery] and the SIP call list put on paging. *)
Definition page_offset (offset : Z) : Z := if offset <? 0 then 0 else offset.
Definition page_limit (limit : Z) : Z := if (limit <=? 0) || (500 <? limit) then 25 else limit.

Definition readStreamsQuery (q : values) (prefix : string) : streamsQuery :=
  let sq := defaultStreamsQuery in
  let v := get q (prefix +:+ "_sort") in
  MkStreamsQuery (if String.eqb v "" then Sort sq else v)
    (if String.eqb (get q (prefix +:+ "_dir")) "asc" then "asc" else Dir sq)
    (page_offset (intParam (get q (prefix +:+ "_offset")) 0))
    (page_limit (intParam (get q (prefix +:+ "_limit")) 25))
    (get q (prefix +:+ "_q")).

Definition searchFilter (sq : streamsQuery) : SearchFilter :=
  let f := NewSearchFilter in
  MkSearchFilter (Offset sq) (Limit sq) (Sort sq) (negb (String.eqb (Dir sq) "asc")) (Filter sq)
    (FilterInterval f) (SIPCallID f).

(** [sq.params(vals, prefix)]: what differs from the default. *)
Definition set_unless (c : bool) (key value : string) (vals : values) : values := if c then vals else set key value vals.

Definition params (sq : streamsQuery) (prefix : string) (vals : values) : values :=
  let vals := set_unless (String.eqb (Sort sq) "start_time") (prefix +:+ "_sort") (Sort sq) vals in
  let vals := set_unless (String.eqb (Dir sq) "desc") (prefix +:+ "_dir") (Dir sq) vals in
  let vals := set_unless (Offset sq =? 0) (prefix +:+ "_offset") (itoa (Offset sq)) vals in
  let vals := set_unless (Limit sq =? 25) (prefix +:+ "_limit") (itoa (Limit sq)) vals in
  set_unless (String.eqb (Filter sq) "") (prefix +:+ "_q") (Filter sq) vals.

(** * Links *)

Record hiddenField := MkHidden { hf_Name : string; hf_Value : string }.
Record sortCol := MkSortCol { Label : string; URL : string; Sorted : bool; Desc : bool; Num : bool }.
Record limitLink := MkLimitLink { N : Z; link_URL : string; Current : bool }.
Record pagerView := MkPager { RangeText : string; PrevURL : string; NextURL : string; LimitLinks : list limitLink }.

(** An address with its query, if there is one. *)
Definition with_query (path enc : string) : string := if String.eqb enc "" then path else path +:+ "?" +:+ enc.

Definition streamsURL (base : string) (own : streamsQuery) (prefix : string) (other : streamsQuery) (otherPrefix : string) : string :=
  with_query (base +:+ "/ui/streams") (Encode (params other otherPrefix (params own prefix []))).

(** [buildPager]: the arithmetic is Go's [int]. *)
Definition buildPager (offset limit count total : Z) (mk : Z -> Z -> string) : pagerView :=
  let first := if 0 <? total then wrap64 (offset + 1) else 0 in
  let stop := if 0 <? total then Z.min (wrap64 (offset + count)) total else 0 in
  MkPager
    (itoa first +:+ "–" +:+ itoa stop +:+ " of " +:+ itoa total)
    (if 0 <? offset then let prev := wrap64 (offset - limit) in mk (if prev <? 0 then 0 else prev) limit else "")
    (if wrap64 (offset + limit) <? total then mk (wrap64 (offset + limit)) limit else "")
    ((fun n => MkLimitLink n (mk 0 n) (n =? limit)) <$> [10; 25; 50; 200]).

Record column := MkColumn { col_Label : string; col_Field : string; col_Num : bool }.

Definition streamColumns : list column :=
  [MkColumn "#" "" true; MkColumn "Time" "start_time" false; MkColumn "Source" "source" false;
   MkColumn "Destination" "destination" false; MkColumn "Duration (sec)" "duration" true;
   MkColumn "Sevana MOS" "sevana_mos" false; MkColumn "Network MOS" "network_mos" false;
   MkColumn "Jitter (ms)" "jitter" true; MkColumn "SIP source" "sip_src" false; MkColumn "SIP dest" "sip_dst" false;
   MkColumn "Details" "" false].

(** The query behind the header of a column that can be sorted. *)
Definition sort_query (own : streamsQuery) (column : string) : streamsQuery :=
  if String.eqb (Sort own) column
  then MkStreamsQuery (Sort own) (if String.eqb (Dir own) "desc" then "asc" else "desc") 0 (Limit own) (Filter own)
  else MkStreamsQuery column "asc" 0 (Limit own) (Filter own).

Definition sort_header (own : streamsQuery) (mk : streamsQuery -> string) (c : column) : sortCol :=
  if String.eqb (col_Field c) "" then MkSortCol (col_Label c) "" false false (col_Num c)
  else
    let sorted := String.eqb (Sort own) (col_Field c) in
    MkSortCol (col_Label c) (mk (sort_query own (col_Field c))) sorted (sorted && String.eqb (Dir own) "desc") (col_Num c).

(** The query of another page of the card. *)
Definition at_page (own : streamsQuery) (offset limit : Z) : streamsQuery :=
  MkStreamsQuery (Sort own) (Dir own) offset limit (Filter own).

Record cardView := MkCard {
  card_ID : string; Prefix : string; card_Title : string; Rows_ : list object; Total : Z; NewCount : Z; card_Error : string;
  Q : streamsQuery; Cols : list sortCol; Pager : pagerView; CSVPath : string; FilterName : string; FilterValue : string;
  Hidden : list hiddenField; card_Sevana : bool
}.

(** The hidden fields of the filter form: the other card's state, and this
    card's without page and filter.  [url.Values] has one value per key here, so
    the order of the map does not matter to the sort. *)
Definition hidden_fields (own : streamsQuery) (prefix : string) (other : streamsQuery) (otherPrefix : string) : list hiddenField :=
  (fun kv => MkHidden kv.1 kv.2) <$>
  stable_sort key_lt (params (MkStreamsQuery (Sort own) (Dir own) 0 (Limit own) "") prefix (params other otherPrefix [])).

Definition buildCardView (base : string) (own : streamsQuery) (prefix : string) (other : streamsQuery) (otherPrefix title : string)
    (rows : list object) (total : Z) (cardErr : string) (sevana : bool) : cardView :=
  let mk q := streamsURL base q prefix other otherPrefix in
  MkCard ("tbl-" +:+ prefix) prefix title rows total 0 cardErr own
    (sort_header own mk <$> List.filter (fun c => negb (String.eqb (col_Field c) "sevana_mos" && negb sevana)) streamColumns)
    (buildPager (Offset own) (Limit own) (Z.of_nat (length rows)) total
       (fun offset limit => mk (at_page own offset limit)))
    (if String.eqb prefix "a" then "/stats?download_active=true" else "/stats?download_db=true")
    (prefix +:+ "_q") (Filter own) (hidden_fields own prefix other otherPrefix) sevana.

(** * Detectors *)

Record detectorTable := MkTable { Header : list string; Body : list (list string) }.

(** The lines that are not blank, as trimmed cells. *)
Definition report_cells (text : string) : list (list string) :=
  (fun ln => trim_space <$> split_byte ";" ln) <$>
  List.filter (fun ln => negb (String.eqb (trim_space ln) "")) (split_byte (chr 10) text).

(** A row cut, or padded with empty cells, to the length of the header. *)
Definition fit (n : nat) (cells : list string) : list string := take n (cells ++ replicate (n - length cells) "").

Definition parseDetectorReport (text : string) : detectorTable :=
  match report_cells text with
  | [] => MkTable [] []
  | header :: rows => MkTable header (fit (length header) <$> rows)
  end.

Record detectorView := MkDetector { det_Name : string; det_Count : Z }.

Definition detector_of (d : json) : option detectorView :=
  match d with
  | JObject o =>
      let count := toI64 (field "counter" o) in
      if 0 <? count then Some (MkDetector (string_field "name" o) count) else None
  | _ => None
  end.

(** [sort.Slice], which is not stable: some permutation of its slice in which
    no element is less than an earlier one. *)
Class SortSlice := sort_slice : forall {A}, (A -> A -> bool) -> list A -> list A.
Class SortSliceLaws `{SortSlice} : Prop := {
  sort_slice_Permutation {A} (less : A -> A -> bool) l : sort_slice less l ≡ₚ l;
  sort_slice_ordered {A} (less : A -> A -> bool) l :
    StrictWeak less (fun _ => True) -> ordered less (sort_slice less l)
}.

Definition more_counted (a b : detectorView) : bool := det_Count b <? det_Count a.

(** The detectors that counted something, the highest count first; nothing for
    a value that is not a list. *)
Definition triggeredDetectors `{SortSlice} (detectors : json) : list detectorView :=
  match detectors with
  | JArray l => sort_slice more_counted (omap detector_of l)
  | _ => []
  end.

(** * Links read back *)

(** What [readStreamsQuery] can give. *)
Definition normal (sq : streamsQuery) : Prop :=
  Sort sq <> "" /\ Dir sq ∈ ["asc"; "desc"] /\ 0 <= Offset sq <= max_int64 /\ 0 < Limit sq <= 500.

Lemma get_set_unless c k v vals k' :
  get (set_unless c k v vals) k' = if negb c && String.eqb k' k then v else get vals k'.
Proof. unfold set_unless. destruct c; [done|]. by rewrite get_set. Qed.

Lemma intParam_itoa z def : in_int64 z -> intParam (itoa z) def = z.
Proof.
  intros Hz. unfold intParam. rewrite atoi_itoa by done. cbn.
  destruct (String.eqb_spec (itoa z) "") as [E|]; [|done]. pose proof (atoi_itoa z Hz) as Ha. by rewrite E in Ha.
Qed.

(** The prefixes of the two cards. *)
Definition card_prefixes : list (string * string) := [("a", "f"); ("f", "a")].

Lemma card_prefixes_inv p p' : (p, p') ∈ card_prefixes -> (p = "a" /\ p' = "f") \/ (p = "f" /\ p' = "a").
Proof. unfold card_prefixes. rewrite !elem_of_cons, elem_of_nil. intros [[= -> ->]|[[= -> ->]|[]]]; auto. Qed.

(** What the settings of a card look like under its prefix [p]. *)
Definition card_settings (vals : values) (p : string) (sq : streamsQuery) : Prop :=
  get vals (p +:+ "_sort") = (if String.eqb (Sort sq) "start_time" then "" else Sort sq) /\
  get vals (p +:+ "_dir") = (if String.eqb (Dir sq) "desc" then "" else Dir sq) /\
  get vals (p +:+ "_offset") = (if Offset sq =? 0 then "" else itoa (Offset sq)) /\
  get vals (p +:+ "_limit") = (if Limit sq =? 25 then "" else itoa (Limit sq)) /\
  get vals (p +:+ "_q") = Filter sq.

Lemma params_settings p p' own other : (p, p') ∈ card_prefixes ->
  card_settings (params other p' (params own p [])) p own /\ card_settings (params other p' (params own p [])) p' other.
Proof.
  intros [[-> ->]|[-> ->]]%card_prefixes_inv; unfold card_settings, params; rewrite !get_set_unless;
    cbn -[itoa]; rewrite !andb_false_r, !andb_true_r; split_and!.
  all: match goal with |- (if negb ?c then _ else _) = _ => destruct c eqn:E end; try done.
  all: by apply String.eqb_eq in E.
Qed.

Lemma settings_read q p sq : normal sq -> card_settings q p sq -> readStreamsQuery q p = sq.
Proof.
  intros (Hs & Hd & Ho & Hl) (Es & Ed & Eo & El & Ef). unfold readStreamsQuery. rewrite Es, Ed, Eo, El, Ef. clear Es Ed Eo El Ef q.
  destruct sq as [s d o l f]. cbn [Sort Dir Offset Limit Filter defaultStreamsQuery] in *.
  assert (intParam (if o =? 0 then "" else itoa o) 0 = o) as ->.
  { destruct (Z.eqb_spec o 0) as [->|_]; [done|]. apply intParam_itoa. unfold in_int64, min_int64. lia. }
  assert (intParam (if l =? 25 then "" else itoa l) 25 = l) as ->.
  { destruct (Z.eqb_spec l 25) as [->|_]; [done|]. apply intParam_itoa. unfold in_int64, min_int64, max_int64. lia. }
  unfold page_offset, page_limit. assert (o <? 0 = false) as -> by lia. assert ((l <=? 0) || (500 <? l) = false) as -> by lia.
  f_equal.
  - destruct (String.eqb_spec s "start_time") as [->|_]; [done|]. by destruct (String.eqb_spec s "").
  - apply elem_of_cons in Hd as [->|[->|Hd]%elem_of_cons]; [done|done|by apply elem_of_nil in Hd].
Qed.

Lemma with_query_read path enc : contains_byte "?" path = false -> raw_query (with_query path enc) = enc.
Proof.
  intros Hp. unfold with_query. destruct (String.eqb_spec enc "") as [->|_]; [by apply raw_query_none|by apply raw_query_app].
Qed.

Lemma card_settings_encoded vals p sq : card_settings vals p sq -> card_settings (ParseQuery (Encode vals)) p sq.
Proof. unfold card_settings. by rewrite !get_encoded. Qed.

(** The prefix of a proxy has no question mark. *)
Lemma base_plain forwarded : contains_byte "?" (basePrefix forwarded) = false.
Proof.
  unfold basePrefix. destruct (String.eqb _ "" || negb _) eqn:E; [done|]. apply orb_false_iff in E as [_ E].
  apply negb_false_iff in E. revert E. generalize (Static.trim_slashes forwarded). intros [|c s]; [done|]. cbn.
  rewrite andb_true_iff. intros [->%Ascii.eqb_eq Hs]. cbn. by eapply contains_forall.
Qed.

(** The state of both cards, read from an address. *)
Definition url_query (url prefix : string) : streamsQuery := readStreamsQuery (ParseQuery (raw_query url)) prefix.

Lemma streamsURL_read forwarded p p' own other : (p, p') ∈ card_prefixes -> normal own -> normal other ->
  url_query (streamsURL (basePrefix forwarded) own p other p') p = own /\
  url_query (streamsURL (basePrefix forwarded) own p other p') p' = other.
Proof.
  intros Hp Ho Ho'. unfold url_query, streamsURL.
  rewrite with_query_read by (rewrite contains_byte_app, base_plain; done).
  destruct (params_settings p p' own other Hp) as [Hs Hs'].
  split; (apply settings_read; [done|by apply card_settings_encoded]).
Qed.

(** What a link of a card asks for: this state of its own card, and the other
    card as it is. *)
Definition link_asks (url p p' : string) (own other : streamsQuery) : Prop :=
  url_query url p = own /\ url_query url p' = other.

Lemma normal_sort own column : normal own -> column <> "" -> normal (sort_query own column).
Proof.
  unfold normal, max_int64. intros (Hs & Hd & Ho & Hl) Hc. unfold sort_query.
  destruct (String.eqb (Sort own) column); cbn; (split; [done|split; [|lia]]); [case_match|]; in_list.
Qed.

Lemma normal_page own offset limit : normal own -> 0 <= offset <= max_int64 -> 0 < limit <= 500 -> normal (at_page own offset limit).
Proof. intros (Hs & Hd & _) Ho Hl. by unfold normal; cbn. Qed.

Lemma streamsURL_nonempty base p p' own other : streamsURL base own p other p' <> "".
Proof. unfold streamsURL, with_query. destruct base; by case_match. Qed.

(** What the filter form of a card sends: its hidden fields and its text. *)
Definition form_values (card : cardView) (text : string) : values :=
  ((fun h => (hf_Name h, hf_Value h)) <$> Hidden card) ++ [(FilterName card, text)].

Lemma get_app_last (vals : values) k text k' :
  mlookup k vals = None -> get (vals ++ [(k, text)]) k' = if String.eqb k' k then text else get vals k'.
Proof.
  intros Hk. unfold get. rewrite mlookup_app, mlookup_cons. destruct (String.eqb_spec k' k) as [->|_]; [by rewrite Hk|].
  by destruct (mlookup k' vals).
Qed.

Lemma mlookup_set_unless c k v vals k' : String.eqb k' k = false -> mlookup k' (set_unless c k v vals) = mlookup k' vals.
Proof.
  intros Hn. unfold set_unless, set. destruct c; [done|]. rewrite mlookup_app, mlookup_cons, Hn.
  rewrite <- (mlookup_filter_key k' (List.filter _ _)), filter_filter, <- (mlookup_filter_key k' vals).
  assert (forall o : option string, match o with Some v => Some v | None => None end = o) as Ho by by intros [].
  cbn. rewrite Ho. f_equal. apply List.filter_ext. intros x. destruct (String.eqb_spec x.1 k') as [E|]; [|by rewrite andb_false_r].
  by rewrite E, Hn.
Qed.

Lemma form_settings base own p other p' title rows total err sevana text :
  (p, p') ∈ card_prefixes ->
  let q := form_values (buildCardView base own p other p' title rows total err sevana) text in
  card_settings q p (MkStreamsQuery (Sort own) (Dir own) 0 (Limit own) text) /\ card_settings q p' other.
Proof.
  intros Hp. unfold form_values, buildCardView, hidden_fields. cbn [Hidden FilterName].
  rewrite <- list_fmap_compose, (list_fmap_ext _ id _) by (by intros ? []). rewrite list_fmap_id.
  set (own' := MkStreamsQuery _ _ 0 _ ""). set (vals := params own' p (params other p' [])).
  assert (mlookup (p +:+ "_q") (stable_sort key_lt vals) = None) as Hn.
  { rewrite mlookup_sorted. unfold vals, params. cbn [Filter own' set_unless String.eqb].
    by destruct (card_prefixes_inv _ _ Hp) as [[-> ->]|[-> ->]]; rewrite !mlookup_set_unless. }
  assert ((p', p) ∈ card_prefixes) as Hp' by (destruct (card_prefixes_inv _ _ Hp) as [[-> ->]|[-> ->]]; in_list).
  destruct (params_settings p' p other own' Hp') as [Hs' Hs]. fold vals in Hs, Hs'.
  assert (forall k, get (stable_sort key_lt vals) k = get vals k) as Hg by (intros k; unfold get; by rewrite mlookup_sorted).
  unfold card_settings in *. rewrite !get_app_last, !Hg by done.
  destruct (card_prefixes_inv _ _ Hp) as [[-> ->]|[-> ->]]; cbn in Hs, Hs' |- *; naive_solver.
Qed.

Lemma intParam_range s def : in_int64 def -> in_int64 (intParam s def).
Proof.
  intros Hd. unfold intParam. destruct (String.eqb s ""); [done|]. unfold atoi, parse_int.
  generalize (match s with EmptyString => None | String c s' => if Ascii.eqb c "-" then Z.opp <$> parse_unsigned 10 s'
    else if Ascii.eqb c "+" then parse_unsigned 10 s' else parse_unsigned 10 s end). intros [z|]; [|done].
  by destruct (bool_decide_reflect (in_int64 z)).
Qed.

Lemma readStreamsQuery_normal q p : normal (readStreamsQuery q p).
Proof.
  unfold normal, readStreamsQuery. cbn [Sort Dir Offset Limit Filter defaultStreamsQuery]. unfold page_offset, page_limit.
  assert (in_int64 0) as H0 by (unfold in_int64, min_int64, max_int64; lia).
  pose proof (intParam_range (get q (p +:+ "_offset")) 0 H0) as [_ Ho]. revert Ho.
  generalize (intParam (get q (p +:+ "_offset")) 0), (intParam (get q (p +:+ "_limit")) 25). intros o l Ho.
  split; [by destruct (String.eqb_spec (get q (p +:+ "_sort")) "")|]. split; [case_match; in_list|]. split.
  - destruct (Z.ltb_spec o 0); [unfold max_int64; lia|lia].
  - destruct ((l <=? 0) || (500 <? l)) eqn:E; lia.
Qed.

Lemma next_link base own p other p' title rows total err sevana : normal own -> Offset own + Limit own <= max_int64 ->
  NextURL (Pager (buildCardView base own p other p' title rows total err sevana)) =
  if Offset own + Limit own <? total then streamsURL base (at_page own (Offset own + Limit own) (Limit own)) p other p' else "".
Proof.
  intros (_ & _ & Ho & Hl) Hs. cbn. by rewrite wrap64_id by (unfold in_int64, min_int64, max_int64 in *; lia).
Qed.

(** C28. The links of a stream card.  The state of both cards is in the address;
    what any link of a card is read back as differs from what is shown in what
    the link says, and the other card keeps its state: a column's header turns
    the direction around or sorts by that column from the first page; the links
    to the previous and the next page, there exactly when there is such a page,
    move by one page and stop at the first row; a page size starts over with
    that size; and the filter form starts over with the typed text. *)
Theorem card_links_read_back forwarded q p p' title rows total err sevana text (Hp : (p, p') ∈ card_prefixes)
    (own := readStreamsQuery q p) (other := readStreamsQuery q p') (Hsize : Offset own + Limit own <= max_int64) :
  let card := buildCardView (basePrefix forwarded) own p other p' title rows total err sevana in
  Forall (fun c => URL c = "" \/ exists col, col ∈ streamColumns /\ Label c = col_Label col /\
            link_asks (URL c) p p' (sort_query own (col_Field col)) other) (Cols card) /\
  (PrevURL (Pager card) <> "" <-> 0 < Offset own) /\
  (0 < Offset own -> link_asks (PrevURL (Pager card)) p p' (at_page own (Z.max 0 (Offset own - Limit own)) (Limit own)) other) /\
  (NextURL (Pager card) <> "" <-> Offset own + Limit own < total) /\
  (Offset own + Limit own < total -> link_asks (NextURL (Pager card)) p p' (at_page own (Offset own + Limit own) (Limit own)) other) /\
  Forall (fun l => N l ∈ [10; 25; 50; 200] /\ link_asks (link_URL l) p p' (at_page own 0 (N l)) other) (LimitLinks (Pager card)) /\
  readStreamsQuery (form_values card text) p = MkStreamsQuery (Sort own) (Dir own) 0 (Limit own) text /\
  readStreamsQuery (form_values card text) p' = other.
Proof.
  intros card. pose proof (readStreamsQuery_normal q p) as Hown. pose proof (readStreamsQuery_normal q p') as Hother.
  fold own in Hown. fold other in Hother. clearbody own other.
  pose proof (form_settings (basePrefix forwarded) own p other p' title rows total err sevana text Hp) as [Hf Hf'].
  fold card in Hf, Hf'. assert (Ho : normal own) by done. destruct Hown as (Hs & Hd & [Ho0 Ho1] & [Hl0 Hl1]).
  unfold card, buildCardView. cbn [Cols Pager]. unfold buildPager. cbn [PrevURL NextURL LimitLinks].
  rewrite (wrap64_id (Offset own + Limit own)), (wrap64_id (Offset own - Limit own)) by (unfold in_int64, min_int64, max_int64 in *; lia).
  split_and!.
  - rewrite Forall_fmap. apply Forall_forall. intros c Hc%elem_of_filter_bool. destruct Hc as [Hc _]. unfold sort_header. cbn.
    destruct (String.eqb_spec (col_Field c) "") as [_|Hn]; cbn; [by left|]. right. exists c. split; [done|]. split; [done|].
    apply streamsURL_read; [done|by apply normal_sort|done].
  - destruct (0 <? Offset own) eqn:E; [|split; [done|lia]]. split; [lia|]. intros _. apply streamsURL_nonempty.
  - intros Hgt. assert (0 <? Offset own = true) as -> by lia.
    replace (if Offset own - Limit own <? 0 then 0 else Offset own - Limit own) with (Z.max 0 (Offset own - Limit own)) by (case_match; lia).
    apply streamsURL_read; [done|apply normal_page; [done|lia|lia]|done].
  - destruct (_ <? total) eqn:E; [|split; [done|lia]]. split; [lia|]. intros _. apply streamsURL_nonempty.
  - intros Hlt. assert (Offset own + Limit own <? total = true) as -> by lia.
    apply streamsURL_read; [done|apply normal_page; [done|lia|lia]|done].
  - rewrite Forall_fmap. apply Forall_forall. intros n Hn. cbn. split; [done|].
    apply streamsURL_read; [done| |done]. apply normal_page; [done|unfold max_int64; lia|].
    rewrite !elem_of_cons, elem_of_nil in Hn. lia.
  - by apply settings_read.
  - by apply settings_read.
Qed.

(** The second page of the active streams, with a filter, beside a finished list
    sorted by jitter. *)
Lemma card_links_read_back_witness :
  let q := ParseQuery "a_offset=25&a_q=jitter%3E1&f_sort=jitter&f_limit=bad" in
  let own := readStreamsQuery q "a" in
  let card := buildCardView (basePrefix "/vq/") own "a" (readStreamsQuery q "f") "f" "Active" [] 60 "" true in
  NextURL (Pager card) = "/vq/ui/streams?a_offset=50&a_q=jitter%3E1&f_sort=jitter" /\
  url_query (NextURL (Pager card)) "f" = MkStreamsQuery "jitter" "desc" 0 25 "".
Proof.
  intros q own card. split; [vm_compute; reflexivity|].
  destruct (card_links_read_back "/vq/" q "a" "f" "Active" [] 60 "" true "" ltac:(in_list)) as (_ & _ & _ & _ & Hn & _).
  - vm_compute. discriminate.
  - by destruct (Hn ltac:(vm_compute; reflexivity)).
Defined.
