(* ===== verification/Markdown.v ===== *)
(** The copy buttons of the dashboard ([internal/web/markdown.go]): a record as
    JSON text or as Markdown. *)

From S2P Require Import Prelude GoFloat GoStrings StableSort Json Serialize.
From S2P Require Web.

(** * JSON *)

(** [json.MarshalIndent] with two spaces, at a nesting depth. *)
Definition newline : string := bytes [10].
Definition indent_at (depth : nat) : string := newline +:+ repeat_str "  " depth.

Definition bracketed (opening closing : string) (depth : nat) (parts : list string) : string :=
  match parts with
  | [] => opening +:+ closing
  | _ => opening +:+ join "," ((fun p => indent_at (S depth) +:+ p) <$> parts) +:+ indent_at depth +:+ closing
  end.

Fixpoint marshal_indent (depth : nat) (j : json) : option string :=
  match j with
  | JArray l =>
      parts ← (fix go (l : list json) : option (list string) :=
                 match l with
                 | [] => Some []
                 | x :: l => t ← marshal_indent (S depth) x; ts ← go l; Some (t :: ts)
                 end) l;
      Some (bracketed "[" "]" depth parts)
  | JObject l =>
      parts ← (fix go (l : list (string * json)) : option (list string) :=
                 match l with
                 | [] => Some []
                 | (k, x) :: l => t ← marshal_indent (S depth) x; ts ← go l; Some ((json_quote k +:+ ": " +:+ t) :: ts)
                 end) l;
      Some (bracketed "{" "}" depth parts)
  | _ => marshal j
  end.

Definition copyJSON (data : object) : string :=
  let s := Web.string_field "json_report" data in
  if negb (String.eqb s "") then s else default "" (marshal_indent 0 (jobject data)).

(** * Markdown *)

(** The values the converter tells apart: [[]map[string]any] and [[]any] are
    [GMaps] and [GList]. *)
Inductive gval :=
| GScalar (j : json)
| GMap (m : list (string * gval))
| GMaps (l : list gval)
| GList (l : list gval).

Fixpoint to_json (v : gval) : json :=
  match v with
  | GScalar j => j
  | GMap m => jobject ((fun kv => (kv.1, to_json kv.2)) <$> m)
  | GMaps l | GList l => JArray (to_json <$> l)
  end.

(** The records of the read API hold no other slices than of maps. *)
Fixpoint of_json (j : json) : gval :=
  match j with
  | JObject o => GMap ((fun kv => (kv.1, of_json kv.2)) <$> o)
  | JArray l => GMaps (of_json <$> l)
  | _ => GScalar j
  end.

Definition Sprint (v : gval) : string := Web.sprint (to_json v).

Definition is_map (v : gval) : bool := match v with GMap _ => true | _ => false end.

Definition isNested (v : gval) : bool :=
  match v with
  | GMap _ | GMaps _ => true
  | GList l => existsb is_map l
  | GScalar _ => false
  end.

Definition numOK (v : option gval) : option float64 :=
  match v with
  | Some (GScalar (JFloat f)) => Some f
  | Some (GScalar (JInt z)) => Some (f64_of_Z z)
  | _ => None
  end.

(** ** Tables *)

Definition table_cell (c : string) : string := replace_all (trim_space c) "|" "\|".
Definition table_row (cells : list string) : string := "| " +:+ join " | " cells +:+ " |" +:+ newline.
Definition table_lines (s : string) : list string :=
  List.filter (fun ln => negb (String.eqb (trim_space ln) "")) (split_byte (chr 10) s).

Definition row_of_line (ln : string) : list string := table_cell <$> split_byte ";" ln.

Definition semicolonTable (s : string) : option string :=
  match table_lines s with
  | header :: (_ :: _) as rows =>
      if forallb (fun ln => contains_byte ";" ln) (header :: rows) then
        Some (table_row (row_of_line header) +:+ table_row ((fun _ => "---") <$> row_of_line header) +:+
              join "" ((fun ln => table_row (row_of_line ln)) <$> rows))
      else None
  | _ => None
  end.

(** ** Records *)

Definition bold (key : string) : string := "**" +:+ key +:+ "**".
Definition fence : string := "```".

Definition writeScalar (key : string) (v : gval) : string :=
  match v with
  | GList l => "- " +:+ bold key +:+ ": " +:+ join ", " (Sprint <$> l) +:+ newline
  | GScalar (JString t) =>
      match semicolonTable t with
      | Some tbl => newline +:+ bold key +:+ newline +:+ newline +:+ tbl +:+ newline
      | None =>
          if contains_byte (chr 10) t
          then "- " +:+ bold key +:+ ":" +:+ newline +:+ newline +:+ fence +:+ newline +:+ t +:+ newline +:+ fence +:+ newline
          else "- " +:+ bold key +:+ ": " +:+ t +:+ newline
      end
  | _ => "- " +:+ bold key +:+ ": " +:+ Sprint v +:+ newline
  end.

Definition heading (level : Z) (title : string) : string :=
  repeat_str "#" (Z.to_nat (Z.min level 6)) +:+ " " +:+ title +:+ newline +:+ newline.

(** The title of the item at index [i]: its times, when it has both. *)
Definition item_title (i : nat) (m : list (string * gval)) : string :=
  match numOK (mlookup "start_time" m), numOK (mlookup "end_time" m) with
  | Some s, Some e => format_fixed 3 s +:+ " - " +:+ format_fixed 3 e
  | _, _ => "Item " +:+ itoa (Z.of_nat i + 1)
  end.

(** The entry of a key: its text, and whether it is a section. *)
Definition entry_lt (a b : string * (bool * string)) : bool := str_lt a.1 b.1.

Definition emit (level : Z) (entries : list (string * (bool * string))) : string :=
  let entries := stable_sort entry_lt (List.filter (fun e => negb (String.eqb e.1 "json_report")) entries) in
  join "" ((fun e => e.2.2) <$> List.filter (fun e => negb e.2.1) entries) +:+
  join "" ((fun e => newline +:+ heading level e.1 +:+ e.2.2) <$> List.filter (fun e => e.2.1) entries).

(** [writeMap] of a map, [writeMapList] of a list of maps; the elements of an
    [[]any] that are not maps are left out. *)
Fixpoint write (v : gval) (level : Z) : string :=
  match v with
  | GMap m =>
      emit level ((fun kv => (kv.1, if isNested kv.2 then (true, write kv.2 (level + 1)) else (false, writeScalar kv.1 kv.2))) <$> m)
  | GMaps l | GList l =>
      (fix items (i : nat) (l : list gval) : string :=
         match l with
         | [] => ""
         | x :: l =>
             match x with
             | GMap m => heading level (item_title i m) +:+ write x (level + 1) +:+ newline +:+ items (S i) l
             | _ => items i l
             end
         end) 0%nat l
  | GScalar _ => ""
  end.

Fixpoint trim_newlines (s : string) : string :=
  match s with
  | EmptyString => ""
  | String c s =>
      match trim_newlines s with
      | EmptyString => if Ascii.eqb c (chr 10) then "" else String c ""
      | t => String c t
      end
  end.

Definition mapToMarkdown (data : object) (title : string) : string :=
  let head := if String.eqb title "" then "" else "# " +:+ title +:+ newline +:+ newline in
  trim_newlines (head +:+ write (of_json (JObject data)) 2) +:+ newline.

(** * Examples *)

Example copy_report : copyJSON [("json_report", JString "RAW"); ("x", JInt 1)] = "RAW".
Proof. reflexivity. Qed.

Example copy_indented :
  copyJSON [("x", JArray []); ("b", jobject [("k", JInt 1); ("a", JNull)])] =
  replace_all (join newline ["{"; "  'b': {"; "    'a': null,"; "    'k': 1"; "  },"; "  'x': []"; "}"]) "'" quote1.
Proof. vm_compute. reflexivity. Qed.

Example markdown_order :
  mapToMarkdown [("b", jobject [("k", JInt 1)]); ("c", JString "opus"); ("json_report", JString "{}");
                 ("a", JArray [JObject [("start_time", JInt 1); ("end_time", JInt 2)]])] "T" =
  join newline ["# T"; ""; "- **c**: opus"; ""; "## a"; ""; "### 1.000 - 2.000"; ""; "- **end_time**: 2"; "- **start_time**: 1";
                ""; ""; "## b"; ""; "- **k**: 1"; ""].
Proof. vm_compute. reflexivity. Qed.
