(* ===== verification/Pages.v ===== *)
(** The pages of the dashboard ([internal/web/pages.go], and the timeline of
    [views.go]): the handlers as functions of the request and of the state they
    read, to what their templates receive.

    [None] is a panic, which the HTTP server recovers; [error_text] is the text
    of an error. *)

From S2P Require Import Prelude GoFloat GoStrings GoTime Values Model Json Serialize Transport Queries Registry Store Writer WriterInv Workers Url Web Views Markdown.
From S2P Require Rows Stats Api Pvqa FilterSQL.

(** * Summary *)

Record rateView := MkRate { rate_Label : string; rate_Text : string; Ratio : float64 }.

Record histView := MkHist {
  hist_Title : string; Threshold : string; StreamCount : string; rate_Sevana : rateView; rate_Network : rateView;
  AvgSevana : option mosPill; AvgNetwork : option mosPill; AvgRfactor : string; AvgDuration : string;
  CoverageText : string; ShowSevana : bool
}.

Definition ratio (count total : Z) : float64 :=
  if total <=? 0 then fzero else fdiv (f64_of_Z count) (f64_of_Z total).

(** "n% (count / total)", with the width of its bar. *)
Definition out_of (count total : Z) : string := "(" +:+ fmtInt_of count +:+ " / " +:+ fmtInt_of total +:+ ")".
Definition rate (label : string) (count total : Z) : rateView :=
  let r := ratio count total in
  let w := fmul r hundred in
  MkRate label (fmtPct r +:+ "  " +:+ out_of count total) (if fgt w hundred then hundred else w).

Definition object_of (v : json) : object := match v with JObject o => o | _ => [] end.

Definition buildHistView (title : string) (w : object) (threshold : float64) (sevana : bool) : histView :=
  let streams := toI64 (field "stream_count" w) in
  let goodSevana := toI64 (field "good_sevana_count" w) in
  let goodNetwork := toI64 (field "good_network_count" w) in
  let withSevana := toI64 (field "with_sevana_mos" w) in
  let avg := object_of (field "avg" w) in
  MkHist title ("≥ " +:+ format_fixed 2 threshold) (fmtInt_of streams)
    (rate "Sevana good" goodSevana withSevana) (rate "Network good" goodNetwork streams)
    (mosView (field "sevana_mos" avg) true) (mosView (field "network_mos" avg) false)
    (fmtFixed 2 (field "rfactor" avg)) (fmtFixed 1 (field "duration" avg))
    ("PVQA coverage: " +:+ fmtPct (ratio withSevana streams) +:+ " " +:+ out_of withSevana streams) sevana.

(** * Core status *)

Record coreRow := MkCoreRow { core_Label : string; core_Value : string }.

Definition slashed (a b : Z) : string := fmtInt_of (wrap64 a) +:+ " / " +:+ fmtInt_of (wrap64 b).

(** [%+.0f] *)
Definition signed0 (f : float64) : string :=
  let t := format_fixed 0 f in if has_prefix "-" t || has_prefix "+" t then t else "+" +:+ t.

Definition coreDetailRows (s : InstanceStatistics) (sevana : bool) : list coreRow :=
  [MkCoreRow "Version" (Version s); MkCoreRow "Uptime" (fmtUptime (JInt (UptimeSeconds s)))] ++
  (if String.eqb (ServerTime s) "" then [] else [MkCoreRow "Server time" (ServerTime s)]) ++
  [MkCoreRow "Live decoders / calls" (slashed (ActiveDecoderCounter s) (SipCallCounter s));
   MkCoreRow "Audio / active decoders" (slashed (ActiveAudioDecoderCounter s) (ActiveDecoderCounter s));
   MkCoreRow "Total decoders" (fmtInt (JInt (TotalDecoderCounter s)))] ++
  (if sevana then [MkCoreRow "PVQA instances / processed" (slashed (PvqaInstanceCounter s) (PvqaProcessedSeconds s) +:+ "s")] else []) ++
  [MkCoreRow "reSIProcate msgs (all / sip)" (slashed (ResipMessageCounter s) (ResipSipMessageCounter s))] ++
  (if fgt (CpuUserSeconds s) fzero || fgt (CpuSystemSeconds s) fzero || fgt (CpuUsagePercent s) fzero then
     [MkCoreRow "CPU usage (1 core=100%)"
        (format_fixed 1 (CpuUsagePercent s) +:+ "%  (user " +:+ format_fixed 1 (CpuUserSeconds s) +:+ "s / sys " +:+
         format_fixed 1 (CpuSystemSeconds s) +:+ "s)")]
   else []) ++
  (if 0 <? MemHeapSize s then
     [MkCoreRow "tcmalloc live / heap / free"
        (fmtBytes (JInt (MemAllocatedBytes s)) +:+ " / " +:+ fmtBytes (JInt (MemHeapSize s)) +:+ " / " +:+
         fmtBytes (JInt (MemPageheapFreeBytes s)))]
   else []) ++
  (if (0 <? MemAllocCount s) || fgt (MemAllocsPerSec s) fzero then
     [MkCoreRow "tcmalloc alloc / free /s"
        (format_fixed 0 (MemAllocsPerSec s) +:+ " / " +:+ format_fixed 0 (MemFreesPerSec s) +:+ "  (net " +:+
         signed0 (fsub (MemAllocsPerSec s) (MemFreesPerSec s)) +:+ "/s, total " +:+
         slashed (MemAllocCount s) (MemFreeCount s) +:+ ")")]
   else []).

(** * The timeline of a call *)

Record eventView := MkEvent {
  TypeLabel : string; Tone : string; Time : string; KV : list hiddenField; ev_CopyJSON : string; ev_CopyMD : string
}.

Definition eventTone (t : Z) : string :=
  if t =? 1 then "positive" else if t =? 2 then "info" else if t =? 3 then "warning" else if t =? 4 then "danger" else "neutral".

Definition shown_keys (e : object) : list string :=
  StableSort.stable_sort str_lt
    (List.filter (fun k => negb (existsb (String.eqb k) ["id"; "event_type"; "event_type_label"; "call_id"])) (fst <$> e)).

Definition event_value `{Rows.LocalZone} (e : object) (k : string) : string :=
  if String.eqb k "duration" then sipDur (field k e)
  else if String.eqb k "timestamp" || String.eqb k "invite_timestamp" then sipTime (field k e)
  else rawString (field k e).

Definition event_view `{Rows.LocalZone} (e : object) : eventView :=
  let label := string_field "event_type_label" e in
  let label := if String.eqb label "" then "unknown" else label in
  MkEvent label (eventTone (toI64 (field "event_type" e))) (sipTime (field "timestamp" e))
    ((fun k => MkHidden k (event_value e k)) <$> shown_keys e)
    (copyJSON e) (mapToMarkdown e ("SIP " +:+ label +:+ " event")).

Definition buildEventViews `{Rows.LocalZone} (events : list object) : list eventView := event_view <$> events.

(** * The MOS of a call *)

(** Go's [min]: a NaN wins, and the negative zero. *)
Definition fmin (x y : float64) : float64 :=
  if fis_nan x then x else if fis_nan y then y
  else if flt x y then x else if flt y x then y
  else match x, y with S754_zero true, _ => x | _, S754_zero true => y | _, _ => x end.

Definition worstMos (vals : list float64) (streams : Z) : option mosPill :=
  match vals with
  | [] => None
  | v :: _ =>
      p ← mosView (JFloat (fold_left fmin vals v)) false;
      Some (MkPill (Text p) (Band p)
        (pill_Label p +:+ " - worst of " +:+ itoa (Z.of_nat (length vals)) +:+ "/" +:+ itoa streams +:+ " streams: " +:+
         join ", " (format_fixed 2 <$> vals)))
  end.

Definition sipCode (row : object) : string :=
  match mlookup "setup_code" row, mlookup "response_code" row with
  | Some v, _ => rawString v
  | None, Some v =>
      let label := string_field "reason_label" row in
      if String.eqb label "" then rawString v else rawString v +:+ " (" +:+ label +:+ ")"
  | None, None => ""
  end.

(** * The text of an alarm *)

(** [math.Round]: half away from zero. *)
Definition math_round (f : float64) : float64 :=
  match f with
  | S754_finite s m e =>
      let n := (2 * f_num m e + f_den e) / (2 * f_den e) in
      if n =? 0 then S754_zero s else f64_of_Z (if s then - n else n)
  | _ => f
  end.

Definition alarmNum (v : json) : string :=
  let thousand := f64_of_Z 1000 in format_float_f (fdiv (math_round (fmul (toF64 v) thousand)) thousand).

Definition unitSuffix (unit : string) : string :=
  if String.eqb unit "%" then "%"
  else if existsb (String.eqb unit) ["ms"; "s"; "packets"] then " " +:+ unit else "".

Definition windowText (s : Z) : string :=
  if Z.rem s 86400 =? 0 then itoa (Z.quot s 86400) +:+ " d"
  else if Z.rem s 3600 =? 0 then itoa (Z.quot s 3600) +:+ " h"
  else if Z.rem s 60 =? 0 then itoa (Z.quot s 60) +:+ " min"
  else itoa s +:+ " s".

(** [strings.Replace(s, old, new, 1)]. *)
Fixpoint replace_first (s old new : string) : string :=
  if has_prefix old s then new +:+ str_drop (String.length old) s
  else match s with EmptyString => "" | String c s => String c (replace_first s old new) end.

Definition is_true (v : json) : bool := match v with JBool b => b | _ => false end.

Definition alarm_condition (rule : object) : string :=
  let raw k := rawString (field k rule) in
  let cond := raw "counter" +:+ " " +:+ raw "op" +:+ " " +:+ alarmNum (field "limit" rule) +:+ unitSuffix (raw "unit") +:+
              " over " +:+ windowText (toI64 (field "window_s" rule)) in
  let cond := if String.eqb (raw "code") "" then cond
              else replace_first cond "call_health" ("call_health[" +:+ raw "code" +:+ "]") in
  let n := toI64 (field "min_samples" rule) in
  if 1 <? n then cond +:+ ", at least " +:+ itoa n +:+ " samples" else cond.

Record ruleView := MkRuleView {
  rv_Name : string; rv_Condition : string; rv_Filter : string; rv_State : string; rv_Value : string; rv_Since : string;
  rv_Checked : string; rv_Notify : string; rv_Error : string
}.

Definition rule_row `{Rows.LocalZone} (rule : object) : ruleView :=
  let raw k := rawString (field k rule) in
  let state := raw "state" in
  let nm := object_of (field "notify" rule) in
  let value := if String.eqb state "pending" then dash
               else alarmNum (field "value" rule) +:+ unitSuffix (raw "unit") +:+ " (" +:+ itoa (toI64 (field "samples" rule)) +:+ ")" in
  MkRuleView (raw "name") (alarm_condition rule) (raw "filter") state value
    (sipTime (field "last_change_ms" rule)) (sipTime (field "last_check_ms" rule))
    (join ", " ((if is_true (field "command" nm) then ["command"] else []) ++ (if is_true (field "webhook" nm) then ["webhook"] else [])))
    (raw "error").

Record alarmEventView := MkAlarmEvent {
  ae_Time : string; ae_Name : string; ae_Kind : string; ae_Value : string; ae_Limit : string; ae_Samples : Z
}.

Definition event_row `{Rows.LocalZone} (e : object) : alarmEventView :=
  MkAlarmEvent (sipTime (field "timestamp_ms" e)) (rawString (field "name" e)) (rawString (field "kind" e))
    (alarmNum (field "value" e)) (rawString (field "op" e) +:+ " " +:+ alarmNum (field "limit" e)) (toI64 (field "samples" e)).

(** * Page data *)

Record summaryData := MkSummary {
  sm_Core : option object; sm_Capturers : list json; sm_ActiveStreams : string; sm_SessionStarted : string;
  sm_SessionFinished : string; H1 : option histView; H24 : option histView
}.
Record coreData := MkCore { CoreRows : list coreRow; co_Capturers : list json }.
Record streamsData := MkStreams { st_Active : cardView; st_Finished : cardView; PollURL : string }.
Record chunkView := MkChunkView {
  ck_Label : string; ck_TS : string; ck_Sevana : option mosPill; ck_Network : option mosPill; ck_CopyJSON : string; ck_CopyMD : string
}.
Record streamDetail := MkStreamDetail {
  sd_LinkID : string; D : object; sd_CopyJSON : string; sd_CopyMD : string; AudioPath : string; Rfactor : option string;
  (** the DTX text, the silence share, whether it is suspected *)
  Dtx : option (string * string * bool);
  SilentAudio : option (string * bool); sd_Detectors : option (list detectorView); Chunks : list chunkView
}.
Record chunkDetail := MkChunkDetail {
  cd_LinkID : string; cd_D : object; cd_CopyJSON : string; cd_CopyMD : string; cd_Detectors : detectorTable
}.
(** A row of the call list: [None] for a key that is not set. *)
Record callRow := MkCallRow {
  cr_call : object; cr_mos : option (option mosPill * option mosPill); cr_health : option (list CallHealthWarning)
}.
Record callsData := MkCalls {
  ca_Filter : string; ca_Error : string; ca_Rows : option (list callRow * Z * Z * pagerView); ca_Sevana : bool
}.
Record callDetail := MkCallDetail {
  Health : option health; cl_CallID : string; Events : list eventView; EventCount : Z; Outcome : string;
  Streams : list object; parties : option (string * string)
}.
Record trackData := MkTrack { Patterns : list string; tr_Error : string }.
Record alarmsData := MkAlarms {
  al_Configured : bool; al_Error : string; Rules : list ruleView; Active : Z; al_Events : list alarmEventView
}.

Section pages.
Context `{UnicodeTables} `{Rows.LocalZone} `{Engine} `{SortSlice} (error_text : query_error -> string) (a : App).

Definition thresholds : Pvqa.Thresholds := Api.dep_Thresholds (deps a).
Definition silence_threshold : float64 := Api.SilenceRatioThreshold (deps a).

Definition capturers (core : object) : list json := match field "capturers" core with JArray l => l | _ => [] end.

(** [now1] and [now2] are the clock at the two queries. *)
Definition summaryPage (r : request) (now1 now2 : Z) : option (web_response summaryData) :=
  let sevana := showSevana a in
  let core := CoreStatsToJSON <$> core_stats a in
  let counts := match Api.dep_Registry (deps a) with
                | Some g => (fmtInt_of (ActiveCount g), fmtInt_of (started g), fmtInt_of (finished g))
                | None => ("0", "0", "0")
                end in
  let hist title seconds now :=
    w ← FindWidgetStats seconds (Api.GoodMosThreshold (deps a)) now;
    Some (match w with
          | Ok w => Some (buildHistView title (WidgetStatsToJSON w) (Api.GoodMosThreshold (deps a)) sevana)
          | Err _ => None
          end) in
  h1 ← hist "Last 1 hour" 3600 now1;
  h24 ← hist "Last 24 hours" 86400 now2;
  Some (render a r "summary.html" "summary" "Summary"
    (MkSummary core (from_option capturers [] core) counts.1.1 counts.1.2 counts.2 h1 h24)).

Definition corePage (r : request) : web_response (option coreData) :=
  render a r "core.html" "core" "Core status"
    ((fun s => MkCore (coreDetailRows s (showSevana a)) (capturers (CoreStatsToJSON s))) <$> core_stats a).

(** ** Streams *)

Definition farFutureSeconds : Z := 2 ^ 40.

Definition sinceFilter (since : Z) : SearchFilter :=
  let f := NewSearchFilter in
  MkSearchFilter (PageOffset f) 1 (SortField f) (Descending f) (Transport.Expression f)
    (Some (MkDateInterval since farFutureSeconds)) (Transport.SIPCallID f).

(** The card of the active streams. *)
Definition activeCard (base : string) (aq fq : streamsQuery) (since : Z) (records : list vmap) (sevana : bool) : option cardView :=
  '(page, total) ← Stats.PaginateActive records (searchFilter aq);
  rows ← mapM (fun rec => ActiveRecordToJSON thresholds rec silence_threshold) page;
  '(_, newCount) ← Stats.PaginateActive records (sinceFilter since);
  let c := buildCardView base aq "a" fq "f" "Active Streams" rows total "" sevana in
  Some (MkCard (card_ID c) (Prefix c) (card_Title c) (Rows_ c) (Total c) newCount (card_Error c) (Q c) (Cols c) (Pager c)
          (CSVPath c) (FilterName c) (FilterValue c) (Hidden c) (card_Sevana c)).

(** Its rows and total, or the error of either query. *)
Definition finished_page (fq : streamsQuery) : option (list object * Z * string) :=
  match GetFinishedStreamCount (searchFilter fq) with
  | Err e => Some ([], 0, error_text e)
  | Ok count =>
      match GetFinishedStreams (searchFilter fq) with
      | Err e => Some ([], 0, error_text e)
      | Ok rows => rows ← mapM (fun row => FinishedStreamRowToJSON thresholds row silence_threshold) rows; Some (rows, count, "")
      end
  end.

Definition finishedCard (base : string) (aq fq : streamsQuery) (sevana : bool) : option cardView :=
  '(rows, total, e) ← finished_page fq;
  Some (buildCardView base fq "f" aq "a" "Finished Streams" rows total e sevana).

Definition since_of (q : values) (now_s : Z) : Z :=
  let since := intParam (get q "a_since") 0 in if since =? 0 then now_s else since.

Definition poll_url (base : string) (aq fq : streamsQuery) (since : Z) : string :=
  base +:+ "/ui/streams?" +:+ Encode (set "a_since" (itoa since) (params fq "f" (params aq "a" []))).

Definition streamsPage (r : request) (now_s : Z) : option (web_response streamsData) :=
  let q := ParseQuery (RawQuery r) in
  let base := basePrefix (Forwarded r) in
  let aq := readStreamsQuery q "a" in
  let fq := readStreamsQuery q "f" in
  let since := since_of q now_s in
  active ← activeCard base aq fq since (Api.activeRecords (deps a)) (showSevana a);
  finished ← finishedCard base aq fq (showSevana a);
  Some (render a r "streams.html" "streams" "Streams" (MkStreams active finished (poll_url base aq fq since))).

(** ** A stream *)

Definition chunk_view (c : object) : chunkView :=
  let label := fmtFixed 3 (field "start_time" c) +:+ " - " +:+ fmtFixed 3 (field "end_time" c) in
  MkChunkView label (itoa (toI64 (field "stream_end_time" c))) (mosView (field "sevana_mos" c) true)
    (mosView (field "network_mos" c) false) (copyJSON c) (mapToMarkdown c ("Chunk " +:+ label)).

Definition stream_detail (id : string) (d : object) : streamDetail :=
  let analysed := negb (feq (toF64 (field "sevana_mos" d)) fzero) in
  let source := rawString (field "silence_source" d) in
  MkStreamDetail id d (copyJSON d) (mapToMarkdown d ("Stream " +:+ id)) ("/audio?link_id=" +:+ QueryEscape id)
    (if analysed then Some (rawString (field "sevana_rfactor" d)) else None)
    (if 0 <? toI64 (field "dtx_total" d) then
       Some (rawString (field "dtx_count" d) +:+ " / " +:+ rawString (field "dtx_sid" d) +:+ " / " +:+ rawString (field "dtx_total" d),
             pct0 (field "silence_ratio" d), has_prefix "dtx" source)
     else None)
    (if analysed then Some (pct0 (field "silent_audio_ratio" d), has_suffix "audio" source) else None)
    (match field "detectors" d with JArray (x :: l) => Some (triggeredDetectors (JArray (x :: l))) | _ => None end)
    (match field "chunks" d with JArray l => chunk_view <$> (object_of <$> l) | _ => [] end).

Definition streamDetailPage (r : request) (id : string) : option (web_response streamDetail) :=
  let fail status msg := Some (renderError a r "stream_detail.html" status msg) in
  match GetStreamHistory id with
  | Err e => fail 503 (error_text e)
  | Ok rows =>
      match GetStreamFinal id with
      | Err e => fail 503 (error_text e)
      | Ok final =>
          match rows, final with
          | [], None => fail 404 "Stream not found."
          | _, _ =>
              d ← StreamHistoryToJSON thresholds rows (Api.AgentID (deps a)) (Api.AgentName (deps a)) final silence_threshold;
              Some (render a r "stream_detail.html" "streams" ("Stream " +:+ id) (stream_detail id d))
          end
      end
  end.

Definition chunkDetailPage (r : request) (id ts : string) : option (web_response chunkDetail) :=
  match GetReport id (int64_of_f64 (parse_float_value ts)) with
  | Err e => Some (renderError a r "chunk_detail.html" 503 (error_text e))
  | Ok None => Some (renderError a r "chunk_detail.html" 404 "Report not found.")
  | Ok (Some row) =>
      d ← ReportRowToJSON thresholds row;
      Some (render a r "chunk_detail.html" "streams" "Chunk report"
        (MkChunkDetail id d (copyJSON d) (mapToMarkdown d ("Chunk report (stream " +:+ id +:+ ")"))
           (parseDetectorReport (rawString (field "detectors_report" d)))))
  end.

(** ** SIP calls *)

(** The address of a page of the call list. *)
Definition calls_url (base expr : string) (offset limit : Z) : string :=
  let vals := set_unless (offset =? 0) "offset" (itoa offset) [] in
  let vals := set_unless (limit =? 25) "limit" (itoa limit) vals in
  let vals := set_unless (String.eqb expr "") "q" expr vals in
  with_query (base +:+ "/ui/sip-calls") (Encode vals).

(** The pills of a call, of its streams with their values: a stream that PVQA
    did not analyse has no Sevana MOS. *)
Definition call_mos (streams : list CallStreamMos) : option mosPill * option mosPill :=
  let n := Z.of_nat (length streams) in
  (worstMos (cm_SevanaMos <$> List.filter (fun m => fgt (cm_SevanaMos m) fzero) streams) n,
   worstMos (cm_NetworkMos <$> streams) n).

(** The rows of the list, and the last error of the two lookups. *)
Definition call_rows (calls : list vmap) : list callRow * string :=
  let rows := SipCallSummaryToJSON <$> calls in
  let id row := rawString (field "call_id" row) in
  let mos := GetSipCallStreamMos (id <$> rows) in
  let health := GetCallHealth (id <$> rows) in
  ((fun row => MkCallRow row
      (match mos with Ok m => Some (call_mos (default [] (m !! id row))) | Err _ => None end)
      (match health with Ok h => he_Warnings <$> h !! id row | Err _ => None end)) <$> rows,
   match mos, health with
   | _, Err e => error_text e
   | Err e, Ok _ => error_text e
   | Ok _, Ok _ => ""
   end).

Definition sipCallsPage (r : request) : web_response callsData :=
  let q := ParseQuery (RawQuery r) in
  let offset := page_offset (intParam (get q "offset") 0) in
  let limit := page_limit (intParam (get q "limit") 25) in
  let expr := trim_space (get q "q") in
  let shown error rows := render a r "sip_calls.html" "sip-calls" "SIP calls" (MkCalls expr error rows (showSevana a)) in
  match GetSipCallCount None None "" expr with
  | Err e => shown (error_text e) None
  | Ok count =>
      match GetSipCallList None None limit offset "" expr with
      | Err e => shown (error_text e) None
      | Ok calls =>
          let '(rows, error) := call_rows calls in
          shown error (Some (rows, count, offset,
            buildPager offset limit (Z.of_nat (length rows)) count (calls_url (basePrefix (Forwarded r)) expr)))
      end
  end.

(** The event that tells who called whom, and the outcome. *)
Definition of_type (t : Z) (e : object) : bool := toI64 (field "event_type" e) =? t.
Definition call_origin (evs : list object) : option object * string :=
  match List.find (of_type 1) evs with
  | Some e => (Some e, "established")
  | None => match List.find (of_type 4) evs with Some e => (Some e, "failed") | None => (None, "unknown") end
  end.

Definition call_filter (callID : string) : SearchFilter :=
  let f := NewSearchFilter in
  MkSearchFilter (PageOffset f) (Api.MaxStreams (deps a)) (SortField f) (Descending f) (Transport.Expression f) (FilterInterval f) callID.

(** The streams of a call: the active ones, marked so, then the finished ones;
    without a registry only those. *)
Definition call_streams (callID : string) : option (list object) :=
  active ← (match Api.dep_Registry (deps a) with
            | None => Some []
            | Some g =>
                '(page, _) ← Stats.PaginateActive (SnapshotRecords g) (call_filter callID);
                rows ← mapM (fun rec => ActiveRecordToJSON thresholds rec silence_threshold) page;
                Some (jput "active" (JBool true) <$> rows)
            end);
  finished ← (match GetFinishedStreams (call_filter callID) with
              | Ok rows => mapM (fun row => FinishedStreamRowToJSON thresholds row silence_threshold) rows
              | Err _ => Some []
              end);
  Some (active ++ finished).

Definition sipCallDetailPage (r : request) (callID : string) : option (web_response callDetail) :=
  match GetSipCallEvents callID with
  | Err e => Some (renderError a r "sip_call_detail.html" 503 (error_text e))
  | Ok events =>
      let evs := SipEventRowToJSON <$> events in
      let '(origin, outcome) := call_origin evs in
      streams ← call_streams callID;
      Some (render a r "sip_call_detail.html" "sip-calls" ("SIP call " +:+ callID)
        (MkCallDetail (match GetCallHealth [callID] with Ok h => h !! callID | Err _ => None end) callID
           (buildEventViews evs) (Z.of_nat (length evs)) outcome streams
           ((fun o => (rawString (field "caller" o), rawString (field "callee" o))) <$> origin)))
  end.

(** ** Track list *)

Section control.
Context {C : Type} `{!Control C}.

(** [None] stands for "unavailable". *)
Definition trackPage (r : request) (control : option C) : web_response (option Z * option trackData) * option C :=
  let affected := intParam (get (ParseQuery (RawQuery r)) "affected") 0 in
  let affected := if 0 <? affected then Some affected else None in
  let shown data := render a r "track.html" "track" "Track list" (affected, data) in
  match control with
  | None => (shown None, None)
  | Some c =>
      let '(ack, c) := Send TrackQuery [] c in
      (shown (if TransportOK ack then Some (MkTrack (Workers.Current ack) (ack_Error ack)) else None), Some c)
  end.

(** The pattern of a form; [persist]: whether a track store is configured. *)
Definition form_patterns (r : request) : list string :=
  let p := get (form r) "pattern" in if String.eqb p "" then [] else [p].

Definition trackMutate (persist : bool) (op : TrackOp) (patterns : list string) (require : bool) (r : request)
    (control : option C) (w : writer) : string * option C * writer :=
  let target := basePrefix (Forwarded r) +:+ "/ui/track" in
  match control with
  | Some c =>
      if negb require || bool_decide (patterns <> []) then
        let '(ack, c) := Send op patterns c in
        if TransportOK ack && ack_OK ack then
          (target +:+ (if 0 <? AffectedStreams ack then "?affected=" +:+ itoa (AffectedStreams ack) else ""), Some c,
           if persist then (Save (Workers.Current ack) w).2 else w)
        else (target, Some c, w)
      else (target, Some c, w)
  | None => (target, None, w)
  end.

Definition trackAdd (persist : bool) (r : request) := trackMutate persist TrackAdd (form_patterns r) true r.
Definition trackRemove (persist : bool) (r : request) := trackMutate persist TrackRemove (form_patterns r) true r.
Definition trackClear (persist : bool) (r : request) := trackMutate persist TrackReplace [] false r.
End control.

(** ** Alarms *)

Definition alarmsPage (r : request) (view : option (Z -> Api.AlarmView)) : web_response alarmsData :=
  let v := match view with Some f => f 50 | None => Api.MkAlarmView false [] [] "" end in
  let rules := object_of <$> Api.av_Rules v in
  render a r "alarms.html" "alarms" "Alarms"
    (MkAlarms (Api.Configured v) (Api.av_Error v) (rule_row <$> rules)
       (Z.of_nat (length (List.filter (fun o => String.eqb (rawString (field "state" o)) "alarm") rules)))
       (event_row <$> (object_of <$> Api.av_Events v))).
End pages.

(** * The pill of a call *)

Lemma fmin_spec x y : fis_nan x = false -> fis_nan y = false ->
  (fmin x y = x \/ fmin x y = y) /\ fle (fmin x y) x = true /\ fle (fmin x y) y = true.
Proof.
  intros Hx Hy. unfold fmin. rewrite Hx, Hy.
  destruct (f_trichotomy x y Hx Hy) as [E|[E|E]]; injection E as E1 E2 E3; rewrite E1, ?E3.
  - split; [by left|]. split; [by apply fle_refl|by apply flt_fle].
  - assert (fle x y = true /\ fle y x = true) as [Hxy Hyx] by (rewrite !fle_flt_feq, (feq_sym y x), E2, !orb_true_r; done).
    pose proof (fle_refl x Hx). pose proof (fle_refl y Hy). case_all; auto.
  - split; [by right|]. split; [by apply flt_fle|by apply fle_refl].
Qed.

Lemma fold_fmin l v : fis_nan v = false -> Forall (fun x => fis_nan x = false) l ->
  fold_left fmin l v ∈ v :: l /\ Forall (fun x => fle (fold_left fmin l v) x = true) (v :: l).
Proof.
  intros Hv Hl. revert v Hv. induction Hl as [|x l Hx Hl IH]; intros v Hv; cbn [fold_left].
  { split; [in_list|]. constructor; [by apply fle_refl|done]. }
  destruct (fmin_spec v x Hv Hx) as (Hor & Hlv & Hlx).
  assert (fis_nan (fmin v x) = false) as Hm by (by destruct Hor as [->| ->]).
  destruct (IH _ Hm) as [Hin Hle]. apply Forall_cons in Hle as [Hle0 Hle]. split.
  - apply elem_of_cons in Hin as [->|Hin]; [destruct Hor as [->| ->]; in_list|]. by do 2 apply list_elem_of_further.
  - repeat constructor; [by apply (fle_trans _ (fmin v x) v)|by apply (fle_trans _ (fmin v x) x)|done].
Qed.

(** The pill shows the lowest of its values, in a band that none of their own
    pills is worse than. *)
Definition shows_worst (p : mosPill) (vals : list float64) : Prop :=
  exists m, m ∈ vals /\ Text p = format_fixed 2 m /\
    Forall (fun v => fle m v = true /\
      exists own, mosView (JFloat v) false = Some own /\ band_index (Band p) <= band_index (Band own)) vals.

Lemma worstMos_spec vals n : Forall (fun x => fis_nan x = false) vals -> vals <> [] ->
  exists p, worstMos vals n = Some p /\ shows_worst p vals.
Proof.
  intros Hn Hv. destruct vals as [|v l]; [done|]. apply Forall_cons in Hn as [Hv0 Hl].
  unfold worstMos. cbn [fold_left]. assert (fmin v v = v) as -> by (by destruct (fmin_spec v v Hv0 Hv0) as [[?|?] _]).
  destruct (fold_fmin l v Hv0 Hl) as [Hin Hle]. set (m := fold_left fmin l v) in *. clearbody m.
  unfold mosView. cbn [toF64 andb]. destruct (mos_band (clamp_mos m)) as [band label] eqn:E. cbn [mbind option_bind].
  eexists. split; [reflexivity|]. exists m. split; [exact Hin|]. split; [reflexivity|].
  eapply Forall_impl; [exact Hle|]. cbn beta. intros x Hx. split; [exact Hx|].
  pose proof (mos_band_mono m x Hx) as Hb. rewrite E in Hb. unfold mosView. cbn [toF64 andb].
  destruct (mos_band (clamp_mos x)) as [b' l']. eexists. split; [reflexivity|exact Hb].
Qed.

(** The MOS of a call in the list.  A call's network pill shows the lowest
    network MOS of its streams, and its Sevana pill the lowest Sevana MOS of
    those that were analysed, each with two decimals and in a band no better
    than that of any of them; there is a pill exactly when there is such a
    stream. *)
Theorem call_pill_is_worst_stream streams (Hn : Forall (fun m => fis_nan (cm_NetworkMos m) = false) streams) :
  let analysed := List.filter (fun m => fgt (cm_SevanaMos m) fzero) streams in
  let '(sevana, network) := call_mos streams in
  (if decide (streams = []) then network = None
   else exists p, network = Some p /\ shows_worst p (cm_NetworkMos <$> streams)) /\
  (if decide (analysed = []) then sevana = None
   else exists p, sevana = Some p /\ shows_worst p (cm_SevanaMos <$> analysed)).
Proof.
  intros analysed. unfold call_mos. fold analysed. split.
  - destruct (decide (streams = [])) as [->|Hne]; [done|]. apply worstMos_spec; [by rewrite Forall_fmap|].
    by destruct streams.
  - destruct (decide (analysed = [])) as [->|Hne]; [done|]. apply worstMos_spec; [|by destruct analysed].
    rewrite Forall_fmap. apply Forall_forall. intros m [_ Hm]%elem_of_filter_bool. cbn.
    by apply flt_key in Hm as (_ & ? & _).
Qed.

(** Two analysed streams and one that was not. *)
Lemma call_pill_is_worst_stream_witness :
  let f d := f_decimal false d (-2) in
  let streams := [MkCallStreamMos 1 (f 388) (f 410); MkCallStreamMos 2 (f 377) (f 420); MkCallStreamMos 3 fzero (f 310)] in
  (exists p, (call_mos streams).1 = Some p /\ shows_worst p [f 388; f 377] /\
     pill_Label p = "Fair - worst of 2/3 streams: 3.88, 3.77") /\
  (exists p, (call_mos streams).2 = Some p /\ shows_worst p [f 410; f 420; f 310] /\ Band p = "poor").
Proof.
  intros f streams. pose proof (call_pill_is_worst_stream streams ltac:(repeat constructor)) as H.
  destruct (call_mos streams) as [s n] eqn:E. destruct H as [Hn Hs].
  destruct (decide _) as [Ed|_] in Hn; [discriminate|]. destruct (decide _) as [Ed|_] in Hs; [vm_compute in Ed; discriminate|].
  destruct Hs as (ps & Es & Hs), Hn as (pn & En & Hn). vm_compute in E. injection E as <- <-.
  injection Es as <-. injection En as <-. split; (eexists; split; [reflexivity|]; split; [assumption|reflexivity]).
Defined.

(** * Browsing the active streams *)

#[local] Existing Instance Stats.recordLess_strict_weak.

Section browsing.
Context `{UnicodeTables} `{Rows.LocalZone} `{Engine} (error_text : query_error -> string) (a : App) (forwarded : string).

(** A browser opens an address. *)
Definition request_of (url : string) : request := MkRequest forwarded "" "" "/ui/streams" (raw_query url) [].

(** It follows the link to the next page as long as there is one; [clock] is
    the time of each visit. *)
Fixpoint browse (clock : nat -> Z) (fuel : nat) (url : string) : option (list object) :=
  match fuel with
  | O => None
  | S fuel =>
      match streamsPage error_text a (request_of url) (clock fuel) with
      | Some (Page _ _ _ page) =>
          let card := st_Active (Data page) in
          if String.eqb (NextURL (Pager card)) "" then Some (Rows_ card)
          else rest ← browse clock fuel (NextURL (Pager card)); Some (Rows_ card ++ rest)
      | _ => None
      end
  end.

Abbreviation records := (Api.activeRecords (deps a)).
Abbreviation to_json := (fun rec => ActiveRecordToJSON (thresholds a) rec (silence_threshold a)).

Lemma activeCard_shows base aq fq since sevana all
    (Hkeys : Forall (Stats.key_ok (Sort aq)) records) (Htime : Forall (Stats.key_ok "start_time") records)
    (Hlen : Z.of_nat (length records) <= 2 ^ 45) (Hn : normal aq) (Hsize : Offset aq + Limit aq <= max_int64)
    (Hall : mapM to_json (Stats.matching records (searchFilter aq)) = Some all) :
  exists card, activeCard a base aq fq since records sevana = Some card /\
    Rows_ card = take (Z.to_nat (Limit aq)) (drop (Z.to_nat (Offset aq)) all) /\
    Pager card = Pager (buildCardView base aq "a" fq "f" "Active Streams" (Rows_ card) (Z.of_nat (length all)) "" sevana).
Proof using.
  destruct Hn as (_ & _ & Ho & Hl). unfold activeCard.
  rewrite (Stats.PaginateActive_eq records (searchFilter aq)) by (done || (unfold Stats.page_in_range; cbn; lia)).
  cbn [mbind option_bind]. apply mapM_Some in Hall.
  assert (mapM to_json (take (Z.to_nat (Limit aq)) (drop (Z.to_nat (Offset aq)) (Stats.matching records (searchFilter aq)))) =
          Some (take (Z.to_nat (Limit aq)) (drop (Z.to_nat (Offset aq)) all))) as Hrows
    by (apply mapM_Some; by apply Forall2_take, Forall2_drop).
  cbn [PageOffset MaxCount searchFilter]. rewrite Hrows. cbn [mbind option_bind].
  rewrite Stats.PaginateActive_eq; [|done|done|unfold Stats.page_in_range, sinceFilter, max_int64; cbn; lia].
  cbn [mbind option_bind]. eexists. split; [done|]. split; [done|]. cbn.
  apply Forall2_length in Hall. unfold Stats.matching, Stats.sortRecords in Hall. rewrite StableSort.stable_sort_length in Hall.
  by rewrite Hall.
Qed.

Lemma browse_from clock all fq (Htime : Forall (Stats.key_ok "start_time") records)
    (Hlen : Z.of_nat (length records) <= 2 ^ 45) (Hfin : is_Some (finished_page error_text a fq)) fuel :
  forall url aq, url_query url "a" = aq -> url_query url "f" = fq ->
    Forall (Stats.key_ok (Sort aq)) records -> mapM to_json (Stats.matching records (searchFilter aq)) = Some all ->
    Offset aq <= Z.of_nat (length all) -> (Z.to_nat (Z.of_nat (length all) - Offset aq) < fuel)%nat ->
    browse clock fuel url = Some (drop (Z.to_nat (Offset aq)) all).
Proof using.
  induction fuel as [|fuel IH]; intros url aq Ha Hf Hkeys Hall Hoff Hfuel; [lia|].
  assert (normal aq) as Hn by (rewrite <- Ha; apply readStreamsQuery_normal).
  assert (length all <= length records)%nat as Hmax
    by (apply mapM_Some, Forall2_length in Hall; rewrite <- Hall; apply Stats.matching_length).
  destruct Hn as (Hs & Hd & Ho & Hl) eqn:En. clear En. assert (Offset aq + Limit aq <= max_int64) as Hsize by (unfold max_int64; lia).
  cbn [browse]. unfold streamsPage. cbn [RawQuery request_of Forwarded].
  change (readStreamsQuery (ParseQuery (raw_query url)) "a") with (url_query url "a").
  change (readStreamsQuery (ParseQuery (raw_query url)) "f") with (url_query url "f"). rewrite Ha, Hf.
  edestruct (activeCard_shows (basePrefix forwarded) aq fq) as (card & -> & Hrows & Hpager);
    [done|done|done|done|done|done|].
  cbn [mbind option_bind]. unfold finishedCard. destruct Hfin as [[[frows ftotal] ferr] Efin]. rewrite Efin.
  cbn [mbind option_bind render envelope Data st_Active]. rewrite Hpager, next_link by done.
  destruct (Z.ltb_spec (Offset aq + Limit aq) (Z.of_nat (length all))) as [Hlt|Hge]; cbn [String.eqb].
  - set (aq' := at_page aq (Offset aq + Limit aq) (Limit aq)).
    destruct (String.eqb_spec (streamsURL (basePrefix forwarded) aq' "a" fq "f") "") as [E|_]; [by apply streamsURL_nonempty in E|].
    destruct (streamsURL_read forwarded "a" "f" aq' fq) as [Hra Hrf];
      [in_list|apply normal_page; [done|unfold max_int64 in *; lia|lia]|rewrite <- Hf; apply readStreamsQuery_normal|].
    rewrite (IH _ aq' Hra Hrf); [|done|done|cbn; lia|cbn; lia]. cbn [mbind option_bind Offset aq' at_page].
    rewrite Hrows, Z2Nat.inj_add, <- drop_drop by lia. by rewrite take_drop.
  - rewrite Hrows, take_ge; [done|]. rewrite length_drop. lia.
Qed.

(** C20. Browsing the active streams.  A user who opens the first page of the
    list and follows its link to the next page until there is none sees every
    active stream that matches the filter exactly once, in the order of the
    sort, with its values, and never more pages than streams: the pages, the
    links and the addresses they are read back from fit together.  The streams
    do not change meanwhile, their keys are not NaN, and no stored report makes
    the parser panic. *)
Theorem browsing_shows_every_stream clock all url
    (aq := url_query url "a") (fq := url_query url "f") (Hfirst : Offset aq = 0)
    (Hkeys : Forall (Stats.key_ok (Sort aq)) records) (Htime : Forall (Stats.key_ok "start_time") records)
    (Hlen : Z.of_nat (length records) <= 2 ^ 45) (Hfin : is_Some (finished_page error_text a fq))
    (Hall : mapM to_json (Stats.matching records (searchFilter aq)) = Some all) :
  browse clock (S (length all)) url = Some all /\
  Stats.matching records (searchFilter aq) ≡ₚ List.filter (Stats.matches (searchFilter aq)) records /\
  StableSort.ordered (Stats.recordLess (Sort aq) (negb (String.eqb (Dir aq) "asc"))) (Stats.matching records (searchFilter aq)).
Proof using.
  split; [|split].
  - rewrite (browse_from clock all fq) with (aq := aq); [by rewrite Hfirst|done|done|done|done|done|done|done|lia|lia].
  - apply StableSort.stable_sort_Permutation.
  - unfold Stats.matching, Stats.sortRecords. apply (StableSort.stable_sort_ordered _ (Stats.key_ok (Sort aq))).
    apply Forall_forall. intros r [Hr _]%elem_of_filter_bool. rewrite Forall_forall in Hkeys. auto.
Qed.
End browsing.

(** * Three streams on two pages *)

#[local] Existing Instance ascii_tables.
#[local] Instance utc_dashboard : Rows.LocalZone := {| Rows.utc_offset_ms _ := 0 |}.
#[local] Instance empty_database : Engine := {| run_rows _ := inr []; run_count _ := inr 0 |}.

Definition three_streams : registry :=
  fold_left (fun r x => OnReport 9000 (sample_report (sample_id x.1 x.2) (1000 * x.1) 60000 10) r)
    [(3, "c"); (1, "a"); (2, "b")] (NewActiveStreamRegistry "agent" "name").

Definition dashboard : App :=
  MkApp (Api.MkDeps "agent" "name" (f64_of_Z 4) (f_decimal false 8 (-1)) 100 "v" (Some three_streams) None ∅) "auto".

Lemma browsing_shows_every_stream_witness :
  (fun rows : list object => List.map (field "stream_id") rows) <$>
    browse (fun _ => "") dashboard "" (fun _ => 60) 4 "/ui/streams?a_limit=2&a_dir=asc&f_offset=50" =
  Some [JString "a"; JString "b"; JString "c"].
Proof.
  set (url := "/ui/streams?a_limit=2&a_dir=asc&f_offset=50").
  set (all := default [] (mapM (fun rec => ActiveRecordToJSON (thresholds dashboard) rec (silence_threshold dashboard))
    (Stats.matching (Api.activeRecords (deps dashboard)) (searchFilter (url_query url "a"))))).
  assert (Forall (Stats.key_ok "start_time") (Api.activeRecords (deps dashboard))) as Hkeys.
  { assert (forallb (fun r => negb (fis_nan (Stats.knum (Stats.makeSortKey (vget r "start_time"))))) (Api.activeRecords (deps dashboard)) = true) as E
      by (vm_compute; reflexivity).
    apply Forall_forall. intros r Hr%list_elem_of_In. rewrite forallb_forall in E. by apply negb_true_iff, E. }
  destruct (browsing_shows_every_stream (fun _ => "") dashboard "" (fun _ => 60) all url) as [Hb _].
  - reflexivity.
  - exact Hkeys.
  - exact Hkeys.
  - vm_compute. discriminate.
  - eexists. reflexivity.
  - unfold all. destruct (mapM _ _) as [l|] eqn:E; [done|].
    apply (f_equal (fun o : option (list object) => match o with Some _ => true | None => false end)) in E. vm_compute in E. discriminate.
  - assert (length all = 3%nat) as El by (vm_compute; reflexivity). rewrite El in Hb. rewrite Hb. vm_compute. reflexivity.
Defined.

(** * What does not work *)

(** Two headers of the tables sort by nothing: their columns are not among the
    sort columns of either list, which fall back to their defaults. *)
Lemma source_headers_do_not_sort own descending :
  List.filter (fun f => negb (String.eqb f "") && negb (bool_decide (is_Some (mlookup f FilterSQL.SortColumns))))
    (col_Field <$> streamColumns) = ["source"; "destination"] /\
  Forall (fun f => FilterSQL.BuildOrderBy f descending = FilterSQL.BuildOrderBy "" descending /\
                   Stats.keyName f = Stats.keyName "" /\
                   (Sort own <> f -> SortField (searchFilter (sort_query own f)) = f)) ["source"; "destination"].
Proof.
  split; [vm_compute; reflexivity|].
  rewrite !Forall_cons, Forall_nil. split_and!; try done; intros Hs; unfold sort_query;
    match goal with |- context [String.eqb ?x ?y] => by destruct (String.eqb_spec x y) end.
Qed.

(** The prefix check lets an address of another host through. *)
Lemma redirect_leaves_the_site : redirectToSummary "//evil.example" = "//evil.example/ui/summary".
Proof. reflexivity. Qed.
