(* ===== verification/Schema.v ===== *)
(** Creating and migrating the database ([internal/db/schema.go]): the tables
    and indexes the daemon declares, and [Bootstrap] on an engine that may fail
    at any statement.

    The effect of a statement on the schema is the engine's documented one:
    [IF NOT EXISTS] leaves an existing table or index alone, an index on a
    missing table or column and a second column of the same name are errors, and
    a failed statement changes nothing.  Names are compared as they are. *)

From S2P Require Import Prelude GoFloat GoStrings Store.

(** * Statements *)

(** A column: its name and its type with constraints. *)
Abbreviation column := (string * string)%type.

Record table_decl := MkTableDecl { t_name : string; t_columns : list column }.
Record index_decl := MkIndexDecl { x_name : string; x_table : string; x_columns : list string }.

Inductive ddl :=
| CreateTable (t : table_decl)
| CreateIndex (x : index_decl)
| AddColumn (table : string) (c : column).

Definition reportTableDDL (name : string) : table_decl :=
  MkTableDecl name
    [("stream_id", "INTEGER"); ("start_timestamp", "INTEGER NOT NULL"); ("end_timestamp", "INTEGER NOT NULL");
     ("rtp_packet_counter", "INTEGER NOT NULL"); ("illegal_packet_counter", "INTEGER NOT NULL");
     ("lost_packet_counter", "INTEGER NOT NULL"); ("sevana_mos", "FLOAT"); ("sevana_rfactor", "INTEGER");
     ("network_mos", "FLOAT"); ("jitter", "FLOAT"); ("codec", "VARCHAR(32)"); ("detector_report", "TEXT");
     ("rtt_delay", "FLOAT"); ("flags", "INTEGER NOT NULL"); ("tags", "VARCHAR(1024)");
     ("amr_wb_switch_counter", "INTEGER"); ("amr_nb_switch_counter", "INTEGER"); ("link_id", "VARCHAR(64) NOT NULL");
     ("duration_audio", "INTEGER"); ("user_report", "TEXT"); ("dtx_sid", "INTEGER"); ("dtx_count", "INTEGER");
     ("dtx_total", "INTEGER")].

Definition createTableStmts : list table_decl :=
  [MkTableDecl "rtpmon_streams"
     [("stream_id", "INTEGER PRIMARY KEY"); ("link_id", "VARCHAR(64) NOT NULL"); ("src_ip", "VARCHAR(32) NOT NULL");
      ("src_port", "INTEGER NOT NULL"); ("dst_ip", "VARCHAR(32) NOT NULL"); ("dst_port", "INTEGER NOT NULL");
      ("ssrc", "INTEGER NOT NULL"); ("sip_source", "VARCHAR(1024)"); ("sip_destination", "VARCHAR(1024)");
      ("sip_callid", "VARCHAR(1024)"); ("agent_id", "INTEGER"); ("created_ts", "INTEGER")];
   reportTableDDL "rtpmon_intervals";
   reportTableDDL "rtpmon_statistics";
   MkTableDecl "rtpmon_instances" [("id", "INTEGER PRIMARY KEY"); ("agent_id", "TEXT NOT NULL"); ("agent_name", "TEXT")];
   MkTableDecl "rtpmon_property" [("name", "TEXT PRIMARY KEY"); ("value", "TEXT")];
   MkTableDecl "rtpmon_sip_events"
     [("id", "INTEGER PRIMARY KEY"); ("event_type", "INTEGER NOT NULL"); ("call_id", "VARCHAR(1024) NOT NULL");
      ("event_timestamp", "INTEGER NOT NULL"); ("invite_timestamp", "INTEGER"); ("caller", "VARCHAR(1024)");
      ("callee", "VARCHAR(1024)"); ("caller_ua", "VARCHAR(1024)"); ("callee_ua", "VARCHAR(1024)");
      ("caller_codecs", "VARCHAR(1024)"); ("callee_codecs", "VARCHAR(1024)"); ("setup_code", "INTEGER");
      ("bye_direction", "INTEGER"); ("duration", "INTEGER"); ("response_codes", "VARCHAR(256)"); ("reason", "INTEGER");
      ("response_code", "INTEGER"); ("reason_phrase", "VARCHAR(256)"); ("direction", "INTEGER"); ("is_request", "INTEGER")];
   MkTableDecl "rtpmon_call_health"
     [("id", "INTEGER PRIMARY KEY"); ("call_id", "VARCHAR(1024) NOT NULL"); ("event_timestamp", "INTEGER NOT NULL");
      ("stream_count", "INTEGER"); ("warnings", "TEXT")];
   MkTableDecl "rtpmon_alarm_events"
     [("id", "INTEGER PRIMARY KEY"); ("name", "VARCHAR(256) NOT NULL"); ("kind", "VARCHAR(16) NOT NULL");
      ("counter", "VARCHAR(64) NOT NULL"); ("op", "VARCHAR(8) NOT NULL"); ("value", "FLOAT"); ("limit_value", "FLOAT");
      ("samples", "INTEGER"); ("event_timestamp", "INTEGER NOT NULL")];
   MkTableDecl "rtpmon_audio"
     [("id", "INTEGER PRIMARY KEY"); ("stream_id", "INTEGER NOT NULL"); ("start_timestamp", "INTEGER NOT NULL");
      ("end_timestamp", "INTEGER NOT NULL"); ("audio_wav", "TEXT NOT NULL")]].

Definition createIndexStmts : list index_decl :=
  [MkIndexDecl "idx_streams_link_id" "rtpmon_streams" ["link_id"];
   MkIndexDecl "idx_streams_agent_id" "rtpmon_streams" ["agent_id"];
   MkIndexDecl "idx_streams_sip_callid" "rtpmon_streams" ["sip_callid"];
   MkIndexDecl "idx_intervals_link_id" "rtpmon_intervals" ["link_id"];
   MkIndexDecl "idx_intervals_stream_id" "rtpmon_intervals" ["stream_id"];
   MkIndexDecl "idx_statistics_stream_id" "rtpmon_statistics" ["stream_id"];
   MkIndexDecl "idx_intervals_end_timestamp" "rtpmon_intervals" ["end_timestamp"];
   MkIndexDecl "idx_statistics_link_id" "rtpmon_statistics" ["link_id"];
   MkIndexDecl "idx_statistics_end_timestamp" "rtpmon_statistics" ["end_timestamp"];
   MkIndexDecl "idx_statistics_summary" "rtpmon_statistics"
     ["end_timestamp"; "sevana_mos"; "sevana_rfactor"; "network_mos"; "duration_audio"; "stream_id"];
   MkIndexDecl "idx_statistics_start_timestamp" "rtpmon_statistics" ["start_timestamp"];
   MkIndexDecl "idx_sip_events_call_id" "rtpmon_sip_events" ["call_id"];
   MkIndexDecl "idx_sip_events_event_timestamp" "rtpmon_sip_events" ["event_timestamp"];
   MkIndexDecl "idx_sip_events_event_type" "rtpmon_sip_events" ["event_type"];
   MkIndexDecl "idx_call_health_call_id" "rtpmon_call_health" ["call_id"];
   MkIndexDecl "idx_call_health_event_timestamp" "rtpmon_call_health" ["event_timestamp"];
   MkIndexDecl "idx_alarm_events_event_timestamp" "rtpmon_alarm_events" ["event_timestamp"];
   MkIndexDecl "idx_audio_stream_id" "rtpmon_audio" ["stream_id"];
   MkIndexDecl "idx_audio_start_timestamp" "rtpmon_audio" ["start_timestamp"]].

(** * The engine *)

(** The tables and indexes that exist. *)
Record schema := MkSchema { tables : list (string * list column); indexes : list string }.

Definition has_column (c : string) (cols : list column) : bool := bool_decide (is_Some (mlookup c cols)).

Definition column_of (s : schema) (table c : string) : bool := has_column c (default [] (mlookup table (tables s))).

(** The effect of a statement; [None] is an error of the statement itself. *)
Definition effect (stmt : ddl) (s : schema) : option schema :=
  match stmt with
  | CreateTable t =>
      match mlookup (t_name t) (tables s) with
      | Some _ => Some s
      | None => Some (MkSchema (tables s ++ [(t_name t, t_columns t)]) (indexes s))
      end
  | CreateIndex x =>
      if bool_decide (x_name x ∈ indexes s) then Some s
      else if forallb (column_of s (x_table x)) (x_columns x)
      then Some (MkSchema (tables s) (indexes s ++ [x_name x])) else None
  | AddColumn table c =>
      match mlookup table (tables s) with
      | Some cols =>
          if has_column c.1 cols then None
          else Some (MkSchema ((fun '(n, cs) => if String.eqb n table then (n, cs ++ [c]) else (n, cs)) <$> tables s) (indexes s))
      | None => None
      end
  end.

(** A connection: its schema and the faults of its coming calls. *)
Record ddl_conn := MkDdlConn { cn_schema : schema; cn_faults : faults }.

Definition next_fault (c : ddl_conn) : option db_error * ddl_conn :=
  match cn_faults c with
  | [] => (None, c)
  | f :: fs => (f, MkDdlConn (cn_schema c) fs)
  end.

Definition bad_statement : db_error := SqliteError 1.

(** [conn.Exec]. *)
Definition exec_ddl (stmt : ddl) (c : ddl_conn) : res db_error unit * ddl_conn :=
  match next_fault c with
  | (Some e, c) => (Err e, c)
  | (None, c) =>
      match effect stmt (cn_schema c) with
      | Some s => (Ok tt, MkDdlConn s (cn_faults c))
      | None => (Err bad_statement, c)
      end
  end.

(** [tableColumns]: [PRAGMA table_info], without rows for a table that does not
    exist; the query, or reading its rows, may fail. *)
Definition tableColumns (table : string) (c : ddl_conn) : res db_error (list string) * ddl_conn :=
  match next_fault c with
  | (Some e, c) => (Err e, c)
  | (None, c) => (Ok (default [] (mlookup table (tables (cn_schema c)))).*1, c)
  end.

(** * Bootstrap *)

Abbreviation D A := (ddl_conn -> res db_error A * ddl_conn).

Definition dret {A} (a : A) : D A := fun c => (Ok a, c).
Definition dbind {A B} (m : D A) (k : A -> D B) : D B :=
  fun c => match m c with (Ok a, c) => k a c | (Err e, c) => (Err e, c) end.
Notation "'let@' x ':=' m 'in' k" := (dbind m (fun x => k)) (at level 10, x pattern, m at level 100, k at level 200) : go_scope.

(** A loop that ends at the first error. *)
Fixpoint each {A} (f : A -> D unit) (l : list A) : D unit :=
  match l with
  | [] => dret tt
  | x :: l => let@ _ := f x in each f l
  end.

Definition added : list column := [("dtx_sid", "INTEGER"); ("dtx_count", "INTEGER"); ("dtx_total", "INTEGER")].

Definition add_missing (table : string) (existing : list string) (a : column) : D unit :=
  if existsb (String.eqb a.1) existing then dret tt else exec_ddl (AddColumn table a).

Definition migrate_table (added : list column) (table : string) : D unit :=
  let@ existing := tableColumns table in each (add_missing table existing) added.

Definition migrate : D unit :=
  let@ _ := each (migrate_table added) ["rtpmon_intervals"; "rtpmon_statistics"] in
  migrate_table [("created_ts", "INTEGER")] "rtpmon_streams".

Definition Bootstrap : D unit :=
  let@ _ := each (fun t => exec_ddl (CreateTable t)) createTableStmts in
  let@ _ := each (fun x => exec_ddl (CreateIndex x)) createIndexStmts in
  migrate.

(** * What Bootstrap does to an old database *)

(** The columns that later versions added. *)
Definition migrated : list (string * string) :=
  ((fun a : column => ("rtpmon_intervals", a.1)) <$> added) ++
  ((fun a : column => ("rtpmon_statistics", a.1)) <$> added) ++ [("rtpmon_streams", "created_ts")].

(** A database of an earlier version, or none yet: its tables have the declared
    columns, those that were added later perhaps excepted. *)
Definition compatible (s : schema) : Prop :=
  forall t cols, t ∈ createTableStmts -> mlookup (t_name t) (tables s) = Some cols ->
  forall c, c ∈ (t_columns t).*1 -> c ∈ cols.*1 \/ (t_name t, c) ∈ migrated.

(** Nothing is lost: the tables keep their columns in place, the indexes stay. *)
Definition grows (s s' : schema) : Prop :=
  (forall table cols, mlookup table (tables s) = Some cols ->
     exists more, mlookup table (tables s') = Some (cols ++ more)) /\
  (forall x, x ∈ indexes s -> x ∈ indexes s').

(** Everything declared is there. *)
Definition complete (s : schema) : Prop :=
  (forall t, t ∈ createTableStmts ->
     exists cols, mlookup (t_name t) (tables s) = Some cols /\ forall c, c ∈ (t_columns t).*1 -> c ∈ cols.*1) /\
  (forall x, x ∈ createIndexStmts -> x_name x ∈ indexes s).

Definition calm (fs : faults) : Prop := Forall (fun f => f = None) fs.

Lemma grows_refl s : grows s s.
Proof. split; [|done]. intros table cols H. exists []. by rewrite app_nil_r. Qed.

Lemma grows_trans s s' s'' : grows s s' -> grows s' s'' -> grows s s''.
Proof.
  intros [Ht Hx] [Ht' Hx']. split; [|auto]. intros table cols H. destruct (Ht _ _ H) as [m1 H1].
  destruct (Ht' _ _ H1) as [m2 H2]. exists (m1 ++ m2). by rewrite app_assoc.
Qed.

Lemma mlookup_in {V} k (l : list (string * V)) : k ∈ l.*1 <-> is_Some (mlookup k l).
Proof.
  split; [intros H; by destruct (mlookup_elem_Some k l H) as [v ->]|]. intros [v H%mlookup_Some_elem].
  apply list_elem_of_fmap. by exists (k, v).
Qed.

Lemma has_column_in c cols : has_column c cols = true <-> c ∈ cols.*1.
Proof. unfold has_column. by rewrite bool_decide_eq_true, mlookup_in. Qed.

(** ** A statement *)

Lemma mlookup_append table c (l : list (string * list column)) name :
  mlookup name ((fun '(n, cs) => if String.eqb n table then (n, cs ++ [c]) else (n, cs)) <$> l) =
  (fun cs => if String.eqb name table then cs ++ [c] else cs) <$> mlookup name l.
Proof.
  induction l as [|[n cs] l IH]; [done|]. rewrite fmap_cons. destruct (String.eqb_spec n table) as [->|Hn]; rewrite !mlookup_cons, IH.
  - by destruct (String.eqb_spec name table).
  - destruct (String.eqb_spec name n) as [->|]; [|done]. cbn. by destruct (String.eqb_spec n table).
Qed.

Definition declared (stmt : ddl) : Prop := match stmt with CreateTable t => t ∈ createTableStmts | _ => True end.

Lemma table_names_unique t t' : t ∈ createTableStmts -> t' ∈ createTableStmts -> t_name t = t_name t' -> t = t'.
Proof.
  intros Ht Ht' E. unfold createTableStmts in Ht, Ht'. rewrite !elem_of_cons, elem_of_nil in Ht, Ht'.
  repeat destruct Ht as [->|Ht]; try done; repeat destruct Ht' as [->|Ht']; done.
Qed.

Lemma effect_grows stmt s s' : effect stmt s = Some s' -> grows s s'.
Proof.
  destruct stmt as [t|x|table c]; cbn.
  - destruct (mlookup (t_name t) (tables s)) as [cols|] eqn:E; intros [= <-]; [apply grows_refl|]. split; [|done].
    intros table cs Hc. exists []. cbn. by rewrite mlookup_app, Hc, app_nil_r.
  - case_match; [intros [= <-]; apply grows_refl|]. destruct (forallb _ _); [|done]. intros [= <-]. split.
    + intros table cols H'. exists []. by rewrite app_nil_r.
    + intros y Hy. cbn. apply elem_of_app. by left.
  - destruct (mlookup table (tables s)) as [cols|] eqn:E; [|done]. destruct (has_column _ _); [done|]. intros [= <-]. split; [|done].
    intros name cs Hc. cbn. rewrite mlookup_append, Hc. cbn. destruct (String.eqb name table); [by exists [c]|].
    exists []. by rewrite app_nil_r.
Qed.

Lemma effect_compatible stmt s s' : declared stmt -> compatible s -> effect stmt s = Some s' -> compatible s'.
Proof.
  intros Hd Hs He t cols Ht Hl c Hc. pose proof (effect_grows _ _ _ He) as [Hg _].
  destruct (mlookup (t_name t) (tables s)) as [old|] eqn:Eo.
  - destruct (Hg _ _ Eo) as [more Hm]. rewrite Hl in Hm. injection Hm as ->.
    destruct (Hs t old Ht Eo c Hc) as [Hin|Hin]; [left|by right]. rewrite fmap_app. apply elem_of_app. by left.
  - left. destruct stmt as [t'|x|table a]; cbn in He.
    + destruct (mlookup (t_name t') (tables s)) eqn:E; injection He as <-; [congruence|]. cbn in Hl.
      rewrite mlookup_app, Eo, mlookup_cons in Hl. destruct (String.eqb_spec (t_name t) (t_name t')) as [En|]; [|done].
      injection Hl as <-. by rewrite <- (table_names_unique t t' Ht Hd En).
    + repeat case_match; simplify_eq/=; congruence.
    + destruct (mlookup table (tables s)) eqn:E; [|done]. destruct (has_column _ _); [done|]. injection He as <-. cbn in Hl.
      by rewrite mlookup_append, Eo in Hl.
Qed.

(** ** Programs of statements

    [spec P m Q]: on a compatible schema where [P] holds, [m] loses nothing,
    whatever fails; on success [Q] holds; and without faults it succeeds. *)
Definition spec {A} (P : schema -> Prop) (m : D A) (Q : A -> schema -> Prop) : Prop :=
  forall c, compatible (cn_schema c) -> P (cn_schema c) ->
    let '(r, c') := m c in
    compatible (cn_schema c') /\ grows (cn_schema c) (cn_schema c') /\
    (forall a, r = Ok a -> Q a (cn_schema c')) /\
    (calm (cn_faults c) -> is_ok r = true /\ calm (cn_faults c')).

Definition stable (P : schema -> Prop) : Prop := forall s s', grows s s' -> P s -> P s'.

Lemma spec_ret {A} P (a : A) : spec P (dret a) (fun _ s => P s).
Proof. intros c Hc HP. cbn. split_and!; [done|apply grows_refl|done|done]. Qed.

Lemma spec_bind {A B} P (m : D A) Q (k : A -> D B) R :
  spec P m Q -> (forall a, spec (Q a) (k a) R) -> spec P (dbind m k) R.
Proof.
  intros Hm Hk c Hc HP. specialize (Hm c Hc HP). unfold dbind. destruct (m c) as [[a|e] c1]; cycle 1.
  { destruct Hm as (H1 & H2 & _ & H4). split_and!; [done|done|done|]. intros Hf. by destruct (H4 Hf). }
  destruct Hm as (H1 & H2 & H3 & H4). specialize (Hk a c1 H1 (H3 a eq_refl)). destruct (k a c1) as [r c2].
  destruct Hk as (K1 & K2 & K3 & K4). split_and!; [done|by eapply grows_trans|done|]. intros Hf. apply K4. by apply H4.
Qed.

Lemma spec_weaken {A} (P P' : schema -> Prop) (m : D A) (Q Q' : A -> schema -> Prop) :
  (forall s, compatible s -> P' s -> P s) -> (forall a s, compatible s -> Q a s -> Q' a s) -> spec P m Q -> spec P' m Q'.
Proof.
  intros HP HQ Hm c Hc Hc'. specialize (Hm c Hc (HP _ Hc Hc')). destruct (m c) as [r c1].
  destruct Hm as (? & ? & ? & ?). split_and!; auto.
Qed.

Lemma spec_frame {A} F P (m : D A) Q : stable F -> spec P m Q -> spec (fun s => F s /\ P s) m (fun a s => F s /\ Q a s).
Proof.
  intros HF Hm c Hc [Hf HP]. specialize (Hm c Hc HP). destruct (m c) as [r c1]. destruct Hm as (? & ? & ? & ?).
  split_and!; [done|done| |done]. intros a Ha. split; [|auto]. by eapply HF.
Qed.

Lemma spec_each {A} P (f : A -> D unit) l (Q : A -> schema -> Prop) : stable P -> (forall x, stable (Q x)) ->
  (forall x, x ∈ l -> spec P (f x) (fun _ => Q x)) -> spec P (each f l) (fun _ s => P s /\ Forall (fun x => Q x s) l).
Proof.
  intros HP HQ Hf. induction l as [|x l IH]; cbn [each].
  { apply (spec_weaken P P _ (fun _ => P)); [done|auto|apply spec_ret]. }
  apply (spec_bind P _ (fun _ s => P s /\ Q x s)).
  - apply (spec_weaken (fun s => P s /\ P s) P _ (fun _ s => P s /\ Q x s)); [auto|auto|].
    apply spec_frame; [done|]. apply Hf. in_list.
  - intros _. apply (spec_weaken (fun s => Q x s /\ P s) _ _ (fun _ s => Q x s /\ (P s /\ Forall (fun x => Q x s) l))).
    + intros s _ [Hs Hq]. by split.
    + intros _ s _ (Hq & Hs & Hl). split; [done|]. by constructor.
    + apply spec_frame; [done|]. apply IH. intros y Hy. apply Hf. by apply list_elem_of_further.
Qed.

(** One statement: what it needs to be accepted, what it leaves. *)
Lemma spec_exec stmt P Q : declared stmt ->
  (forall s, compatible s -> P s -> is_Some (effect stmt s)) -> (forall s s', P s -> effect stmt s = Some s' -> Q s') ->
  spec P (exec_ddl stmt) (fun _ => Q).
Proof.
  intros Hd Hok HQ [s fs] Hc HP. unfold exec_ddl, next_fault. cbn in *. destruct fs as [|[e|] fs]; cbn.
  2: { split_and!; [done|apply grows_refl|done|]. intros Hf. apply Forall_cons in Hf as [Hf _]. discriminate. }
  all: destruct (effect stmt s) as [s'|] eqn:E; [|by destruct (Hok s Hc HP) as [? Hx]; rewrite E in Hx]; cbn.
  all: pose proof (effect_compatible stmt s s' Hd Hc E); pose proof (effect_grows stmt s s' E); pose proof (HQ s s' HP E).
  all: split; [done|]; split; [done|]; split; [done|]; intros Hf; split; [done|]; try done.
  by apply Forall_cons in Hf as [_ Hf].
Qed.

(** ** The three parts of Bootstrap *)

Definition exists_table (t : table_decl) (s : schema) : Prop := is_Some (mlookup (t_name t) (tables s)).
Definition all_tables (s : schema) : Prop := Forall (fun t => exists_table t s) createTableStmts.
Definition has_added (table : string) (adds : list column) (s : schema) : Prop :=
  exists cols, mlookup table (tables s) = Some cols /\ forall a, a ∈ adds -> a.1 ∈ cols.*1.

Lemma exists_table_stable t : stable (exists_table t).
Proof. intros s s' [Hg _] [cols H]. destruct (Hg _ _ H) as [more Hm]. by eexists. Qed.

Lemma all_tables_stable : stable all_tables.
Proof. intros s s' Hg H. eapply Forall_impl; [exact H|]. intros t. by apply exists_table_stable. Qed.

Lemma has_added_stable table adds : stable (has_added table adds).
Proof.
  intros s s' [Hg _] (cols & H & Ha). destruct (Hg _ _ H) as [more Hm]. exists (cols ++ more). split; [done|].
  intros a Hin. rewrite fmap_app. apply elem_of_app. left. by apply Ha.
Qed.

Lemma index_stable x : stable (fun s => x_name x ∈ indexes s).
Proof. intros s s' [_ Hx] H. by apply Hx. Qed.

Lemma spec_tables : spec (fun _ => True) (each (fun t => exec_ddl (CreateTable t)) createTableStmts) (fun _ => all_tables).
Proof.
  apply (spec_weaken (fun _ => True) _ _ (fun _ s => True /\ all_tables s)); [done|by intros _ s _ [_ ?]|].
  apply (spec_each _ _ _ exists_table); [done|apply exists_table_stable|]. intros t Ht.
  apply spec_exec; [done|..]; unfold exists_table; cbn.
  - intros s _ _. by destruct (mlookup (t_name t) (tables s)).
  - intros s s' _. destruct (mlookup (t_name t) (tables s)) as [cols|] eqn:E; intros [= <-]; [by rewrite E|].
    cbn. rewrite mlookup_app, E, mlookup_cons, String.eqb_refl. by eexists.
Qed.

(** An index covers columns of a declared table that every version had. *)
Definition index_ok (x : index_decl) : bool :=
  existsb (fun t => String.eqb (x_table x) (t_name t) &&
    forallb (fun c => bool_decide (c ∈ (t_columns t).*1) && negb (bool_decide ((x_table x, c) ∈ migrated))) (x_columns x))
    createTableStmts.

Lemma indexes_ok : forallb index_ok createIndexStmts = true.
Proof. vm_compute. reflexivity. Qed.

Lemma spec_indexes : spec all_tables (each (fun x => exec_ddl (CreateIndex x)) createIndexStmts)
  (fun _ s => all_tables s /\ Forall (fun x => x_name x ∈ indexes s) createIndexStmts).
Proof.
  apply spec_each; [apply all_tables_stable|apply index_stable|]. intros x Hx.
  pose proof indexes_ok as Hok. rewrite forallb_forall in Hok. specialize (Hok x (proj1 (list_elem_of_In _ _) Hx)).
  unfold index_ok in Hok. apply existsb_exists in Hok as (t & Ht%list_elem_of_In & Hc).
  apply andb_true_iff in Hc as [Hn%String.eqb_eq Hc]. rewrite forallb_forall in Hc.
  apply spec_exec; [done|..]; cbn.
  - intros s Hs Ha. destruct (bool_decide _); [by eexists|]. enough (forallb (column_of s (x_table x)) (x_columns x) = true) as -> by by eexists.
    apply forallb_forall. intros c Hin. specialize (Hc c Hin). apply andb_true_iff in Hc as [Hc Hm].
    apply bool_decide_eq_true in Hc. apply negb_true_iff, bool_decide_eq_false in Hm.
    unfold all_tables in Ha. rewrite Forall_forall in Ha. destruct (Ha t Ht) as [cols Hl].
    unfold column_of. rewrite Hn, Hl. cbn. apply has_column_in. destruct (Hs t cols Ht Hl c Hc); [done|]. by rewrite <- Hn in *.
  - intros s s' _. destruct (bool_decide_reflect (x_name x ∈ indexes s)) as [H|H]; [by intros [= <-]|].
    destruct (forallb _ _); [|done]. intros [= <-]. cbn. apply elem_of_app. right. in_list.
Qed.

(** The columns of a table: those it had, and those that were added since. *)
Definition columns_are (table : string) (existing done : list string) (s : schema) : Prop :=
  exists cols, mlookup table (tables s) = Some cols /\ forall c, c ∈ cols.*1 <-> c ∈ existing \/ c ∈ done.

Lemma spec_add_missing table existing done a : a.1 ∉ done ->
  spec (columns_are table existing done) (add_missing table existing a) (fun _ => columns_are table existing (done ++ [a.1])).
Proof.
  intros Hd. unfold add_missing. destruct (existsb _ existing) eqn:E.
  - apply (spec_weaken (columns_are table existing done) _ _ (fun _ => columns_are table existing done)); [auto| |apply spec_ret].
    apply existsb_exists in E as (c & Hin%list_elem_of_In & Ec%String.eqb_eq). subst c.
    intros _ s _ (cols & Hl & Hc). exists cols. split; [exact Hl|]. intros c. rewrite Hc, elem_of_app, list_elem_of_singleton.
    split; [tauto|]. intros [?|[?| ->]]; auto.
  - assert (a.1 ∉ existing) as He.
    { intros Hin. apply not_true_iff_false in E. apply E. apply existsb_exists. exists a.1. split; [by apply list_elem_of_In|apply String.eqb_refl]. }
    apply spec_exec; [exact I|..]; cbn.
    + intros s _ (cols & -> & Hc). destruct (has_column a.1 cols) eqn:Eh; [|by eexists].
      apply has_column_in in Eh. apply Hc in Eh. tauto.
    + intros s s' (cols & Hl & Hc). rewrite Hl. destruct (has_column _ _); [discriminate|]. intros [= <-].
      exists (cols ++ [a]). cbn. rewrite mlookup_append, Hl, String.eqb_refl. split; [reflexivity|].
      intros c. rewrite fmap_app, !elem_of_app, Hc. cbn. rewrite !list_elem_of_singleton. tauto.
Qed.

Lemma spec_added table existing todo : forall done, NoDup (done ++ todo.*1) ->
  spec (columns_are table existing done) (each (add_missing table existing) todo)
    (fun _ => columns_are table existing (done ++ todo.*1)).
Proof.
  induction todo as [|a todo IH]; intros done Hn; cbn [each fmap list_fmap].
  { rewrite app_nil_r. apply spec_ret. }
  apply (spec_bind _ _ (fun _ => columns_are table existing (done ++ [a.1]))).
  - apply spec_add_missing. apply NoDup_app in Hn as (_ & Hd & _). intros Hin. apply (Hd _ Hin). in_list.
  - intros _. specialize (IH (done ++ [a.1])). rewrite <- app_assoc in IH. apply IH. exact Hn.
Qed.

Lemma spec_migrate_table table adds : NoDup adds.*1 ->
  spec (fun s => is_Some (mlookup table (tables s))) (migrate_table adds table) (fun _ => has_added table adds).
Proof.
  intros Hn. apply (spec_bind _ _ (fun existing => columns_are table existing [])).
  - intros [s fs] Hc [cols Hl]. unfold tableColumns, next_fault. cbn in *. destruct fs as [|[e|] fs]; cbn.
    2: { split; [done|]. split; [apply grows_refl|]. split; [done|]. intros Hf. apply Forall_cons in Hf as [Hf _]. discriminate. }
    all: split; [done|]; split; [apply grows_refl|]; split; [|intros Hf; split; [done|]; try done; by apply Forall_cons in Hf as [_ Hf]].
    all: intros l [= <-]; exists cols; split; [done|]; intros c; rewrite Hl; cbn; set_solver.
  - intros existing. apply (spec_weaken (columns_are table existing []) _ _ (fun _ => columns_are table existing ([] ++ adds.*1)));
      [auto| |by apply spec_added].
    intros _ s _ (cols & Hl & Hc). exists cols. split; [exact Hl|]. intros a Ha. apply Hc. right. by apply list_elem_of_fmap_2.
Qed.

Definition report_tables : list string := ["rtpmon_intervals"; "rtpmon_statistics"].
Definition all_indexes (s : schema) : Prop := Forall (fun x => x_name x ∈ indexes s) createIndexStmts.

(** Every migrated column is there. *)
Definition all_added (s : schema) : Prop :=
  Forall (fun table => has_added table added s) report_tables /\ has_added "rtpmon_streams" [("created_ts", "INTEGER")] s.

Lemma declared_table s name : all_tables s -> name ∈ t_name <$> createTableStmts -> is_Some (mlookup name (tables s)).
Proof. intros Ha (t & -> & Ht)%list_elem_of_fmap. unfold all_tables in Ha. rewrite Forall_forall in Ha. by apply Ha. Qed.

Lemma spec_migrate : spec all_tables migrate (fun _ s => all_tables s /\ all_added s).
Proof.
  assert (NoDup added.*1) as Hn by (vm_compute; repeat constructor; set_solver).
  apply (spec_bind _ _ (fun _ s => all_tables s /\ Forall (fun table => has_added table added s) report_tables)).
  - apply spec_each; [apply all_tables_stable|intros; apply has_added_stable|]. intros table Ht.
    apply (spec_weaken (fun s => is_Some (mlookup table (tables s))) _ _ (fun _ => has_added table added)); [|done|by apply spec_migrate_table].
    intros s _ Ha. apply declared_table; [done|]. unfold report_tables in Ht. rewrite !elem_of_cons, elem_of_nil in Ht. destruct Ht as [->|[->|[]]]; cbn; in_list.
  - intros _.
    apply (spec_weaken (fun s => (all_tables s /\ Forall (fun table => has_added table added s) report_tables) /\
                                 is_Some (mlookup "rtpmon_streams" (tables s))) _ _
      (fun _ s => (all_tables s /\ Forall (fun table => has_added table added s) report_tables) /\
                  has_added "rtpmon_streams" [("created_ts", "INTEGER")] s)).
    + intros s _ [Ha Hr]. split; [done|]. apply declared_table; [done|]. cbn. in_list.
    + intros _ s _ [[Ha Hr] Hc]. by repeat split.
    + apply spec_frame; [|by apply spec_migrate_table; constructor; [apply not_elem_of_nil|constructor]].
      intros s s' Hg [Ha Hr]. split; [by eapply all_tables_stable|]. eapply Forall_impl; [exact Hr|].
      intros table. by apply has_added_stable.
Qed.

Lemma all_complete s : compatible s -> all_tables s -> all_added s -> all_indexes s -> complete s.
Proof.
  intros Hc Ha [Hr Hs] Hx. split; [|by apply Forall_forall].
  intros t Ht. unfold all_tables in Ha. rewrite Forall_forall in Ha. destruct (Ha t Ht) as [cols Hl]. exists cols. split; [done|].
  intros c Hin. destruct (Hc t cols Ht Hl c Hin) as [|Hm]; [done|]. unfold migrated in Hm. rewrite !elem_of_app in Hm.
  rewrite Forall_forall in Hr.
  assert (forall adds a, has_added (t_name t) adds s -> a ∈ adds -> a.1 ∈ cols.*1) as Hg.
  { intros adds a (cols' & Hl' & Hadd) Hin'. rewrite Hl in Hl'. injection Hl' as <-. by apply Hadd. }
  destruct Hm as [(a & E & Hadd)%list_elem_of_fmap|[(a & E & Hadd)%list_elem_of_fmap|E%list_elem_of_singleton]]; injection E as En ->.
  - apply (Hg added); [rewrite En; apply Hr; in_list|done].
  - apply (Hg added); [rewrite En; apply Hr; in_list|done].
  - apply (Hg [("created_ts", "INTEGER")] ("created_ts", "INTEGER")); [by rewrite En|in_list].
Qed.

Lemma spec_Bootstrap : spec (fun _ => True) Bootstrap (fun _ => complete).
Proof.
  apply (spec_bind _ _ (fun _ => all_tables)); [exact spec_tables|]. intros _.
  apply (spec_bind _ _ (fun _ s => all_tables s /\ all_indexes s)); [exact spec_indexes|]. intros _.
  apply (spec_weaken (fun s => all_indexes s /\ all_tables s) _ _ (fun _ s => all_indexes s /\ all_tables s /\ all_added s)).
  - intros s _ [? ?]. by split.
  - intros _ s Hc (Hx & Ha & Hadd). by apply all_complete.
  - apply spec_frame; [|exact spec_migrate]. intros s s' Hg Hx. eapply Forall_impl; [exact Hx|]. intros x. by apply index_stable.
Qed.

(** ** A complete schema stays as it is *)

Definition idle {A} (s : schema) (m : D A) : Prop := forall c, cn_schema c = s -> cn_schema (m c).2 = s.

Lemma idle_bind {A B} s (m : D A) (k : A -> D B) :
  idle s m -> (forall c a c', cn_schema c = s -> m c = (Ok a, c') -> idle s (k a)) -> idle s (dbind m k).
Proof.
  intros Hm Hk c Hc. specialize (Hm c Hc). unfold dbind. destruct (m c) as [[a|e] c'] eqn:E; [|done].
  by apply (Hk c a c').
Qed.

Lemma idle_each {A} s (f : A -> D unit) l : (forall x, x ∈ l -> idle s (f x)) -> idle s (each f l).
Proof.
  induction l as [|x l IH]; intros Hf; cbn [each]; [by intros c Hc|]. apply idle_bind; [apply Hf; in_list|].
  intros c a c' _ _. apply IH. intros y Hy. apply Hf. by apply list_elem_of_further.
Qed.

Lemma idle_exec s stmt : effect stmt s = Some s -> idle s (exec_ddl stmt).
Proof.
  intros He [s' fs] Hc. cbn in Hc. subst s'. unfold exec_ddl, next_fault. cbn. destruct fs as [|[e|] fs]; cbn; by rewrite ?He.
Qed.

Lemma idle_migrate s table adds : has_added table adds s -> idle s (migrate_table adds table).
Proof.
  intros (cols & Hl & Ha). apply idle_bind.
  - intros [s' fs] Hc. unfold tableColumns, next_fault. cbn in *. by destruct fs as [|[e|] fs].
  - intros [s' fs] l c' Hc Ht. cbn in Hc. subst s'. assert (l = cols.*1) as ->.
    { unfold tableColumns, next_fault in Ht. cbn in Ht. destruct fs as [|[e|] fs]; cbn in Ht; try rewrite Hl in Ht; cbn in Ht; congruence. }
    apply idle_each. intros a Hin. unfold add_missing.
    assert (existsb (String.eqb a.1) cols.*1 = true) as ->; [|by intros c Hc].
    apply existsb_exists. exists a.1. split; [by apply list_elem_of_In, Ha|apply String.eqb_refl].
Qed.

Lemma idle_Bootstrap s : complete s -> idle s Bootstrap.
Proof.
  intros [Ht Hx].
  assert (forall table adds, (exists t, t ∈ createTableStmts /\ t_name t = table /\ forall a, a ∈ adds -> a.1 ∈ (t_columns t).*1) ->
    has_added table adds s) as Hadd.
  { intros table adds (t & Hin & <- & Hc). destruct (Ht t Hin) as (cols & Hl & Hcols). exists cols. split; [done|]. auto. }
  apply idle_bind; [|intros _ _ _ _ _; apply idle_bind; [|intros _ _ _ _ _; apply idle_bind; [|intros _ _ _ _ _]]].
  - apply idle_each. intros t Hin. apply idle_exec. cbn. by destruct (Ht t Hin) as (cols & -> & _).
  - apply idle_each. intros x Hin. apply idle_exec. cbn. by rewrite bool_decide_eq_true_2 by auto.
  - apply idle_each. intros table Hin. apply idle_migrate, Hadd. rewrite !elem_of_cons, elem_of_nil in Hin.
    destruct Hin as [->|[->|[]]]; [exists (reportTableDDL "rtpmon_intervals")|exists (reportTableDDL "rtpmon_statistics")];
      (split; [unfold createTableStmts; in_list|]); (split; [reflexivity|]); intros a Ha; apply list_elem_of_fmap_2;
      unfold added in Ha; rewrite !elem_of_cons, elem_of_nil in Ha; destruct Ha as [->|[->|[->|[]]]]; cbn; in_list.
  - apply idle_migrate, Hadd. eexists. split; [unfold createTableStmts; in_list|]. split; [reflexivity|].
    intros a ->%list_elem_of_singleton. cbn. in_list.
Qed.

(** C22. Opening a database.  On a database of any earlier version, or an empty
    one, and whatever statements fail: nothing that exists is lost and the
    database stays one that a later start can bring up to date; a start that
    reports success has every declared table, column and index; without faults
    it does succeed; and a database that is up to date is left as it is. *)
Theorem Bootstrap_completes s fs (Hs : compatible s) :
  let '(r, c) := Bootstrap (MkDdlConn s fs) in
  compatible (cn_schema c) /\ grows s (cn_schema c) /\ (r = Ok tt -> complete (cn_schema c)) /\
  (calm fs -> r = Ok tt) /\ (complete s -> cn_schema c = s).
Proof.
  pose proof (spec_Bootstrap (MkDdlConn s fs) Hs I) as H.
  assert (complete s -> cn_schema (Bootstrap (MkDdlConn s fs)).2 = s) as Hi by (intros Hc; by apply idle_Bootstrap).
  destruct (Bootstrap _) as [r c]. destruct H as (Hc & Hg & Hq & Hok). split; [exact Hc|]. split; [exact Hg|].
  split; [intros E; by apply (Hq tt)|]. split; [|exact Hi]. intros Hf. destruct (Hok Hf) as [Hr _]. by destruct r as [[]|e].
Qed.

(** Compatibility can be computed. *)
Definition compatible_b (s : schema) : bool :=
  forallb (fun t =>
    match mlookup (t_name t) (tables s) with
    | Some cols => forallb (fun c => bool_decide (c ∈ cols.*1) || bool_decide ((t_name t, c) ∈ migrated)) (t_columns t).*1
    | None => true
    end) createTableStmts.

Lemma compatible_b_sound s : compatible_b s = true -> compatible s.
Proof.
  unfold compatible_b. rewrite forallb_forall. intros H t cols Ht%list_elem_of_In Hl c Hc%list_elem_of_In.
  specialize (H t Ht). rewrite Hl, forallb_forall in H. specialize (H c Hc). apply orb_true_iff in H.
  by rewrite !bool_decide_eq_true in H.
Qed.

(** A database of a version without the DTX counters, on an engine that is busy
    in the middle of the first start. *)
Definition old_schema : schema :=
  MkSchema ((fun t => (t_name t, List.filter (fun c => negb (bool_decide ((t_name t, c.1) ∈ migrated))) (t_columns t))) <$>
            take 4 createTableStmts) [].

Lemma Bootstrap_completes_witness :
  let c1 := (Bootstrap (MkDdlConn old_schema (replicate 31 None ++ [Some (SqliteError 5)]))).2 in
  (Bootstrap (MkDdlConn old_schema (replicate 31 None ++ [Some (SqliteError 5)]))).1 = Err (SqliteError 5) /\
  column_of (cn_schema c1) "rtpmon_intervals" "dtx_count" = true /\
  column_of (cn_schema c1) "rtpmon_statistics" "dtx_count" = false /\
  complete (cn_schema (Bootstrap (MkDdlConn (cn_schema c1) [])).2).
Proof.
  intros c1.
  assert (compatible old_schema) as Hold.
  { apply compatible_b_sound. vm_compute. reflexivity. }
  pose proof (Bootstrap_completes old_schema (replicate 31 None ++ [Some (SqliteError 5)]) Hold) as H1.
  pose proof (fun Hs => Bootstrap_completes (cn_schema c1) [] Hs) as H2. unfold c1 in *.
  split; [vm_compute; reflexivity|]. split; [vm_compute; reflexivity|]. split; [vm_compute; reflexivity|].
  destruct (Bootstrap (MkDdlConn old_schema _)) as [r c]. cbn [snd] in *. destruct H1 as [Hc _]. specialize (H2 Hc).
  destruct (Bootstrap (MkDdlConn (cn_schema c) [])) as [r' c']. destruct H2 as (_ & _ & Hq & Hok & _). cbn [snd].
  apply Hq, Hok. constructor.
Defined.
