(* ===== verification/Subscriber.v ===== *)
(** The bus subscriber ([internal/bus/subscriber.go]): the goroutine that dials
    vq-core, subscribes and reconnects, and the reader goroutine of each
    connection that hands it one message at a time.

    The two goroutines, the callers of [Start] and [Stop], the socket library
    and the timers take turns: a run is a list of actions, and an action that is
    not possible in a state is [None].  The socket's operations return at their
    own time, with a result the environment chooses. *)

From S2P Require Import Prelude GoStrings.

(** * State *)

(** Where the subscriber's goroutine is; a socket is named by a number. *)
Inductive run_pc :=
| NotStarted
| AtTop                       (** about to look at the context *)
| Dialing (s : nat)
| Subscribing (s : nat)
| Polling (s : nat)           (** in the select of [pollLoop] *)
| Backoff (s : nat)           (** [pollLoop] sleeps after a receive error *)
| Closing (s : nat)           (** [pollLoop] has returned *)
| Sleeping                    (** [run] sleeps after a failed dial or subscribe *)
| Ended.                      (** [done] is closed *)

(** The reader goroutine of the connection. *)
Inductive reader_pc := NoReader | Receiving | Offering (frames : list string) | Exited.

(** What the callbacks were called with. *)
Inductive call := Message (frame : string) | IdleCall.

Section subscriber.
(** The callbacks, on the state they change; the flag is a panic. *)
Context {S : Type} (onMessage : string -> S -> S * bool) (onIdle : option (S -> S * bool)).

Record Subscriber := MkSubscriber {
  sub_started : bool; cancelled : bool; pc : run_pc; reader : reader_pc; recvErr : bool;
  open_sockets : list nat; next_socket : nat;
  received : list (list string);     (** every message the sockets gave, in order *)
  calls : list call; app : S
}.

Definition NewSubscriber (a : S) : Subscriber := MkSubscriber false false NotStarted NoReader false [] 0 [] [] a.

(** [safeOnMessage] and [safeOnIdle]: a panic is recovered. *)
Definition safeOnMessage (frame : string) (b : Subscriber) : Subscriber :=
  MkSubscriber (sub_started b) (cancelled b) (pc b) (reader b) (recvErr b) (open_sockets b) (next_socket b) (received b)
    (calls b ++ [Message frame]) (onMessage frame (app b)).1.
Definition safeOnIdle (b : Subscriber) : Subscriber :=
  match onIdle with
  | None => b
  | Some f =>
      MkSubscriber (sub_started b) (cancelled b) (pc b) (reader b) (recvErr b) (open_sockets b) (next_socket b) (received b)
        (calls b ++ [IdleCall]) (f (app b)).1
  end.

Definition at_pc (p : run_pc) (b : Subscriber) : Subscriber :=
  MkSubscriber (sub_started b) (cancelled b) p (reader b) (recvErr b) (open_sockets b) (next_socket b) (received b) (calls b) (app b).
Definition with_reader (r : reader_pc) (b : Subscriber) : Subscriber :=
  MkSubscriber (sub_started b) (cancelled b) (pc b) r (recvErr b) (open_sockets b) (next_socket b) (received b) (calls b) (app b).
Definition with_recvErr (e : bool) (b : Subscriber) : Subscriber :=
  MkSubscriber (sub_started b) (cancelled b) (pc b) (reader b) e (open_sockets b) (next_socket b) (received b) (calls b) (app b).
Definition with_received (m : list string) (b : Subscriber) : Subscriber :=
  MkSubscriber (sub_started b) (cancelled b) (pc b) (reader b) (recvErr b) (open_sockets b) (next_socket b)
    (received b ++ [m]) (calls b) (app b).
Definition close_socket (s : nat) (b : Subscriber) : Subscriber :=
  MkSubscriber (sub_started b) (cancelled b) (pc b) (reader b) (recvErr b) (List.filter (fun x => negb (x =? s)%nat) (open_sockets b))
    (next_socket b) (received b) (calls b) (app b).

(** * Actions *)

Inductive action :=
| Start | Stop
| CheckContext                        (** the loop condition of [run] *)
| Dialed (ok : bool) | Subscribed (ok : bool)
| Received (r : option (list string)) (** [sub.Recv] returns frames, or an error *)
| TakeFrames | Tick | SeeRecvErr | SeeDone  (** the cases of the select *)
| Wake                                (** a sleep is over, or the context *)
| CloseAfterPoll
| ReaderDone.                         (** the reader sees the context *)

Definition step (a : action) (b : Subscriber) : option Subscriber :=
  match a, pc b with
  | Start, NotStarted =>
      if sub_started b then None
      else Some (MkSubscriber true (cancelled b) AtTop (reader b) (recvErr b) (open_sockets b) (next_socket b) (received b) (calls b) (app b))
  | Start, _ => Some b                (* "already started" *)
  | Stop, _ =>
      Some (MkSubscriber (sub_started b) (cancelled b || sub_started b) (pc b) (reader b) (recvErr b) (open_sockets b) (next_socket b)
              (received b) (calls b) (app b))
  | CheckContext, AtTop =>
      if cancelled b then Some (at_pc Ended b)
      else
        let s := next_socket b in
        Some (MkSubscriber (sub_started b) (cancelled b) (Dialing s) (reader b) (recvErr b) (open_sockets b ++ [s]) (s + 1)
                (received b) (calls b) (app b))
  | Dialed ok, Dialing s => Some (if ok then at_pc (Subscribing s) b else at_pc Sleeping (close_socket s b))
  | Subscribed ok, Subscribing s =>
      Some (if ok then with_recvErr false (with_reader Receiving (at_pc (Polling s) b)) else at_pc Sleeping (close_socket s b))
  | Received r, _ =>
      match reader b, r with
      | Receiving, Some frames => Some (with_reader (Offering frames) (with_received frames b))
      | Receiving, None => Some (with_recvErr true (with_reader Exited b))
      | _, _ => None
      end
  | TakeFrames, Polling _ =>
      match reader b with
      | Offering frames =>
          let b := with_reader Receiving b in
          Some (safeOnIdle (match frames with f :: _ => safeOnMessage f b | [] => b end))
      | _ => None
      end
  | Tick, Polling _ => Some (safeOnIdle b)
  | SeeRecvErr, Polling s => if recvErr b then Some (at_pc (Backoff s) b) else None
  | SeeDone, Polling s => if cancelled b then Some (at_pc (Closing s) b) else None
  | Wake, Backoff s => Some (at_pc (Closing s) b)
  | Wake, Sleeping => Some (at_pc AtTop b)
  | CloseAfterPoll, Closing s => Some (at_pc AtTop (close_socket s b))
  | ReaderDone, _ =>
      match reader b with
      | Offering _ => if cancelled b then Some (with_reader Exited b) else None
      | _ => None
      end
  | _, _ => None
  end.

#[local] Instance action_eq_dec : EqDecision action.
Proof. solve_decision. Defined.

Fixpoint run (acts : list action) (b : Subscriber) : option Subscriber :=
  match acts with
  | [] => Some b
  | a :: acts => match step a b with Some b => run acts b | None => None end
  end.

(** * What is delivered *)

Definition frame_of (c : call) : option string := match c with Message f => Some f | IdleCall => None end.
Definition frames_given (b : Subscriber) : list string := omap frame_of (calls b).
Definition first_frames (ms : list (list string)) : list string := omap head ms.

(** The message the reader holds. *)
Definition pending (b : Subscriber) : list (list string) := match reader b with Offering m => [m] | _ => [] end.

(** The callbacks in the order of the calls. *)
Definition apply_call (c : call) (a : S) : S :=
  match c with
  | Message f => (onMessage f a).1
  | IdleCall => match onIdle with Some f => (f a).1 | None => a end
  end.

(** Every message is followed by the idle callback, when there is one. *)
Fixpoint idle_follows (cs : list call) : Prop :=
  match cs with
  | Message _ :: cs' => match cs' with IdleCall :: _ => idle_follows cs' | _ => onIdle = None /\ idle_follows cs' end
  | IdleCall :: cs' => idle_follows cs'
  | [] => True
  end.

(** The socket the goroutine holds at a place. *)
Definition held (p : run_pc) : list nat :=
  match p with
  | Dialing s | Subscribing s | Polling s | Backoff s | Closing s => [s]
  | NotStarted | AtTop | Sleeping | Ended => []
  end.

(** * Invariant *)

(** What the subscriber was given: [ms] is delivered, [rest] is not. *)
Definition delivery (b : Subscriber) (rest : list (list string)) : Prop :=
  exists ms, received b = ms ++ rest /\ frames_given b = first_frames ms.

Definition quiet (b : Subscriber) : Prop := (reader b = NoReader \/ reader b = Exited) /\ delivery b [].

(** Without an end of the context, messages are only outstanding while the
    goroutine polls. *)
Definition settled (b : Subscriber) : Prop :=
  match pc b with
  | NotStarted | Dialing _ | Subscribing _ | Sleeping | Backoff _ => quiet b
  | AtTop | Closing _ | Ended => quiet b \/ cancelled b = true
  | Polling _ => recvErr b = true -> quiet b
  end.

Definition outstanding (b : Subscriber) : Prop :=
  match reader b with
  | Offering m => delivery b [m]
  | NoReader | Receiving => delivery b []
  | Exited => delivery b [] \/ (cancelled b = true /\ exists m, delivery b [m])
  end.

Record sub_inv (a0 : S) (b : Subscriber) : Prop := {
  inv_sockets : open_sockets b = held (pc b);
  inv_app : app b = fold_left (fun a c => apply_call c a) (calls b) a0;
  inv_idle : idle_follows (calls b);
  inv_settled : settled b;
  inv_outstanding : outstanding b;
  inv_ended : pc b = Ended -> cancelled b = true;
  inv_cancelled : cancelled b = true -> sub_started b = true;
  inv_fresh : pc b = NotStarted -> sub_started b = false
}.

Lemma idle_follows_idle cs : idle_follows cs -> idle_follows (cs ++ [IdleCall]).
Proof. induction cs as [|[f|] cs IH]; cbn; [done| |done]. destruct cs as [|[g|] cs]; cbn; [done| |]; cbn in IH; tauto. Qed.

Lemma idle_follows_message cs f : idle_follows cs -> idle_follows (cs ++ [Message f; IdleCall]).
Proof. induction cs as [|[g|] cs IH]; cbn; [done| |done]. destruct cs as [|[h|] cs]; cbn in *; tauto. Qed.

Lemma idle_follows_none cs f : onIdle = None -> idle_follows cs -> idle_follows (cs ++ [Message f]).
Proof.
  intros Hn. induction cs as [|[g|] cs IH]; cbn; [done| |done]. destruct cs as [|[h|] cs]; cbn in *; tauto.
Qed.

Lemma fold_calls_app cs cs' a0 : fold_left (fun a c => apply_call c a) (cs ++ cs') a0 =
  fold_left (fun a c => apply_call c a) cs' (fold_left (fun a c => apply_call c a) cs a0).
Proof. apply fold_left_app. Qed.

(** The idle callback changes nothing but the calls and the state. *)
Lemma safeOnIdle_inv a0 b : sub_inv a0 b -> sub_inv a0 (safeOnIdle b).
Proof.
  unfold safeOnIdle. destruct onIdle as [f|] eqn:Ei; [|done].
  intros [H1 H2 H3 H4 H5 H6 H7 H8]. split; try done; cbn.
  - rewrite fold_calls_app, <- H2. cbn. by rewrite Ei.
  - by apply idle_follows_idle.
  - unfold settled, quiet, delivery, frames_given in *. cbn. rewrite omap_app. cbn. by rewrite app_nil_r.
  - unfold outstanding, delivery, frames_given in *. cbn. rewrite omap_app. cbn. by rewrite app_nil_r.
Qed.

(** A change of place, of the context or of the sockets leaves the deliveries
    alone. *)
Lemma delivery_same b b' rest : received b' = received b -> calls b' = calls b -> delivery b rest -> delivery b' rest.
Proof. unfold delivery, frames_given. by intros -> ->. Qed.

Lemma take_inv a0 b s frames : sub_inv a0 b -> pc b = Polling s -> reader b = Offering frames ->
  sub_inv a0 (safeOnIdle (match frames with f :: _ => safeOnMessage f (with_reader Receiving b) | [] => with_reader Receiving b end)).
Proof.
  intros [H1 H2 H3 H4 H5 H6 H7 H8] Hpc Hr. unfold settled in H4. rewrite Hpc in H4.
  assert (recvErr b = false) as He.
  { destruct (recvErr b); [|done]. destruct (H4 eq_refl) as [[Hx|Hx] _]; congruence. }
  unfold outstanding in H5. rewrite Hr in H5. destruct H5 as (ms & Hms & Hf).
  assert (forall cs, omap frame_of cs = option_list (head frames) -> delivery
    (MkSubscriber (sub_started b) (cancelled b) (pc b) Receiving (recvErr b) (open_sockets b) (next_socket b) (received b)
       (calls b ++ cs) (fold_left (fun a c => apply_call c a) cs (app b))) []) as Hd.
  { intros cs Hcs. exists (ms ++ [frames]). cbn. rewrite app_nil_r. split; [done|]. unfold frames_given, first_frames in *. cbn.
    rewrite !omap_app, Hf, Hcs. by destruct frames. }
  destruct frames as [|f fs]; cbn.
  - apply safeOnIdle_inv. specialize (Hd [] eq_refl). rewrite app_nil_r in Hd. split; cbn; try done.
    unfold settled. cbn. by rewrite Hpc, He.
  - unfold safeOnIdle. destruct onIdle as [g|] eqn:Ei.
    + specialize (Hd [Message f; IdleCall] eq_refl). cbn in Hd. rewrite Ei in Hd. split; cbn; try done.
      * rewrite <- app_assoc, fold_calls_app, <- H2. cbn. by rewrite Ei.
      * rewrite <- app_assoc. by apply idle_follows_message.
      * unfold settled. cbn. by rewrite Hpc, He.
      * unfold outstanding. cbn. by rewrite <- app_assoc.
    + specialize (Hd [Message f] eq_refl). cbn in Hd. split; cbn; try done.
      * by rewrite fold_calls_app, <- H2.
      * by apply idle_follows_none.
      * unfold settled. cbn. by rewrite Hpc, He.
Qed.

Lemma close_held s l : List.filter (fun x => negb (x =? s)%nat) (l ++ [s]) = List.filter (fun x => negb (x =? s)%nat) l.
Proof. rewrite List.filter_app. cbn. by rewrite Nat.eqb_refl, app_nil_r. Qed.

(** The reader is at work: then the goroutine polls, or the context has
    ended. *)
Lemma working a0 b : sub_inv a0 b -> reader b <> NoReader -> reader b <> Exited ->
  match pc b with Polling _ => recvErr b = false | AtTop | Closing _ | Ended => cancelled b = true | _ => False end.
Proof.
  intros [_ _ _ H4 _ _ _ _] Hn He. unfold settled in H4.
  assert (quiet b -> False) as Hq by (intros [[?|?] _]; congruence).
  destruct (pc b); try (by apply Hq); try (by destruct H4).
  destruct (recvErr b); [|done]. by destruct (Hq (H4 eq_refl)).
Qed.

(** What the reader does. *)
Lemma reader_inv a0 r b b' : sub_inv a0 b -> step (Received r) b = Some b' \/ step ReaderDone b = Some b' -> sub_inv a0 b'.
Proof.
  intros Hb Hs. pose proof (working a0 b Hb) as Hw. destruct Hb as [H1 H2 H3 H4 H5 H6 H7 H8]. unfold outstanding in H5. cbn in Hs.
  destruct (reader b) as [| |m|] eqn:Hr; [by destruct Hs| | |by destruct Hs]; specialize (Hw ltac:(done) ltac:(done)).
  - destruct Hs as [Hs|Hs]; [|done]. destruct r as [m|]; injection Hs as <-; (split; try done).
    + unfold settled. cbn. destruct (pc b); try done; try (by right). by rewrite Hw.
    + unfold outstanding. cbn. destruct H5 as (ms & Hm & Hf). exists ms. cbn. rewrite Hm, app_nil_r. by split.
    + unfold settled. cbn. destruct (pc b); try done; try (by right). intros _. split; [by right|exact H5].
    + unfold outstanding. cbn. by left.
  - destruct Hs as [Hs|Hs]; [done|]. destruct (cancelled b) eqn:Hc; [|done]. injection Hs as <-. split; try done; cbn.
    + unfold settled. cbn. destruct (pc b); try done; try (by right). by rewrite Hw.
    + unfold outstanding. cbn. right. split; [done|]. by exists m.
    + by rewrite Hc.
Qed.

Lemma step_inv a0 a b b' : sub_inv a0 b -> step a b = Some b' -> sub_inv a0 b'.
Proof.
  intros Hb Hs. destruct (decide (a = ReaderDone)) as [->|Hd]; [by eapply (reader_inv a0 None); [|right]|].
  destruct a as [| | |ok|ok|r| | | | | | |]; [..|done]; try (by eapply (reader_inv a0 r); [|left]).
  all: pose proof Hb as [H1 H2 H3 H4 H5 H6 H7 H8]; unfold settled in H4; cbn in Hs.
  - destruct (pc b) eqn:Hpc; try (by injection Hs as <-). destruct (sub_started b) eqn:Hst; [done|].
    injection Hs as <-. split; try done; cbn; by left.
  - injection Hs as <-. split; try done; cbn.
    + unfold settled. cbn. destruct (pc b); try done; (destruct H4 as [H4|H4]; [by left|right; cbn; by rewrite H4]).
    + unfold outstanding in *. cbn. destruct (reader b); try done. destruct H5 as [H5|[Hc H5]]; [by left|right]. cbn. by rewrite Hc.
    + intros E. by rewrite (H6 E).
    + rewrite orb_true_iff. tauto.
  - destruct (pc b) eqn:Hpc; try done. destruct (cancelled b) eqn:Hc; injection Hs as <-.
    + split; try done; unfold settled; cbn; try (by right); by rewrite Hc.
    + split; try done; unfold settled; cbn; [by rewrite H1|by destruct H4|].
      unfold outstanding in *. by rewrite Hc in H5.
  - destruct (pc b) eqn:Hpc; try done. destruct ok; injection Hs as <-; (split; try done); cbn.
    rewrite H1. cbn. by rewrite Nat.eqb_refl.
  - destruct (pc b) eqn:Hpc; try done. destruct ok; injection Hs as <-; (split; try done); cbn.
    + by destruct H4.
    + rewrite H1. cbn. by rewrite Nat.eqb_refl.
  - destruct (pc b) eqn:Hpc; try done. destruct (reader b) as [| |m|] eqn:Hr; try done. injection Hs as <-. by eapply take_inv.
  - destruct (pc b) eqn:Hpc; try done. injection Hs as <-. by apply safeOnIdle_inv.
  - destruct (pc b) eqn:Hpc; try done. destruct (recvErr b) eqn:He; [|done]. injection Hs as <-. split; try done; cbn. by apply H4.
  - destruct (pc b) eqn:Hpc; try done. destruct (cancelled b) eqn:Hc; [|done]. injection Hs as <-.
    split; try done; cbn; [by right|by rewrite Hc].
  - destruct (pc b) eqn:Hpc; try done; injection Hs as <-; (split; try done); by left.
  - destruct (pc b) eqn:Hpc; try done. injection Hs as <-. split; try done; cbn. rewrite H1. cbn. by rewrite Nat.eqb_refl.
Qed.

Lemma init_inv a0 : sub_inv a0 (NewSubscriber a0).
Proof. split; try done; (split; [by left|]) || idtac; by exists []. Qed.

Lemma run_inv a0 acts b b' : sub_inv a0 b -> run acts b = Some b' -> sub_inv a0 b'.
Proof.
  revert b. induction acts as [|a acts IH]; intros b Hb; cbn; [by intros [= <-]|].
  destruct (step a b) as [b1|] eqn:E; [|done]. apply IH. by eapply step_inv.
Qed.

(** The end of the context ends the goroutine, whatever the library answers. *)
Lemma ends a0 b : sub_inv a0 b -> cancelled b = true ->
  exists acts b', (length acts <= 3)%nat /\ run acts b = Some b' /\ pc b' = Ended /\ calls b' = calls b.
Proof.
  intros [H1 _ _ _ _ _ H7 H8] Hc. specialize (H7 Hc).
  destruct (pc b) eqn:Hpc.
  - rewrite H8 in H7 by done. done.
  - exists [CheckContext]. cbn. rewrite Hpc, Hc. eexists. cbn. split_and!; [lia|done..].
  - exists [Dialed false; Wake; CheckContext]. cbn. rewrite Hpc. cbn. rewrite Hc. eexists. split_and!; [lia|done..].
  - exists [Subscribed false; Wake; CheckContext]. cbn. rewrite Hpc. cbn. rewrite Hc. eexists. split_and!; [lia|done..].
  - exists [SeeDone; CloseAfterPoll; CheckContext]. cbn. rewrite Hpc, Hc. cbn. rewrite Hc. eexists. split_and!; [lia|done..].
  - exists [Wake; CloseAfterPoll; CheckContext]. cbn. rewrite Hpc. cbn. rewrite Hc. eexists. split_and!; [lia|done..].
  - exists [CloseAfterPoll; CheckContext]. cbn. rewrite Hpc. cbn. rewrite Hc. eexists. split_and!; [lia|done..].
  - exists [Wake; CheckContext]. cbn. rewrite Hpc. cbn. rewrite Hc. eexists. split_and!; [lia|done..].
  - exists [], b. cbn. split_and!; [lia|done..].
Qed.

(** What was received and not yet given to the pipeline: at most a message. *)
Lemma undelivered a0 b : sub_inv a0 b ->
  exists rest, first_frames (received b) = frames_given b ++ first_frames rest /\ (length rest <= 1)%nat /\
    (rest = pending b \/ cancelled b = true).
Proof.
  intros [_ _ _ _ H5 _ _ _].
  assert (forall rest, delivery b rest -> first_frames (received b) = frames_given b ++ first_frames rest) as Hd.
  { intros rest (ms & -> & ->). apply omap_app. }
  unfold outstanding in H5. unfold pending. destruct (reader b) as [| |m|].
  - exists []. split_and!; [by apply Hd|cbn; lia|by left].
  - exists []. split_and!; [by apply Hd|cbn; lia|by left].
  - exists [m]. split_and!; [by apply Hd|cbn; lia|by left].
  - destruct H5 as [H5|[Hc [m H5]]]; [exists []|exists [m]]; (split_and!; [by apply Hd|cbn; lia|auto]).
Qed.

(** C21. The bus subscriber, over every interleaving of its goroutines, its
    callers and the socket library.  It holds one socket while it is connected
    or connecting and none otherwise; the pipeline gets the first frame of every
    message that has one, in order and once each, across reconnects: at any time
    at most the last message received is outstanding, and it is only dropped at
    shutdown; each message is followed by the idle callback; a panicking
    callback does not stop what follows; and once stopped, three steps end the
    goroutine. *)
Theorem subscriber_delivers a0 acts b (Hrun : run acts (NewSubscriber a0) = Some b) :
  open_sockets b = held (pc b) /\
  (exists rest, first_frames (received b) = frames_given b ++ first_frames rest /\ (length rest <= 1)%nat /\
     (rest = pending b \/ cancelled b = true)) /\
  idle_follows (calls b) /\
  app b = fold_left (fun a c => apply_call c a) (calls b) a0 /\
  (cancelled b = true -> exists acts' b',
     (length acts' <= 3)%nat /\ run acts' b = Some b' /\ pc b' = Ended /\ calls b' = calls b).
Proof.
  pose proof (run_inv a0 acts _ _ (init_inv a0) Hrun) as Hb. pose proof Hb as [H1 H2 H3 _ _ _ _ _].
  split; [done|]. split; [by apply (undelivered a0)|]. split; [done|]. split; [done|]. by apply (ends a0).
Qed.
End subscriber.

(** Two messages over two connections, the second without a frame, a callback
    that panics on the first, and a third message dropped at shutdown. *)
Lemma subscriber_delivers_witness :
  let onMessage f (n : nat) := ((n + 10)%nat, String.eqb f "x") in
  let onIdle n := (S n, false) in
  let acts := [Start; CheckContext; Dialed false; Wake; CheckContext; Dialed true; Subscribed true; Received (Some ["x"; "y"]);
               TakeFrames; Received None; SeeRecvErr; Wake; CloseAfterPoll; CheckContext; Dialed true; Subscribed true; Tick;
               Received (Some []); TakeFrames; Received (Some ["z"]); Start; Stop; ReaderDone] in
  exists b, run onMessage (Some onIdle) acts (NewSubscriber 0%nat) = Some b /\
    open_sockets b = [2%nat] /\ frames_given b = ["x"] /\ app b = 13%nat /\ received b = [["x"; "y"]; []; ["z"]] /\
    idle_follows (Some onIdle) (calls b) /\
    exists acts' b', (length acts' <= 3)%nat /\ run onMessage (Some onIdle) acts' b = Some b' /\ pc b' = Ended /\ calls b' = calls b.
Proof.
  intros onMessage onIdle acts. eexists. split; [vm_compute; reflexivity|].
  do 4 (split; [reflexivity|]).
  edestruct (subscriber_delivers onMessage (Some onIdle) 0%nat acts) as (_ & _ & Hi & _ & He); [vm_compute; reflexivity|].
  split; [exact Hi|]. apply He. reflexivity.
Defined.
