(* ===== verification/Notify.v ===== *)
(** The delivery of alarms ([internal/alarm/engine.go], [command.go],
    [webhook.go], [store.go]): the engine's goroutine, the two notifiers with
    their queues and goroutines, the table of stored events, and the shutdown of
    all of them in [cmd/vq-db/main.go].

    The goroutines take turns: a run is a list of actions, and an action that
    is not possible in a state is [None].  The clock, the source of the
    measurements, the database, the shell and the HTTP client answer in their
    own time, with a result the environment chooses. *)

From S2P Require Import Prelude GoFloat GoStrings Json Store Alarm.

(** * Channels *)

(** [chan Event] with its buffer of 64. *)
Record chan := MkChan { buf : list Event; chan_closed : bool }.
Definition queue_size : nat := 64.
Definition new_chan : chan := MkChan [] false.

(** A send in a [select] with a [default]: whether there was room; on a closed
    channel it panics. *)
Definition try_send (ev : Event) (q : chan) : option (chan * bool) :=
  if chan_closed q then None
  else if (length (buf q) <? queue_size)%nat then Some (MkChan (buf q ++ [ev]) false, true) else Some (q, false).

(** [close], which panics on a closed channel. *)
Definition close_chan (q : chan) : option chan := if chan_closed q then None else Some (MkChan (buf q) true).

(** The head of [for ev := range queue]. *)
Inductive received := Blocked | Item (ev : Event) (q : chan) | Exhausted.
Definition range_next (q : chan) : received :=
  match buf q with
  | ev :: b => Item ev (MkChan b (chan_closed q))
  | [] => if chan_closed q then Exhausted else Blocked
  end.

(** * The command notifier *)

Inductive command_pc := CommandIdle | CommandRunning | CommandReturned.
#[local] Instance command_pc_eq_dec : EqDecision command_pc.
Proof. solve_decision. Defined.

(** [c_runs] holds the commands started, each its line and environment;
    [c_offers] the events offered to the queue and whether it took them (the
    others are logged as dropped). *)
Record CommandNotifier := MkCommandNotifier {
  Timeout : Z; c_queue : chan; c_loop : command_pc; c_runs : list (string * list string); c_offers : list (Event * bool)
}.

Definition command_timeout (timeout : Z) : Z := if timeout <=? 0 then 60 * GoTime.nanosecond_per_second else timeout.
Definition NewCommandNotifier (timeout : Z) : CommandNotifier :=
  MkCommandNotifier (command_timeout timeout) new_chan CommandIdle [] [].

Definition command_Notify (ev : Event) (c : CommandNotifier) : option CommandNotifier :=
  if negb (command_wanted ev) then Some c
  else (fun '(q, ok) => MkCommandNotifier (Timeout c) q (c_loop c) (c_runs c) (c_offers c ++ [(ev, ok)])) <$> try_send ev (c_queue c).

(** [close(c.queue)], the first half of [Close]. *)
Definition command_Close (c : CommandNotifier) : option CommandNotifier :=
  (fun q => MkCommandNotifier (Timeout c) q (c_loop c) (c_runs c) (c_offers c)) <$> close_chan (c_queue c).

Section commands.
Context (home : string).

(** What [c.run] is called with. *)
Definition command_run (ev : Event) : string * list string := (CommandLine home ev, Env ev).

(** [loop]: the next event, or the end of a command, failed or not. *)
Inductive command_action := CommandTake | CommandDone (failed : bool).
Definition command_loop (a : command_action) (c : CommandNotifier) : option CommandNotifier :=
  match a, c_loop c with
  | CommandTake, CommandIdle =>
      match range_next (c_queue c) with
      | Blocked => None
      | Item ev q => Some (MkCommandNotifier (Timeout c) q CommandRunning (c_runs c ++ [command_run ev]) (c_offers c))
      | Exhausted => Some (MkCommandNotifier (Timeout c) (c_queue c) CommandReturned (c_runs c) (c_offers c))
      end
  | CommandDone _, CommandRunning => Some (MkCommandNotifier (Timeout c) (c_queue c) CommandIdle (c_runs c) (c_offers c))
  | _, _ => None
  end.
End commands.

(** * The webhook notifier *)

(** The request of [post], and what comes of it: no request for a bad URL, no
    answer within the client's timeout, or a status. *)
Record post_request := MkPost { p_url : string; p_body : string; p_headers : list (string * string) }.
Inductive post_reply := BadURL | NoAnswer | Answered (status : Z).
Definition post_ok (r : post_reply) : bool :=
  match r with Answered status => Z.quot status 100 =? 2 | _ => false end.

Inductive webhook_pc := WebhookIdle | Posting (ev : Event) | RetryWait (ev : Event) | PostingAgain (ev : Event) | WebhookReturned.

(** [w_posts] holds the attempts that ended, with their outcome. *)
Record WebhookNotifier := MkWebhookNotifier {
  UserAgent : string; w_queue : chan; w_loop : webhook_pc; w_posts : list (post_request * post_reply); w_offers : list (Event * bool)
}.
Definition NewWebhookNotifier (userAgent : string) : WebhookNotifier := MkWebhookNotifier userAgent new_chan WebhookIdle [] [].

Definition webhook_Notify (ev : Event) (w : WebhookNotifier) : option WebhookNotifier :=
  if negb (webhook_wanted ev) then Some w
  else (fun '(q, ok) => MkWebhookNotifier (UserAgent w) q (w_loop w) (w_posts w) (w_offers w ++ [(ev, ok)])) <$> try_send ev (w_queue w).

Definition webhook_Close (w : WebhookNotifier) : option WebhookNotifier :=
  (fun q => MkWebhookNotifier (UserAgent w) q (w_loop w) (w_posts w) (w_offers w)) <$> close_chan (w_queue w).

(** [post] of an event; a payload that is not JSON (a KPI that is not a number)
    is sent empty. *)
Definition webhook_post (agent : string) (ev : Event) : post_request :=
  MkPost (Webhook (ev_Rule ev)) (default "" (marshal (Payload ev)))
    (("Content-Type", "application/json") :: (if String.eqb agent "" then [] else [("User-Agent", agent)])).

Definition at_webhook (p : webhook_pc) (w : WebhookNotifier) : WebhookNotifier :=
  MkWebhookNotifier (UserAgent w) (w_queue w) p (w_posts w) (w_offers w).
Definition log_post (ev : Event) (r : post_reply) (w : WebhookNotifier) : WebhookNotifier :=
  MkWebhookNotifier (UserAgent w) (w_queue w) (w_loop w) (w_posts w ++ [(webhook_post (UserAgent w) ev, r)]) (w_offers w).

(** [loop]: the next event, the end of an attempt, the end of the wait. *)
Inductive webhook_action := WebhookTake | Posted (r : post_reply) | RetryNow.
Definition webhook_loop (a : webhook_action) (w : WebhookNotifier) : option WebhookNotifier :=
  match a, w_loop w with
  | WebhookTake, WebhookIdle =>
      match range_next (w_queue w) with
      | Blocked => None
      | Item ev q => Some (MkWebhookNotifier (UserAgent w) q (Posting ev) (w_posts w) (w_offers w))
      | Exhausted => Some (at_webhook WebhookReturned w)
      end
  | Posted r, Posting ev => Some (at_webhook (if post_ok r then WebhookIdle else RetryWait ev) (log_post ev r w))
  | RetryNow, RetryWait ev => Some (at_webhook (PostingAgain ev) w)
  | Posted r, PostingAgain ev => Some (at_webhook WebhookIdle (log_post ev r w))
  | _, _ => None
  end.

(** * The engine and the shutdown *)

(** Where the engine's goroutine is: in the [select] of [Start], in [Tick], or
    in [emit], at one of the notifiers [buildAlarms] gives it. *)
Inductive stage := AtStore | AtCommands | AtWebhooks.
Inductive engine_pc :=
| AtSelect
| InTick (now : Z) (measure : Rule -> Z -> res string Snapshot)
| Emitting (now : Z) (measure : Rule -> Z -> res string Snapshot) (ev : Event) (at_ : stage)
| EngineReturned.

(** The main goroutine: serving, in [engine.Stop], in [commands.Close], in
    [webhooks.Close], past them. *)
Inductive main_pc := Serving | StoppingEngine | ClosingCommands | ClosingWebhooks | AlarmsClosed.
#[local] Instance main_pc_eq_dec : EqDecision main_pc.
Proof. solve_decision. Defined.

(** The engine's rules are those the current tick has checked and those it has
    not; [emitted] holds the events [emit] was called with, [stores] those
    offered to the table and whether the insert succeeded. *)
Record alarms := MkAlarms {
  al_checked : list ruleState; al_rest : list ruleState; al_pc : engine_pc; al_stop : bool; al_main : main_pc;
  al_db : database; al_commands : CommandNotifier; al_webhooks : WebhookNotifier;
  emitted : list Event; stores : list (Event * bool); panicked : bool
}.

Definition start_alarms (rules : list Rule) (agent : string) (d : database) : alarms :=
  MkAlarms (NewEngine rules) [] AtSelect false Serving d (NewCommandNotifier (60 * GoTime.nanosecond_per_second)) (NewWebhookNotifier agent)
    [] [] false.

(** [Statuses] reads the rules at any time. *)
Definition al_statuses (s : alarms) : list Status := Statuses (al_checked s ++ al_rest s).

Definition at_engine (p : engine_pc) (s : alarms) : alarms :=
  MkAlarms (al_checked s) (al_rest s) p (al_stop s) (al_main s) (al_db s) (al_commands s) (al_webhooks s)
    (emitted s) (stores s) (panicked s).
Definition at_main (p : main_pc) (s : alarms) : alarms :=
  MkAlarms (al_checked s) (al_rest s) (al_pc s) (al_stop s) p (al_db s) (al_commands s) (al_webhooks s)
    (emitted s) (stores s) (panicked s).
Definition panic (s : alarms) : alarms :=
  MkAlarms (al_checked s) (al_rest s) (al_pc s) (al_stop s) (al_main s) (al_db s) (al_commands s) (al_webhooks s)
    (emitted s) (stores s) true.
Definition with_commands (c : option CommandNotifier) (s : alarms) : alarms :=
  match c with
  | Some c => MkAlarms (al_checked s) (al_rest s) (al_pc s) (al_stop s) (al_main s) (al_db s) c (al_webhooks s)
                (emitted s) (stores s) (panicked s)
  | None => panic s
  end.
Definition with_webhooks (w : option WebhookNotifier) (s : alarms) : alarms :=
  match w with
  | Some w => MkAlarms (al_checked s) (al_rest s) (al_pc s) (al_stop s) (al_main s) (al_db s) (al_commands s) w
                (emitted s) (stores s) (panicked s)
  | None => panic s
  end.

Section delivery.
Context (home : string) (instance : Instance_) (new_id : list Z -> Z).

(** [StoreNotifier.Notify]; a failed insert is logged. *)
Definition store_Notify (stored : bool) (ev : Event) (s : alarms) : alarms :=
  MkAlarms (al_checked s) (al_rest s) (al_pc s) (al_stop s) (al_main s)
    (if stored then store_event new_id ev (al_db s) else al_db s) (al_commands s) (al_webhooks s)
    (emitted s) (stores s ++ [(ev, stored)]) (panicked s).

(** The loop of [emit]: one notifier, and where it goes next. *)
Definition notify (stored : bool) (ev : Event) (at_ : stage) (s : alarms) : alarms :=
  match at_ with
  | AtStore => store_Notify stored ev s
  | AtCommands => with_commands (command_Notify ev (al_commands s)) s
  | AtWebhooks => with_webhooks (webhook_Notify ev (al_webhooks s)) s
  end.
Definition after_stage (now : Z) (measure : Rule -> Z -> res string Snapshot) (ev : Event) (at_ : stage) : engine_pc :=
  match at_ with
  | AtStore => Emitting now measure ev AtCommands
  | AtCommands => Emitting now measure ev AtWebhooks
  | AtWebhooks => InTick now measure
  end.

(** The body of [Tick]'s loop: one rule, with the call of [emit] when there is
    an event. *)
Definition tick_rule (now : Z) (measure : Rule -> Z -> res string Snapshot) (s : alarms) : alarms :=
  match al_rest s with
  | [] => at_engine AtSelect s
  | st :: rest =>
      let '(st, ev) := check_rule instance now (measure (rs_rule st) (now / 1000000)) st in
      MkAlarms (al_checked s ++ [st]) rest
        (match ev with Some ev => Emitting now measure ev AtStore | None => InTick now measure end)
        (al_stop s) (al_main s) (al_db s) (al_commands s) (al_webhooks s) (emitted s ++ option_list ev) (stores s) (panicked s)
  end.

(** The end of [run]: [engine.Stop], [commands.Close], [webhooks.Close], each
    of which waits for its goroutine. *)
Definition shutdown_step (s : alarms) : option alarms :=
  match al_main s with
  | Serving =>
      Some (MkAlarms (al_checked s) (al_rest s) (al_pc s) true StoppingEngine (al_db s) (al_commands s) (al_webhooks s)
              (emitted s) (stores s) (panicked s))
  | StoppingEngine =>
      match al_pc s with
      | EngineReturned => Some (with_commands (command_Close (al_commands s)) (at_main ClosingCommands s))
      | _ => None
      end
  | ClosingCommands =>
      match c_loop (al_commands s) with
      | CommandReturned => Some (with_webhooks (webhook_Close (al_webhooks s)) (at_main ClosingWebhooks s))
      | _ => None
      end
  | ClosingWebhooks => match w_loop (al_webhooks s) with WebhookReturned => Some (at_main AlarmsClosed s) | _ => None end
  | AlarmsClosed => None
  end.

Inductive action :=
| Fire (now : Z) (measure : Rule -> Z -> res string Snapshot)  (** the [select] takes the ticker *)
| CheckRule
| Emit (stored : bool)
| SeeStop
| CommandAct (a : command_action) | WebhookAct (a : webhook_action)
| MainNext.

(** A panic ends the process. *)
Definition step (a : action) (s : alarms) : option alarms :=
  if panicked s then None
  else match a, al_pc s with
  | Fire now measure, AtSelect =>
      Some (MkAlarms [] (al_checked s) (InTick now measure) (al_stop s) (al_main s) (al_db s) (al_commands s) (al_webhooks s)
              (emitted s) (stores s) (panicked s))
  | CheckRule, InTick now measure => Some (tick_rule now measure s)
  | Emit stored, Emitting now measure ev at_ => Some (notify stored ev at_ (at_engine (after_stage now measure ev at_) s))
  | SeeStop, AtSelect => if al_stop s then Some (at_engine EngineReturned s) else None
  | CommandAct a, _ => (fun c => with_commands (Some c) s) <$> command_loop home a (al_commands s)
  | WebhookAct a, _ => (fun w => with_webhooks (Some w) s) <$> webhook_loop a (al_webhooks s)
  | MainNext, _ => shutdown_step s
  | _, _ => None
  end.

Fixpoint run (acts : list action) (s : alarms) : option alarms :=
  match acts with
  | [] => Some s
  | a :: acts => match step a s with Some s => run acts s | None => None end
  end.

End delivery.

(** * What is promised *)

(** The ticks of a run, as a history of the engine. *)
Definition ticks (acts : list action) : history :=
  omap (fun a => match a with Fire now measure => Some (now, measure) | _ => None end) acts.
Definition is_fire (a : action) : bool := match a with Fire _ _ => true | _ => false end.

(** The events a notifier took of those it was offered. *)
Definition taken (offers : list (Event * bool)) : list Event := (List.filter snd offers).*1.

(** The event being emitted, as long as it has not got past the notifier. *)
Definition not_past (at_ t : stage) : bool :=
  match at_, t with AtStore, _ | AtCommands, AtCommands | AtCommands, AtWebhooks | AtWebhooks, AtWebhooks => true | _, _ => false end.
Definition pending (p : engine_pc) (t : stage) : list Event :=
  match p with Emitting _ _ ev at_ => if not_past at_ t then [ev] else [] | _ => [] end.

(** Events with the attempts made for each, in order: one, or a second one with
    the same request when the first failed. *)
Inductive deliveries (agent : string) : list Event -> list (post_request * post_reply) -> Prop :=
| deliveries_nil : deliveries agent [] []
| deliveries_once evs log ev r : deliveries agent evs log -> post_ok r = true ->
    deliveries agent (evs ++ [ev]) (log ++ [(webhook_post agent ev, r)])
| deliveries_retry evs log ev r r' : deliveries agent evs log -> post_ok r = false ->
    deliveries agent (evs ++ [ev]) (log ++ [(webhook_post agent ev, r); (webhook_post agent ev, r')]).

(** Nothing is dropped while no more than 64 events were offered. *)
Definition drops_late (offers : list (Event * bool)) : Prop :=
  (length offers <= queue_size)%nat -> Forall (fun o => o.2 = true) offers.

(** * The queues *)

Lemma taken_snoc offers o : taken (offers ++ [o]) = taken offers ++ (if o.2 then [o.1] else []).
Proof. unfold taken. rewrite List.filter_app, fmap_app. cbn. by destruct (o.2). Qed.

Lemma length_taken offers : (length (taken offers) <= length offers)%nat.
Proof. unfold taken. rewrite length_fmap. apply filter_length_le. Qed.

(** A queue with what was offered to it and what was taken from it. *)
Definition queue_inv (q : chan) (offers : list (Event * bool)) (done : list Event) : Prop :=
  taken offers = done ++ buf q /\ (length (buf q) <= queue_size)%nat /\ drops_late offers.

Lemma queue_inv_new : queue_inv new_chan [] [].
Proof. split; [done|]. split; [cbn; lia|]. constructor. Qed.

Lemma queue_inv_send q offers done ev q' ok : queue_inv q offers done -> try_send ev q = Some (q', ok) ->
  queue_inv q' (offers ++ [(ev, ok)]) done /\ chan_closed q' = chan_closed q /\
  (length (buf q') <= S (length (buf q)))%nat.
Proof.
  intros (Ht & Hl & Hd) E. unfold try_send in E. destruct (chan_closed q) eqn:Ec; [done|].
  destruct (_ <? _)%nat eqn:El; injection E as <- <-; unfold queue_inv; rewrite taken_snoc; cbn [buf chan_closed fst snd].
  - apply Nat.ltb_lt in El. split; [|split; [done|rewrite length_app; cbn; lia]].
    split; [by rewrite Ht, app_assoc|]. split; [rewrite length_app; cbn; lia|].
    intros Hle. rewrite length_app in Hle. cbn in Hle. apply Forall_app. split; [apply Hd; lia|]. by repeat constructor.
  - apply Nat.ltb_ge in El. split; [|split; [done|lia]]. split; [by rewrite app_nil_r|]. split; [done|].
    intros Hle. exfalso. rewrite length_app in Hle. cbn in Hle. pose proof (length_taken offers) as Hk.
    rewrite Ht, length_app in Hk. lia.
Qed.

Lemma queue_inv_close q offers done q' : queue_inv q offers done -> close_chan q = Some q' ->
  queue_inv q' offers done /\ chan_closed q' = true /\ buf q' = buf q.
Proof. unfold close_chan. intros Hq E. destruct (chan_closed q); [done|]. by injection E as <-. Qed.

Lemma queue_inv_take q offers done ev q' : queue_inv q offers done -> range_next q = Item ev q' ->
  queue_inv q' offers (done ++ [ev]) /\ chan_closed q' = chan_closed q /\ length (buf q) = S (length (buf q')).
Proof.
  intros (Ht & Hl & Hd) E. unfold range_next in E. destruct (buf q) as [|x b] eqn:Eb; [by case_match|].
  injection E as -> <-. unfold queue_inv. cbn in *. split; [|done]. split; [by rewrite Ht, <- app_assoc|]. split; [lia|done].
Qed.

Lemma range_next_exhausted q : range_next q = Exhausted <-> buf q = [] /\ chan_closed q = true.
Proof. unfold range_next. destruct (buf q), (chan_closed q); split; try done; by intros [? ?]. Qed.

(** What a send or a close can do to a notifier: nothing but its queue. *)
Lemma try_send_open ev q : chan_closed q = false -> exists r, try_send ev q = Some r.
Proof. unfold try_send. intros ->. case_match; by eexists. Qed.

(** * The notifiers *)

Section command_inv.
Context (home : string).

(** Every command started is that of an event taken, in order. *)
Record command_inv (c : CommandNotifier) : Prop := {
  ci_queue : exists done, queue_inv (c_queue c) (c_offers c) done /\ c_runs c = command_run home <$> done;
  ci_returned : c_loop c = CommandReturned -> chan_closed (c_queue c) = true /\ buf (c_queue c) = []
}.

(** The actions the loop has before it. *)
Definition command_work (c : CommandNotifier) : nat :=
  2 * length (buf (c_queue c)) + match c_loop c with CommandIdle => 1 | CommandRunning => 2 | CommandReturned => 0 end.

Lemma command_inv_new timeout : command_inv (NewCommandNotifier timeout).
Proof. split; [exists []; split; [apply queue_inv_new|done]|done]. Qed.

Lemma command_Notify_spec ev c : command_inv c -> chan_closed (c_queue c) = false ->
  exists c', command_Notify ev c = Some c' /\ command_inv c' /\ chan_closed (c_queue c') = false /\ c_loop c' = c_loop c /\
    (c_offers c').*1 = (c_offers c).*1 ++ List.filter command_wanted [ev] /\ (command_work c' <= command_work c + 2)%nat.
Proof.
  intros [(done & Hq & Hr) Hret] Hc. unfold command_Notify. cbn [List.filter]. destruct (command_wanted ev) eqn:Ew; cbn [negb].
  - destruct (try_send_open ev _ Hc) as [[q ok] E]. rewrite E. cbn. eexists. split; [done|].
    destruct (queue_inv_send _ _ _ _ _ _ Hq E) as (Hq' & Hc' & Hl). split.
    + split; [by exists done|]. cbn. intros Hl'. destruct (Hret Hl') as [? _]. congruence.
    + cbn. rewrite fmap_app. split_and!; [congruence|done..|]. unfold command_work. cbn. lia.
  - exists c. rewrite app_nil_r. split_and!; [done| |done..|lia]. split; [by exists done|done].
Qed.

Lemma command_Close_spec c : command_inv c -> chan_closed (c_queue c) = false ->
  exists c', command_Close c = Some c' /\ command_inv c' /\ chan_closed (c_queue c') = true /\
    c_offers c' = c_offers c /\ command_work c' = command_work c.
Proof.
  intros [(done & Hq & Hr) Hret] Hc. unfold command_Close, close_chan. rewrite Hc. cbn. eexists. split; [done|]. cbn.
  split_and!; [|done..]. split; [by exists done|]. cbn. intros Hl. destruct (Hret Hl) as [? ?]. congruence.
Qed.

Lemma command_loop_spec a c c' : command_inv c -> command_loop home a c = Some c' ->
  command_inv c' /\ chan_closed (c_queue c') = chan_closed (c_queue c) /\ c_offers c' = c_offers c /\
  (command_work c' < command_work c)%nat.
Proof.
  intros [(done & Hq & Hr) Hret] E. unfold command_loop in E. destruct a, (c_loop c) eqn:Ep; try done.
  - destruct (range_next _) as [|ev q|] eqn:En; [done| |].
    + injection E as <-. destruct (queue_inv_take _ _ _ _ _ Hq En) as (Hq' & Hc & Hl). cbn. split_and!; [|done..|].
      * split; [|done]. exists (done ++ [ev]). cbn. by rewrite fmap_app, Hr.
      * unfold command_work. cbn. rewrite Ep. lia.
    + injection E as <-. apply range_next_exhausted in En as [Hb Hc]. cbn. split_and!; [|done..|].
      * split; [by exists done|done].
      * unfold command_work. cbn. rewrite Ep. lia.
  - injection E as <-. cbn. split_and!; [|done..|].
    + split; [by exists done|done].
    + unfold command_work. cbn. rewrite Ep. lia.
Qed.

(** The goroutine of a closed notifier can go on until it has returned. *)
Lemma command_loop_progress c : chan_closed (c_queue c) = true -> c_loop c <> CommandReturned ->
  exists a c', command_loop home a c = Some c'.
Proof.
  intros Hc Hl. destruct (c_loop c) eqn:E; [| |done].
  - exists CommandTake. cbn. rewrite E. unfold range_next. rewrite Hc. destruct (buf _); by eexists.
  - exists (CommandDone false). cbn. rewrite E. by eexists.
Qed.
End command_inv.

(** The event the webhook's goroutine holds, and the failed attempt it made. *)
Definition held (p : webhook_pc) : list Event :=
  match p with Posting ev | RetryWait ev | PostingAgain ev => [ev] | _ => [] end.
Definition retrying (p : webhook_pc) : bool := match p with RetryWait _ | PostingAgain _ => true | _ => false end.

Record webhook_inv (w : WebhookNotifier) : Prop := {
  wi_queue : exists done log, queue_inv (w_queue w) (w_offers w) (done ++ held (w_loop w)) /\
    deliveries (UserAgent w) done log /\
    exists failed, w_posts w = log ++ failed /\
      if retrying (w_loop w)
      then exists ev r, held (w_loop w) = [ev] /\ post_ok r = false /\ failed = [(webhook_post (UserAgent w) ev, r)]
      else failed = [];
  wi_returned : w_loop w = WebhookReturned -> chan_closed (w_queue w) = true /\ buf (w_queue w) = []
}.

Definition webhook_work (w : WebhookNotifier) : nat :=
  4 * length (buf (w_queue w)) +
  match w_loop w with WebhookIdle => 1 | Posting _ => 4 | RetryWait _ => 3 | PostingAgain _ => 2 | WebhookReturned => 0 end.

Lemma webhook_inv_new agent : webhook_inv (NewWebhookNotifier agent).
Proof.
  split; [|done]. exists [], []. split; [apply queue_inv_new|]. split; [constructor|]. by exists [].
Qed.

Lemma webhook_Notify_spec ev w : webhook_inv w -> chan_closed (w_queue w) = false ->
  exists w', webhook_Notify ev w = Some w' /\ webhook_inv w' /\ chan_closed (w_queue w') = false /\ w_loop w' = w_loop w /\
    UserAgent w' = UserAgent w /\
    (w_offers w').*1 = (w_offers w).*1 ++ List.filter webhook_wanted [ev] /\ (webhook_work w' <= webhook_work w + 4)%nat.
Proof.
  intros [(done & log & Hq & Hr) Hret] Hc. unfold webhook_Notify. cbn [List.filter]. destruct (webhook_wanted ev) eqn:Ew; cbn [negb].
  - destruct (try_send_open ev _ Hc) as [[q ok] E]. rewrite E. cbn. eexists. split; [done|].
    destruct (queue_inv_send _ _ _ _ _ _ Hq E) as (Hq' & Hc' & Hl). split.
    + split; [by exists done, log|]. cbn. intros Hl'. destruct (Hret Hl') as [? _]. congruence.
    + cbn. rewrite fmap_app. split_and!; [congruence|done..|]. unfold webhook_work. cbn. lia.
  - exists w. rewrite app_nil_r. split_and!; [done| |done..|lia]. split; [by exists done, log|done].
Qed.

Lemma webhook_Close_spec w : webhook_inv w -> chan_closed (w_queue w) = false ->
  exists w', webhook_Close w = Some w' /\ webhook_inv w' /\ chan_closed (w_queue w') = true /\
    w_offers w' = w_offers w /\ UserAgent w' = UserAgent w /\ webhook_work w' = webhook_work w.
Proof.
  intros [(done & log & Hq & Hr) Hret] Hc. unfold webhook_Close, close_chan. rewrite Hc. cbn. eexists. split; [done|]. cbn.
  split_and!; [|done..]. split; [by exists done, log|]. cbn. intros Hl. destruct (Hret Hl) as [? ?]. congruence.
Qed.

Lemma webhook_loop_spec a w w' : webhook_inv w -> webhook_loop a w = Some w' ->
  webhook_inv w' /\ chan_closed (w_queue w') = chan_closed (w_queue w) /\ w_offers w' = w_offers w /\ UserAgent w' = UserAgent w /\
  (webhook_work w' < webhook_work w)%nat.
Proof.
  intros [(done & log & Hq & Hd & failed & Hp & Hf) Hret] E. unfold webhook_work. unfold webhook_loop in E.
  destruct a as [|r|], (w_loop w) as [|ev|ev|ev|] eqn:Ep; try done; cbn [held retrying] in *.
  - rewrite app_nil_r in Hq. destruct (range_next _) as [|ev q|] eqn:En; [done| |].
    + injection E as <-. destruct (queue_inv_take _ _ _ _ _ Hq En) as (Hq' & Hc & Hl). cbn. split_and!; [|done..|lia].
      split; [|done]. exists done, log. split; [done|]. split; [done|]. by exists failed.
    + injection E as <-. apply range_next_exhausted in En as [Hb Hc]. cbn. split_and!; [|done..|lia].
      split; [|done]. exists done, log. cbn. rewrite app_nil_r. split; [done|]. split; [done|]. by exists failed.
  - injection E as <-. subst failed. rewrite app_nil_r in Hp. destruct (post_ok r) eqn:Er; cbn; (split_and!; [|done..|lia]);
      (split; [|done]); cbn.
    + exists (done ++ [ev]), (log ++ [(webhook_post (UserAgent w) ev, r)]). rewrite app_nil_r.
      split; [done|]. split; [by constructor|]. exists []. by rewrite app_nil_r, Hp.
    + exists done, log. split; [done|]. split; [done|]. eexists. rewrite Hp. split; [done|]. by exists ev, r.
  - injection E as <-. destruct Hf as (ev' & r' & [= <-] & Hr' & ->). cbn. split_and!; [|done..|lia]. split; [|done]. cbn.
    exists (done ++ [ev]), (log ++ [(webhook_post (UserAgent w) ev, r'); (webhook_post (UserAgent w) ev, r)]). rewrite app_nil_r.
    split; [done|]. split; [by constructor|]. exists []. by rewrite app_nil_r, Hp, <- app_assoc.
  - injection E as <-. cbn. split_and!; [|done..|lia]. split; [|done]. exists done, log. split; [done|]. split; [done|].
    by exists failed.
Qed.

Lemma webhook_loop_progress w : chan_closed (w_queue w) = true -> w_loop w <> WebhookReturned ->
  exists a w', webhook_loop a w = Some w'.
Proof.
  intros Hc Hl. destruct (w_loop w) eqn:E; [..|done].
  - exists WebhookTake. cbn. rewrite E. unfold range_next. rewrite Hc. destruct (buf _); by eexists.
  - exists (Posted NoAnswer). cbn. rewrite E. by eexists.
  - exists RetryNow. cbn. rewrite E. by eexists.
  - exists (Posted NoAnswer). cbn. rewrite E. by eexists.
Qed.

(** * The whole *)

Lemma Tick_app instance now measure l1 l2 :
  Tick instance now measure (l1 ++ l2) =
  ((Tick instance now measure l1).1 ++ (Tick instance now measure l2).1,
   (Tick instance now measure l1).2 ++ (Tick instance now measure l2).2).
Proof.
  induction l1 as [|st l1 IH]; cbn; [by destruct (Tick _ _ _ l2)|].
  destruct (check_rule _ _ _ _) as [st' ev]. rewrite IH. destruct (Tick _ _ _ l1) as [s1 e1]. cbn. by rewrite app_assoc.
Qed.

Lemma run_engine_snoc instance h now measure sts :
  run_engine instance (h ++ [(now, measure)]) sts =
  ((Tick instance now measure (run_engine instance h sts).1).1,
   (run_engine instance h sts).2 ++ (Tick instance now measure (run_engine instance h sts).1).2).
Proof.
  revert sts. induction h as [|[t m] h IH]; intros sts; cbn.
  - destruct (Tick _ _ _ sts). by rewrite app_nil_r.
  - destruct (Tick _ _ _ sts) as [s1 e1]. rewrite IH. destruct (run_engine _ h s1) as [s2 e2]. cbn. by rewrite app_assoc.
Qed.

Lemma ticks_snoc acts a : ticks (acts ++ [a]) = ticks acts ++ ticks [a].
Proof. apply omap_app. Qed.

(** How far the shutdown is. *)
Definition phase (p : main_pc) : nat :=
  match p with Serving => 0 | StoppingEngine => 1 | ClosingCommands => 2 | ClosingWebhooks => 3 | AlarmsClosed => 4 end.

Definition current_tick (p : engine_pc) : option (Z * (Rule -> Z -> res string Snapshot)) :=
  match p with InTick now measure | Emitting now measure _ _ => Some (now, measure) | _ => None end.

(** The actions the engine and the main goroutine have before them, what they
    can hand to the notifiers included. *)
Definition engine_work (s : alarms) : nat :=
  10 * length (al_rest s) +
  match al_pc s with
  | AtSelect => 1
  | InTick _ _ => 2
  | Emitting _ _ _ AtStore => 11 | Emitting _ _ _ AtCommands => 10 | Emitting _ _ _ AtWebhooks => 7
  | EngineReturned => 0
  end.
Definition work (s : alarms) : nat :=
  engine_work s + command_work (al_commands s) + webhook_work (al_webhooks s) + (4 - phase (al_main s)).

#[local] Arguments command_work : simpl never.
#[local] Arguments webhook_work : simpl never.
#[local] Arguments taken : simpl never.

Section whole.
Context (home : string) (instance : Instance_) (new_id : list Z -> Z) (rules : list Rule) (agent : string) (d : database).

Definition tick_inv (acts : list action) (s : alarms) : Prop :=
  match current_tick (al_pc s) with
  | None => al_rest s = [] /\ run_engine instance (ticks acts) (NewEngine rules) = (al_checked s, emitted s)
  | Some (now, measure) =>
      exists h before evs, ticks acts = h ++ [(now, measure)] /\
        (run_engine instance h (NewEngine rules)).1 = before ++ al_rest s /\
        Tick instance now measure before = (al_checked s, evs) /\
        emitted s = (run_engine instance h (NewEngine rules)).2 ++ evs
  end.

Record offers_inv (s : alarms) : Prop := {
  oi_db : al_db s = fold_left (fun d ev => store_event new_id ev d) (taken (stores s)) d;
  oi_stores : (stores s).*1 ++ pending (al_pc s) AtStore = emitted s;
  oi_commands : (c_offers (al_commands s)).*1 ++ List.filter command_wanted (pending (al_pc s) AtCommands) =
                List.filter command_wanted (emitted s);
  oi_webhooks : (w_offers (al_webhooks s)).*1 ++ List.filter webhook_wanted (pending (al_pc s) AtWebhooks) =
                List.filter webhook_wanted (emitted s);
  oi_agent : UserAgent (al_webhooks s) = agent
}.

Record phase_inv (s : alarms) : Prop := {
  pi_stop : al_stop s = (1 <=? phase (al_main s))%nat;
  pi_commands : chan_closed (c_queue (al_commands s)) = (2 <=? phase (al_main s))%nat;
  pi_webhooks : chan_closed (w_queue (al_webhooks s)) = (3 <=? phase (al_main s))%nat;
  pi_engine : (2 <= phase (al_main s))%nat -> al_pc s = EngineReturned;
  pi_command_loop : (3 <= phase (al_main s))%nat -> c_loop (al_commands s) = CommandReturned;
  pi_webhook_loop : (4 <= phase (al_main s))%nat -> w_loop (al_webhooks s) = WebhookReturned
}.

Record alarms_inv (acts : list action) (s : alarms) : Prop := {
  ai_panicked : panicked s = false;
  ai_tick : tick_inv acts s;
  ai_offers : offers_inv s;
  ai_commands : command_inv home (al_commands s);
  ai_webhooks : webhook_inv (al_webhooks s);
  ai_phase : phase_inv s
}.

Lemma alarms_inv_start : alarms_inv [] (start_alarms rules agent d).
Proof.
  split; [done|by split| |apply command_inv_new|apply webhook_inv_new|]; split; try done; cbn; lia.
Qed.

(** ** The engine *)

Lemma inv_fire acts s now measure : alarms_inv acts s -> al_pc s = AtSelect ->
  alarms_inv (acts ++ [Fire now measure])
    (MkAlarms [] (al_checked s) (InTick now measure) (al_stop s) (al_main s) (al_db s) (al_commands s) (al_webhooks s)
       (emitted s) (stores s) false).
Proof.
  intros [Hp Ht [O1 O2 O3 O4 O5] Hc Hw [P1 P2 P3 P4 P5 P6]] E. unfold tick_inv in Ht. rewrite E in Ht. destruct Ht as [_ Ht].
  split; [done| | |done|done|]; cbn.
  - exists (ticks acts), [], []. rewrite ticks_snoc, Ht. cbn. by rewrite app_nil_r.
  - rewrite E in O2, O3, O4. by split.
  - split; try done. cbn. intros Hm. rewrite P4 in E by done. done.
Qed.

Lemma inv_rule acts s now measure : alarms_inv acts s -> al_pc s = InTick now measure ->
  alarms_inv (acts ++ [CheckRule]) (tick_rule instance now measure s) /\ (work (tick_rule instance now measure s) < work s)%nat.
Proof.
  intros [Hp Ht [O1 O2 O3 O4 O5] Hc Hw [P1 P2 P3 P4 P5 P6]] E. unfold tick_inv in Ht. rewrite E in Ht.
  destruct Ht as (h & before & evs & Hh & Hb & Ht & He). rewrite E in O2, O3, O4. cbn [pending List.filter] in O2, O3, O4.
  unfold work, engine_work. rewrite E. unfold tick_rule. destruct (al_rest s) as [|st rest] eqn:Er.
  - split; [|cbn; rewrite Er; cbn; lia]. split; [done| | |done|done|].
    + split; [done|]. rewrite ticks_snoc, app_nil_r, Hh, run_engine_snoc, Hb, app_nil_r, Ht. cbn. by rewrite He.
    + by split.
    + split; try done. cbn. intros Hm. by rewrite P4 in E.
  - destruct (check_rule _ _ _ _) as [st' ev] eqn:Ec.
    assert (Tick instance now measure (before ++ [st]) = (al_checked s ++ [st'], evs ++ option_list ev)) as Ht'.
    { rewrite Tick_app, Ht. cbn. rewrite Ec. cbn. by rewrite app_nil_r. }
    split; [|cbn; destruct ev; cbn; lia]. split; [done| | |done|done|].
    + unfold tick_inv. replace (current_tick _) with (Some (now, measure)) by (by destruct ev). cbn.
      exists h, (before ++ [st]), (evs ++ option_list ev). rewrite ticks_snoc, app_nil_r, <- app_assoc. split_and!; [done..|].
      by rewrite He, app_assoc.
    + rewrite app_nil_r in O2, O3, O4. split; cbn; [done|..|done]; destruct ev; cbn;
        rewrite ?List.filter_app, ?app_nil_r; try done; by f_equal.
    + split; try done. cbn. intros Hm. by rewrite P4 in E.
Qed.

Lemma inv_emit acts s stored now measure ev at_ : alarms_inv acts s -> al_pc s = Emitting now measure ev at_ ->
  let s' := notify new_id stored ev at_ (at_engine (after_stage now measure ev at_) s) in
  alarms_inv (acts ++ [Emit stored]) s' /\ (work s' < work s)%nat.
Proof.
  intros [Hp Ht [O1 O2 O3 O4 O5] Hc Hw [P1 P2 P3 P4 P5 P6]] E s'.
  assert (phase (al_main s) < 2)%nat as Hm.
  { destruct (Nat.lt_ge_cases (phase (al_main s)) 2); [done|]. by rewrite P4 in E. }
  assert (tick_inv (acts ++ [Emit stored]) s') as Ht'.
  { unfold tick_inv in *. rewrite E in Ht. rewrite ticks_snoc, app_nil_r. unfold s'.
    destruct at_; [done|by destruct (command_Notify ev (al_commands s)) eqn:En; cbn; rewrite En|
      by destruct (webhook_Notify ev (al_webhooks s)) eqn:En; cbn; rewrite En]. }
  rewrite E in O2, O3, O4. unfold s'. destruct at_; cbn [pending not_past List.filter] in O2, O3, O4.
  - split; [|unfold work, engine_work; cbn; rewrite E; lia]. split; [done|done| |done|done|].
    + split; [|by cbn; rewrite fmap_app, app_nil_r|done..].
      cbn [notify store_Notify al_db stores at_engine]. rewrite taken_snoc, fold_left_app. cbn [fst snd].
      by destruct stored; cbn; rewrite O1.
    + split; try done. cbn. lia.
  - assert (chan_closed (c_queue (al_commands s)) = false) as Hq by (rewrite P2; apply Nat.leb_gt; lia).
    destruct (command_Notify_spec home ev _ Hc Hq) as (c' & En & Hc' & Hq' & Hl & Ho & Hk).
    unfold notify. cbn [al_commands at_engine]. unfold s' in Ht'. unfold notify in Ht'. cbn [al_commands at_engine] in Ht'.
    rewrite En in Ht' |- *. split; [|unfold work, engine_work; cbn; rewrite E; lia]. split; [done|done| |done|done|].
    + split; cbn; try done. rewrite app_nil_r, Ho. exact O3.
    + split; cbn; try done; [exact (eq_trans Hq' (eq_trans (eq_sym Hq) P2))|lia|lia].
  - assert (chan_closed (w_queue (al_webhooks s)) = false) as Hq by (rewrite P3; apply Nat.leb_gt; lia).
    destruct (webhook_Notify_spec ev _ Hw Hq) as (w' & En & Hw' & Hq' & Hl & Ha & Ho & Hk).
    unfold notify. cbn [al_webhooks at_engine]. unfold s' in Ht'. unfold notify in Ht'. cbn [al_webhooks at_engine] in Ht'.
    rewrite En in Ht' |- *. split; [|unfold work, engine_work; cbn; rewrite E; lia]. split; [done|done| |done|done|].
    + split; cbn; try done; [rewrite app_nil_r, Ho; exact O4|congruence].
    + split; cbn; try done; [exact (eq_trans Hq' (eq_trans (eq_sym Hq) P3))|lia|lia].
Qed.

Lemma inv_see_stop acts s : alarms_inv acts s -> al_pc s = AtSelect -> al_stop s = true ->
  alarms_inv (acts ++ [SeeStop]) (at_engine EngineReturned s) /\ (work (at_engine EngineReturned s) < work s)%nat.
Proof.
  intros [Hp Ht [O1 O2 O3 O4 O5] Hc Hw [P1 P2 P3 P4 P5 P6]] E Hs. split; [|unfold work, engine_work; cbn; rewrite E; lia].
  unfold tick_inv in Ht. rewrite E in *. split; try done.
  unfold tick_inv. by rewrite ticks_snoc, app_nil_r.
Qed.

(** ** The notifiers' goroutines *)

Lemma inv_command acts s a c' : alarms_inv acts s -> command_loop home a (al_commands s) = Some c' ->
  alarms_inv (acts ++ [CommandAct a]) (with_commands (Some c') s) /\ (work (with_commands (Some c') s) < work s)%nat.
Proof.
  intros [Hp Ht [O1 O2 O3 O4 O5] Hc Hw [P1 P2 P3 P4 P5 P6]] E.
  destruct (command_loop_spec home a _ c' Hc E) as (Hc' & Hq & Ho & Hk).
  split; [|unfold work, engine_work; cbn; lia]. split; try done.
  - unfold tick_inv in *. by rewrite ticks_snoc, app_nil_r.
  - split; try done. cbn. by rewrite Ho.
  - split; try done; cbn; [by rewrite Hq|]. intros Hm. specialize (P5 Hm). unfold command_loop in E. rewrite P5 in E. by destruct a.
Qed.

Lemma inv_webhook acts s a w' : alarms_inv acts s -> webhook_loop a (al_webhooks s) = Some w' ->
  alarms_inv (acts ++ [WebhookAct a]) (with_webhooks (Some w') s) /\ (work (with_webhooks (Some w') s) < work s)%nat.
Proof.
  intros [Hp Ht [O1 O2 O3 O4 O5] Hc Hw [P1 P2 P3 P4 P5 P6]] E.
  destruct (webhook_loop_spec a _ w' Hw E) as (Hw' & Hq & Ho & Ha & Hk).
  split; [|unfold work, engine_work; cbn; lia]. split; try done.
  - unfold tick_inv in *. by rewrite ticks_snoc, app_nil_r.
  - split; try done; cbn; [by rewrite Ho|congruence].
  - split; try done; cbn; [by rewrite Hq|]. intros Hm. specialize (P6 Hm). unfold webhook_loop in E. rewrite P6 in E. by destruct a.
Qed.

(** ** The shutdown *)

Lemma inv_shutdown acts s s' : alarms_inv acts s -> shutdown_step s = Some s' ->
  alarms_inv (acts ++ [MainNext]) s' /\ (work s' < work s)%nat.
Proof.
  intros [Hp Ht [O1 O2 O3 O4 O5] Hc Hw [P1 P2 P3 P4 P5 P6]] E. unfold shutdown_step in E.
  destruct (al_main s) eqn:Em; cbn [phase] in P1, P2, P3, P4, P5, P6.
  - injection E as <-. split; [|unfold work, engine_work; cbn; rewrite Em; cbn; lia]. split; try done.
    + unfold tick_inv in *. by rewrite ticks_snoc, app_nil_r.
    + split; try done; cbn; lia.
  - destruct (al_pc s) eqn:Epc; try done. injection E as <-.
    destruct (command_Close_spec home _ Hc P2) as (c' & -> & Hc' & Hq & Ho & Hk).
    split; [|unfold work, engine_work; cbn; rewrite Em; cbn; lia]. split; try done.
    + unfold tick_inv in *. by rewrite ticks_snoc, app_nil_r.
    + split; cbn; rewrite ?Epc; try done. by rewrite Ho.
    + split; cbn; rewrite ?Epc; try done; lia.
  - destruct (c_loop (al_commands s)) eqn:El; try done. injection E as <-.
    destruct (webhook_Close_spec _ Hw P3) as (w' & -> & Hw' & Hq & Ho & Ha & Hk).
    split; [|unfold work, engine_work; cbn; rewrite Em; cbn; lia]. split; try done.
    + unfold tick_inv in *. by rewrite ticks_snoc, app_nil_r.
    + split; cbn; try done; [by rewrite Ho|congruence].
    + split; cbn; try done; [intros _; apply P4; lia|lia].
  - destruct (w_loop (al_webhooks s)) eqn:El; try done. injection E as <-.
    split; [|unfold work, engine_work; cbn; rewrite Em; cbn; lia]. split; try done.
    + unfold tick_inv in *. by rewrite ticks_snoc, app_nil_r.
    + split; cbn; try done; intros _; [apply P4; lia|apply P5; lia].
  - done.
Qed.

(** ** Runs *)

Lemma inv_step acts a s s' : alarms_inv acts s -> step home instance new_id a s = Some s' ->
  alarms_inv (acts ++ [a]) s' /\ (is_fire a = false -> (work s' < work s)%nat).
Proof.
  intros Hi E. unfold step in E. rewrite (ai_panicked _ _ Hi) in E.
  destruct a as [now measure| |stored| |a|a|].
  - destruct (al_pc s) eqn:Ep; try done. injection E as <-. split; [by apply inv_fire|done].
  - destruct (al_pc s) eqn:Ep; try done. injection E as <-. edestruct inv_rule; [done..|]. by split.
  - destruct (al_pc s) eqn:Ep; try done. injection E as <-. edestruct inv_emit; [done..|]. by split.
  - destruct (al_pc s) eqn:Ep; try done. destruct (al_stop s) eqn:Es; [|done]. injection E as <-.
    edestruct inv_see_stop; [done..|]. by split.
  - destruct (command_loop home a _) as [c'|] eqn:Ec; [|done]. injection E as <-. edestruct inv_command; [done..|]. by split.
  - destruct (webhook_loop a _) as [w'|] eqn:Ew; [|done]. injection E as <-. edestruct inv_webhook; [done..|]. by split.
  - edestruct inv_shutdown; [done..|]. by split.
Qed.

Lemma alarms_run_inv acts0 acts s s' : alarms_inv acts0 s -> run home instance new_id acts s = Some s' ->
  alarms_inv (acts0 ++ acts) s' /\ (existsb is_fire acts = false -> (work s' + length acts <= work s)%nat).
Proof.
  revert acts0 s. induction acts as [|a acts IH]; intros acts0 s Hi E; cbn in E.
  - injection E as <-. rewrite app_nil_r. split; [done|]. intros _. cbn [length]. lia.
  - destruct (step _ _ _ a s) as [s1|] eqn:Es; [|done]. destruct (inv_step acts0 a s s1 Hi Es) as [H1 Hk].
    destruct (IH _ _ H1 E) as [H2 Hk']. rewrite <- app_assoc in H2. split; [done|]. cbn [existsb length]. intros [Hf Hf']%orb_false_iff.
    specialize (Hk Hf). specialize (Hk' Hf'). lia.
Qed.

(** Once the shutdown has begun, some goroutine can go on until it is over. *)
Lemma shutdown_progress acts s : alarms_inv acts s -> al_stop s = true -> al_main s <> AlarmsClosed ->
  exists a s', is_fire a = false /\ step home instance new_id a s = Some s'.
Proof.
  intros [Hp Ht _ Hc Hw [P1 P2 P3 P4 P5 P6]] Hs Hm. unfold step. setoid_rewrite Hp.
  destruct (al_main s) eqn:Em; cbn [phase] in *; [by rewrite P1 in Hs| | | |done].
  - destruct (al_pc s) eqn:Ep.
    + exists SeeStop. rewrite Hs. by eexists.
    + exists CheckRule. by eexists.
    + exists (Emit true). by eexists.
    + exists MainNext. unfold shutdown_step. rewrite Em, Ep. by eexists.
  - destruct (decide (c_loop (al_commands s) = CommandReturned)) as [E|E].
    + exists MainNext. unfold shutdown_step. rewrite Em, E. by eexists.
    + destruct (command_loop_progress home _ P2 E) as (a & c' & Ea). exists (CommandAct a). rewrite Ea. by eexists.
  - destruct (w_loop (al_webhooks s)) eqn:E.
    5: { exists MainNext. unfold shutdown_step. rewrite Em, E. by eexists. }
    all: destruct (webhook_loop_progress (al_webhooks s) P3) as (a & w' & Ea); [by rewrite E|];
      exists (WebhookAct a); rewrite Ea; by eexists.
Qed.

Lemma with_commands_stop c s : al_stop (with_commands c s) = al_stop s.
Proof. by destruct c. Qed.
Lemma with_webhooks_stop w s : al_stop (with_webhooks w s) = al_stop s.
Proof. by destruct w. Qed.

Lemma step_stop a s s' : step home instance new_id a s = Some s' -> al_stop s = true -> al_stop s' = true.
Proof.
  unfold step. destruct (panicked s); [done|]. intros E Hs.
  destruct a; cbn in E.
  - destruct (al_pc s); try done. by injection E as <-.
  - destruct (al_pc s); try done. injection E as <-. unfold tick_rule. destruct (al_rest s) as [|st rest]; [done|].
    by destruct (check_rule _ _ _ _).
  - destruct (al_pc s) as [| |now measure ev at_|]; try done. injection E as <-.
    destruct at_; cbn [notify]; rewrite ?with_commands_stop, ?with_webhooks_stop; done.
  - destruct (al_pc s); try done. rewrite Hs in E. by injection E as <-.
  - destruct (command_loop _ _ _); [|done]. by injection E as <-.
  - destruct (webhook_loop _ _); [|done]. by injection E as <-.
  - unfold shutdown_step in E. destruct (al_main s);
      [|destruct (al_pc s); try done|destruct (c_loop _); try done|destruct (w_loop _); try done|done]; injection E as <-;
      by rewrite ?with_commands_stop, ?with_webhooks_stop.
Qed.

Lemma shutdown_ends acts s : alarms_inv acts s -> al_stop s = true ->
  exists acts' s', existsb is_fire acts' = false /\ run home instance new_id acts' s = Some s' /\ al_main s' = AlarmsClosed.
Proof.
  remember (work s) as n eqn:En. revert acts s En. induction (lt_wf n) as [n _ IH]. intros acts s -> Hi Hs.
  destruct (decide (al_main s = AlarmsClosed)) as [Hm|Hm]; [by exists [], s|].
  destruct (shutdown_progress acts s Hi Hs Hm) as (a & s1 & Hf & Ea). destruct (inv_step acts a s s1 Hi Ea) as [H1 Hk].
  destruct (IH (work s1) (Hk Hf) _ s1 eq_refl H1) as (acts' & s' & Hf' & Er & Hm'); [by eapply step_stop|].
  exists (a :: acts'), s'. cbn. rewrite Hf, Ea. done.
Qed.

Lemma run_start acts s : run home instance new_id acts (start_alarms rules agent d) = Some s -> alarms_inv acts s.
Proof. intros E. by apply (alarms_run_inv [] acts _ _ alarms_inv_start). Qed.

(** The events emitted are those of the engine over the ticks of the run. *)
Lemma emitted_of_ticks acts s : alarms_inv acts s ->
  emitted s `prefix_of` (run_engine instance (ticks acts) (NewEngine rules)).2 /\
  (current_tick (al_pc s) = None ->
     run_engine instance (ticks acts) (NewEngine rules) = (al_checked s ++ al_rest s, emitted s)).
Proof.
  intros Hi. pose proof (ai_tick _ _ Hi) as Ht. unfold tick_inv in Ht. destruct (current_tick _) as [[now measure]|].
  - split; [|done]. destruct Ht as (h & before & evs & -> & Hb & Ht & ->). rewrite run_engine_snoc, Hb, Tick_app, Ht. cbn.
    rewrite app_assoc. apply prefix_app_r. done.
  - destruct Ht as [Hr ->]. rewrite Hr, app_nil_r. done.
Qed.

(** C23. The delivery of alarms, over every interleaving of the engine, the two
    notifiers, the main goroutine and what surrounds them.  Nothing panics.  The
    events emitted are those of the engine over the ticks so far.  Each is
    offered in order to the table, to the command notifier when its rule wants
    the command, and to the webhook notifier when it has a webhook; the table
    has a row for each insert that succeeded.  The commands started are those
    of the events taken, in order and once each, with the line and environment
    of the event; a webhook event gets one attempt, or a second one with the
    same request after a failure, before the next event is looked at; and
    nothing is dropped before more than 64 events were offered. *)
Theorem alarms_delivered acts s (Hrun : run home instance new_id acts (start_alarms rules agent d) = Some s) :
  let c := al_commands s in
  let w := al_webhooks s in
  panicked s = false /\
  emitted s `prefix_of` (run_engine instance (ticks acts) (NewEngine rules)).2 /\
  (stores s).*1 ++ pending (al_pc s) AtStore = emitted s /\
  al_db s = fold_left (fun d ev => store_event new_id ev d) (taken (stores s)) d /\
  (c_offers c).*1 ++ List.filter command_wanted (pending (al_pc s) AtCommands) = List.filter command_wanted (emitted s) /\
  (w_offers w).*1 ++ List.filter webhook_wanted (pending (al_pc s) AtWebhooks) = List.filter webhook_wanted (emitted s) /\
  (exists started, taken (c_offers c) = started ++ buf (c_queue c) /\ c_runs c = command_run home <$> started) /\
  (exists over log failed, taken (w_offers w) = over ++ held (w_loop w) ++ buf (w_queue w) /\
     deliveries agent over log /\ w_posts w = log ++ failed /\
     if retrying (w_loop w)
     then exists ev r, held (w_loop w) = [ev] /\ post_ok r = false /\ failed = [(webhook_post agent ev, r)] else failed = []) /\
  drops_late (c_offers c) /\ drops_late (w_offers w).
Proof.
  intros c w. pose proof (run_start acts s Hrun) as Hi. destruct (emitted_of_ticks acts s Hi) as [He _].
  destruct Hi as [Hp _ [O1 O2 O3 O4 O5] [(started & (Q1 & _ & Q3) & Q4) _] [(over & log & (W1 & _ & W3) & W4 & failed & W5 & W6) _] _].
  rewrite O5 in *. split_and!; try done; [by exists started|]. exists over, log, failed. rewrite app_assoc. split_and!; try done.
Qed.

(** C26. The shutdown of the alarms.  From any state of the daemon in which it
    has begun it cannot be stuck: the goroutines can go on until the last
    [Close] has returned, and unless the ticker fires again they make at most
    [work] further steps, a bound computed from what is queued.  When it is
    over every event emitted has gone through: the engine has finished its
    tick, every event its command notifier took has had its command run, and
    every event the webhook notifier took has been delivered or has failed
    twice. *)
Theorem alarms_shut_down acts s (Hrun : run home instance new_id acts (start_alarms rules agent d) = Some s)
    (Hstop : al_stop s = true) :
  (exists acts' s', existsb is_fire acts' = false /\ run home instance new_id acts' s = Some s' /\ al_main s' = AlarmsClosed) /\
  (forall acts' s', existsb is_fire acts' = false -> run home instance new_id acts' s = Some s' -> (length acts' <= work s)%nat) /\
  (al_main s = AlarmsClosed ->
     run_engine instance (ticks acts) (NewEngine rules) = (al_checked s ++ al_rest s, emitted s) /\
     (stores s).*1 = emitted s /\
     (c_offers (al_commands s)).*1 = List.filter command_wanted (emitted s) /\
     c_runs (al_commands s) = command_run home <$> taken (c_offers (al_commands s)) /\
     (w_offers (al_webhooks s)).*1 = List.filter webhook_wanted (emitted s) /\
     deliveries agent (taken (w_offers (al_webhooks s))) (w_posts (al_webhooks s))).
Proof.
  pose proof (run_start acts s Hrun) as Hi. split; [|split].
  - by apply (shutdown_ends acts).
  - intros acts' s' Hf E. destruct (alarms_run_inv acts acts' s s' Hi E) as [_ Hk]. specialize (Hk Hf). lia.
  - intros Hm. destruct (emitted_of_ticks acts s Hi) as [_ He].
    destruct Hi as [_ _ [O1 O2 O3 O4 O5] [(started & (Q1 & _ & _) & Q4) Q5] [(over & log & (W1 & _ & _) & W4 & failed & W5 & W6) W7]
      [_ _ _ P4 P5 P6]]. rewrite Hm in P4, P5, P6. cbn in P4, P5, P6.
    rewrite P4 in * by lia. destruct Q5 as [_ Q5]; [apply P5; lia|]. destruct W7 as [_ W7]; [apply P6; lia|].
    rewrite P6 in * by lia. cbn in *. subst failed. rewrite ?app_nil_r in *. rewrite W1, W5, W7, Q1, Q4, Q5, ?app_nil_r, <- O5.
    split_and!; auto.
Qed.
End whole.

(** * The properties at concrete inputs *)

Definition paging_rule : Rule :=
  MkRule "low MOS" "network_mos" Below (f_decimal false 36 (-1)) (60 * GoTime.nanosecond_per_second) 2
    "" "" "/opt/notify $network_mos" "https://hooks.example/mos" false ScopeStreams "MOS".

(** A raise while the first command runs and the first post fails, then good
    quality, and a shutdown with a post still queued. *)
Definition paging_run : list action :=
  [Fire 0 (sample_measure (f64_of_Z 2) 5); CheckRule; Emit true; Emit true; CommandAct CommandTake; Emit true; CheckRule;
   WebhookAct WebhookTake; WebhookAct (Posted (Answered 503));
   Fire (10 * GoTime.nanosecond_per_second) (sample_measure (f64_of_Z 4) 5); MainNext; CheckRule; Emit false; Emit false;
   CommandAct (CommandDone true); Emit false].
Definition closing_run : list action :=
  [WebhookAct RetryNow; CheckRule; SeeStop; MainNext; CommandAct CommandTake; MainNext; WebhookAct (Posted (Answered 200));
   WebhookAct WebhookTake; WebhookAct (Posted (Answered 204)); WebhookAct WebhookTake; MainNext].

Definition first_id (ids : list Z) : Z := 1 + Z.of_nat (length ids).

Lemma alarms_delivered_witness :
  exists s, run "" (MkInstance "i" "n") first_id paging_run (start_alarms [paging_rule] "vq-db/2.3.0" empty_database) = Some s /\
    panicked s = false /\ ev_Kind <$> emitted s = [Raised; Cleared] /\
    a_kind <$> rtpmon_alarm_events (al_db s) = ["alarm"] /\
    fst <$> c_runs (al_commands s) = ["/opt/notify 2.000"] /\
    length (buf (w_queue (al_webhooks s))) = 1%nat /\
    (w_offers (al_webhooks s)).*1 = List.filter webhook_wanted (emitted s).
Proof.
  eexists. split; [vm_compute; reflexivity|].
  edestruct (alarms_delivered "" (MkInstance "i" "n") first_id [paging_rule] "vq-db/2.3.0" empty_database paging_run)
    as (Hp & _ & _ & _ & _ & Hw & _); [vm_compute; reflexivity|].
  split; [exact Hp|]. do 4 (split; [vm_compute; reflexivity|]). rewrite <- Hw. vm_compute. reflexivity.
Defined.

Lemma alarms_shut_down_witness :
  exists s, run "" (MkInstance "i" "n") first_id (paging_run ++ closing_run)
              (start_alarms [paging_rule] "vq-db/2.3.0" empty_database) = Some s /\
    al_main s = AlarmsClosed /\ (p_url <$> (w_posts (al_webhooks s)).*1) = replicate 3 "https://hooks.example/mos" /\
    deliveries "vq-db/2.3.0" (taken (w_offers (al_webhooks s))) (w_posts (al_webhooks s)).
Proof.
  eexists. split; [vm_compute; reflexivity|].
  edestruct (alarms_shut_down "" (MkInstance "i" "n") first_id [paging_rule] "vq-db/2.3.0" empty_database (paging_run ++ closing_run))
    as (_ & _ & Hd); [vm_compute; reflexivity|reflexivity|].
  split; [reflexivity|]. split; [vm_compute; reflexivity|]. apply Hd. reflexivity.
Defined.
