(* ===== verification/Mux.v ===== *)
(** Go's [net/http.ServeMux], as the API and the dashboard use it: patterns
    with a method and a path, literal elements before wildcards before the rest
    of a path, cleaned paths, redirects to a trailing slash, and the answer to a
    wrong method.  No pattern names a host. *)

From S2P Require Import Prelude GoFloat GoStrings Static Url.

(** * Paths *)

(** [url.PathUnescape]: like [QueryUnescape] without the plus. *)
Fixpoint PathUnescape (s : string) : option string :=
  match s with
  | EmptyString => Some ""
  | String c s =>
      if code c =? 37 then
        match s with
        | String h (String l s) =>
            h ← unhex h; l ← unhex l; t ← PathUnescape s; Some (String (chr (h * 16 + l)) t)
        | _ => None
        end
      else t ← PathUnescape s; Some (String c t)
  end.

(** [pathUnescape] of the routing tree: what cannot be unescaped stays. *)
Definition unescape_segment (s : string) : string := default s (PathUnescape s).

(** [cleanPath]: [path.Clean], which keeps a trailing slash. *)
Definition cleanPath (p : string) : string :=
  if String.eqb p "" then "/"
  else
    let p := if has_prefix "/" p then p else "/" +:+ p in
    let np := Clean p in
    if has_suffix "/" p && negb (String.eqb np "/") then np +:+ "/" else np.

(** What [firstSegment] cuts from a path, one after the other: elements are
    unescaped, and a trailing slash is the element "/". *)
Fixpoint segments_of (parts : list string) : list string :=
  match parts with
  | [] => []
  | [p] => if String.eqb p "" then ["/"] else [unescape_segment p]
  | p :: parts => unescape_segment p :: segments_of parts
  end.
Definition path_segments (path : string) : list string := segments_of (split_byte slash (str_drop 1 path)).

(** * Patterns *)

Inductive seg := Lit (s : string) | Wild (name : string) | Rest.
Record pattern := MkPattern { p_method : string; p_segs : list seg }.

(** [parsePattern]; "\{$\}" is the literal "/", and a pattern that ends in a
    slash matches what is below. *)
Definition parse_seg (p : string) : seg :=
  if String.eqb p "" then Rest
  else if String.eqb p "{$}" then Lit "/"
  else match p with
  | String c p' => if Ascii.eqb c "{" then Wild (str_take (String.length p' - 1) p') else Lit (unescape_segment p)
  | EmptyString => Rest
  end.
Definition parsePattern (s : string) : pattern :=
  match cut_byte " " s with
  | Some (method, path) => MkPattern method (parse_seg <$> split_byte slash (str_drop 1 path))
  | None => MkPattern "" (parse_seg <$> split_byte slash (str_drop 1 s))
  end.

(** * Matching *)

Section mux.
Context {A : Type}.

(** A registered pattern, and what is left of it in a descent of the tree. *)
Record registered := MkRegistered { r_pattern : pattern; r_handler : A }.
Definition branch : Type := list seg * registered.

Definition after_literal (s : string) (bs : list branch) : list branch :=
  omap (fun b => match b.1 with Lit s' :: segs => if String.eqb s s' then Some (segs, b.2) else None | _ => None end) bs.
Definition after_wildcard (bs : list branch) : list branch :=
  omap (fun b => match b.1 with Wild _ :: segs => Some (segs, b.2) | _ => None end) bs.
Definition ending (bs : list branch) : option registered :=
  head (omap (fun b => match b.1 with [] => Some b.2 | _ => None end) bs).
Definition multi (bs : list branch) : option registered :=
  head (omap (fun b => match b.1 with Rest :: _ => Some b.2 | _ => None end) bs).

(** [matchPath]: a literal element first, then a wildcard, which does not match
    a trailing slash, then the rest of the path. *)
Fixpoint matchPath (path : list string) (bs : list branch) (matches : list string) : option (registered * list string) :=
  match path with
  | [] => (fun r => (r, matches)) <$> ending bs
  | s :: path =>
      match matchPath path (after_literal s bs) matches with
      | Some r => Some r
      | None =>
          match (if String.eqb s "/" then None else matchPath path (after_wildcard bs) (matches ++ [s])) with
          | Some r => Some r
          | None => (fun r => (r, matches)) <$> multi bs
          end
      end
  end.

Definition mux := list registered.
Definition of_method (m : string) (x : mux) : list branch :=
  (fun r => (p_segs (r_pattern r), r)) <$> List.filter (fun r => String.eqb (p_method (r_pattern r)) m) x.

(** [matchMethodAndPath]: HEAD falls back to GET. *)
Definition tree_match (x : mux) (method : string) (path : list string) : option (registered * list string) :=
  match matchPath path (of_method method x) [] with
  | Some r => Some r
  | None =>
      match (if String.eqb method "HEAD" then matchPath path (of_method "GET" x) [] else None) with
      | Some r => Some r
      | None => matchPath path (of_method "" x) []
      end
  end.

(** [exactMatch]; [slashes] is [strings.Count(path, "/")]. *)
Definition exactMatch (m : option (registered * list string)) (trailing : bool) (slashes : nat) : bool :=
  match m with
  | None => false
  | Some (r, _) =>
      match last (p_segs (r_pattern r)) with
      | Some Rest => trailing && (length (p_segs (r_pattern r)) =? slashes)%nat
      | _ => true
      end
  end.
Definition slashes (path : string) : nat := length (split_byte slash path) - 1.

(** [matchingMethods], sorted. *)
Definition methods : list string := ["GET"; "HEAD"; "POST"].
Definition matchingMethods (x : mux) (path : string) : list string :=
  let has m path := bool_decide (is_Some (matchPath (path_segments path) (of_method m x) [])) in
  let allowed m := has m path || (negb (has_suffix "/" path) && has m (path +:+ "/")) in
  List.filter (fun m => allowed m || (String.eqb m "HEAD" && allowed "GET")) methods.

Inductive found :=
| Serve (handler : A) (values : list (string * string))  (** with the values of the pattern's wildcards *)
| MovedTo (path : string)
| NotAllowed (allow : list string)
| NotFound.

Definition wildcards (p : pattern) : list string :=
  omap (fun s => match s with Wild name => Some name | _ => None end) (p_segs p).

(** [findHandler] for a request whose URL has this escaped path. *)
Definition findHandler (x : mux) (method escapedPath : string) : found :=
  let path := cleanPath escapedPath in
  let m := tree_match x method (path_segments path) in
  let slashed := path +:+ "/" in
  if negb (exactMatch m (has_suffix "/" path) (slashes path)) && negb (has_suffix "/" path) &&
     exactMatch (tree_match x method (path_segments slashed)) true (slashes slashed)
  then MovedTo (cleanPath (unescape_segment escapedPath) +:+ "/")
  else if negb (String.eqb path escapedPath) then MovedTo path
  else match m with
  | Some (r, matches) => Serve (r_handler r) (zip (wildcards (r_pattern r)) matches)
  | None => match matchingMethods x path with [] => NotFound | allow => NotAllowed allow end
  end.
End mux.
Arguments registered : clear implicits.
Arguments mux : clear implicits.
Arguments found : clear implicits.

(** A table of routes, as [HandleFunc] registers it. *)
Definition new_mux {A} (routes : list (string * A)) : mux A :=
  (fun r => MkRegistered (parsePattern r.1) r.2) <$> routes.

(** [r.PathValue(name)]. *)
Definition PathValue (values : list (string * string)) (name : string) : string := default "" (mlookup name values).

(** * Paths of names *)

Lemma take_drop_str n s : str_take n s +:+ str_drop n s = s.
Proof. revert n. induction s as [|c s IH]; intros [|n]; cbn; try done. by rewrite IH. Qed.

Lemma ends_in_slash s : has_suffix "/" s = true -> last (split_byte slash s) = Some "".
Proof.
  unfold has_suffix. intros [_ E]%andb_true_iff. apply String.eqb_eq in E.
  rewrite <- (take_drop_str (String.length s - String.length "/") s), E. change "/" with (String slash "").
  rewrite split_app, last_app. done.
Qed.

(** A path that names an element of its parent at each level. *)
Definition names (l : list string) : Prop := l <> [] /\ Forall (fun e => plain e = true) l.

Lemma split_rooted l : names l -> split_byte slash ("/" +:+ join "/" l) = "" :: l.
Proof. intros [Hn Hl]. change "/" with ("" +:+ String slash "") at 1. rewrite str_app_assoc. cbn [String.append].
  change (String slash (join "/" l)) with ("" +:+ String slash (join "/" l)). rewrite split_app, split_plain by done. done. Qed.

Lemma names_no_trailing_slash l : names l -> has_suffix "/" ("/" +:+ join "/" l) = false.
Proof.
  intros Hl. destruct (has_suffix _ _) eqn:E; [|done]. apply ends_in_slash in E. rewrite split_rooted in E by done.
  destruct Hl as [Hn Hl]. rewrite last_cons in E. destruct (last l) as [x|] eqn:El; [|by apply last_None in El].
  injection E as ->. apply last_Some in El as [l' ->]. apply Forall_app in Hl as [_ Hl]. by apply Forall_cons in Hl as [? _].
Qed.

Lemma clean_names l out : Forall (fun e => plain e = true) l -> fold_left (clean_step true) l out = rev l ++ out.
Proof.
  revert out. induction l as [|e l IH]; intros out; [done|]. intros [He Hl]%Forall_cons. cbn [fold_left rev]. rewrite IH, <- app_assoc by done.
  f_equal. unfold clean_step. unfold plain in He. rewrite !andb_true_iff, !negb_true_iff in He. by destruct He as [[[-> ->] ->] _].
Qed.

Lemma cleanPath_names l : names l -> cleanPath ("/" +:+ join "/" l) = "/" +:+ join "/" l.
Proof.
  intros Hl. unfold cleanPath. assert (String.eqb ("/" +:+ join "/" l) "" = false) as -> by done.
  assert (has_prefix "/" ("/" +:+ join "/" l) = true) as -> by done.
  assert (Clean ("/" +:+ join "/" l) = "/" +:+ join "/" l) as ->; [|by rewrite names_no_trailing_slash].
  unfold Clean. rewrite split_rooted by done. destruct Hl as [Hn Hl]. cbn [is_abs has_prefix Ascii.eqb fold_left].
  change (is_abs ("/" +:+ join "/" l)) with true. cbv iota. do 2 f_equal. change (clean_step true [] "") with ([] : list string).
  by rewrite clean_names, app_nil_r, rev_involutive.
Qed.

Lemma segments_of_names l : Forall (fun e => plain e = true) l -> segments_of l = unescape_segment <$> l.
Proof.
  induction l as [|e l IH]; [done|]. intros [He Hl]%Forall_cons. destruct l as [|f l].
  - cbn. destruct (String.eqb_spec e "") as [->|]; done.
  - change (unescape_segment e :: segments_of (f :: l) = unescape_segment e :: (unescape_segment <$> (f :: l))). by rewrite IH.
Qed.

Lemma path_segments_names l : names l -> path_segments ("/" +:+ join "/" l) = unescape_segment <$> l.
Proof.
  intros [Hn Hl]. unfold path_segments. change (str_drop 1 ("/" +:+ join "/" l)) with (join "/" l).
  rewrite split_plain by done. by apply segments_of_names.
Qed.

(** ** Escaped names *)

(** Without a space, what [QueryEscape] writes reads back in a path. *)
Lemma path_unescape_escape s : contains_byte " " s = false -> PathUnescape (QueryEscape s) = Some s.
Proof.
  induction s as [|c s IH]; [done|]. cbn [QueryEscape contains_byte]. rewrite orb_false_iff. intros [Hc Hs]. specialize (IH Hs).
  destruct (unreserved c) eqn:Eu.
  - cbn [PathUnescape]. destruct (unreserved_plain c Eu) as [-> _]. by rewrite IH.
  - destruct (Z.eqb_spec (code c) 32) as [E|_].
    + exfalso. rewrite <- (chr_code c), E in Hc. done.
    + destruct (byte_digits c) as (Hh & Hl & Hd). cbn.
      rewrite (proj1 (hex_upper_facts _ Hh)), (proj1 (hex_upper_facts _ Hl)), IH. cbn. by rewrite Hd.
Qed.

(** A name that can be an element of a path. *)
Definition linkable (s : string) : Prop :=
  contains_byte " " s = false /\ s ∉ [""; "."; ".."; "/"].

#[export] Instance linkable_dec s : Decision (linkable s).
Proof. unfold linkable. apply _. Defined.

Lemma escape_fixed s t : contains_byte " " s = false -> PathUnescape t = Some t -> QueryEscape s = t -> s = t.
Proof. intros Hs Ht E. apply path_unescape_escape in Hs. rewrite E in Hs. congruence. Qed.

Lemma escape_plain s : linkable s -> plain (QueryEscape s) = true.
Proof.
  intros [Hs Hn]. rewrite !not_elem_of_cons in Hn. destruct Hn as (H1 & H2 & H3 & H4 & _).
  unfold plain. rewrite !andb_true_iff, !negb_true_iff. split_and!.
  - apply String.eqb_neq. intros E. by apply H1, escape_fixed.
  - apply String.eqb_neq. intros E. by apply H2, escape_fixed.
  - apply String.eqb_neq. intros E. by apply H3, escape_fixed.
  - by apply escape_free.
Qed.

Lemma unescape_escaped s : linkable s -> unescape_segment (QueryEscape s) = s.
Proof. intros [Hs _]. unfold unescape_segment. by rewrite path_unescape_escape. Qed.

(** A path of names with a slash after it. *)
Lemma join_slash l : l <> [] -> join "/" l +:+ "/" = join "/" (l ++ [""]).
Proof.
  induction l as [|e l IH]; [done|]. intros _. destruct l as [|f l]; [done|].
  change (join "/" ((e :: f :: l) ++ [""])) with (e +:+ "/" +:+ join "/" ((f :: l) ++ [""])).
  change (join "/" (e :: f :: l)) with (e +:+ "/" +:+ join "/" (f :: l)). by rewrite !str_app_assoc, IH.
Qed.

Lemma split_slashed l : names l -> split_byte slash (("/" +:+ join "/" l) +:+ "/") = "" :: l ++ [""].
Proof.
  intros [Hn Hl]. rewrite str_app_assoc, join_slash by done. change ("/" +:+ join "/" (l ++ [""])) with ("" +:+ String slash (join "/" (l ++ [""]))).
  rewrite split_app. change "/" with (String slash "") at 1. rewrite (split_join slash); [done|by destruct l|].
  apply Forall_app. split; [|by repeat constructor]. eapply Forall_impl; [done|]. apply plain_no_slash.
Qed.

Lemma segments_of_slashed l : Forall (fun e => plain e = true) l -> segments_of (l ++ [""]) = (unescape_segment <$> l) ++ ["/"].
Proof.
  induction l as [|e l IH]; [done|]. intros [He Hl]%Forall_cons. specialize (IH Hl). cbn [app]. rewrite fmap_cons. cbn [app].
  rewrite <- IH. by destruct l.
Qed.

Lemma path_segments_slashed l : names l -> path_segments (("/" +:+ join "/" l) +:+ "/") = (unescape_segment <$> l) ++ ["/"].
Proof.
  intros [Hn Hl]. unfold path_segments. rewrite str_app_assoc, join_slash by done.
  change (str_drop 1 ("/" +:+ join "/" (l ++ [""]))) with (join "/" (l ++ [""])). change "/" with (String slash "") at 1.
  rewrite (split_join slash); [by apply segments_of_slashed|by destruct l|].
  apply Forall_app. split; [|by repeat constructor]. eapply Forall_impl; [done|]. apply plain_no_slash.
Qed.

Section handler.
Context {A : Type} (x : mux A).

(** The handler of a path of names. *)
Lemma findHandler_names method l (segs := unescape_segment <$> l) r matches : names l ->
  tree_match x method segs = Some (r, matches) ->
  exactMatch (Some (r, matches)) false 0 = true \/ exactMatch (tree_match x method (segs ++ ["/"])) true (S (length l)) = false ->
  findHandler x method ("/" +:+ join "/" l) = Serve (r_handler r) (zip (wildcards (r_pattern r)) matches).
Proof.
  intros Hl Hm He. unfold findHandler. rewrite cleanPath_names, path_segments_names, path_segments_slashed, names_no_trailing_slash by done.
  fold segs. rewrite Hm, String.eqb_refl. unfold slashes at 2. rewrite split_slashed by done.
  replace (length ("" :: l ++ [""]) - 1)%nat with (S (length l)) by (cbn; rewrite length_app; cbn; lia).
  assert (forall n, exactMatch (Some (r, matches)) false n = exactMatch (Some (r, matches)) false 0) as En
    by (intros n; cbn; by repeat case_match).
  rewrite En. destruct He as [He|He]; rewrite He; cbn [negb andb]; [done|]. by rewrite !andb_false_r.
Qed.

(** ** What a match means *)

Fixpoint accepts (segs : list seg) (path : list string) : Prop :=
  match segs, path with
  | [], [] => True
  | Lit s :: segs, s' :: path => s = s' /\ accepts segs path
  | Wild _ :: segs, _ :: path => accepts segs path
  | Rest :: _, _ :: _ => True
  | _, _ => False
  end.

Lemma head_elem {B} (l : list B) b : head l = Some b -> b ∈ l.
Proof. destruct l; [done|]. intros [= ->]. by left. Qed.

Lemma matchPath_sound path (bs : list (branch (A := A))) matches r ms : matchPath path bs matches = Some (r, ms) ->
  exists segs, (segs, r) ∈ bs /\ accepts segs path.
Proof.
  revert bs matches. induction path as [|s path IH]; intros bs matches E; cbn in E.
  - destruct (ending bs) as [r'|] eqn:Ee; [|done]. injection E as -> _. apply head_elem, list_elem_of_omap in Ee as ([segs r0] & Hb & E).
    cbn in E. destruct segs; [|done]. injection E as ->. by exists [].
  - destruct (matchPath path (after_literal s bs) matches) as [[r1 ms1]|] eqn:E1.
    { injection E as -> ->. apply IH in E1 as (segs & Hs & Ha). apply list_elem_of_omap in Hs as ([segs0 r0] & Hb & E). cbn in E.
      destruct segs0 as [|[s'| |] segs0]; try done. destruct (String.eqb_spec s s') as [->|]; [|done]. injection E as -> ->. eexists. by split. }
    destruct (String.eqb s "/"); [|destruct (matchPath path (after_wildcard bs) _) as [[r1 ms1]|] eqn:E2].
    2: { injection E as -> ->. apply IH in E2 as (segs & Hs & Ha). apply list_elem_of_omap in Hs as ([segs0 r0] & Hb & E). cbn in E.
      destruct segs0 as [|[|n|] segs0]; try done. injection E as -> ->. eexists. by split. }
    all: destruct (multi bs) as [r'|] eqn:Em; [|done]; injection E as -> _;
      apply head_elem, list_elem_of_omap in Em as ([segs r0] & Hb & E); cbn in E;
      destruct segs as [|[| |] segs]; try done; injection E as ->; eexists; (split; [done|]); done.
Qed.

(** What a request has in common with the route that serves it. *)
Definition method_ok (method asked : string) : Prop := method = asked \/ method = "" \/ (asked = "HEAD" /\ method = "GET").

Lemma of_method_elem m segs (r : registered A) : (segs, r) ∈ of_method m x -> r ∈ x /\ segs = p_segs (r_pattern r) /\ p_method (r_pattern r) = m.
Proof.
  intros Hs. apply list_elem_of_fmap in Hs as (r' & [= -> ->] & Hr). apply elem_of_filter_bool in Hr as [? E].
  apply String.eqb_eq in E. done.
Qed.

Lemma tree_match_sound method path r ms : tree_match x method path = Some (r, ms) ->
  r ∈ x /\ accepts (p_segs (r_pattern r)) path /\ method_ok (p_method (r_pattern r)) method.
Proof.
  unfold tree_match, method_ok. intros E. destruct (matchPath path (of_method method x) []) as [[r1 ms1]|] eqn:E1.
  { injection E as -> ->. apply matchPath_sound in E1 as (segs & (Hr & -> & Hm)%of_method_elem & Ha). split_and!; auto 6. }
  destruct (String.eqb_spec method "HEAD") as [->|_]; [destruct (matchPath path (of_method "GET" x) []) as [[r1 ms1]|] eqn:E2|].
  { injection E as -> ->. apply matchPath_sound in E2 as (segs & (Hr & -> & Hm)%of_method_elem & Ha). split_and!; auto 6. }
  all: apply matchPath_sound in E as (segs & (Hr & -> & Hm)%of_method_elem & Ha); split_and!; auto 6.
Qed.

Lemma findHandler_sound method path h values : findHandler x method path = Serve h values ->
  exists r, r ∈ x /\ r_handler r = h /\ accepts (p_segs (r_pattern r)) (path_segments path) /\ method_ok (p_method (r_pattern r)) method.
Proof.
  unfold findHandler. destruct (negb _ && _ && _); [done|]. destruct (String.eqb_spec (cleanPath path) path) as [->|]; [|done].
  cbn [negb]. destruct (tree_match x method (path_segments path)) as [[r ms]|] eqn:E; [|by destruct (matchingMethods _ _)].
  intros [= <- _]. apply tree_match_sound in E as (Hr & Ha & Hm). by exists r.
Qed.
End handler.
