(* ===== verification/Server.v ===== *)
(** The HTTP side put together: the route tables of the API
    ([internal/api/app.go], [Handler]) and of the dashboard
    ([internal/web/app.go], [Handler]) and which handler a request gets.

    The sockets, the parsing of requests and the writing of responses are the
    HTTP server's. *)

From S2P Require Import Prelude GoFloat GoStrings Model Queries Workers Url Static Mux Web Views Pages.
From S2P Require Api Rows Writer WriterInv Transport.

(** * The dashboard *)

Inductive web_handler :=
| WRedirectToSummary | WSummary | WCore | WStreams | WStreamDetail | WSipCalls | WSipCallDetail | WChunkDetail
| WTrack | WAlarms | WTrackAdd | WTrackRemove | WTrackClear | WStatic.

Definition web_routes : list (string * web_handler) :=
  [("GET /ui/{$}", WRedirectToSummary);
   ("GET /ui/summary", WSummary);
   ("GET /ui/core", WCore);
   ("GET /ui/streams", WStreams);
   ("GET /ui/stream/{id}", WStreamDetail);
   ("GET /ui/sip-calls", WSipCalls);
   ("GET /ui/sip-call/{id}", WSipCallDetail);
   ("GET /ui/chunk/{id}/{ts}", WChunkDetail);
   ("GET /ui/track", WTrack);
   ("GET /ui/alarms", WAlarms);
   ("POST /ui/track/add", WTrackAdd);
   ("POST /ui/track/remove", WTrackRemove);
   ("POST /ui/track/clear", WTrackClear);
   ("GET /ui/static/", WStatic)].

(** * The API *)

#[local] Instance TrackOp_eq_dec : EqDecision TrackOp.
Proof. solve_decision. Defined.

Inductive api_handler :=
| HInstanceList | HServerStats | HVersion | HSummary | HSipCalls | HSipCall | HAlarms | HSipEvents | HAudio
| HStreamHistory | HReport | HStats | HTrack (op : TrackOp) (require : bool)
| HUI | HRedirectToUI | HServeStatic.
#[local] Instance api_handler_eq_dec : EqDecision api_handler.
Proof. solve_decision. Defined.

(** [ui]: whether there is a dashboard. *)
Definition api_routes (ui : bool) (static_dir : string) : list (string * api_handler) :=
  [("GET /instance_list", HInstanceList);
   ("GET /server_stats", HServerStats);
   ("GET /version", HVersion);
   ("GET /dashboard/summary", HSummary);
   ("GET /summary", HSummary);
   ("GET /sip_calls", HSipCalls);
   ("GET /sip_call", HSipCall);
   ("GET /alarms", HAlarms);
   ("GET /sip_events", HSipEvents);
   ("GET /audio", HAudio);
   ("GET /streamhistory", HStreamHistory);
   ("GET /report", HReport);
   ("GET /stats", HStats);
   ("GET /track", HTrack TrackQuery false);
   ("GET /track/add", HTrack TrackAdd true);
   ("GET /track/remove", HTrack TrackRemove true);
   ("GET /track/replace", HTrack TrackReplace false)] ++
  (if ui then [("GET /ui/", HUI); ("POST /ui/", HUI); ("GET /{$}", HRedirectToUI)]
   else if negb (String.eqb static_dir "") then [("GET /", HServeStatic)] else []).

(** * Dispatch *)

Inductive handler := ApiHandler (h : api_handler) | WebHandler (h : web_handler).

Definition found_map {A B} (f : A -> B) (r : found A) : found B :=
  match r with
  | Serve h values => Serve (f h) values
  | MovedTo path => MovedTo path
  | NotAllowed allow => NotAllowed allow
  | NotFound => NotFound
  end.

(** The API's mux hands what is below [/ui/] to the dashboard's. *)
Definition dispatch (ui : bool) (static_dir method escapedPath : string) : found handler :=
  match findHandler (new_mux (api_routes ui static_dir)) method escapedPath with
  | Serve HUI _ => found_map WebHandler (findHandler (new_mux web_routes) method escapedPath)
  | r => found_map ApiHandler r
  end.

(** * Requests and answers *)

(** [req_path] is the escaped path; [req] what the handlers read. *)
Record http_request := MkHttpRequest { req_method : string; req_path : string; req : request }.

Inductive answer :=
| AApi (r : Api.response) | AStatic (r : static_response) | AAsset (path : string)
| ASummary (p : web_response summaryData) | ACore (p : web_response (option coreData)) | AStreams (p : web_response streamsData)
| AStream (p : web_response streamDetail) | ACalls (p : web_response callsData) | ACall (p : web_response callDetail)
| AChunk (p : web_response chunkDetail) | ATrack (p : web_response (option Z * option trackData))
| AAlarms (p : web_response alarmsData)
| ARedirect (status : Z) (location : string)
| AMethodNotAllowed (allow : list string) | ANotFound
| APanic.

Definition answered {T} (f : T -> answer) (r : option T) : answer := match r with Some r => f r | None => APanic end.

(** The times a handler reads: the clock at two queries, and the seconds of the
    streams page. *)
Record clock := MkClock { now1 : Z; now2 : Z; now_s : Z }.

Section server.
Context `{UnicodeTables} `{Rows.LocalZone} `{Engine} `{SortSlice} {C : Type} `{!Control C}.
Context (error_text : query_error -> string) (a : App) (ui : bool) (static_dir : string) (view : option (Z -> Api.AlarmView)).
Context (getwd : option string) (stat : string -> option bool) (read_file : string -> option string).

Definition run_api (h : api_handler) (r : request) (t : clock) (control : option C) (w : Writer.writer)
    : answer * option C * Writer.writer :=
  let d := deps a in
  let q := ParseQuery (RawQuery r) in
  let reads x := (x, control, w) in
  match h with
  | HInstanceList => reads (AApi (Api.instanceList error_text))
  | HServerStats => reads (AApi (Api.serverStats d))
  | HVersion => reads (AApi (Api.version d))
  | HSummary => reads (answered AApi (Api.summary error_text d (now1 t) (now2 t)))
  | HSipCalls => reads (AApi (Api.sipCalls error_text d q))
  | HSipCall => reads (AApi (Api.sipCall error_text d q))
  | HAlarms => reads (AApi (Api.alarms d view q))
  | HSipEvents => reads (AApi (Api.sipEvents error_text d q))
  | HAudio => reads (AApi (Api.audio error_text q))
  | HStreamHistory => reads (answered AApi (Api.streamHistory error_text d q))
  | HReport => reads (answered AApi (Api.report error_text d q))
  | HStats => reads (answered AApi (Api.stats error_text d q))
  | HTrack op require => let '(x, c, w) := Api.track true op require q control w in (AApi x, c, w)
  | HUI => reads ANotFound (* handed to the dashboard by [dispatch] *)
  | HRedirectToUI => reads (AStatic (redirectToUI (Forwarded r)))
  | HServeStatic => reads (AStatic (serveStatic getwd stat read_file static_dir (Path r) (RawQuery r) (Forwarded r)))
  end.

Definition see_other (r : string * option C * Writer.writer) : answer * option C * Writer.writer :=
  let '(location, c, w) := r in (ARedirect 303 location, c, w).

Definition run_web (h : web_handler) (values : list (string * string)) (r : request) (t : clock) (control : option C)
    (w : Writer.writer) : answer * option C * Writer.writer :=
  let reads x := (x, control, w) in
  match h with
  | WRedirectToSummary => reads (ARedirect 302 (redirectToSummary (Forwarded r)))
  | WSummary => reads (answered ASummary (summaryPage a r (now1 t) (now2 t)))
  | WCore => reads (ACore (corePage a r))
  | WStreams => reads (answered AStreams (streamsPage error_text a r (now_s t)))
  | WStreamDetail => reads (answered AStream (streamDetailPage error_text a r (PathValue values "id")))
  | WSipCalls => reads (ACalls (sipCallsPage error_text a r))
  | WSipCallDetail => reads (answered ACall (sipCallDetailPage error_text a r (PathValue values "id")))
  | WChunkDetail => reads (answered AChunk (chunkDetailPage error_text a r (PathValue values "id") (PathValue values "ts")))
  | WTrack => let '(p, c) := trackPage a r control in (ATrack p, c, w)
  | WAlarms => reads (AAlarms (alarmsPage a r view))
  | WTrackAdd => see_other (trackAdd true r control w)
  | WTrackRemove => see_other (trackRemove true r control w)
  | WTrackClear => see_other (trackClear true r control w)
  | WStatic => reads (AAsset (str_drop 3 (Path r)))
  end.

(** A request, with the control connection and the database it may change. *)
Definition serve (x : http_request) (t : clock) (control : option C) (w : Writer.writer) : answer * option C * Writer.writer :=
  match dispatch ui static_dir (req_method x) (req_path x) with
  | Serve (ApiHandler h) _ => run_api h (req x) t control w
  | Serve (WebHandler h) values => run_web h values (req x) t control w
  | MovedTo path => (ARedirect 301 path, control, w)
  | NotAllowed allow => (AMethodNotAllowed allow, control, w)
  | NotFound => (ANotFound, control, w)
  end.
End server.

(** * Who may change the track list *)

(** The routes that store a track list, and those that ask the engine for its
    own: a method and the elements of the path. *)
Definition track_writes : list (string * list string) :=
  [("POST", ["ui"; "track"; "add"]); ("POST", ["ui"; "track"; "remove"]); ("POST", ["ui"; "track"; "clear"]);
   ("GET", ["track"; "add"]); ("GET", ["track"; "remove"]); ("GET", ["track"; "replace"])].
Definition track_reads : list (string * list string) := [("GET", ["ui"; "track"]); ("GET", ["track"])].

Definition asks_for (x : http_request) (r : string * list string) : Prop :=
  (req_method x = r.1 \/ (req_method x = "HEAD" /\ r.1 = "GET")) /\ path_segments (req_path x) = r.2.

Definition changes_store (h : handler) : bool :=
  match h with
  | WebHandler (WTrackAdd | WTrackRemove | WTrackClear) => true
  | ApiHandler (HTrack op _) => negb (Api.is_query op)
  | _ => false
  end.
Definition uses_control (h : handler) : bool :=
  changes_store h || match h with WebHandler WTrack | ApiHandler (HTrack _ _) => true | _ => false end.

(** A request that a handler serves without changing anything. *)
Section reads.
Context `{UnicodeTables} `{Rows.LocalZone} `{Engine} `{SortSlice} {C : Type} `{!Control C}.
Context (error_text : query_error -> string) (a : App) (ui : bool) (static_dir : string) (view : option (Z -> Api.AlarmView)).
Context (getwd : option string) (stat : string -> option bool) (read_file : string -> option string).

Lemma run_api_reads h r t control w :
  (changes_store (ApiHandler h) = false -> (run_api error_text a static_dir view getwd stat read_file h r t control w).2 = w) /\
  (uses_control (ApiHandler h) = false -> (run_api error_text a static_dir view getwd stat read_file h r t control w).1.2 = control).
Proof.
  unfold uses_control. destruct h as [| | | | | | | | | | | |op require| | |]; try by split. split; [|by destruct op].
  intros Hq. cbn. unfold Api.track. destruct op; try done. destruct control as [c|]; [|done].
  destruct (_ && _); [done|]. destruct (Send _ _ _) as [ack c']. by destruct (TransportOK ack).
Qed.

Lemma run_web_reads h values r t control w :
  (changes_store (WebHandler h) = false -> (run_web error_text a view h values r t control w).2 = w) /\
  (uses_control (WebHandler h) = false -> (run_web error_text a view h values r t control w).1.2 = control).
Proof.
  destruct h; try by split. split; [|done]. intros _. cbn. by destruct (trackPage a r control) as [p c].
Qed.
End reads.

(** A literal pattern is matched by its own elements. *)
Fixpoint literals (segs : list seg) : option (list string) :=
  match segs with
  | [] => Some []
  | Lit s :: segs => l ← literals segs; Some (s :: l)
  | _ => None
  end.

Lemma accepts_literals segs path l : accepts segs path -> literals segs = Some l -> path = l.
Proof.
  revert path l. induction segs as [|[s| |] segs IH]; intros [|s' path] l; cbn; try done; [by intros _ [= <-]|].
  intros [-> Ha]. destruct (literals segs) as [l'|] eqn:E; [|done]. intros [= <-]. f_equal. by apply IH.
Qed.

(** Where a handler that needs a track list is registered. *)
Definition registered_at (rs : list (string * list string)) {A} (wanted : A -> bool) (x : mux A) : bool :=
  forallb (fun r => implb (wanted (r_handler r))
    (match literals (p_segs (r_pattern r)) with
     | Some l => bool_decide ((p_method (r_pattern r), l) ∈ rs)
     | None => false
     end)) x.

Lemma registered_at_sound rs {A} (wanted : A -> bool) (x : mux A) method path h values :
  registered_at rs wanted x = true -> findHandler x method path = Serve h values -> wanted h = true ->
  exists r, r ∈ rs /\ (method = r.1 \/ (method = "HEAD" /\ r.1 = "GET") \/ r.1 = "") /\ path_segments path = r.2.
Proof.
  unfold registered_at. rewrite forallb_forall. intros Hx E Hh.
  apply findHandler_sound in E as (r & Hr%list_elem_of_In & <- & Ha & Hm). specialize (Hx r Hr). rewrite Hh in Hx. cbn in Hx.
  destruct (literals _) as [l|] eqn:El; [|done]. apply bool_decide_eq_true in Hx. eexists. split; [exact Hx|]. cbn.
  split; [|by apply (accepts_literals (p_segs (r_pattern r)))]. destruct Hm as [?|[?|[? ?]]]; auto.
Qed.

Lemma found_map_Serve {A B} (f : A -> B) r h values : found_map f r = Serve h values -> exists h', r = Serve h' values /\ h = f h'.
Proof. destruct r; try done. intros [= <- <-]. eauto. Qed.

Lemma dispatch_registered rs wanted ui static_dir method path h values :
  registered_at rs (fun h => wanted (ApiHandler h)) (new_mux (api_routes ui static_dir)) = true ->
  registered_at rs (fun h => wanted (WebHandler h)) (new_mux web_routes) = true ->
  Forall (fun r => r.1 <> "") rs -> dispatch ui static_dir method path = Serve h values -> wanted h = true ->
  exists r, r ∈ rs /\ (method = r.1 \/ (method = "HEAD" /\ r.1 = "GET")) /\ path_segments path = r.2.
Proof.
  intros Ha Hw Hne E Hh. rewrite Forall_forall in Hne.
  assert (exists r, r ∈ rs /\ (method = r.1 \/ (method = "HEAD" /\ r.1 = "GET") \/ r.1 = "") /\ path_segments path = r.2)
    as (r & Hr & Hm & Hp); [|exists r; split; [done|]; split; [|done]; destruct Hm as [?|[?|?]]; auto; by destruct (Hne r)].
  unfold dispatch in E. destruct (findHandler (new_mux (api_routes ui static_dir)) method path) as [h' vs| | |] eqn:Ef; try done.
  destruct (decide (h' = HUI)) as [->|Hn].
  - apply found_map_Serve in E as (hw & E & ->). by apply (registered_at_sound rs _ _ _ _ _ _ Hw E).
  - assert (h = ApiHandler h') as -> by (destruct h'; try done; by injection E).
    by apply (registered_at_sound rs _ _ _ _ _ _ Ha Ef).
Qed.

Section writes.
Context `{UnicodeTables} `{Rows.LocalZone} `{Engine} `{SortSlice} {C : Type} `{!Control C}.
Context (error_text : query_error -> string) (a : App) (ui : bool) (static_dir : string) (view : option (Z -> Api.AlarmView)).
Context (getwd : option string) (stat : string -> option bool) (read_file : string -> option string).

(** C25. Only the track routes change anything.  Whatever a client sends, the
    database is as before unless the request asks for one of the six routes
    that change the track list, and the connection to the engine is as before
    unless it asks for one of those or of the two that show the list: the
    dashboard's with POST, the API's with GET (or HEAD), and each by exactly its
    path. *)
Theorem only_track_routes_write x t (control : option C) w :
  let r := serve error_text a ui static_dir view getwd stat read_file x t control w in
  (r.2 <> w -> exists route, route ∈ track_writes /\ asks_for x route) /\
  (r.1.2 <> control -> exists route, route ∈ track_writes ++ track_reads /\ asks_for x route).
Proof.
  unfold serve. destruct (dispatch ui static_dir (req_method x) (req_path x)) as [h values| | |] eqn:E; [|by split..].
  assert (forall rs wanted, Forall (fun r => r.1 <> "") rs ->
    registered_at rs (fun h => wanted (ApiHandler h)) (new_mux (api_routes ui static_dir)) = true ->
    registered_at rs (fun h => wanted (WebHandler h)) (new_mux web_routes) = true ->
    wanted h = true -> exists route, route ∈ rs /\ asks_for x route) as Hd.
  { intros rs wanted Hne Ha Hw Hh. by apply (dispatch_registered rs wanted _ _ _ _ _ _ Ha Hw Hne E). }
  cbn zeta. split; intros Hne.
  - apply (Hd track_writes changes_store); [by repeat constructor| |vm_compute; reflexivity|].
    + unfold api_routes. destruct ui; [|destruct (String.eqb static_dir "")]; vm_compute; reflexivity.
    + destruct (changes_store h) eqn:Eh; [done|]. exfalso. apply Hne. destruct h; [by apply run_api_reads|by apply run_web_reads].
  - apply (Hd (track_writes ++ track_reads) uses_control); [by repeat constructor| |vm_compute; reflexivity|].
    + unfold api_routes. destruct ui; [|destruct (String.eqb static_dir "")]; vm_compute; reflexivity.
    + destruct (uses_control h) eqn:Eh; [done|]. exfalso. apply Hne. destruct h; [by apply run_api_reads|by apply run_web_reads].
Qed.
End writes.

(** * The links of the dashboard *)

(** The navigation ([layout.html]), and the detail links the pages build from an
    id with [queryEsc]. *)
Definition navigation : list (string * web_handler) :=
  [("/ui/summary", WSummary); ("/ui/core", WCore); ("/ui/streams", WStreams); ("/ui/sip-calls", WSipCalls);
   ("/ui/track", WTrack); ("/ui/alarms", WAlarms)].
Definition stream_link (id : string) : string := "/ui/stream/" +:+ QueryEscape id.
Definition call_link (id : string) : string := "/ui/sip-call/" +:+ QueryEscape id.
Definition chunk_link (id : string) (ts : Z) : string := "/ui/chunk/" +:+ QueryEscape id +:+ "/" +:+ itoa ts.

Lemma escape_unreserved s : str_forall unreserved s = true -> QueryEscape s = s.
Proof. induction s as [|c s IH]; [done|]. cbn. intros [-> Hs]%andb_true_iff. by rewrite IH. Qed.

Lemma itoa_linkable ts : in_int64 ts -> linkable (itoa ts) /\ QueryEscape (itoa ts) = itoa ts.
Proof.
  intros Hts. assert (forall p, (forall c, decimal_digit c = true -> p c = true) -> p "-"%char = true -> str_forall p (itoa ts) = true) as Hp
    by (intros p ? ?; by apply Transport.itoa_forall).
  split; [|apply escape_unreserved, Hp; [|done]; intros [[] [] [] [] [] [] [] []]; vm_compute; congruence].
  split; [apply (contains_forall " " (fun c => negb (Ascii.eqb c " "))); [|done]; apply Hp; [|done];
    intros [[] [] [] [] [] [] [] []]; vm_compute; congruence|].
  intros Hi. pose proof (atoi_itoa ts Hts) as Ha. revert Ha. rewrite !elem_of_cons, elem_of_nil in Hi.
  destruct Hi as [->|[->|[->|[->|[]]]]]; vm_compute; congruence.
Qed.

Lemma matchPath_nil {A} path ms : matchPath (A := A) path [] ms = None.
Proof. revert ms. induction path as [|s path IH]; intros ms; [done|]. cbn. rewrite !IH. by destruct (String.eqb s "/"). Qed.

Lemma matchPath_rest {A} s path (r : registered A) ms : matchPath (s :: path) [([Rest], r)] ms = Some (r, ms).
Proof.
  cbn [matchPath]. change (after_literal s [([Rest], r)]) with (@nil (branch (A := A))).
  change (after_wildcard [([Rest], r)]) with (@nil (branch (A := A))). rewrite !matchPath_nil. by destruct (String.eqb s "/").
Qed.

(** The API's mux hands every path of names below [/ui/] to the dashboard's. *)
Lemma dispatch_ui static_dir method l : method ∈ ["GET"; "POST"] -> names ("ui" :: l) -> l <> [] ->
  dispatch true static_dir method ("/" +:+ join "/" ("ui" :: l)) =
  found_map WebHandler (findHandler (new_mux web_routes) method ("/" +:+ join "/" ("ui" :: l))).
Proof.
  intros Hm Hl Hn. unfold dispatch.
  assert (after_literal "ui" (of_method method (new_mux (api_routes true static_dir))) =
    [([Rest], MkRegistered (parsePattern (method +:+ " /ui/")) HUI)]) as Hb.
  { rewrite !elem_of_cons, elem_of_nil in Hm. destruct Hm as [->|[->|[]]]; vm_compute; reflexivity. }
  assert (forall s path, exists r, tree_match (new_mux (api_routes true static_dir)) method ("ui" :: s :: path) = Some (r, []) /\
    r_handler r = HUI /\ p_segs (r_pattern r) = [Lit "ui"; Rest]) as Hui.
  { intros s path. eexists. unfold tree_match. remember (s :: path) as rest eqn:Er. cbn [matchPath]. rewrite Hb, Er, matchPath_rest. split; [done|].
    rewrite !elem_of_cons, elem_of_nil in Hm. by destruct Hm as [->|[->|[]]]. }
  destruct l as [|e l]; [done|]. destruct (Hui (unescape_segment e) (unescape_segment <$> l)) as (r & Hr & Hh & Hs).
  rewrite (findHandler_names _ method ("ui" :: e :: l) r []); [by rewrite Hh|done|done|].
  right. rewrite !fmap_cons. change (unescape_segment "ui") with "ui". cbn [app]. destruct (Hui (unescape_segment e) ((unescape_segment <$> l) ++ ["/"])) as (r' & -> & _ & Hs').
  cbn. by rewrite Hs'.
Qed.

(** The dashboard's mux, at a path of names that a route without a trailing
    slash takes. *)
Lemma web_handler_at method l r ms (segs := unescape_segment <$> l) : names l ->
  tree_match (new_mux web_routes) method segs = Some (r, ms) ->
  exactMatch (Some (r, ms)) false 0 = true ->
  findHandler (new_mux web_routes) method ("/" +:+ join "/" l) = Serve (r_handler r) (zip (wildcards (r_pattern r)) ms).
Proof. intros Hl Hm He. apply (findHandler_names _ method l r ms); [done|done|by left]. Qed.

Lemma dispatch_web static_dir method l h values r ms :
  method ∈ ["GET"; "POST"] -> names ("ui" :: l) -> l <> [] ->
  tree_match (new_mux web_routes) method (unescape_segment <$> ("ui" :: l)) = Some (r, ms) ->
  exactMatch (Some (r, ms)) false 0 = true -> r_handler r = h -> zip (wildcards (r_pattern r)) ms = values ->
  dispatch true static_dir method ("/" +:+ join "/" ("ui" :: l)) = Serve (WebHandler h) values.
Proof. intros Hm Hl Hn Ht He <- <-. by rewrite dispatch_ui, (web_handler_at method _ r ms). Qed.

(** Steps of a descent. *)
Lemma match_literal {A} s path (bs bs' : list (branch (A := A))) ms r :
  after_literal s bs = bs' -> matchPath path bs' ms = Some r -> matchPath (s :: path) bs ms = Some r.
Proof. intros <- E. cbn [matchPath]. by rewrite E. Qed.

Lemma match_wildcard {A} s path n segs (r : registered A) ms m : String.eqb s "/" = false ->
  matchPath path [(segs, r)] (ms ++ [s]) = Some m -> matchPath (s :: path) [(Wild n :: segs, r)] ms = Some m.
Proof.
  intros Hs E. cbn [matchPath]. change (after_literal s [(Wild n :: segs, r)]) with (@nil (branch (A := A))).
  change (after_wildcard [(Wild n :: segs, r)]) with [(segs, r)]. by rewrite matchPath_nil, Hs, E.
Qed.

Lemma tree_match_of {A} (x : mux A) method path m : matchPath path (of_method method x) [] = Some m -> tree_match x method path = Some m.
Proof. unfold tree_match. by intros ->. Qed.

Lemma linkable_not_slash s : linkable s -> String.eqb s "/" = false.
Proof. intros [_ Hn]. rewrite !not_elem_of_cons in Hn. apply String.eqb_neq. by destruct Hn as (_ & _ & _ & ? & _). Qed.

(** The pages of one stream or call, and of a chunk. *)
Definition details : list (string * web_handler) := [("stream", WStreamDetail); ("sip-call", WSipCallDetail)].

Lemma dispatch_detail static_dir kind h id : (kind, h) ∈ details -> linkable id ->
  dispatch true static_dir "GET" ("/ui/" +:+ kind +:+ "/" +:+ QueryEscape id) = Serve (WebHandler h) [("id", id)].
Proof.
  intros Hk Hid. pose proof (escape_plain id Hid) as Hp. pose proof (unescape_escaped id Hid) as Hu.
  pose proof (linkable_not_slash id Hid) as Hs.
  assert (plain kind = true /\ tree_match (new_mux web_routes) "GET" (unescape_segment <$> ["ui"; kind; QueryEscape id]) =
    Some (MkRegistered (parsePattern ("GET /ui/" +:+ kind +:+ "/{id}")) h, [id]) /\
    wildcards (parsePattern ("GET /ui/" +:+ kind +:+ "/{id}")) = ["id"] /\
    exactMatch (Some (MkRegistered (parsePattern ("GET /ui/" +:+ kind +:+ "/{id}")) h, [id])) false 0 = true) as (Hpk & Ht & Hw & He).
  { unfold details in Hk. rewrite !elem_of_cons, elem_of_nil in Hk. cbn [fmap list_fmap]. rewrite Hu.
    destruct Hk as [[= -> ->]|[[= -> ->]|[]]]; (split; [done|]; split; [|done]); apply tree_match_of;
      (eapply match_literal; [vm_compute; reflexivity|]); (eapply match_literal; [vm_compute; reflexivity|]);
      (apply match_wildcard; [done|]); done. }
  change ("/ui/" +:+ kind +:+ "/" +:+ QueryEscape id) with ("/" +:+ join "/" ("ui" :: [kind; QueryEscape id])).
  apply (dispatch_web static_dir "GET" _ h _ _ _ ltac:(by left)) with (4 := He); [|done|done|done|by cbn [r_pattern]; rewrite Hw].
  split; [done|]. by repeat constructor.
Qed.

Lemma dispatch_chunk static_dir id ts : linkable id -> in_int64 ts ->
  dispatch true static_dir "GET" (chunk_link id ts) = Serve (WebHandler WChunkDetail) [("id", id); ("ts", itoa ts)].
Proof.
  intros Hid Hts. destruct (itoa_linkable ts Hts) as [Hl Ee]. pose proof (escape_plain _ Hl) as Hp'. pose proof (unescape_escaped _ Hl) as Hu'.
  rewrite Ee in Hp', Hu'. pose proof (escape_plain id Hid) as Hp. pose proof (unescape_escaped id Hid) as Hu.
  pose proof (linkable_not_slash id Hid) as Hs.
  pose proof (linkable_not_slash _ Hl) as Hs'.
  change (chunk_link id ts) with ("/" +:+ join "/" ("ui" :: ["chunk"; QueryEscape id; itoa ts])).
  apply (dispatch_web static_dir "GET" _ _ _ (MkRegistered (parsePattern "GET /ui/chunk/{id}/{ts}") WChunkDetail) [id; itoa ts]);
    [by left| |done| |done..].
  - split; [done|]. by repeat constructor.
  - cbn [fmap list_fmap]. rewrite Hu, Hu'. apply tree_match_of. eapply match_literal; [vm_compute; reflexivity|].
    eapply match_literal; [vm_compute; reflexivity|]. do 2 (apply match_wildcard; [done|]). done.
Qed.

Lemma dispatch_navigation static_dir path h : (path, h) ∈ navigation ->
  dispatch true static_dir "GET" path = Serve (WebHandler h) [].
Proof.
  intros Hn. assert (Forall (fun '(path, h) => dispatch true "" "GET" path = Serve (WebHandler h) []) navigation) as Hf
    by (repeat constructor).
  rewrite Forall_forall in Hf. exact (Hf _ Hn).
Qed.

Section links.
Context `{UnicodeTables} `{Rows.LocalZone} `{Engine} `{SortSlice} {C : Type} `{!Control C}.
Context (error_text : query_error -> string) (a : App) (static_dir : string) (view : option (Z -> Api.AlarmView)).
Context (getwd : option string) (stat : string -> option bool) (read_file : string -> option string).

(** C24. The links of the dashboard arrive.  With the dashboard on, following
    the link to a stream, a call or a chunk runs the page of exactly that
    stream, call or chunk, and the navigation its six pages, whatever the rest of
    the server is configured to do; none of them changes the database.  The id
    may hold any bytes that have to be escaped, slashes included - it is a name
    without a space that is not a lone dot, two dots or a slash. *)
Theorem dashboard_links_arrive id ts r t (control : option C) w (Hid : linkable id) (Hts : in_int64 ts) :
  let click path := serve error_text a true static_dir view getwd stat read_file (MkHttpRequest "GET" path r) t control w in
  click (stream_link id) = (answered AStream (streamDetailPage error_text a r id), control, w) /\
  click (call_link id) = (answered ACall (sipCallDetailPage error_text a r id), control, w) /\
  click (chunk_link id ts) = (answered AChunk (chunkDetailPage error_text a r id (itoa ts)), control, w) /\
  Forall (fun '(path, h) => click path = run_web error_text a view h [] r t control w /\ (click path).2 = w) navigation.
Proof.
  intros click. unfold click, serve. cbn [req_method req_path req].
  assert (dispatch true static_dir "GET" (stream_link id) = Serve (WebHandler WStreamDetail) [("id", id)]) as ->
    by (apply (dispatch_detail static_dir "stream"); [by left|done]).
  assert (dispatch true static_dir "GET" (call_link id) = Serve (WebHandler WSipCallDetail) [("id", id)]) as ->
    by (apply (dispatch_detail static_dir "sip-call"); [by right; left|done]).
  rewrite dispatch_chunk by done. split_and!; [done..|].
  apply Forall_forall. intros [path h] Hn. rewrite (dispatch_navigation static_dir path h Hn). split; [done|].
  apply run_web_reads. repeat (apply elem_of_cons in Hn as [[= _ ->]|Hn]; [done|]). by apply elem_of_nil in Hn.
Qed.
End links.

(** * The properties at concrete inputs *)

#[local] Existing Instance ascii_tables.
#[local] Existing Instance utc_dashboard.
#[local] Existing Instance empty_database.
#[local] Existing Instance sample_control.
#[local] Instance insertion_sort_slice : SortSlice := fun A less l => StableSort.stable_sort less l.

Definition sample_request (path query : string) : request := MkRequest "" "" "" path query [].

Definition click (path : string) (engine : sample_engine) : answer * option sample_engine * Writer.writer :=
  serve (fun _ => "") dashboard true "" None None (fun _ => None) (fun _ => None)
    (MkHttpRequest "GET" path (sample_request path "pattern=sip")) (MkClock 0 0 0) (Some engine) (WriterInv.fresh_writer 0 [] []).

Lemma dashboard_links_arrive_witness :
  let engine := MkEngine true ["sip:a"] in
  stream_link "10.0.0.1:5060/a?b" = "/ui/stream/10.0.0.1%3A5060%2Fa%3Fb" /\
  click "/ui/stream/10.0.0.1%3A5060%2Fa%3Fb" engine =
    (answered AStream (streamDetailPage (fun _ => "") dashboard (sample_request "/ui/stream/10.0.0.1%3A5060%2Fa%3Fb" "pattern=sip") "10.0.0.1:5060/a?b"),
     Some engine, WriterInv.fresh_writer 0 [] []).
Proof.
  intros engine. split; [reflexivity|].
  change "/ui/stream/10.0.0.1%3A5060%2Fa%3Fb" with (stream_link "10.0.0.1:5060/a?b"). unfold click.
  assert (linkable "10.0.0.1:5060/a?b") as Hid by (apply (bool_decide_eq_true_1 (linkable _)); vm_compute; reflexivity).
  assert (in_int64 0) as Hts by (unfold in_int64, min_int64, max_int64; lia).
  exact (proj1 (dashboard_links_arrive (fun _ => "") dashboard "" None None (fun _ => None) (fun _ => None) "10.0.0.1:5060/a?b" 0
    (sample_request (stream_link "10.0.0.1:5060/a?b") "pattern=sip") (MkClock 0 0 0) (Some engine) (WriterInv.fresh_writer 0 [] [])
    Hid Hts)).
Defined.

Lemma only_track_routes_write_witness :
  let engine := MkEngine true ["sip:a"] in
  (exists c, (click "/track/add" engine).1.2 = Some c /\ engine_list c = ["sip:a"; "sip"]) /\
  exists route, route ∈ track_writes ++ track_reads /\
    asks_for (MkHttpRequest "GET" "/track/add" (sample_request "/track/add" "pattern=sip")) route.
Proof.
  intros engine. split.
  - eexists. split; vm_compute; reflexivity.
  - apply (only_track_routes_write (fun _ => "") dashboard true "" None None (fun _ => None) (fun _ => None)
      (MkHttpRequest "GET" "/track/add" (sample_request "/track/add" "pattern=sip")) (MkClock 0 0 0) (Some engine)
      (WriterInv.fresh_writer 0 [] [])).
    intros E. apply (f_equal (fun o => engine_list <$> o)) in E. vm_compute in E. discriminate.
Defined.

(** A space in an id becomes a plus, which a path does not read back: the link
    asks for another id.  So do the ids the path itself uses. *)
Example space_in_link : dispatch true "" "GET" (stream_link "a b") = Serve (WebHandler WStreamDetail) [("id", "a+b")].
Proof. vm_compute. reflexivity. Qed.
Example dots_in_link : dispatch true "" "GET" (stream_link "..") = MovedTo "/ui/".
Proof. vm_compute. reflexivity. Qed.
Example slash_link : dispatch true "" "GET" (stream_link "/") = NotFound.
Proof. vm_compute. reflexivity. Qed.
(** A wrong method, a missing slash and a doubled one. *)
Example post_summary : dispatch true "" "POST" "/summary" = NotAllowed ["GET"; "HEAD"].
Proof. vm_compute. reflexivity. Qed.
Example ui_without_slash : dispatch true "" "GET" "/ui" = MovedTo "/ui/".
Proof. vm_compute. reflexivity. Qed.
Example doubled_slash : dispatch true "" "GET" "/ui//track" = MovedTo "/ui/track".
Proof. vm_compute. reflexivity. Qed.
