(* ===== verification/Daemon.v ===== *)
(** The process ([cmd/vq-db/main.go], [run]): the command line over the
    configuration, logging, the order in which the parts of the daemon are
    brought up and taken down, and the exit code.

    A run is the list of what it does to the outside, in order.  The parts
    themselves are in the other files: [Assembly] has which settings each gets,
    [Subscriber], [Workers] and [Notify] their goroutines.

    The stop calls differ in what they wait for, and the model keeps them apart.
    Those of the alarm engine, the notifiers, the control client and the database
    return when the part has ended; that of the bus waits two seconds and the
    server's [Shutdown] five, whether the part has ended by then is up to the
    outside; those of the cleanup and of the track sync only close a channel, so
    these may still be in a pass when [run] returns and the process exits. *)

From S2P Require Import Prelude GoFloat GoStrings Config Assembly.
From S2P Require Dsn Pvqa Cleanup.

(** * The command line *)

Record flags := MkFlags { fl_config : string; fl_host : string; fl_log_level : string }.

Definition set_host (host : string) (c : Config) : Config :=
  if String.eqb host "" then c else
  MkConfig (ZeroMQPort c) (ZeroMQControlPort c) (TrackResyncIntervalS c) (GhostStreamTimeoutS c) (AgentID c) (AgentName c) host
    (DashboardPort c) (DashboardRoot c) (MaxStreams c) (GoodMosThreshold c) (SilenceRatioThreshold c) (SevanaMos c) (PvqaConfig c)
    (DBEngine c) (DBConnection c) (RecordsLifetimeS c) (AudioLifetimeS c) (CSVPath c) (RecordsLimit c) (StoreSipFilter c) (Alarms c)
    (LogLevel c) (LogFile c) (LogConsole c) (Pidfile c).
Definition set_log_level (level : string) (c : Config) : Config :=
  if String.eqb level "" then c else
  MkConfig (ZeroMQPort c) (ZeroMQControlPort c) (TrackResyncIntervalS c) (GhostStreamTimeoutS c) (AgentID c) (AgentName c)
    (DashboardHost c) (DashboardPort c) (DashboardRoot c) (MaxStreams c) (GoodMosThreshold c) (SilenceRatioThreshold c) (SevanaMos c)
    (PvqaConfig c) (DBEngine c) (DBConnection c) (RecordsLifetimeS c) (AudioLifetimeS c) (CSVPath c) (RecordsLimit c)
    (StoreSipFilter c) (Alarms c) level (LogFile c) (LogConsole c) (Pidfile c).
Definition with_flags (fl : flags) (c : Config) : Config := set_log_level (fl_log_level fl) (set_host (fl_host fl) c).

(** * Logging *)

(** [slog]'s levels. *)
Definition LevelDebug : Z := -4.
Definition LevelInfo : Z := 0.
Definition LevelWarn : Z := 4.
Definition LevelError : Z := 8.

Definition logLevels : list (string * Z) :=
  [("critical", LevelError); ("error", LevelError); ("warning", LevelWarn); ("info", LevelInfo); ("debug", LevelDebug);
   ("media", LevelDebug)].

(** * Parts *)

Inductive part :=
| Database (dsn : string)
| ControlClient (port : Z)
| CommandNotifier
| WebhookNotifier
| BusSubscriber (port : Z)
| CleanupWorker (recordsS audioS : Z)
| TrackSync (everyS : Z)
| AlarmEngine
| HttpServer (addr : string).

Inductive event :=
| Logging (level : Z) (file : string)   (** [file] empty: the standard error *)
| WritePidfile (path : string)
| SetThresholds (m : Pvqa.Thresholds)
| Bootstrapped                          (** the schema is up to date *)
| RestorePatterns                       (** the stored track list goes to the engine *)
| Up (p : part)
| Stopped (p : part)                    (** a stop call that saw the part end *)
| Asked (p : part).                     (** one that did not wait, or gave up *)

(** [net.JoinHostPort]. *)
Definition JoinHostPort (host port : string) : string :=
  if contains_byte ":" host || contains_byte "%" host then "[" +:+ host +:+ "]:" +:+ port else host +:+ ":" +:+ port.

Section run.
Context `{UnicodeTables}.
Context (read_file : string -> option string) (unmarshal_yaml : string -> option yaml)
  (unmarshal_detectors : string -> option (list (list (string * yaml)))).
(** Whether the log file opens, the database connects, its schema can be
    brought up to date, and the bus goroutine starts; whether that goroutine ends
    within the two seconds of its [Stop], and the server within the five of its
    [Shutdown]. *)
Context (opens : string -> bool) (connects : string -> bool) (bootstraps : string -> bool) (subscribes : bool).
Context (bus_ends server_drains : bool).

Definition configureLogging (cfg : Config) : event :=
  Logging (default LevelInfo (mlookup (LogLevel cfg) logLevels)) (if opens (LogFile cfg) then LogFile cfg else "").

Definition writePidfile (path : string) : list event := if String.eqb path "" then [] else [WritePidfile path].

Definition loadDetectorThresholds (path : string) : list event :=
  if String.eqb path "" then []
  else match LoadDetectorThresholds read_file unmarshal_detectors path with
  | Ok m => [SetThresholds m]
  | Err _ => []
  end.

(** The parts that depend on the settings. *)
Definition cleanup_part (cfg : Config) : list part :=
  if (0 <? RecordsLifetimeS cfg) || (0 <? AudioLifetimeS cfg)
  then [CleanupWorker (RecordsLifetimeS cfg) (AudioLifetimeS cfg)] else [].
Definition alarms_part (ps : list part) (cfg : Config) : list part :=
  match buildAlarms cfg with Some _ => ps | None => [] end.

(** The stop call of a part: [Subscriber.Stop], [CleanupWorker.Stop],
    [TrackSyncWorker.Stop], [Engine.Stop], [CommandNotifier.Close],
    [WebhookNotifier.Close], [ControlClient.Close], [http.Server.Shutdown] and
    [sql.DB.Close]. *)
Definition sees_end (p : part) : bool :=
  match p with
  | BusSubscriber _ => bus_ends
  | HttpServer _ => server_drains
  | CleanupWorker _ _ | TrackSync _ => false
  | AlarmEngine | CommandNotifier | WebhookNotifier | ControlClient _ | Database _ => true
  end.
Definition stop (p : part) : event := if sees_end p then Stopped p else Asked p.

(** From the start of the workers to the end of the shutdown. *)
Definition serve_until_stopped (cfg : Config) : list event :=
  let control := ControlClient (ZeroMQControlPort cfg) in
  let bus := BusSubscriber (ZeroMQPort cfg) in
  let sync := TrackSync (TrackResyncIntervalS cfg) in
  let server := HttpServer (JoinHostPort (DashboardHost cfg) (itoa (DashboardPort cfg))) in
  [Up bus] ++ (Up <$> cleanup_part cfg) ++ [RestorePatterns; Up sync] ++ (Up <$> alarms_part [AlarmEngine] cfg) ++ [Up server] ++
  (* a signal, or an error of the server *)
  [stop bus] ++ (stop <$> cleanup_part cfg) ++ [stop sync] ++
  (stop <$> alarms_part [AlarmEngine; CommandNotifier; WebhookNotifier] cfg) ++ [stop control; stop server].

(** From the open database on, with its deferred [Close].  The control client
    exists even when it could not connect. *)
Definition run_with_database (cfg : Config) (dsn : string) : Z * list event :=
  let db := Database dsn in
  if negb (bootstraps dsn) then (1, [Up db; stop db])
  else
    let built := [Up db; Bootstrapped; Up (ControlClient (ZeroMQControlPort cfg))] ++ 
      (Up <$> alarms_part [CommandNotifier; WebhookNotifier] cfg) in
    if negb subscribes then (1, built ++ [stop db]) else (0, built ++ serve_until_stopped cfg ++ [stop db]).

Definition run (fl : flags) : Z * list event :=
  if String.eqb (fl_config fl) "" then (2, [])
  else match Load read_file unmarshal_yaml (fl_config fl) with
  | Err _ => (1, [])
  | Ok cfg =>
      let cfg := with_flags fl cfg in
      let setup := configureLogging cfg :: writePidfile (Pidfile cfg) ++ loadDetectorThresholds (PvqaConfig cfg) in
      if negb (HasDatabase cfg) then (1, setup)
      else match Dsn.Open (DBEngine cfg) (DBConnection cfg) with
      | Ok (dsn, _) =>
          if connects dsn then let '(code, did) := run_with_database cfg dsn in (code, setup ++ did) else (1, setup)
      | Err _ => (1, setup)
      end
  end.

End run.

(** * What is up when *)

(** There is at most one part of a kind. *)
Definition kind (p : part) : nat :=
  match p with
  | Database _ => 0 | ControlClient _ => 1 | CommandNotifier => 2 | WebhookNotifier => 3 | BusSubscriber _ => 4
  | CleanupWorker _ _ => 5 | TrackSync _ => 6 | AlarmEngine => 7 | HttpServer _ => 8
  end.
Definition same_kind (p q : part) : bool := (kind p =? kind q)%nat.

(** What is there at a moment: the parts that work, those that were asked to stop
    and may still be at work, and whether the schema is up to date. *)
Record moment := MkMoment { schema : bool; working : list part; leaving : list part }.

Definition works (k : nat) (m : moment) : bool := existsb (fun q => (kind q =? k)%nat) (working m).
Definition gone (k : nat) (m : moment) : bool :=
  negb (existsb (fun q => (kind q =? k)%nat) (working m ++ leaving m)).

(** A part starts when what it uses is there: the workers use the database with
    its schema, the track sync and the server the control client, the alarm
    engine the notifiers. *)
Definition may_start (m : moment) (p : part) : bool :=
  gone (kind p) m &&
  match p with
  | Database _ => bool_decide (length (working m ++ leaving m) = 0%nat)
  | ControlClient _ | CommandNotifier | WebhookNotifier => true
  | BusSubscriber _ | CleanupWorker _ _ => schema m && works 0 m
  | TrackSync _ | HttpServer _ => schema m && works 0 m && works 1 m
  | AlarmEngine => schema m && works 0 m && works 2 m && works 3 m
  end.

(** A part is stopped once, and after those that use it: the bus before anything
    it feeds; the channels of the notifiers are closed only when the engine, which
    sends on them, has ended; the control client after the track sync, and the
    database after every part that uses it, has been asked to stop.  (The server
    is asked last: a request for the track list that still comes in opens the
    control socket anew.) *)
Definition may_stop (m : moment) (p : part) : bool :=
  works (kind p) m &&
  match p with
  | BusSubscriber _ => true
  | CleanupWorker _ _ | TrackSync _ | AlarmEngine | HttpServer _ => negb (works 4 m)
  | CommandNotifier | WebhookNotifier => negb (works 4 m) && gone 7 m
  | ControlClient _ => negb (works 4 m) && negb (works 6 m)
  | Database _ => negb (existsb (fun k => works k m) [4; 5; 6; 7; 8]%nat)
  end.

Definition without (p : part) (l : list part) : list part := List.filter (fun q => negb (same_kind p q)) l.

(** The moment after an event, if the event may happen. *)
Definition happens (m : moment) (e : event) : option moment :=
  match e with
  | Logging _ _ | WritePidfile _ | SetThresholds _ => Some m
  | Up p => if may_start m p then Some (MkMoment (schema m) (p :: working m) (leaving m)) else None
  | Stopped p => if may_stop m p then Some (MkMoment (schema m) (without p (working m)) (leaving m)) else None
  | Asked p => if may_stop m p then Some (MkMoment (schema m) (without p (working m)) (p :: leaving m)) else None
  | Bootstrapped => if works 0 m && negb (schema m) then Some (MkMoment true (working m) (leaving m)) else None
  | RestorePatterns => if schema m && works 0 m && works 1 m && gone 6 m then Some m else None
  end.

Fixpoint conduct (m : moment) (did : list event) : option moment :=
  match did with
  | [] => Some m
  | e :: did => match happens m e with Some m => conduct m did | None => None end
  end.

Definition nothing : moment := MkMoment false [] [].

(** Whether a part of the kind has been up. *)
Definition has_been_up (did : list event) (k : nat) : bool :=
  existsb (fun e => match e with Up p => (kind p =? k)%nat | _ => false end) did.

(** Events that come before any part. *)
Definition preparation (e : event) : bool := match e with Logging _ _ | WritePidfile _ | SetThresholds _ => true | _ => false end.

Lemma conduct_preparation m setup did : forallb preparation setup = true ->
  conduct m (setup ++ did) = conduct m did.
Proof. induction setup as [|e setup IH]; [done|]. cbn. intros [He Hs]%andb_true_iff. destruct e; try done; by apply IH. Qed.

Section conduct.
Context `{UnicodeTables}.
Context (read_file : string -> option string) (unmarshal_yaml : string -> option yaml)
  (unmarshal_detectors : string -> option (list (list (string * yaml)))).
Context (opens connects bootstraps : string -> bool) (subscribes bus_ends server_drains : bool).

(** What is left at the exit: with code 0 the parts whose stop call did not see
    their end; otherwise at most the control client and the notifiers. *)
Definition left_ok (code : Z) (m : moment) : Prop :=
  if code =? 0
  then working m = [] /\ Forall (fun p => sees_end bus_ends server_drains p = false) (leaving m)
  else leaving m = [] /\ Forall (fun p => kind p ∈ [1; 2; 3]%nat) (working m).

Lemma run_with_database_conduct cfg dsn :
  let '(code, did) := run_with_database bootstraps subscribes bus_ends server_drains cfg dsn in
  exists m, conduct nothing did = Some m /\ left_ok code m /\ code ∈ [0; 1] /\
    (code = 0 -> forallb (has_been_up did) [0; 1; 4; 6; 8]%nat = true).
Proof.
  unfold run_with_database, serve_until_stopped, cleanup_part, alarms_part, stop, left_ok.
  generalize (JoinHostPort (DashboardHost cfg) (itoa (DashboardPort cfg))) as addr. intros addr.
  destruct (bootstraps dsn), subscribes, (buildAlarms cfg), ((0 <? _) || _), bus_ends, server_drains; cbn;
    (eexists; split; [lazy; reflexivity|]; split; [split; [reflexivity|repeat constructor]|split; [repeat constructor|done]]).
Qed.

(** C27. The conduct of the daemon.  Whatever the command line, the configuration
    and the outside say, [run] brings nothing up twice and nothing before what it
    uses, and takes down in order: the bus is told to stop before anything it
    feeds, the notifiers' channels are closed only when the engine that sends on
    them has ended, the control client after the track sync was told to stop,
    and the database after every part that writes to it was.  With exit code 0 the
    database, the control client, the bus, the track sync and the server have
    been up and every part has been told to stop; only the cleanup and the track
    sync, whose [Stop] does not wait, and the bus and the server, if they did not
    end in the time they are given, may still be at work.  On a failure at most the
    control client and the alarm notifiers are left, never the database; and the
    exit code is 2 exactly when there is no configuration file to read. *)
Theorem run_conduct fl :
  let '(code, did) := run read_file unmarshal_yaml unmarshal_detectors opens connects bootstraps subscribes
                        bus_ends server_drains fl in
  exists m, conduct nothing did = Some m /\ left_ok code m /\
    (code = 0 -> forallb (has_been_up did) [0; 1; 4; 6; 8]%nat = true) /\
    code ∈ [0; 1; 2] /\ (code = 2 <-> fl_config fl = "").
Proof.
  assert (forall code, code <> 0 -> left_ok code nothing) as Hnone.
  { intros code Hc. unfold left_ok. destruct (Z.eqb_spec code 0); [done|]. by split. }
  unfold run. destruct (String.eqb_spec (fl_config fl) "") as [->|Hne].
  { exists nothing. split; [done|]. split; [by apply Hnone|]. split; [done|]. split; [set_solver|done]. }
  assert (forall setup, forallb preparation setup = true -> exists m, conduct nothing setup = Some m /\ left_ok 1 m /\
    (1 = 0 -> forallb (has_been_up setup) [0; 1; 4; 6; 8]%nat = true) /\
    1 ∈ [0; 1; 2] /\ (1 = 2 <-> fl_config fl = "")) as Hfail.
  { intros setup Hs. exists nothing. rewrite <- (app_nil_r setup), conduct_preparation by done. split; [done|].
    split; [by apply Hnone|]. split; [done|]. split; [set_solver|done]. }
  destruct (Load _ _ _) as [cfg|e]; [|by apply Hfail].
  cbn zeta. set (setup := configureLogging _ _ :: _).
  assert (forallb preparation setup = true) as Hs.
  { unfold setup, writePidfile, loadDetectorThresholds. cbn. by repeat case_match. }
  destruct (negb (HasDatabase _)); [by apply Hfail|].
  destruct (Dsn.Open _ _) as [[dsn mem]|e]; [|by apply Hfail]. destruct (connects dsn); [|by apply Hfail].
  pose proof (run_with_database_conduct (with_flags fl cfg) dsn) as Hr.
  destruct (run_with_database _ _ _ _ _ _) as [code did]. destruct Hr as (m & Hm & Hl & Hc & Hup).
  exists m. rewrite conduct_preparation by done. split; [done|]. split; [done|]. split.
  { intros Hz. apply Hup in Hz. rewrite !forallb_forall in Hz |- *. intros k Hk%Hz. unfold has_been_up in *.
    by rewrite existsb_app, Hk, orb_true_r. }
  rewrite !elem_of_cons, elem_of_nil in *. split; [tauto|]. split; [|done]. intros ->. lia.
Qed.
End conduct.

(** * At concrete inputs *)

#[local] Existing Instance ascii_tables.

(** A configuration with a database, an alarm and a lifetime; and the same when
    the bus does not start. *)
Definition sample_document : yaml :=
  YMap [("database", YMap [("engine", YStr "sqlite3"); ("connection", YStr "db=/var/vq.sqlite"); ("records-lifetime", YStr "30d")]);
        ("dashboard", YMap [("port", YInt 8080)])].
Definition sample_run (subscribes bus_ends : bool) (fl : flags) : Z * list event :=
  run (fun _ => Some "") (fun _ => Some sample_document) (fun _ => None) (fun _ => false) (fun _ => true) (fun _ => true)
    subscribes bus_ends true fl.

(** The bus does not end in time; and a bus that did not start. *)
Lemma run_conduct_witness :
  let fl := MkFlags "vq.cfg" "::1" "debug" in
  (sample_run true false fl).1 = 0 /\ (sample_run true false fl).2 !! 0%nat = Some (Logging LevelDebug "") /\
  (sample_run true false fl).2 !! 5%nat = Some (Up (CleanupWorker 2592000 0)) /\
  (sample_run true false fl).2 !! 8%nat = Some (Up (HttpServer "[::1]:8080")) /\
  (exists m, conduct nothing (sample_run true false fl).2 = Some m /\ working m = [] /\
     kind <$> leaving m = [6; 5; 4]%nat /\ Forall (fun p => sees_end false true p = false) (leaving m)) /\
  (working <$> conduct nothing (sample_run false false fl).2) = Some [ControlClient 9127].
Proof.
  intros fl. pose proof (run_conduct (fun _ => Some "") (fun _ => Some sample_document) (fun _ => None) (fun _ => false) (fun _ => true)
    (fun _ => true) true false true fl) as H.
  change (run _ _ _ _ _ _ true false true fl) with (sample_run true false fl) in H.
  assert ((sample_run true false fl).1 = 0) as E by (vm_compute; reflexivity).
  destruct (sample_run true false fl) as [code did] eqn:Er. cbn [fst snd] in *. destruct H as (m & Hm & Hl & _). rewrite E in Hl.
  destruct Hl as [Hw Hl].
  split; [exact E|]. replace did with (sample_run true false fl).2 in Hm |- * by (by rewrite Er).
  do 3 (split; [vm_compute; reflexivity|]). split; [|vm_compute; reflexivity].
  exists m. split; [exact Hm|]. split; [exact Hw|]. split; [|exact Hl]. apply (inj Some).
  change (Some (kind <$> leaving m)) with ((fun m => kind <$> leaving m) <$> Some m). rewrite <- Hm. vm_compute. reflexivity.
Defined.
