(* ===== verification/Bus.v ===== *)
(** From the socket to the tables: the subscriber's goroutines ([Subscriber])
    with the pipeline and the ghost sweeper ([Ingest]) as their callbacks, as
    [cmd/vq-db/main.go] connects them.

    The protobuf parser is the parameter [decode]; [clock] gives the time, in
    nanoseconds, at the n-th callback. *)

From S2P Require Import Prelude GoFloat GoStrings Model Store Writer WriterInv Registry Ingest Subscriber.

Section bus.
Context `{UnicodeTables} (new_id : list Z -> Z).
Context (new_id_fresh : forall l, new_id l ∉ l).
Context {S : Type} (onInstanceStats : option (InstanceStatistics -> S -> S)).
Context (decode : string -> option (option domain_event)) (clock : nat -> Z).

Abbreviation daemon := (Ingest.daemon (S := S)).

(** [pipeline.OnBytes], and the number of callbacks so far. *)
Definition bus_message (frame : string) (a : daemon * nat) : daemon * nat * bool :=
  let '(d, n) := a in
  let p := OnBytes new_id onInstanceStats decode (clock n / 1000000) frame
             (MkPipeline (d_writer d) (Some (d_registry d)) (d_stats d)) in
  (MkDaemon (p_writer p) (default (d_registry d) (p_registry p)) (p_stats p) (d_sweeper d), Datatypes.S n, false).

(** [sweeper.Tick], when there is a sweeper. *)
Definition bus_idle (a : daemon * nat) : daemon * nat * bool :=
  (run_step new_id onInstanceStats a.1 (Idle (clock a.2)), Datatypes.S a.2, false).
Definition onIdle (g : option GhostSweeper) : option (daemon * nat -> daemon * nat * bool) :=
  match g with Some _ => Some bus_idle | None => None end.

(** The steps of the bus goroutine that the callbacks are. *)
Definition step_of (g : option GhostSweeper) (n : nat) (c : call) : list bus_step * nat :=
  match c with
  | Message f =>
      (match decode f with Some (Some e) => [Deliver (clock n / 1000000) e] | _ => [] end, Datatypes.S n)
  | IdleCall => match g with Some _ => ([Idle (clock n)], Datatypes.S n) | None => ([], n) end
  end.
Fixpoint steps_of (g : option GhostSweeper) (n : nat) (cs : list call) : list bus_step :=
  match cs with
  | [] => []
  | c :: cs => let '(s, n) := step_of g n c in s ++ steps_of g n cs
  end.

(** * The callbacks are steps *)

Lemma bus_message_step frame d n :
  bus_message frame (d, n) =
  (match decode frame with Some (Some e) => run_step new_id onInstanceStats d (Deliver (clock n / 1000000) e) | _ => d end,
   Datatypes.S n, false).
Proof using. unfold bus_message, OnBytes. destruct d as [w r s g]. by destruct (decode frame) as [[e|]|]. Qed.

Lemma apply_call_steps g c d n :
  apply_call bus_message (onIdle g) c (d, n) = (run_bus new_id onInstanceStats (step_of g n c).1 d, (step_of g n c).2).
Proof using.
  destruct c as [f|].
  - unfold apply_call. rewrite bus_message_step. cbn. by destruct (decode f) as [[e|]|].
  - by destruct g.
Qed.

Lemma calls_are_steps g cs d n :
  (fold_left (fun a c => apply_call bus_message (onIdle g) c a) cs (d, n)).1 = run_bus new_id onInstanceStats (steps_of g n cs) d.
Proof using.
  revert d n. induction cs as [|c cs IH]; intros d n; [done|]. cbn [fold_left steps_of]. rewrite apply_call_steps.
  destruct (step_of g n c) as [s n']. cbn [fst snd]. rewrite IH. unfold run_bus. by rewrite fold_left_app.
Qed.

Lemma message_in_steps g cs n f e : f ∈ omap frame_of cs -> decode f = Some (Some e) ->
  exists now, Deliver now e ∈ steps_of g n cs.
Proof using.
  intros Hf He. revert n Hf. induction cs as [|c cs IH]; intros n; [intros Hf; by apply elem_of_nil in Hf|].
  rewrite omap_unfold. cbn [steps_of]. destruct (step_of g n c) as [s n'] eqn:E. destruct c as [f'|]; cbn [frame_of option_list app].
  - intros [->|Hf]%elem_of_cons.
    + cbn in E. rewrite He in E. injection E as <- _. eexists. by left.
    + destruct (IH n' Hf) as [now Hn]. exists now. apply elem_of_app. by right.
  - intros Hf. destruct (IH n' Hf) as [now Hn]. exists now. apply elem_of_app. by right.
Qed.

(** C3. From the socket to the statistics table, over every interleaving of the
    subscriber's goroutines, its callers and the socket library, with any
    messages.  The daemon's state is that of the bus goroutine's steps for the
    callbacks made - so registry, sweeper and tables follow the abstract
    machine - and, on a database that answers, without a SIP filter or a records
    limit, the statistics table holds exactly the finals the machine yields.  In
    particular every full report given to the pipeline has its row, under the
    stream row of its own stream; and the pipeline is given the first frames of
    the messages received, in order, but for the one that is outstanding or was
    dropped at shutdown. *)
Theorem received_reports_stored acts b agent name limit stats g (Hlimit : limit <= 0)
    (Hrun : run bus_message (onIdle g) acts (NewSubscriber (fresh_daemon [] agent name limit [] stats g, 0%nat)) = Some b) :
  let d := (app b).1 in
  let t := tables (db (d_writer d)) in
  let machine := spec_run (steps_of g 0 (calls b)) (MkSpec [] None g) in
  spec_of d = machine.1 /\ writer_ok (d_writer d) /\ Forall2 (stored t) (rtpmon_statistics t) machine.2 /\
  (forall f r, f ∈ frames_given b -> decode f = Some (Some (EReport r)) -> FullReport r = true ->
     exists row, row ∈ rtpmon_statistics t /\ stored t row r) /\
  exists rest, first_frames (received b) = frames_given b ++ first_frames rest /\ (length rest <= 1)%nat /\
    (rest = pending b \/ cancelled b = true).
Proof using new_id_fresh.
  pose proof (run_inv bus_message (onIdle g) _ acts _ _ (init_inv _ _ _) Hrun) as Hb.
  pose proof (inv_app _ _ _ _ Hb) as Ha. apply (f_equal fst) in Ha. rewrite calls_are_steps in Ha. cbn zeta. rewrite Ha.
  set (steps := steps_of g 0 (calls b)).
  destruct (run_bus_spec new_id onInstanceStats steps (fresh_daemon [] agent name limit [] stats g)) as (_ & Hs & Hw); [apply wf_new|].
  split; [exact Hs|]. split; [rewrite Hw; by apply run_ops_keeps, new_writer_ok; [done|apply no_trim_no_cleanup, bus_ops_finals]|].
  pose proof (finals_stored new_id new_id_fresh onInstanceStats steps agent name limit stats g Hlimit) as Hf. split; [exact Hf|].
  split; [|by apply (undelivered bus_message (onIdle g) (fresh_daemon [] agent name limit [] stats g, 0%nat))].
  intros f r Hg Hd Hfull. destruct (message_in_steps g (calls b) 0 f (EReport r) Hg Hd) as [now Hn].
  pose proof (full_report_final now r steps (MkSpec [] None g) Hn Hfull) as Hm.
  apply list_elem_of_lookup in Hm as [i Hi]. destruct (Forall2_lookup_r _ _ _ _ _ Hf Hi) as (row & Hrow & Hs').
  exists row. split; [by eapply list_elem_of_lookup_2|exact Hs'].
Qed.
End bus.

(** * The property at a concrete input *)

#[local] Existing Instance ascii_tables.

Definition sample_decode (frame : string) : option (option domain_event) :=
  if String.eqb frame "report" then Some (Some (EReport (sample_report (sample_id 1 "a") 1000 2000 50)))
  else if String.eqb frame "final" then Some (Some (EReport (call_report 1 "a" "c1" "sip:a" 1000 3000)))
  else if String.eqb frame "other" then Some (Some (EReport (call_report 2 "b" "c2" "sip:b" 1000 3000)))
  else None.

(** A stream that ends across a reconnect, a message that does not parse, and a
    final that is on its way when the daemon stops. *)
Definition sample_acts : list action :=
  [Start; CheckContext; Dialed true; Subscribed true; Received (Some ["report"]); TakeFrames; Received None; SeeRecvErr; Wake;
   CloseAfterPoll; CheckContext; Dialed true; Subscribed true; Received (Some ["?"]); TakeFrames; Received (Some ["final"; "x"]);
   TakeFrames; Tick; Received (Some ["other"]); Stop; SeeDone].

Lemma received_reports_stored_witness :
  exists b, run (bus_message next_rowid None sample_decode (fun n => Z.of_nat n * 1000000000))
    (onIdle next_rowid None (fun n => Z.of_nat n * 1000000000) (Some (NewGhostSweeper 60 0))) sample_acts
    (NewSubscriber (fresh_daemon [] "a" "n" 0 [] tt (Some (NewGhostSweeper 60 0)), 0%nat)) = Some b /\
  pending b = [["other"]] /\ cancelled b = true /\
  exists row, row ∈ rtpmon_statistics (tables (db (d_writer (app b).1))) /\
    stored (tables (db (d_writer (app b).1))) row (call_report 1 "a" "c1" "sip:a" 1000 3000).
Proof.
  destruct (run _ _ sample_acts _) as [b|] eqn:E.
  2: { apply (f_equal (fun o => bool_decide (is_Some (cancelled <$> o)))) in E. vm_compute in E. discriminate. }
  assert (pending b = [["other"]]) as Hp
    by (apply (inj Some); change (Some (pending b)) with (pending <$> Some b); rewrite <- E; vm_compute; reflexivity).
  assert (cancelled b = true) as Hc
    by (apply (inj Some); change (Some (cancelled b)) with (cancelled <$> Some b); rewrite <- E; vm_compute; reflexivity).
  assert (frames_given b = ["report"; "?"; "final"]) as Hf
    by (apply (inj Some); change (Some (frames_given b)) with (frames_given <$> Some b); rewrite <- E; vm_compute; reflexivity).
  exists b. split; [done|]. split; [done|]. split; [done|].
  destruct (received_reports_stored next_rowid next_rowid_fresh None sample_decode (fun n => Z.of_nat n * 1000000000) sample_acts b
    "a" "n" 0 tt (Some (NewGhostSweeper 60 0)) ltac:(lia) E) as (_ & _ & _ & Hs & _).
  apply (Hs "final"); [|reflexivity|reflexivity]. rewrite Hf. right; right; left.
Defined.
